(** * Spatial analytics core of the US Census ACS map

    A shallow embedding of the statistical aggregator, the hotspot
    clusterer, the ring manager, the directional marker navigator and the
    cache / fetch client of the JavaScript sources, with the properties the
    specification states about them.

    Numbers.  JavaScript numbers are IEEE 754 binary64 values.  Geographic
    coordinates, distances and radii are modelled by Rocq's primitive
    binary64 floats, so that [Math.floor (lat / 0.1)], [Math.sqrt] and the
    comparisons with [NaN] and [Infinity] evaluate as they do in the
    browser.  Census statistics (counts, dollar amounts) are integers far
    below 2^53; they are modelled by exact rationals [Q], on which [a - b],
    [(a + b) / 2] and the comparisons are the exact ones.  Counters that are
    only incremented (the weights 0/1/3 summed by the clusterer among them)
    are natural numbers; where the code divides or multiplies them, as for
    the intensity of a hotspot, they are taken as binary64 values and the
    operation is the binary64 one.
    [Math.sin], [Math.cos], [Math.atan2] and [Math.pow] are
    implementation-approximated in ECMAScript: they are a parameter
    ([MathImpl]) of the functions that call them.

    Objects.  A [Map] is the list of its entries in insertion order.  An
    object used as a dictionary of ZIP codes is a finite map ([gmap]); the
    order in which JavaScript enumerates its properties (integer-like keys
    ascending, then the others as created) is not modelled: a loop over
    [Object.entries] takes the entries in the order of [map_to_list]. *)

From Stdlib Require Import ZArith QArith Lqa Floats Bool Ascii String List Permutation Sorted Lia.
From stdpp Require Import gmap strings list.

Set Warnings "-inexact-float".

(* ------------------------------------------------------------------------- *)
(** ** JavaScript values and library functions                                *)
(* ------------------------------------------------------------------------- *)

Module JS.

(** The value read from a property that holds a number, holds [null], or is
    absent ([undefined]). *)
Inductive value (A : Type) : Type :=
| undefined : value A
| null : value A
| number : A -> value A.
Arguments undefined {A}.
Arguments null {A}.
Arguments number {A} _.

(** Reading a property that is either absent or holds a number. *)
Definition read {A : Type} (o : option A) : value A :=
  match o with
  | None => undefined
  | Some x => number x
  end.

(** [ToNumber] on binary64: [undefined] becomes [NaN], [null] becomes [+0]. *)
Definition toNumber (v : value float) : float :=
  match v with
  | undefined => nan
  | null => 0%float
  | number f => f
  end.

(** Truthiness of an exact number: every number but 0. *)
Definition truthyQ (q : Q) : bool := negb (Qeq_bool q 0).

(** Truthiness of a property holding an exact number, [null] or nothing. *)
Definition truthy (o : option Q) : bool :=
  match o with
  | None => false
  | Some q => truthyQ q
  end.

(** Truthiness of a binary64 number: neither a zero nor [NaN]. *)
Definition truthyF (f : float) : bool := negb (is_nan f || is_zero f).

(** [x || 0] on an exact number. *)
Definition orZero (q : Q) : Q := if truthyQ q then q else 0%Q.

Definition Qltb (a b : Q) : bool := negb (Qle_bool b a).

(** The natural number [n] as a binary64 value (exact below 2^53). *)
Definition ofNat (n : nat) : float := PrimFloat.of_uint63 (Uint63.of_Z (Z.of_nat n)).

(** [Math.PI]. *)
Definition PI : float := 0x1.921fb54442d18p+1%float.

(** The Math functions ECMAScript leaves implementation-approximated. *)
Record MathImpl : Type := {
  sin : float -> float;
  cos : float -> float;
  atan2 : float -> float -> float;
  pow : float -> float -> float
}.

(** [Math.abs]. *)
Definition abs (f : float) : float := PrimFloat.abs f.

(** [Math.sqrt]: correctly rounded in IEEE 754, and in ECMAScript. *)
Definition sqrt (f : float) : float := PrimFloat.sqrt f.

(** [Math.max] of two numbers: [NaN] when either is, and [+0] above [-0]. *)
Definition max (a b : float) : float :=
  if is_nan a || is_nan b then nan
  else if (a <? b)%float then b
  else if (b <? a)%float then a
  else if is_zero a && get_sign a then b
  else a.

(** [Math.floor]: the largest integer not above [f]; [NaN], the infinities,
    the zeros and the values that are integers already are returned as they
    are. *)
Definition floor (f : float) : float :=
  match Prim2SF f with
  | S754_finite s m e =>
      if (0 <=? e)%Z then f
      else
        let z := ((if s then Z.neg m else Z.pos m) / 2 ^ (- e))%Z in
        if (z <? 0)%Z then (- PrimFloat.of_uint63 (Uint63.of_Z (- z)))%float
        else PrimFloat.of_uint63 (Uint63.of_Z z)
  | _ => f
  end.

(** [Array.prototype.sort (cmp)] for a comparator returning an exact number:
    a stable insertion sort, [x] going in front of the first element it is
    strictly below.  For a consistent comparator every stable sort returns
    this list. *)
Section Sort.
Context {A : Type} (cmp : A -> A -> Q).

Fixpoint sortInsert (x : A) (l : list A) : list A :=
  match l with
  | [] => [x]
  | y :: l' => if Qltb (cmp x y) 0 then x :: y :: l' else y :: sortInsert x l'
  end.

Definition sort (l : list A) : list A :=
  fold_left (fun acc x => sortInsert x acc) l [].

End Sort.

(** [Array.prototype.slice (0, n)]. *)
Definition slice0 {A : Type} (n : nat) (l : list A) : list A := firstn n l.

(** [array.map ((x, index) => f x index)]. *)
Fixpoint mapi_from {A B : Type} (f : A -> nat -> B) (i : nat) (l : list A) : list B :=
  match l with
  | [] => []
  | x :: l' => f x i :: mapi_from f (S i) l'
  end.

Definition mapi {A B : Type} (f : A -> nat -> B) (l : list A) : list B :=
  mapi_from f 0 l.

(** [array.forEach ((x, index) => ...)] threading the variables the callback
    assigns. *)
Fixpoint forEachi_from {A St : Type} (f : St -> A -> nat -> St) (i : nat) (l : list A)
    (s : St) : St :=
  match l with
  | [] => s
  | x :: l' => forEachi_from f (S i) l' (f s x i)
  end.

Definition forEachi {A St : Type} (f : St -> A -> nat -> St) (l : list A) (s : St) : St :=
  forEachi_from f 0 l s.

(** A [Map]: its entries in insertion order, keys unique.  [set] on a key
    that is present replaces the value where it stands. *)
Section OrderedMap.
Context {K V : Type} (eqb : K -> K -> bool).

Fixpoint mapGet (k : K) (m : list (K * V)) : option V :=
  match m with
  | [] => None
  | (k', v) :: m' => if eqb k k' then Some v else mapGet k m'
  end.

Fixpoint mapSet (k : K) (v : V) (m : list (K * V)) : list (K * V) :=
  match m with
  | [] => [(k, v)]
  | (k', v') :: m' => if eqb k k' then (k, v) :: m' else (k', v') :: mapSet k v m'
  end.

Definition mapDelete (k : K) (m : list (K * V)) : list (K * V) :=
  List.filter (fun kv => negb (eqb k (fst kv))) m.

End OrderedMap.

(** [Math.min] of two numbers: [NaN] when either is, and [-0] below [+0]. *)
Definition min (a b : float) : float :=
  if is_nan a || is_nan b then nan
  else if (a <? b)%float then a
  else if (b <? a)%float then b
  else if is_zero a && get_sign a then a
  else b.

(** [Array.prototype.sort (cmp)] for a comparator returning a binary64
    number: the same insertion sort, a [NaN] from the comparator counting as
    0. *)
Section SortByFloat.
Context {A : Type} (cmp : A -> A -> float).

Fixpoint sortInsertF (x : A) (l : list A) : list A :=
  match l with
  | [] => [x]
  | y :: l' => if (cmp x y <? 0)%float then x :: y :: l' else y :: sortInsertF x l'
  end.

Definition sortF (l : list A) : list A :=
  fold_left (fun acc x => sortInsertF x acc) l [].

End SortByFloat.

(** [string.padStart (n, '0')], on a string of ASCII characters. *)
Definition padStart0 (n : nat) (s : string) : string :=
  (string_of_list_ascii (repeat "0"%char (n - String.length s)) ++ s)%string.

End JS.

(* ------------------------------------------------------------------------- *)
(** ** Data model                                                             *)
(* ------------------------------------------------------------------------- *)

(** [{ lat, lng }]. *)
Module Point.
Record t : Type := make { lat : float; lng : float }.
End Point.

(** The plain marker objects handed to [SpatialUtils]
    ([calculateCircleStatsWithRadius], [calculateAndShowHotspots]). *)
Module Marker.
Record t : Type := make {
  lat : float;
  lng : float;
  hasEducation : bool;
  hasIncome : bool;
  totalHigherEd : Q;
  totalHighIncomeHouseholds : Q;
  medianIncome : option Q;          (* a number, or null / undefined *)
  county : string;
  state : string;
  zip : string
}.
End Marker.

(** [marker.data] of a map marker, as [createMarker] fills it. *)
Module MarkerData.
Record t : Type := make {
  hasEducation : bool;
  hasIncome : bool;
  totalHigherEd : Q;
  totalHighIncomeHouseholds : Q;
  medianIncome : option Q;
  city : string;
  county : string;
  state : string;
  markerType : string
}.
End MarkerData.

(** A Leaflet circle marker of [this.markers]: its position, its [data]
    (absent on a marker that never got one) and its [zip]. *)
Module MapMarker.
Record t : Type := make {
  latlng : Point.t;
  data : option MarkerData.t;
  zip : string
}.
End MapMarker.

(* ------------------------------------------------------------------------- *)
(** ** js/spatialUtils.js : circle statistics                                 *)
(* ------------------------------------------------------------------------- *)

Module SpatialUtils.

Open Scope float_scope.

(** [haversineDistance (p1, p2)], in metres. *)
Definition haversineDistance (M : JS.MathImpl) (p1 p2 : Point.t) : float :=
  let R := 6371000 in
  let phi1 := Point.lat p1 * JS.PI / 180 in
  let phi2 := Point.lat p2 * JS.PI / 180 in
  let dphi := (Point.lat p2 - Point.lat p1) * JS.PI / 180 in
  let dlambda := (Point.lng p2 - Point.lng p1) * JS.PI / 180 in
  let a := JS.sin M (dphi / 2) * JS.sin M (dphi / 2) +
           JS.cos M phi1 * JS.cos M phi2 *
           JS.sin M (dlambda / 2) * JS.sin M (dlambda / 2) in
  let c := 2 * JS.atan2 M (JS.sqrt a) (JS.sqrt (1 - a)) in
  R * c.

(** The [result] object of [calculateCircleStats]. [medianIncome] is a
    property the function adds only when there is a value to report.  The
    two means [meanEducation] and [meanHighIncome], quotients rounded in
    binary64 that only the popup shows, are left out. *)
Record Stats : Type := {
  totalMarkers : nat;
  educationOnly : nat;
  incomeOnly : nat;
  bothCriteria : nat;
  totalEducation : Q;
  totalHighIncome : Q;
  medianIncomes : list Q;
  educationValues : list Q;
  incomeValues : list Q;
  markers : list Marker.t;
  medianIncome : option Q;
  areaSqKm : float;
  radiusKm : float
}.

(** The object literal [result] starts from; the properties assigned after
    the loop are not there yet. *)
Definition emptyStats : Stats :=
  {| totalMarkers := 0; educationOnly := 0; incomeOnly := 0; bothCriteria := 0;
     totalEducation := 0%Q; totalHighIncome := 0%Q;
     medianIncomes := []; educationValues := []; incomeValues := [];
     markers := [];
     medianIncome := None;
     areaSqKm := 0; radiusKm := 0 |}.

(** The median of a sorted, non-empty array, as lines 260-263 take it. *)
Definition medianOfSorted (sorted : list Q) : Q :=
  let mid := (length sorted / 2)%nat in
  if (length sorted mod 2 =? 0)%nat
  then ((nth (mid - 1) sorted 0 + nth mid sorted 0) / 2)%Q
  else nth mid sorted 0%Q.

(** The body of [markers.forEach (marker => ...)]. *)
Definition visit (M : JS.MathImpl) (center : Point.t) (radiusMeters : float)
    (result : Stats) (marker : Marker.t) : Stats :=
  let markerLatLng := Point.make (Marker.lat marker) (Marker.lng marker) in
  let distance := haversineDistance M center markerLatLng in
  if distance <=? radiusMeters then
    let edu := Marker.hasEducation marker in
    let inc := Marker.hasIncome marker in
    let hE := JS.truthyQ (Marker.totalHigherEd marker) in
    let hI := JS.truthyQ (Marker.totalHighIncomeHouseholds marker) in
    {| totalMarkers := S (totalMarkers result);
       markers := markers result ++ [marker];
       bothCriteria :=
         if edu && inc then S (bothCriteria result) else bothCriteria result;
       educationOnly :=
         if edu && inc then educationOnly result
         else if edu then S (educationOnly result) else educationOnly result;
       incomeOnly :=
         if edu && inc then incomeOnly result
         else if edu then incomeOnly result
         else if inc then S (incomeOnly result) else incomeOnly result;
       totalEducation :=
         if hE then (totalEducation result + Marker.totalHigherEd marker)%Q
         else totalEducation result;
       educationValues :=
         if hE then educationValues result ++ [Marker.totalHigherEd marker]
         else educationValues result;
       totalHighIncome :=
         if hI then (totalHighIncome result + Marker.totalHighIncomeHouseholds marker)%Q
         else totalHighIncome result;
       incomeValues :=
         if hI then incomeValues result ++ [Marker.totalHighIncomeHouseholds marker]
         else incomeValues result;
       medianIncomes :=
         match Marker.medianIncome marker with
         | Some q => if JS.truthyQ q then medianIncomes result ++ [q]
                     else medianIncomes result
         | None => medianIncomes result
         end;
       medianIncome := medianIncome result;
       areaSqKm := areaSqKm result;
       radiusKm := radiusKm result |}
  else result.

(** Lines 257-276: what follows the loop. The median is assigned only when
    [medianIncomes] is not empty, after sorting that array in place; then
    the area and the radius in kilometres. *)
Definition finish (M : JS.MathImpl) (radiusMeters : float) (result : Stats) : Stats :=
  let sorted := JS.sort (fun a b => (a - b)%Q) (medianIncomes result) in
  let hasMedian := (0 <? length (medianIncomes result))%nat in
  {| totalMarkers := totalMarkers result;
     educationOnly := educationOnly result;
     incomeOnly := incomeOnly result;
     bothCriteria := bothCriteria result;
     totalEducation := totalEducation result;
     totalHighIncome := totalHighIncome result;
     medianIncomes := if hasMedian then sorted else medianIncomes result;
     educationValues := educationValues result;
     incomeValues := incomeValues result;
     markers := markers result;
     medianIncome := if hasMedian then Some (medianOfSorted sorted) else None;
     areaSqKm := JS.PI * JS.pow M (radiusMeters / 1000) 2;
     radiusKm := radiusMeters / 1000 |}.

(** [calculateCircleStats (markers, center, radiusMeters)]. *)
Definition calculateCircleStats (M : JS.MathImpl) (markers : list Marker.t)
    (center : Point.t) (radiusMeters : float) : Stats :=
  finish M radiusMeters (fold_left (visit M center radiusMeters) markers emptyStats).

(** [calculateMarkerSize (value, type)]: the radius of a marker in pixels. *)
Definition calculateMarkerSize (value : float) (type : string) : float :=
  let scaledValue := JS.sqrt value * 0.15 in
  if String.eqb type "both" then JS.min (JS.max scaledValue 8) 20
  else JS.min (JS.max scaledValue 5) 16.

End SpatialUtils.

(* ------------------------------------------------------------------------- *)
(** ** The ring variant of the visualizer : donut statistics and rings        *)
(* ------------------------------------------------------------------------- *)

Module RingVisualizer.

Open Scope float_scope.

(** The [stats] object of [calculateDonutStats]. *)
Record Stats : Type := {
  totalMarkers : nat;
  educationOnly : nat;
  incomeOnly : nat;
  bothCriteria : nat;
  totalEducation : Q;
  totalHighIncome : Q;
  medianIncomes : list Q;
  medianIncome : option Q
}.

Definition emptyStats : Stats :=
  {| totalMarkers := 0; educationOnly := 0; incomeOnly := 0; bothCriteria := 0;
     totalEducation := 0%Q; totalHighIncome := 0%Q;
     medianIncomes := []; medianIncome := None |}.

(** The body of [this.markers.forEach (marker => ...)]: a marker without
    [data] is skipped, the band is open at [minMeters] and closed at
    [maxMeters]. *)
Definition visit (M : JS.MathImpl) (center : Point.t) (minMeters maxMeters : float)
    (stats : Stats) (marker : MapMarker.t) : Stats :=
  match MapMarker.data marker with
  | None => stats
  | Some data =>
      let distance :=
        SpatialUtils.haversineDistance M
          (Point.make (Point.lat center) (Point.lng center))
          (Point.make (Point.lat (MapMarker.latlng marker))
                      (Point.lng (MapMarker.latlng marker))) in
      if (minMeters <? distance) && (distance <=? maxMeters) then
        let edu := MarkerData.hasEducation data in
        let inc := MarkerData.hasIncome data in
        {| totalMarkers := S (totalMarkers stats);
           bothCriteria :=
             if edu && inc then S (bothCriteria stats) else bothCriteria stats;
           educationOnly :=
             if edu && inc then educationOnly stats
             else if edu then S (educationOnly stats) else educationOnly stats;
           incomeOnly :=
             if edu && inc then incomeOnly stats
             else if edu then incomeOnly stats
             else if inc then S (incomeOnly stats) else incomeOnly stats;
           totalEducation :=
             (totalEducation stats + JS.orZero (MarkerData.totalHigherEd data))%Q;
           totalHighIncome :=
             (totalHighIncome stats
              + JS.orZero (MarkerData.totalHighIncomeHouseholds data))%Q;
           medianIncomes :=
             match MarkerData.medianIncome data with
             | Some q => if JS.truthyQ q then medianIncomes stats ++ [q]
                         else medianIncomes stats
             | None => medianIncomes stats
             end;
           medianIncome := medianIncome stats |}
      else stats
  end.

(** Lines 536-543: the median, assigned only over a non-empty array. *)
Definition finish (stats : Stats) : Stats :=
  let sorted := JS.sort (fun a b => (a - b)%Q) (medianIncomes stats) in
  let hasMedian := (0 <? length (medianIncomes stats))%nat in
  {| totalMarkers := totalMarkers stats;
     educationOnly := educationOnly stats;
     incomeOnly := incomeOnly stats;
     bothCriteria := bothCriteria stats;
     totalEducation := totalEducation stats;
     totalHighIncome := totalHighIncome stats;
     medianIncomes := if hasMedian then sorted else medianIncomes stats;
     medianIncome :=
       if hasMedian then Some (SpatialUtils.medianOfSorted sorted) else None |}.

(** [calculateDonutStats (center, minMeters, maxMeters)], over [this.markers]
    (a Map, visited in insertion order). *)
Definition calculateDonutStats (M : JS.MathImpl) (markers : list MapMarker.t)
    (center : Point.t) (minMeters maxMeters : float) : Stats :=
  finish (fold_left (visit M center minMeters maxMeters) markers emptyStats).

(** [{ inner, middle, outer }]. *)
Record Bands (A : Type) : Type := { inner : A; middle : A; outer : A }.
Arguments inner {A} _.
Arguments middle {A} _.
Arguments outer {A} _.

Record Radii : Type := {
  innerMiles : float; middleMiles : float; outerMiles : float;
  innerMeters : float; middleMeters : float; outerMeters : float
}.

(** The [ringData] object. Its Leaflet layers and the [locations] name lists
    shown in the popup are presentation and are left out. *)
Record Ring : Type := {
  id : Z * nat;                 (* ring_<Date.now()>_<ringCounter> *)
  center : Point.t;
  radii : Radii;
  donutStats : Bands Stats;
  weightedStats : Bands Stats;
  created : Z
}.

(** The part of the visualizer [finishDrawing] reads and writes. *)
Record State : Type := {
  markers : list MapMarker.t;
  isDrawing : bool;
  drawingLock : bool;
  tempCircle : bool;            (* whether a temporary circle exists *)
  startPoint : option Point.t;
  ringCounter : nat;
  rings : list ((Z * nat) * Ring);   (* this.rings, a Map keyed by ring id *)
  ringCreationOrder : list (Z * nat)
}.

Definition idEqb (a b : Z * nat) : bool :=
  (fst a =? fst b)%Z && (snd a =? snd b)%nat.

(** [cancelDrawing ()]. *)
Definition cancelDrawing (st : State) : State :=
  {| markers := markers st; isDrawing := false; drawingLock := false;
     tempCircle := false;
     startPoint := None; ringCounter := ringCounter st; rings := rings st;
     ringCreationOrder := ringCreationOrder st |}.

(** The ring [finishDrawing] builds around [center] at clock reading [now]. *)
Definition buildRing (M : JS.MathImpl) (now : Z) (st : State) (center : Point.t) : Ring :=
  let ringId := (now, ringCounter st) in
  let innerRadiusMiles := 5 in
  let middleRadiusMiles := 10 in
  let outerRadiusMiles := 25 in
  let milesToMeters := 1609.34 in
  let innerRadiusMeters := innerRadiusMiles * milesToMeters in
  let middleRadiusMeters := middleRadiusMiles * milesToMeters in
  let outerRadiusMeters := outerRadiusMiles * milesToMeters in
  let stats := calculateDonutStats M (markers st) center in
  let innerDonutStats := stats 0 innerRadiusMeters in
  let middleDonutStats := stats innerRadiusMeters middleRadiusMeters in
  let outerDonutStats := stats middleRadiusMeters outerRadiusMeters in
  let weightedInnerDonutStats := stats 0 (innerRadiusMiles * 3 * milesToMeters) in
  let weightedMiddleDonutStats :=
    stats (innerRadiusMiles * 3 * milesToMeters) (middleRadiusMiles * 2 * milesToMeters) in
  let weightedOuterDonutStats :=
    stats (middleRadiusMiles * milesToMeters) (outerRadiusMiles * milesToMeters) in
  {| id := ringId;
     center := center;
     radii := {| innerMiles := innerRadiusMiles; middleMiles := middleRadiusMiles;
                 outerMiles := outerRadiusMiles; innerMeters := innerRadiusMeters;
                 middleMeters := middleRadiusMeters; outerMeters := outerRadiusMeters |};
     donutStats := {| inner := innerDonutStats; middle := middleDonutStats;
                      outer := outerDonutStats |};
     weightedStats := {| inner := weightedInnerDonutStats;
                         middle := weightedMiddleDonutStats;
                         outer := weightedOuterDonutStats |};
     created := now |}.

(** [finishDrawing (baseRadiusMeters)]: nothing is created unless a drawing
    is in progress; otherwise the ring is stored and the drawing state is
    reset.  The drawn radius is not used. *)
Definition finishDrawing (M : JS.MathImpl) (now : Z) (baseRadiusMeters : float)
    (st : State) : State * option Ring :=
  match startPoint st with
  | Some center =>
      if isDrawing st && tempCircle st then
        let ringData := buildRing M now st center in
        (cancelDrawing
           {| markers := markers st; isDrawing := isDrawing st;
              drawingLock := drawingLock st;
              tempCircle := tempCircle st; startPoint := startPoint st;
              ringCounter := S (ringCounter st);
              rings := JS.mapSet idEqb (id ringData) ringData (rings st);
              ringCreationOrder := ringCreationOrder st ++ [id ringData] |},
         Some ringData)
      else (cancelDrawing st, None)
  | None => (cancelDrawing st, None)
  end.

(** [recreateRing (ringData)] for a record read back from local storage: the
    saved [donutStats] and [weightedStats] are taken over as they are. *)
Definition recreateRing (saved : Ring) (st : State) : State :=
  let ringObj :=
    {| id := id saved; center := center saved; radii := radii saved;
       donutStats := donutStats saved; weightedStats := weightedStats saved;
       created := created saved |} in
  {| markers := markers st; isDrawing := isDrawing st;
     drawingLock := drawingLock st; tempCircle := tempCircle st;
     startPoint := startPoint st; ringCounter := ringCounter st;
     rings := JS.mapSet idEqb (id ringObj) ringObj (rings st);
     ringCreationOrder := ringCreationOrder st ++ [id ringObj] |}.

(** [ringCreationOrder.indexOf (ringId)] and [splice (index, 1)] when the id
    is found: its first occurrence goes. *)
Fixpoint spliceFirst (ringId : Z * nat) (order : list (Z * nat)) : list (Z * nat) :=
  match order with
  | [] => []
  | x :: rest => if idEqb x ringId then rest else x :: spliceFirst ringId rest
  end.

(** [removeRing (ringId)]: nothing happens for an id that has no ring.  The
    copy written to local storage by [saveRings] is not part of [State]. *)
Definition removeRing (ringId : Z * nat) (st : State) : State :=
  match JS.mapGet idEqb ringId (rings st) with
  | Some _ =>
      {| markers := markers st; isDrawing := isDrawing st;
         drawingLock := drawingLock st; tempCircle := tempCircle st;
         startPoint := startPoint st; ringCounter := ringCounter st;
         rings := JS.mapDelete idEqb ringId (rings st);
         ringCreationOrder := spliceFirst ringId (ringCreationOrder st) |}
  | None => st
  end.

(** [clearAllRings ()]. *)
Definition clearAllRings (st : State) : State :=
  cancelDrawing
    {| markers := markers st; isDrawing := isDrawing st;
       drawingLock := drawingLock st; tempCircle := tempCircle st;
       startPoint := startPoint st; ringCounter := ringCounter st;
       rings := []; ringCreationOrder := [] |}.

(** [startDrawing (startLatLng)]: ignored while a drawing is in progress or
    locked. *)
Definition startDrawing (startLatLng : Point.t) (st : State) : State :=
  if drawingLock st || isDrawing st then st
  else
    {| markers := markers st; isDrawing := true; drawingLock := true;
       tempCircle := true; startPoint := Some startLatLng;
       ringCounter := ringCounter st; rings := rings st;
       ringCreationOrder := ringCreationOrder st |}.

End RingVisualizer.

(* ------------------------------------------------------------------------- *)
(** ** Keyboard navigation : the nearest marker in a compass direction        *)
(* ------------------------------------------------------------------------- *)

Module Navigator.

Open Scope float_scope.

(** The four keys that reach the navigation branch of the keydown handler. *)
Inductive Key : Type := KeyW | KeyA | KeyS | KeyD.

(** [bestMarker], its score or distance, and [bestIndex] (-1 at the start). *)
Record Best : Type := {
  bestMarker : option MapMarker.t;
  bestValue : float;
  bestIndex : Z
}.

(** [Math.sqrt (latDiff * latDiff + lngDiff * lngDiff)]. *)
Definition planar (currentCenter : Point.t) (marker : MapMarker.t) : float :=
  let latDiff := Point.lat (MapMarker.latlng marker) - Point.lat currentCenter in
  let lngDiff := Point.lng (MapMarker.latlng marker) - Point.lng currentCenter in
  JS.sqrt (latDiff * latDiff + lngDiff * lngDiff).

(** *** The ring and circle visualizers (the unnamed variants) *)

(** [isInDirection] after the chain of [if (key === ... && ...)]. *)
Definition isInDirection (key : Key) (currentCenter : Point.t) (marker : MapMarker.t)
    : bool :=
  let lat := Point.lat (MapMarker.latlng marker) in
  let lng := Point.lng (MapMarker.latlng marker) in
  let currentLat := Point.lat currentCenter in
  let currentLng := Point.lng currentCenter in
  match key with
  | KeyW => currentLat <? lat        (* lat > currentLat : North *)
  | KeyS => lat <? currentLat        (* South *)
  | KeyA => lng <? currentLng        (* West *)
  | KeyD => currentLng <? lng        (* East *)
  end.

Definition visit (key : Key) (currentCenter : Point.t) (best : Best)
    (marker : MapMarker.t) (index : nat) : Best :=
  let distance := planar currentCenter marker in
  if isInDirection key currentCenter marker && (distance <? bestValue best) then
    {| bestValue := distance; bestMarker := Some marker; bestIndex := Z.of_nat index |}
  else best.

(** The search of the W/A/S/D branch over [this.markerList]: the marker the
    map flies to, if any.  [bestDistance] starts at [Infinity]. *)
Definition search (key : Key) (markerList : list MapMarker.t) (currentCenter : Point.t)
    : Best :=
  JS.forEachi (visit key currentCenter) markerList
    {| bestMarker := None; bestValue := infinity; bestIndex := (-1)%Z |}.

Definition nearestInDirection (key : Key) (markerList : list MapMarker.t)
    (currentCenter : Point.t) : option MapMarker.t :=
  bestMarker (search key markerList currentCenter).

(** *** js/mapVisualizer.js : direction and distance folded into one score *)

Definition score (key : Key) (currentCenter : Point.t) (marker : MapMarker.t) : float :=
  let latDiff := Point.lat (MapMarker.latlng marker) - Point.lat currentCenter in
  let lngDiff := Point.lng (MapMarker.latlng marker) - Point.lng currentCenter in
  let distance := planar currentCenter marker in
  let normLat := latDiff / distance in
  let normLng := lngDiff / distance in
  let targetLat := match key with KeyW => 1 | KeyS => -1 | _ => 0 end in
  let targetLng := match key with KeyA => -1 | KeyD => 1 | _ => 0 end in
  let dotProduct := normLat * targetLat + normLng * targetLng in
  let directionScore := JS.max 0 dotProduct in
  let distanceScore := 1 / (distance + 0.1) in
  directionScore * 2 + distanceScore * 0.5.

Definition visitScored (key : Key) (currentCenter : Point.t) (best : Best)
    (marker : MapMarker.t) (index : nat) : Best :=
  if planar currentCenter marker =? 0 then best          (* distance === 0 *)
  else
    let s := score key currentCenter marker in
    if bestValue best <? s then
      {| bestValue := s; bestMarker := Some marker; bestIndex := Z.of_nat index |}
    else best.

Definition searchScored (key : Key) (markerList : list MapMarker.t)
    (currentCenter : Point.t) : Best :=
  JS.forEachi (visitScored key currentCenter) markerList
    {| bestMarker := None; bestValue := neg_infinity; bestIndex := (-1)%Z |}.

(** [if (bestMarker && bestScore > 0.5)]. *)
Definition nearestByScore (key : Key) (markerList : list MapMarker.t)
    (currentCenter : Point.t) : option MapMarker.t :=
  let best := searchScored key markerList currentCenter in
  match bestMarker best with
  | Some marker => if 0.5 <? bestValue best then Some marker else None
  | None => None
  end.

End Navigator.

(* ------------------------------------------------------------------------- *)
(** ** js/spatialUtils.js : hotspot detection                                 *)
(* ------------------------------------------------------------------------- *)

Module Clusterer.

Open Scope float_scope.

(** A grid cell of [findHotspots]. *)
Module Cell.
Record t : Type := make {
  markers : list Marker.t;
  totalValue : nat;
  avgLat : float;
  avgLng : float;
  count : nat;
  cellX : float;
  cellY : float
}.
End Cell.

Record BBox : Type := {
  minLat : float; maxLat : float; minLng : float; maxLng : float
}.

(** The object [findHotspots] pushes for a cell (lines 85-99).  Its
    coordinate properties are kept under the names the object literal gives
    them, because [mergeAdjacentCells] reads coordinates by name. *)
Module CellHotspot.
Record t : Type := make {
  id : float * float;                       (* hotspot_<cellX>,<cellY> *)
  coordinates : list (string * float);      (* lat: ..., lng: ... *)
  count : nat;
  totalValue : nat;
  intensity : float;
  markers : list Marker.t;
  bbox : BBox
}.

(** [hotspot.<name>] for a coordinate property: [undefined] unless the
    object has a property of that name. *)
Definition get (h : t) (name : string) : JS.value float :=
  JS.read (JS.mapGet String.eqb name (coordinates h)).
End CellHotspot.

(** The [cluster] object of [mergeAdjacentCells]. *)
Module Cluster.
Record t : Type := make {
  markers : list Marker.t;
  count : nat;
  totalValue : nat;
  intensity : float;
  avgLat : JS.value float;
  avgLng : JS.value float
}.
End Cluster.

(** An element of the array [mergeAdjacentCells] returns: a cluster it
    built, or, when it returns its argument, the cell's own object. *)
Inductive Merged : Type :=
| ofCluster (c : Cluster.t)
| ofCell (h : CellHotspot.t).

Definition markers (m : Merged) : list Marker.t :=
  match m with ofCluster c => Cluster.markers c | ofCell h => CellHotspot.markers h end.
Definition count (m : Merged) : nat :=
  match m with ofCluster c => Cluster.count c | ofCell h => CellHotspot.count h end.
Definition totalValue (m : Merged) : nat :=
  match m with ofCluster c => Cluster.totalValue c | ofCell h => CellHotspot.totalValue h end.
Definition intensity (m : Merged) : float :=
  match m with ofCluster c => Cluster.intensity c | ofCell h => CellHotspot.intensity h end.

(** An element of the array [findHotspots] returns: the spread [...hotspot]
    with [rank], the recomputed centre and the radius.  The [name] and
    [description] strings are presentation and are left out. *)
Module Hotspot.
Record t : Type := make {
  source : Merged;
  rank : nat;
  lat : float;
  lng : float;
  radius : float
}.
End Hotspot.

Definition gridSize : float := 0.1.

(** Two numbers print the same in a template string: the cell key
    [`${cellX},${cellY}`] is compared through its two numbers. *)
Definition sameNumeral (a b : float) : bool := (a =? b) || (is_nan a && is_nan b).

Definition keyEqb (k1 k2 : float * float) : bool :=
  sameNumeral (fst k1) (fst k2) && sameNumeral (snd k1) (snd k2).

(** The weight of a marker: 3 for both criteria, 1 for one, 0 for none. *)
Definition value (marker : Marker.t) : nat :=
  if Marker.hasEducation marker && Marker.hasIncome marker then 3%nat
  else if Marker.hasEducation marker || Marker.hasIncome marker then 1%nat
  else 0%nat.

(** Step 1, the body of [markers.forEach]: the marker is added to its cell,
    created on first use. *)
Definition addToGrid (grid : list ((float * float) * Cell.t)) (marker : Marker.t)
    : list ((float * float) * Cell.t) :=
  let lat := Marker.lat marker in
  let lng := Marker.lng marker in
  let cellX := JS.floor (lat / gridSize) in
  let cellY := JS.floor (lng / gridSize) in
  let cellKey := (cellX, cellY) in
  let cell :=
    match JS.mapGet keyEqb cellKey grid with
    | Some cell => cell
    | None => Cell.make [] 0%nat 0 0 0%nat cellX cellY
    end in
  JS.mapSet keyEqb cellKey
    (Cell.make (Cell.markers cell ++ [marker])
               (Cell.totalValue cell + value marker)%nat
               (Cell.avgLat cell + Marker.lat marker)
               (Cell.avgLng cell + Marker.lng marker)
               (S (Cell.count cell))
               (Cell.cellX cell) (Cell.cellY cell))
    grid.

(** Step 2, the body of [grid.forEach]: the hotspot object of a cell.  Its
    intensity is the binary64 product of the count and the binary64 quotient
    of the total value by the count. *)
Definition cellHotspot (hotspots : list CellHotspot.t) (entry : (float * float) * Cell.t)
    : list CellHotspot.t :=
  let cellKey := fst entry in
  let cell := snd entry in
  if (Cell.count cell =? 0)%nat then hotspots
  else
    let avgLat := Cell.avgLat cell / JS.ofNat (Cell.count cell) in
    let avgLng := Cell.avgLng cell / JS.ofNat (Cell.count cell) in
    let density := JS.ofNat (Cell.count cell) in
    let avgValue := JS.ofNat (Cell.totalValue cell) / JS.ofNat (Cell.count cell) in
    let intensity := density * avgValue in
    hotspots ++
    [ CellHotspot.make cellKey
        [("lat"%string, avgLat); ("lng"%string, avgLng)]
        (Cell.count cell) (Cell.totalValue cell) intensity (Cell.markers cell)
        {| minLat := Cell.cellX cell * gridSize;
           maxLat := (Cell.cellX cell + 1) * gridSize;
           minLng := Cell.cellY cell * gridSize;
           maxLng := (Cell.cellY cell + 1) * gridSize |} ].

Definition used (indices : list nat) (i : nat) : bool := existsb (Nat.eqb i) indices.

(** The body of the inner loop [for (j = i + 1; ...)]: cell [j] is folded
    into the cluster when its centre is closer than [mergeDistance] to the
    centre of cell [i]. *)
Definition absorb (mergeDistance : float) (hi : CellHotspot.t)
    (st : Cluster.t * list nat) (hj : CellHotspot.t) (j : nat) : Cluster.t * list nat :=
  let (cluster, usedSet) := st in
  if used usedSet j then st
  else
    let dx := JS.abs (JS.toNumber (CellHotspot.get hi "avgLat")
                      - JS.toNumber (CellHotspot.get hj "avgLat")) in
    let dy := JS.abs (JS.toNumber (CellHotspot.get hi "avgLng")
                      - JS.toNumber (CellHotspot.get hj "avgLng")) in
    let distance := JS.sqrt (dx * dx + dy * dy) in
    if distance <? mergeDistance then
      (Cluster.make
         (Cluster.markers cluster ++ CellHotspot.markers hj)
         (Cluster.count cluster + CellHotspot.count hj)%nat
         (Cluster.totalValue cluster + CellHotspot.totalValue hj)%nat
         (Cluster.intensity cluster + CellHotspot.intensity hj)
         (JS.number ((JS.toNumber (Cluster.avgLat cluster)
                      + JS.toNumber (CellHotspot.get hj "avgLat")) / 2))
         (JS.number ((JS.toNumber (Cluster.avgLng cluster)
                      + JS.toNumber (CellHotspot.get hj "avgLng")) / 2)),
       j :: usedSet)
    else st.

(** The body of the outer loop [for (i = 0; ...)]. *)
Definition cluster (hotspots : list CellHotspot.t) (mergeDistance : float)
    (st : list Merged * list nat) (hi : CellHotspot.t) (i : nat)
    : list Merged * list nat :=
  let (merged, usedSet) := st in
  if used usedSet i then st
  else
    let start :=
      Cluster.make (CellHotspot.markers hi) (CellHotspot.count hi)
        (CellHotspot.totalValue hi) (CellHotspot.intensity hi)
        (CellHotspot.get hi "avgLat") (CellHotspot.get hi "avgLng") in
    let (c, usedSet') :=
      JS.forEachi_from (absorb mergeDistance hi) (S i) (skipn (S i) hotspots)
        (start, i :: usedSet) in
    (merged ++ [ofCluster c], usedSet').

(** [mergeAdjacentCells (hotspots, mergeDistance)]. *)
Definition mergeAdjacentCells (hotspots : list CellHotspot.t) (mergeDistance : float)
    : list Merged :=
  if (length hotspots <=? 1)%nat then map ofCell hotspots
  else fst (JS.forEachi (cluster hotspots mergeDistance) hotspots ([], [])).

(** [calculateGeographicCenter (markers)]. *)
Definition calculateGeographicCenter (markers : list Marker.t) : Point.t :=
  match markers with
  | [] => Point.make 0 0
  | _ =>
      let lat := fold_left (fun lat m => lat + Marker.lat m) markers 0 in
      let lng := fold_left (fun lng m => lng + Marker.lng m) markers 0 in
      Point.make (lat / JS.ofNat (length markers)) (lng / JS.ofNat (length markers))
  end.

(** Step 4: sort by intensity, keep 50, rank. *)
Definition rankTop (mergedHotspots : list Merged) : list Hotspot.t :=
  JS.mapi
    (fun hotspot index =>
       let center := calculateGeographicCenter (markers hotspot) in
       Hotspot.make hotspot (index + 1) (Point.lat center) (Point.lng center)
         (JS.sqrt (JS.ofNat (count hotspot)) * 5000))
    (JS.slice0 50
       (JS.sortF (fun a b => intensity b - intensity a) mergedHotspots)).

(** Steps 1 to 4 on a non-empty array of markers. *)
Definition compute (markers : list Marker.t) : list Hotspot.t :=
  let grid := fold_left addToGrid markers [] in
  let hotspots := fold_left cellHotspot grid [] in
  let mergedHotspots := mergeAdjacentCells hotspots (gridSize * 1.5) in
  rankTop mergedHotspots.

(** The two fields of [SpatialUtils] the function reads and writes. *)
Record State : Type := {
  hotspotCache : option (list Hotspot.t);
  lastHotspotCalculation : Z
}.

(** The state the constructor leaves. *)
Definition initial : State := {| hotspotCache := None; lastHotspotCalculation := 0 |}.

Definition cacheDuration : Z := 5 * 60 * 1000.

(** [findHotspots (markers)] at clock reading [now]. *)
Definition findHotspots (now : Z) (markers : list Marker.t) (st : State)
    : State * list Hotspot.t :=
  match hotspotCache st with
  | Some cached =>
      if (now - lastHotspotCalculation st <? cacheDuration)%Z then (st, cached)
      else
        match markers with
        | [] => (st, [])
        | _ =>
            let topHotspots := compute markers in
            ({| hotspotCache := Some topHotspots; lastHotspotCalculation := now |},
             topHotspots)
        end
  | None =>
      match markers with
      | [] => (st, [])
      | _ =>
          let topHotspots := compute markers in
          ({| hotspotCache := Some topHotspots; lastHotspotCalculation := now |},
           topHotspots)
      end
  end.

End Clusterer.

(* ------------------------------------------------------------------------- *)
(** ** The ACS API service : durable cache and batched fetch                  *)
(* ------------------------------------------------------------------------- *)

Module ACSAPIService.

(** How an awaited call ends: its promise is fulfilled, it is rejected (the
    [throw] of an async function), or it never settles. *)
Inductive Outcome (A : Type) : Type :=
| Fulfilled (a : A)
| Rejected
| Pending.
Arguments Fulfilled {A} _.
Arguments Rejected {A}.
Arguments Pending {A}.

(** [results[zip]] of [parseResponse].  The sizing value [combinedValue]
    and the ISO rendering of [fetchedAt] are presentation and are left out. *)
Record PayloadData : Type := {
  Higher_Education : Q;
  High_Income_Households : Q;
  Median_Income : option Q
}.

Record Metadata : Type := {
  name : string;
  fetchedAt : Z;
  hasEducation : bool;
  hasIncome : bool;
  educationValue : Q;
  incomeValue : Q;
  zip : string
}.

Record Payload : Type := { data : PayloadData; metadata : Metadata }.

(** An entry of the IndexedDB object store. *)
Record CacheEntry : Type := {
  key : string;
  entryData : Payload;
  expiry : Z;
  cachedAt : Z;
  entryZip : string
}.

(** A value of [this.memoryCache]: [{ data, timestamp }]. *)
Record MemoryEntry : Type := { memData : Payload; timestamp : Z }.

(** A value of the [results] Map of [fetchCombinedData]: what the durable
    cache or the API returned, or the memory cache's wrapper object. *)
Inductive Found : Type :=
| payload (p : Payload)
| wrapped (e : MemoryEntry).

Record Counters : Type := {
  cacheHits : nat;
  cacheMisses : nat;
  apiCalls : nat;
  bytesSaved : nat
}.

(** The body of a response, the value of [response.json ()].  The API
    answers with a table: an array of rows, each an array of strings, the
    first row holding the headers.  [malformed] stands for an array that is
    no table and on which [parseResponse] throws a TypeError: its first
    element is [null], a number, a boolean or an object, none of which has
    an [indexOf] method, or one of its later elements is [null].  [other]
    stands for a JSON value that is not an array.  Arrays of yet another
    shape (a string in the place of a row, cells that are not strings) are
    not modelled. *)
Inductive Body : Type :=
| rows (table : list (list string))
| malformed
| other.

(** What the service does not decide: the answer of the network to the
    request number [n] (the value of [stats.apiCalls] before it) sent through
    proxy [p] for a batch of ZIP codes ([None]: network error, timeout,
    status outside 2xx or a body that is not JSON), and the built-in
    [parseFloat] ([None] for [NaN]). *)
Record Env : Type := {
  http : nat -> nat -> list string -> option Body;
  parseFloat : string -> option Q
}.

(** The fields of the service, after [ensureInitialized] has settled.  [db]
    is the content of the object store, or [None] when IndexedDB could not
    be opened ([this.db] is null).  [requests] records the requests sent:
    proxy index and ZIP codes of the URL, latest last. *)
Record State : Type := {
  currentProxyIndex : nat;
  db : option (gmap string CacheEntry);
  stats : Counters;
  memoryCache : list (string * MemoryEntry);
  requests : list (nat * list string)
}.

Definition cacheDuration : Z := 90 * 24 * 60 * 60 * 1000.
Definition batchSize : nat := 30.
Definition cachePrefix : string := "acs_2022_".
Definition proxyCount : nat := 3.              (* this.proxyUrls.length *)
Definition memoryCacheSize : nat := 500.

Definition setDb (st : State) (d : option (gmap string CacheEntry)) : State :=
  {| currentProxyIndex := currentProxyIndex st; db := d; stats := stats st;
     memoryCache := memoryCache st; requests := requests st |}.

Definition setStats (st : State) (c : Counters) : State :=
  {| currentProxyIndex := currentProxyIndex st; db := db st; stats := c;
     memoryCache := memoryCache st; requests := requests st |}.

Definition setMemoryCache (st : State) (m : list (string * MemoryEntry)) : State :=
  {| currentProxyIndex := currentProxyIndex st; db := db st; stats := stats st;
     memoryCache := m; requests := requests st |}.

Definition hit (st : State) : State :=
  setStats st {| cacheHits := S (cacheHits (stats st));
                 cacheMisses := cacheMisses (stats st);
                 apiCalls := apiCalls (stats st);
                 bytesSaved := bytesSaved (stats st) |}.

Definition miss (st : State) : State :=
  setStats st {| cacheHits := cacheHits (stats st);
                 cacheMisses := S (cacheMisses (stats st));
                 apiCalls := apiCalls (stats st);
                 bytesSaved := bytesSaved (stats st) |}.

(** [chunkArray (array, size)], for a positive [size] (the source loops
    forever on 0; it is called with 300, 30 and 5). *)
Fixpoint chunkFrom {A : Type} (fuel : nat) (array : list A) (size : nat) : list (list A) :=
  match fuel with
  | O => []
  | S fuel' =>
      match array with
      | [] => []
      | _ => firstn size array :: chunkFrom fuel' (skipn size array) size
      end
  end.

Definition chunkArray {A : Type} (array : list A) (size : nat) : list (list A) :=
  chunkFrom (length array) array size.

(** [[...new Set (zipCodes)]]: the first occurrence of every ZIP code, in
    order. *)
Fixpoint uniqueFrom (seen : list string) (zipCodes : list string) : list string :=
  match zipCodes with
  | [] => []
  | z :: rest =>
      if existsb (String.eqb z) seen then uniqueFrom seen rest
      else z :: uniqueFrom (z :: seen) rest
  end.

Definition unique (zipCodes : list string) : list string := uniqueFrom [] zipCodes.

(** *** The durable cache *)

(** The mode an IndexedDB transaction is opened in. *)
Inductive Mode : Type := readonly | readwrite.

(** [store.delete (key)]: IndexedDB raises ReadOnlyError when the
    transaction of the store is read-only ([None]). *)
Definition storeDelete (mode : Mode) (k : string) (store : gmap string CacheEntry)
    : option (gmap string CacheEntry) :=
  match mode with
  | readonly => None
  | readwrite => Some (delete k store)
  end.

(** [getFromCache (zip)] at clock reading [now].  The promise is resolved by
    the success handler of the [get] request; a handler that throws before
    reaching [resolve] leaves it pending, and the store as it was. *)
Definition getFromCache (now : Z) (zip : string) (st : State)
    : State * Outcome (option Payload) :=
  match db st with
  | None => (st, Fulfilled None)
  | Some store =>
      let cacheKey := (cachePrefix ++ zip)%string in
      let mode := readonly in
      match store !! cacheKey with
      | None => (st, Fulfilled None)
      | Some cached =>
          if (expiry cached <? now)%Z then
            match storeDelete mode cacheKey store with
            | Some store' => (setDb st (Some store'), Fulfilled None)
            | None => (st, Pending)
            end
          else (st, Fulfilled (Some (entryData cached)))
      end
  end.

(** [cacheData (zip, data)] at clock reading [now]; the [put] is taken to
    commit whenever the store is open. *)
Definition cacheData (now : Z) (zip : string) (data : Payload) (st : State) : State :=
  match db st with
  | None => st
  | Some store =>
      let cacheKey := (cachePrefix ++ zip)%string in
      let expiry := (now + cacheDuration)%Z in
      let cacheEntry :=
        {| key := cacheKey; entryData := data; expiry := expiry;
           cachedAt := now; entryZip := zip |} in
      setDb st (Some (<[cacheKey := cacheEntry]> store))
  end.

(** [addToMemoryCache (zip, data)]: the oldest key goes when the Map is
    full. *)
Definition addToMemoryCache (now : Z) (zip : string) (data : Payload) (st : State)
    : State :=
  let evicted :=
    if (memoryCacheSize <=? length (memoryCache st))%nat
    then match memoryCache st with
         | [] => []
         | (firstKey, _) :: _ => JS.mapDelete String.eqb firstKey (memoryCache st)
         end
    else memoryCache st in
  setMemoryCache st
    (JS.mapSet String.eqb zip {| memData := data; timestamp := now |} evicted).

(** *** The fetch client *)

Definition setProxy (st : State) (p : nat) : State :=
  {| currentProxyIndex := p; db := db st; stats := stats st;
     memoryCache := memoryCache st; requests := requests st |}.

(** [this.stats.apiCalls++] and the request leaving through the current
    proxy. *)
Definition send (zipCodes : list string) (st : State) : State :=
  {| currentProxyIndex := currentProxyIndex st; db := db st;
     stats := {| cacheHits := cacheHits (stats st);
                 cacheMisses := cacheMisses (stats st);
                 apiCalls := S (apiCalls (stats st));
                 bytesSaved := bytesSaved (stats st) |};
     memoryCache := memoryCache st;
     requests := requests st ++ [(currentProxyIndex st, zipCodes)] |}.

(** [fetchWithCorsFallback (url, options, retryCount)] for the URL of a
    batch; [retriesLeft] is [proxyUrls.length - 1 - retryCount].  A request
    that fails moves on to the next proxy until no retry is left, and then
    throws. *)
Fixpoint fetchWithCorsFallback (E : Env) (retriesLeft : nat) (zipCodes : list string)
    (st : State) : State * Outcome Body :=
  let st1 := send zipCodes st in
  match http E (apiCalls (stats st)) (currentProxyIndex st) zipCodes with
  | Some body => (st1, Fulfilled body)
  | None =>
      match retriesLeft with
      | O => (st1, Rejected)
      | S retriesLeft' =>
          fetchWithCorsFallback E retriesLeft' zipCodes
            (setProxy st1 ((currentProxyIndex st1 + 1) mod proxyCount))
      end
  end.

(** [headers.indexOf (name)]: [None] for -1. *)
Fixpoint indexOf (headers : list string) (name : string) : option nat :=
  match headers with
  | [] => None
  | h :: rest =>
      if String.eqb h name then Some 0%nat
      else option_map S (indexOf rest name)
  end.

(** [parseFloat (row[idx]) || 0] summed over the columns that exist. *)
Definition sumColumns (E : Env) (row : list string) (columns : list (option nat)) : Q :=
  fold_left
    (fun total idx =>
       match idx with
       | None => total
       | Some i =>
           let parsed :=
             match nth_error row i with
             | Some cell => parseFloat E cell
             | None => None
             end in
           match parsed with
           | Some q => (total + JS.orZero q)%Q
           | None => (total + 0)%Q
           end
       end)
    columns 0%Q.

Definition Qmax (a b : Q) : Q := if Qle_bool a b then b else a.

(** The part of [parseResponse] that follows the two guards, for the header
    row and the rows after it: one payload per requested ZIP code found in
    the table, the first row of a ZIP code winning. *)
Definition parseTable (E : Env) (now : Z) (headers : list string)
    (table : list (list string)) (requestedZips : list string) : gmap string Payload :=
  let nameIdx := indexOf headers "NAME" in
  let zipIdx := indexOf headers "zip code tabulation area" in
  let education :=
    map (indexOf headers) ["B15003_022E"; "B15003_023E"; "B15003_024E"; "B15003_025E"]%string in
  let income :=
    map (indexOf headers) ["B19001_014E"; "B19001_015E"; "B19001_016E"; "B19001_017E"]%string in
  let medianIdx := indexOf headers "B19013_001E" in
  fst
    (fold_left
       (fun (acc : gmap string Payload * list string) (row : list string) =>
          let (results, requestedSet) := acc in
          match zipIdx with
          | None => acc
          | Some zi =>
              match nth_error row zi with
              | None => acc
              | Some zip =>
                  if existsb (String.eqb zip) requestedSet then
                    let totalHigherEd := sumColumns E row education in
                    let totalHighIncome := sumColumns E row income in
                    let medianIncome :=
                      match medianIdx with
                      | None => None
                      | Some mi =>
                          match nth_error row mi with
                          | Some cell =>
                              match parseFloat E cell with
                              | Some q => if JS.truthyQ q then Some q else None
                              | None => None
                              end
                          | None => None
                          end
                      end in
                    (<[zip :=
                         {| data :=
                              {| Higher_Education := totalHigherEd;
                                 High_Income_Households := totalHighIncome;
                                 Median_Income := medianIncome |};
                            metadata :=
                              {| name :=
                                   match nameIdx with
                                   | Some ni => nth ni row ""%string
                                   | None => "Unknown"%string
                                   end;
                                 fetchedAt := now;
                                 hasEducation := Qle_bool 1000 totalHigherEd;
                                 hasIncome := Qle_bool 1000 totalHighIncome;
                                 educationValue := Qmax totalHigherEd 1000;
                                 incomeValue := Qmax totalHighIncome 1000;
                                 zip := zip |} |}]> results,
                     List.filter (fun z => negb (String.eqb zip z)) requestedSet)
                  else acc
              end
          end)
       table (∅, requestedZips)).

(** [parseResponse (data, requestedZips)] at clock reading [now]: the empty
    object for a value that is no array and for the empty array, [None] when
    it throws. *)
Definition parseResponse (E : Env) (now : Z) (body : Body) (requestedZips : list string)
    : option (gmap string Payload) :=
  match body with
  | other => Some ∅
  | malformed => None
  | rows [] => Some ∅
  | rows (headers :: table) => Some (parseTable E now headers table requestedZips)
  end.

(** [for (const smallBatch of smallerBatches) { try { ... } catch { } }]:
    every sub-batch goes through [call]; what it returns is merged into
    [results], what it throws is dropped.  [None] only when [call] gave no
    answer. *)
Fixpoint eachSmallBatch
    (call : list string -> State -> option (State * Outcome (gmap string Payload)))
    (smallerBatches : list (list string)) (st : State) (results : gmap string Payload)
    : option (State * Outcome (gmap string Payload)) :=
  match smallerBatches with
  | [] => Some (st, Fulfilled results)
  | smallBatch :: rest =>
      match call smallBatch st with
      | None => None
      | Some (st', Fulfilled smallResult) =>
          eachSmallBatch call rest st' (smallResult ∪ results)
      | Some (st', Rejected) => eachSmallBatch call rest st' results
      | Some (st', Pending) => Some (st', Pending)
      end
  end.

(** [fetchBatchFromAPI (zipCodes)].  The request and [parseResponse] are
    both inside the [try]: when the request fails for good, or the answer
    makes [parseResponse] throw, the [catch] block fetches a batch of more
    than 5 ZIP codes again as sub-batches of 5, and rethrows for a batch of
    at most 5.  The function calls itself on the sub-batches; [fuel] bounds
    the depth of these calls, and the result is [None] when it is used up. *)
Fixpoint fetchBatchFromAPI_fuel (fuel : nat) (E : Env) (now : Z) (zipCodes : list string)
    (st : State) : option (State * Outcome (gmap string Payload)) :=
  match fuel with
  | O => None
  | S fuel' =>
      if (length zipCodes =? 0)%nat then Some (st, Fulfilled ∅)
      else
        let (st1, fetched) := fetchWithCorsFallback E (proxyCount - 1) zipCodes st in
        let caught :=
          if (5 <? length zipCodes)%nat then
            let smallerBatches := chunkArray zipCodes 5 in
            eachSmallBatch (fetchBatchFromAPI_fuel fuel' E now) smallerBatches st1 ∅
          else Some (st1, Rejected) in
        match fetched with
        | Fulfilled body =>
            match parseResponse E now body zipCodes with
            | Some results => Some (st1, Fulfilled results)
            | None => caught
            end
        | Rejected => caught
        | Pending => Some (st1, Pending)
        end
  end.

(** A batch is strictly longer than its sub-batches: its length bounds the
    depth. *)
Definition fetchBatchFromAPI (E : Env) (now : Z) (zipCodes : list string) (st : State)
    : option (State * Outcome (gmap string Payload)) :=
  fetchBatchFromAPI_fuel (S (length zipCodes)) E now zipCodes st.

(** [Object.entries (batchData).map (([zip, data]) => this.cacheData (zip, data))].
    The writes are for different keys of the store: their order does not
    show in the result. *)
Definition cacheAll (now : Z) (batchData : gmap string Payload) (st : State) : State :=
  fold_left (fun st zd => cacheData now (fst zd) (snd zd) st) (map_to_list batchData) st.

(** The loop of [fetchMissingData] over [batches], each batch in its own
    [try { ... } catch { }]. *)
Fixpoint eachBatch (E : Env) (now : Z) (batches : list (list string)) (st : State)
    (results : gmap string Payload) : option (State * Outcome (gmap string Payload)) :=
  match batches with
  | [] => Some (st, Fulfilled results)
  | batch :: rest =>
      match fetchBatchFromAPI E now batch st with
      | None => None
      | Some (st', Fulfilled batchData) =>
          eachBatch E now rest (cacheAll now batchData st') (batchData ∪ results)
      | Some (st', Rejected) => eachBatch E now rest st' results
      | Some (st', Pending) => Some (st', Pending)
      end
  end.

(** [fetchMissingData (zipCodes)]. *)
Definition fetchMissingData (E : Env) (now : Z) (zipCodes : list string) (st : State)
    : option (State * Outcome (gmap string Payload)) :=
  if (length zipCodes =? 0)%nat then Some (st, Fulfilled ∅)
  else
    let batches := chunkArray zipCodes batchSize in
    eachBatch E now batches st ∅.

(** What [processChunk] leaves: the [results] Map, [missingZips], and
    whether one of the lookups is still pending. *)
Record Lookup : Type := {
  results : list (string * Found);
  missingZips : list string;
  hung : bool
}.

(** The callback of [zipChunk.map (async (zip) => ...)] from its [await] on:
    what it does with the answer of [getFromCache]. *)
Definition resume (now : Z) (acc : State * Lookup) (zip : string) : State * Lookup :=
  let (st, l) := acc in
  match getFromCache now zip st with
  | (st1, Fulfilled (Some cached)) =>
      (hit (addToMemoryCache now zip cached st1),
       {| results := JS.mapSet String.eqb zip (payload cached) (results l);
          missingZips := missingZips l; hung := hung l |})
  | (st1, Fulfilled None) =>
      (miss st1,
       {| results := results l; missingZips := missingZips l ++ [zip];
          hung := hung l |})
  | (st1, _) =>
      (st1, {| results := results l; missingZips := missingZips l; hung := true |})
  end.

(** The callback run from start to end with no other callback in between,
    as for a chunk of one ZIP code. *)
Definition lookup (now : Z) (acc : State * Lookup) (zip : string) : State * Lookup :=
  let (st, l) := acc in
  match JS.mapGet String.eqb zip (memoryCache st) with
  | Some memoryCached =>
      (hit st,
       {| results := JS.mapSet String.eqb zip (wrapped memoryCached) (results l);
          missingZips := missingZips l; hung := hung l |})
  | None => resume now acc zip
  end.

(** The callback up to its [await]: [map] runs this part for every ZIP code
    of the chunk before any callback resumes.  A ZIP code found in the
    memory cache is done; the others wait for [getFromCache], in [awaiting]. *)
Definition start (acc : (State * Lookup) * list string) (zip : string)
    : (State * Lookup) * list string :=
  let '((st, l), awaiting) := acc in
  match JS.mapGet String.eqb zip (memoryCache st) with
  | Some memoryCached =>
      ((hit st,
        {| results := JS.mapSet String.eqb zip (wrapped memoryCached) (results l);
           missingZips := missingZips l; hung := hung l |}),
       awaiting)
  | None => ((st, l), awaiting ++ [zip])
  end.

(** [processChunk (zipChunk, results, missingZips)]: every callback runs up
    to its [await], then the callbacks that wait resume, the requests to the
    store being answered in the order they were made. *)
Definition processChunk (now : Z) (zipChunk : list string) (acc : State * Lookup)
    : State * Lookup :=
  let (acc1, awaiting) := fold_left start zipChunk (acc, []) in
  fold_left (resume now) awaiting acc1.

(** The body of the loop of [fetchCombinedData] over the entries of
    [missingData]: the payload goes into the [results] Map, the durable
    store and the memory cache. *)
Definition store (now : Z) (acc : State * list (string * Found)) (zd : string * Payload)
    : State * list (string * Found) :=
  let (st, results) := acc in
  (addToMemoryCache now (fst zd) (snd zd) (cacheData now (fst zd) (snd zd) st),
   JS.mapSet String.eqb (fst zd) (payload (snd zd)) results).

(** [for (const chunk of chunks) await this.processChunk (chunk, ...)] over
    the chunks of 300 of [uniqueZips], from an empty [results] Map and an
    empty [missingZips].  The loop does not get past a chunk one of whose
    lookups stays pending. *)
Definition lookupChunks (now : Z) (uniqueZips : list string) (st : State)
    : State * Lookup :=
  let chunks := chunkArray uniqueZips 300 in
  fold_left
    (fun acc chunk => if hung (snd acc) then acc else processChunk now chunk acc)
    chunks
    (st, {| results := []; missingZips := []; hung := false |}).

(** [fetchCombinedData (zipCodes)] at clock reading [now].  The object it
    resolves with is given by the entries of the [results] Map it is built
    from, in the order of that Map; the order in which the properties of
    the object are enumerated is not modelled. *)
Definition fetchCombinedData (E : Env) (now : Z) (zipCodes : list string) (st : State)
    : option (State * Outcome (list (string * Found))) :=
  if (length zipCodes =? 0)%nat then Some (st, Fulfilled [])
  else
    let uniqueZips := unique zipCodes in
    let (st1, l) := lookupChunks now uniqueZips st in
    if hung l then Some (st1, Pending)
    else if (0 <? length (missingZips l))%nat then
      match fetchMissingData E now (missingZips l) st1 with
      | None => None
      | Some (st2, Fulfilled missingData) =>
          let (st3, results) :=
            fold_left (store now) (map_to_list missingData) (st2, results l) in
          Some (st3, Fulfilled results)
      | Some (st2, Rejected) => Some (st2, Rejected)
      | Some (st2, Pending) => Some (st2, Pending)
      end
    else Some (st1, Fulfilled (results l)).

(** *** Cache maintenance *)

(** The entries the cursor of [cleanExpiredCache] visits: those of the
    [expiry] index within [IDBKeyRange.upperBound (now)], the bound
    included. *)
Definition expiredEntries (now : Z) (store : gmap string CacheEntry)
    : list (string * CacheEntry) :=
  List.filter (fun entry => (expiry (snd entry) <=? now)%Z) (map_to_list store).

(** The success handler of the cursor request: the entry under the cursor
    is deleted and counted, and the cursor moves on. *)
Fixpoint deleteEach (mode : Mode) (cursor : list (string * CacheEntry))
    (store : gmap string CacheEntry) (cleaned : nat)
    : option (gmap string CacheEntry * nat) :=
  match cursor with
  | [] => Some (store, cleaned)
  | (primaryKey, _) :: rest =>
      match storeDelete mode primaryKey store with
      | Some store' => deleteEach mode rest store' (S cleaned)
      | None => None
      end
  end.

(** [cleanExpiredCache ()] at clock reading [now]; the promise is resolved
    with the number of entries deleted. *)
Definition cleanExpiredCache (now : Z) (st : State) : State * Outcome nat :=
  match db st with
  | None => (st, Fulfilled 0%nat)
  | Some store =>
      let mode := readwrite in
      match deleteEach mode (expiredEntries now store) store 0 with
      | Some (store', cleaned) => (setDb st (Some store'), Fulfilled cleaned)
      | None => (st, Pending)
      end
  end.

(** [clearCache ()]: the memory cache is cleared by the success handler of
    [store.clear ()], so only when the store is open. *)
Definition clearCache (st : State) : State * Outcome nat :=
  match db st with
  | None => (st, Fulfilled 0%nat)
  | Some _ => (setMemoryCache (setDb st (Some ∅)) [], Fulfilled 1%nat)
  end.

End ACSAPIService.

(* ------------------------------------------------------------------------- *)
(** ** The visualizer : from fetched records to markers                       *)
(* ------------------------------------------------------------------------- *)

Module Visualizer.

(** A record of the ZIP index. *)
Record ZipRecord : Type := {
  lat : float;
  lng : float;
  city : string;
  county_name : string;
  state_id : string
}.

(** An element of [dataPoints]; the colour and the [location] label are
    presentation and are left out. *)
Record DataPoint : Type := {
  zip : string;
  pointLat : float;
  pointLng : float;
  markerType : string;
  hasEducation : bool;
  hasIncome : bool;
  totalHigherEd : Q;
  totalHighIncomeHouseholds : Q;
  medianIncome : option Q;
  pointCity : string;
  county : string;
  state : string
}.

(** The callback of [Object.entries (acsData).forEach] in
    [prepareDataPoints]: a record without a ZIP index entry, without [data],
    or with neither flag adds nothing.  The wrapper object of a memory-cache
    hit has a [data] property and no [metadata]. *)
Definition prepare (zipData : gmap string ZipRecord) (dataPoints : list DataPoint)
    (entry : string * ACSAPIService.Found) : list DataPoint :=
  let (zip, acsRecord) := entry in
  match zipData !! zip with
  | None => dataPoints
  | Some zipRecord =>
      match acsRecord with
      | ACSAPIService.wrapped _ => dataPoints
      | ACSAPIService.payload p =>
          let hasEducation := ACSAPIService.hasEducation (ACSAPIService.metadata p) in
          let hasIncome := ACSAPIService.hasIncome (ACSAPIService.metadata p) in
          if negb hasEducation && negb hasIncome then dataPoints
          else
            let markerType :=
              if hasEducation && hasIncome then "both"%string
              else if hasEducation then "education"%string
              else "income"%string in
            dataPoints ++
            [ {| zip := zip;
                 pointLat := lat zipRecord;
                 pointLng := lng zipRecord;
                 markerType := markerType;
                 hasEducation := hasEducation;
                 hasIncome := hasIncome;
                 totalHigherEd :=
                   JS.orZero (ACSAPIService.Higher_Education (ACSAPIService.data p));
                 totalHighIncomeHouseholds :=
                   JS.orZero (ACSAPIService.High_Income_Households (ACSAPIService.data p));
                 medianIncome := ACSAPIService.Median_Income (ACSAPIService.data p);
                 pointCity := city zipRecord;
                 county := county_name zipRecord;
                 state := state_id zipRecord |} ]
      end
  end.

(** [prepareDataPoints (zipData, acsData)]. *)
Definition prepareDataPoints (zipData : gmap string ZipRecord)
    (acsData : list (string * ACSAPIService.Found)) : list DataPoint :=
  fold_left (prepare zipData) acsData [].

(** [createMarker (point)]: null for a missing or zero coordinate. *)
Definition createMarker (point : DataPoint) : option MapMarker.t :=
  if negb (JS.truthyF (pointLat point)) || negb (JS.truthyF (pointLng point))
  then None
  else
    Some (MapMarker.make (Point.make (pointLat point) (pointLng point))
            (Some (MarkerData.make (hasEducation point) (hasIncome point)
                     (totalHigherEd point) (totalHighIncomeHouseholds point)
                     (medianIncome point) (pointCity point) (county point)
                     (state point) (markerType point)))
            (zip point)).

(** [visualizeCombinedData (zipData, acsData)]: the [this.markers] Map it
    fills, starting from an empty one. *)
Definition visualizeCombinedData (zipData : gmap string ZipRecord)
    (acsData : list (string * ACSAPIService.Found)) : list (string * MapMarker.t) :=
  fold_left
    (fun markers point =>
       match createMarker point with
       | Some marker => JS.mapSet String.eqb (zip point) marker markers
       | None => markers
       end)
    (prepareDataPoints zipData acsData) [].

(** The [markerData] array built by [calculateCircleStatsWithRadius] (and by
    [calculateCircleStats (circleId)] of js/mapVisualizer.js). *)
Definition markerData (markers : list (string * MapMarker.t)) : list Marker.t :=
  flat_map
    (fun entry =>
       let marker := snd entry in
       match MapMarker.data marker with
       | Some d =>
           [ Marker.make (Point.lat (MapMarker.latlng marker))
               (Point.lng (MapMarker.latlng marker))
               (MarkerData.hasEducation d) (MarkerData.hasIncome d)
               (JS.orZero (MarkerData.totalHigherEd d))
               (JS.orZero (MarkerData.totalHighIncomeHouseholds d))
               (MarkerData.medianIncome d)
               (MarkerData.county d) (MarkerData.state d) (fst entry) ]
       | None => []
       end)
    markers.

(** [calculateCircleStatsWithRadius (center, radiusMeters)]. *)
Definition calculateCircleStatsWithRadius (M : JS.MathImpl)
    (markers : list (string * MapMarker.t)) (center : Point.t) (radiusMeters : float)
    : SpatialUtils.Stats :=
  SpatialUtils.calculateCircleStats M (markerData markers) center radiusMeters.

End Visualizer.

(* ------------------------------------------------------------------------- *)
(** ** The visualizer : layer visibility and the navigation list              *)
(* ------------------------------------------------------------------------- *)

Module Layers.

Open Scope float_scope.

(** The fields [buildMarkerList] and [toggleLayer] read and write:
    [this.markers] (a Map keyed by ZIP code), [this.layerVisibility] (an
    object read by marker type) and [this.markerList]. *)
Record State : Type := {
  markers : list (string * MapMarker.t);
  layerVisibility : gmap string bool;
  markerList : list MapMarker.t
}.

(** The object literal of the constructor. *)
Definition initialVisibility : gmap string bool :=
  <["education" := true]> (<["income" := true]> (<["both" := true]>
    (<["rings" := true]> ∅))).

(** [marker.data && this.layerVisibility[marker.data.markerType]]; a type
    the object has no property for reads [undefined]. *)
Definition shown (layerVisibility : gmap string bool) (marker : MapMarker.t) : bool :=
  match MapMarker.data marker with
  | Some data =>
      match layerVisibility !! MarkerData.markerType data with
      | Some visible => visible
      | None => false
      end
  | None => false
  end.

(** [buildMarkerList ()] of the ring and circle visualizers: the shown
    markers, sorted by [latB - latA]. *)
Definition buildMarkerList (markers : list (string * MapMarker.t))
    (layerVisibility : gmap string bool) : list MapMarker.t :=
  JS.sortF
    (fun a b => Point.lat (MapMarker.latlng b) - Point.lat (MapMarker.latlng a))
    (List.filter (shown layerVisibility) (map snd markers)).

(** [toggleLayer (layerType, visible)]: the flag is set and
    [updateLayerVisibility] rebuilds the list.  The Leaflet layers and the
    copy in local storage are not part of [State]. *)
Definition toggleLayer (layerType : string) (visible : bool) (st : State) : State :=
  let layerVisibility := <[layerType := visible]> (layerVisibility st) in
  {| markers := markers st;
     layerVisibility := layerVisibility;
     markerList := buildMarkerList (markers st) layerVisibility |}.

End Layers.

(* ------------------------------------------------------------------------- *)
(** ** The application : statistics of a load                                 *)
(* ------------------------------------------------------------------------- *)

Module ACSApplication.

(** [this.statistics]. *)
Record Statistics : Type := {
  educationOnly : nat;
  incomeOnly : nat;
  both : nat;
  total : nat
}.

(** The callback of [Object.entries (apiData).forEach] in [processData].
    The wrapper object of a memory-cache hit has a [data] property and no
    [metadata]: reading [record.metadata.hasEducation] throws ([None]). *)
Definition visit (acc : option (gmap string ACSAPIService.Payload * Statistics))
    (entry : string * ACSAPIService.Found)
    : option (gmap string ACSAPIService.Payload * Statistics) :=
  match acc with
  | None => None
  | Some (processedData, statistics) =>
      let (zip, found) := entry in
      match found with
      | ACSAPIService.wrapped _ => None
      | ACSAPIService.payload record =>
          let hasEducation := ACSAPIService.hasEducation (ACSAPIService.metadata record) in
          let hasIncome := ACSAPIService.hasIncome (ACSAPIService.metadata record) in
          Some
            (if hasEducation || hasIncome then <[zip := record]> processedData
             else processedData,
             {| both :=
                  if hasEducation && hasIncome then S (both statistics)
                  else both statistics;
                educationOnly :=
                  if hasEducation && hasIncome then educationOnly statistics
                  else if hasEducation then S (educationOnly statistics)
                  else educationOnly statistics;
                incomeOnly :=
                  if hasEducation && hasIncome then incomeOnly statistics
                  else if hasEducation then incomeOnly statistics
                  else if hasIncome then S (incomeOnly statistics)
                  else incomeOnly statistics;
                total := total statistics |})
      end
  end.

(** [processData (apiData)] over the entries of [apiData]: the records kept
    and [this.statistics], or [None] when the callback throws. *)
Definition processData (apiData : list (string * ACSAPIService.Found))
    : option (gmap string ACSAPIService.Payload * Statistics) :=
  match
    fold_left visit apiData
      (Some (∅, {| educationOnly := 0; incomeOnly := 0; both := 0; total := 0 |}))
  with
  | Some (processedData, statistics) =>
      Some (processedData,
            {| educationOnly := educationOnly statistics;
               incomeOnly := incomeOnly statistics;
               both := both statistics;
               total := size processedData |})
  | None => None
  end.

End ACSApplication.

(* ------------------------------------------------------------------------- *)
(** ** The ZIP code index                                                     *)
(* ------------------------------------------------------------------------- *)

Module ZIPCodeIndex.

(** A property of a record of the ZIP code file: absent, a number or a
    string. *)
Inductive Json : Type :=
| absent
| num (f : float)
| str (s : string).

(** The conversions the class leaves to the engine: [String (number)],
    [parseFloat (string)] and [parseInt (string)]. *)
Record Env : Type := {
  numberToString : float -> string;
  parseFloat : string -> float;
  parseInt : string -> float
}.

(** A record of the file.  The descriptive properties are strings, the
    empty string standing for a property that is absent. *)
Record Raw : Type := {
  rawZip : Json;
  rawZipcode : Json;
  rawLat : Json;
  rawLng : Json;
  rawCity : string;
  rawStateId : string;
  rawState : string;
  rawCountyName : string;
  rawPopulation : Json
}.

(** A value of [this.zips]. *)
Record Entry : Type := {
  zip : string;
  lat : float;
  lng : float;
  city : string;
  state_id : string;
  county_name : string;
  population : option float          (* null when the record has none *)
}.

Definition truthy (v : Json) : bool :=
  match v with
  | absent => false
  | num f => JS.truthyF f
  | str s => negb (String.eqb s "")
  end.

(** [String (v)] for a number or a string. *)
Definition text (E : Env) (v : Json) : string :=
  match v with
  | absent => ""
  | num f => numberToString E f
  | str s => s
  end.

(** [String (record.zip || record.zipcode || '').padStart (5, '0')]. *)
Definition zipOf (E : Env) (record : Raw) : string :=
  JS.padStart0 5
    (if truthy (rawZip record) then text E (rawZip record)
     else if truthy (rawZipcode record) then text E (rawZipcode record)
     else "").

(** [addRecord (record)]. *)
Definition addRecord (E : Env) (zips : list (string * Entry)) (record : Raw)
    : list (string * Entry) :=
  let zip := zipOf E record in
  if (String.length zip =? 5)%nat && truthy (rawLat record) && truthy (rawLng record)
  then
    let lat := parseFloat E (text E (rawLat record)) in
    let lng := parseFloat E (text E (rawLng record)) in
    if negb (is_nan lat) && negb (is_nan lng) then
      JS.mapSet String.eqb zip
        {| zip := zip; lat := lat; lng := lng;
           city := rawCity record;
           state_id := if negb (String.eqb (rawStateId record) "")
                       then rawStateId record else rawState record;
           county_name := rawCountyName record;
           population := if truthy (rawPopulation record)
                         then Some (parseInt E (text E (rawPopulation record)))
                         else None |}
        zips
    else zips
  else zips.

(** The array branch of [loadFromJSON]: [data.forEach (record =>
    this.addRecord (record))]. *)
Definition loadRecords (E : Env) (data : list Raw) (zips : list (string * Entry))
    : list (string * Entry) :=
  fold_left (addRecord E) data zips.

(** [get (zip)]: [None] for null. *)
Definition get (zips : list (string * Entry)) (zip : string) : option Entry :=
  JS.mapGet String.eqb (JS.padStart0 5 zip) zips.

Definition defaultExcluded : list string := ["PR"; "GU"; "VI"; "MP"; "AS"; "UM"]%string.

(** [getAllStateZips (excludeTerritories)]. *)
Definition getAllStateZips (zips : list (string * Entry)) (excludeTerritories : list string)
    : list string :=
  fold_left
    (fun (stateZips : list string) (entry : string * Entry) =>
       let (zip, data) := entry in
       if negb (String.eqb (state_id data) "")
          && negb (existsb (String.eqb (state_id data)) excludeTerritories)
       then stateZips ++ [zip]
       else stateZips)
    zips [].

End ZIPCodeIndex.

(* ------------------------------------------------------------------------- *)
(** ** Vocabulary of the statements, and example inputs                       *)
(* ------------------------------------------------------------------------- *)

Module Region.

Open Scope float_scope.

(** The marker lies in the circle of [calculateCircleStats]. *)
Definition inCircle (M : JS.MathImpl) (center : Point.t) (radiusMeters : float)
    (marker : Marker.t) : bool :=
  SpatialUtils.haversineDistance M center
    (Point.make (Marker.lat marker) (Marker.lng marker)) <=? radiusMeters.

(** The map marker carries data and lies in the band of
    [calculateDonutStats]. *)
Definition inBand (M : JS.MathImpl) (center : Point.t) (minMeters maxMeters : float)
    (marker : MapMarker.t) : bool :=
  match MapMarker.data marker with
  | None => false
  | Some _ =>
      let distance :=
        SpatialUtils.haversineDistance M
          (Point.make (Point.lat center) (Point.lng center))
          (Point.make (Point.lat (MapMarker.latlng marker))
                      (Point.lng (MapMarker.latlng marker))) in
      (minMeters <? distance) && (distance <=? maxMeters)
  end.

(** The marker satisfies at least one of the two criteria. *)
Definition flagged (marker : Marker.t) : Prop :=
  Marker.hasEducation marker || Marker.hasIncome marker = true.

Definition flaggedData (marker : MapMarker.t) : Prop :=
  forall d, MapMarker.data marker = Some d ->
            MarkerData.hasEducation d || MarkerData.hasIncome d = true.

(** The median incomes a list of income properties contributes: the
    numbers other than 0. *)
Definition present (incomes : list (option Q)) : list Q :=
  flat_map (fun o => match o with
                     | Some q => if JS.truthyQ q then [q] else []
                     | None => []
                     end) incomes.

Definition dataIncome (marker : MapMarker.t) : option Q :=
  match MapMarker.data marker with
  | Some d => MarkerData.medianIncome d
  | None => None
  end.

(** The median incomes collected over a circle, and over a band. *)
Definition circleIncomes (M : JS.MathImpl) (markers : list Marker.t) (center : Point.t)
    (radiusMeters : float) : list Q :=
  present (map Marker.medianIncome (List.filter (inCircle M center radiusMeters) markers)).

Definition bandIncomes (M : JS.MathImpl) (markers : list MapMarker.t) (center : Point.t)
    (minMeters maxMeters : float) : list Q :=
  present (map dataIncome (List.filter (inBand M center minMeters maxMeters) markers)).

(** The statistical median of a list given in ascending order; no value for
    the empty list. *)
Definition medianOf (ascending : list Q) : option Q :=
  match ascending with
  | [] => None
  | _ =>
      let n := length ascending in
      if Nat.odd n then Some (nth (n / 2) ascending 0%Q)
      else Some ((nth (n / 2 - 1) ascending 0 + nth (n / 2) ascending 0) / 2)%Q
  end.

End Region.

Module Examples.

Open Scope float_scope.

(** The Math functions by their small-angle approximations: enough to
    evaluate the examples. *)
Definition smallAngle : JS.MathImpl :=
  {| JS.sin := fun x => x;
     JS.cos := fun _ => 1;
     JS.atan2 := fun y x => y / x;
     JS.pow := fun x _ => x * x |}.

Definition origin : Point.t := Point.make 40 (-100).

(** A marker at the origin with the given flags and median income. *)
Definition markerAt (lat lng : float) (edu inc : bool) (income : option Q) : Marker.t :=
  Marker.make lat lng edu inc 1200 1500 income "Custer" "NE" "68801".

Definition mapMarkerAt (lat lng : float) (edu inc : bool) (income : option Q)
    : MapMarker.t :=
  MapMarker.make (Point.make lat lng)
    (Some (MarkerData.make edu inc 1200 1500 income "Kearney" "Custer" "NE"
             (if edu && inc then "both" else if edu then "education" else "income")))
    "68801".

Definition three : list Marker.t :=
  [ markerAt 40 (-100) true false (Some 90000%Q);
    markerAt 40 (-100) true true (Some 50000%Q);
    markerAt 40 (-100) false true (Some 70000%Q) ].

Definition threeOnMap : list MapMarker.t :=
  [ mapMarkerAt 40.01 (-100) true false (Some 90000%Q);
    mapMarkerAt 40.01 (-100) true true (Some 50000%Q);
    mapMarkerAt 40.01 (-100) false true (Some 70000%Q) ].

End Examples.

Module Rings.

(** The outer band of the weighted statistics is the outer band of the donut
    statistics. *)
Definition outerAgree (ring : RingVisualizer.Ring) : Prop :=
  RingVisualizer.outer (RingVisualizer.weightedStats ring)
  = RingVisualizer.outer (RingVisualizer.donutStats ring).

(** A visualizer in the middle of a drawing started at the origin. *)
Definition drawing : RingVisualizer.State :=
  {| RingVisualizer.markers := Examples.threeOnMap;
     RingVisualizer.isDrawing := true;
     RingVisualizer.drawingLock := true;
     RingVisualizer.tempCircle := true;
     RingVisualizer.startPoint := Some Examples.origin;
     RingVisualizer.ringCounter := 0;
     RingVisualizer.rings := [];
     RingVisualizer.ringCreationOrder := [] |}.

End Rings.

Module Direction.

Open Scope float_scope.

(** A marker qualifies for a direction by a strict inequality on the
    coordinate of that direction: W is North, S South, A West, D East. *)
Definition qualifies (key : Navigator.Key) (currentCenter : Point.t)
    (marker : MapMarker.t) : Prop :=
  match key with
  | Navigator.KeyW =>
      (Point.lat currentCenter <? Point.lat (MapMarker.latlng marker)) = true
  | Navigator.KeyS =>
      (Point.lat (MapMarker.latlng marker) <? Point.lat currentCenter) = true
  | Navigator.KeyA =>
      (Point.lng (MapMarker.latlng marker) <? Point.lng currentCenter) = true
  | Navigator.KeyD =>
      (Point.lng currentCenter <? Point.lng (MapMarker.latlng marker)) = true
  end.

(** What the search of the ring and circle visualizers holds after the
    markers [seen]: the best marker is one of them, qualifies, and no
    qualifying marker among them is closer. *)
Definition invariant (key : Navigator.Key) (c : Point.t) (seen : list MapMarker.t)
    (best : Navigator.Best) : Prop :=
  (forall b, Navigator.bestMarker best = Some b ->
             In b seen /\ Navigator.isInDirection key c b = true /\
             Navigator.bestValue best = Navigator.planar c b) /\
  (forall m, In m seen -> Navigator.isInDirection key c m = true ->
             (Navigator.planar c m <? Navigator.bestValue best) = false).

(** What the search of js/mapVisualizer.js holds after the markers [seen]:
    the best marker is one of them, away from the centre, and no marker
    among them away from the centre has a higher score. *)
Definition scoredInvariant (key : Navigator.Key) (c : Point.t)
    (seen : list MapMarker.t) (best : Navigator.Best) : Prop :=
  (forall b, Navigator.bestMarker best = Some b ->
             In b seen /\ (Navigator.planar c b =? 0) = false /\
             Navigator.bestValue best = Navigator.score key c b) /\
  (forall m, In m seen -> (Navigator.planar c m =? 0) = false ->
             (Navigator.bestValue best <? Navigator.score key c m) = false).

(** A marker with nothing but a position. *)
Definition at_ (lat lng : float) : MapMarker.t :=
  MapMarker.make (Point.make lat lng) None "".

End Direction.

Module Ranking.

Import Clusterer.

(** The cluster [mergeAdjacentCells] starts from cell [h]: the cell alone.
    Its [avgLat] and [avgLng] are read from properties of those names. *)
Definition alone (h : CellHotspot.t) : Merged :=
  ofCluster
    (Cluster.make (CellHotspot.markers h) (CellHotspot.count h)
       (CellHotspot.totalValue h) (CellHotspot.intensity h)
       (CellHotspot.get h "avgLat") (CellHotspot.get h "avgLng")).

(** The hotspot object has no property named [avgLat] or [avgLng]. *)
Definition withoutAverages (h : CellHotspot.t) : Prop :=
  CellHotspot.get h "avgLat" = JS.undefined /\
  CellHotspot.get h "avgLng" = JS.undefined.

(** A ranked list: ranks 1, 2, ..., N with N at most 50, no hotspot more
    intense than the one before it. *)
Definition ranked (hotspots : list Hotspot.t) : Prop :=
  map Hotspot.rank hotspots = seq 1 (length hotspots) /\
  (length hotspots <= 50)%nat /\
  StronglySorted
    (fun a b =>
       (intensity (Hotspot.source b) <=? intensity (Hotspot.source a))%float = true)
    hotspots.

(** An array holds fewer than 2^32 elements. *)
Definition arrayLength (n : nat) : Prop := (Z.of_nat n < 2 ^ 32)%Z.

(** The states [SpatialUtils] goes through: the one the constructor leaves,
    and the one a call of [findHotspots] on an array of markers leaves. *)
Inductive reachable : State -> Prop :=
| reachable_initial : reachable initial
| reachable_findHotspots (now : Z) (markers : list Marker.t) (st : State) :
    arrayLength (length markers) ->
    reachable st -> reachable (fst (findHotspots now markers st)).

Open Scope float_scope.

Definition flaggedAt (lat lng : float) (edu inc : bool) : Marker.t :=
  Marker.make lat lng edu inc 0 0 None "" "" "".

(** The three markers of the specification's scenario. *)
Definition scenario : list Marker.t :=
  [ flaggedAt 40.0 (-100.0) true false;
    flaggedAt 40.05 (-100.05) true true;
    flaggedAt 45.0 (-90.0) false true ].

(** Two markers far apart, one criterion each. *)
Definition farApart : list Marker.t :=
  [ flaggedAt 40.0 (-100.0) true false; flaggedAt 45.0 (-90.0) false true ].

End Ranking.

Module Service.

Import ACSAPIService.

Definition noCounters : Counters :=
  {| cacheHits := 0; cacheMisses := 0; apiCalls := 0; bytesSaved := 0 |}.

(** A fresh service whose IndexedDB could not be opened, and one whose
    store is open and empty. *)
Definition withoutStore : State :=
  {| currentProxyIndex := 0; db := None; stats := noCounters;
     memoryCache := []; requests := [] |}.

Definition withStore : State :=
  {| currentProxyIndex := 0; db := Some ∅; stats := noCounters;
     memoryCache := []; requests := [] |}.

Definition samplePayload : Payload :=
  {| data := {| Higher_Education := 1200; High_Income_Households := 800;
                Median_Income := Some 61000%Q |};
     metadata := {| name := "ZCTA5 68801"; fetchedAt := 0; hasEducation := true;
                    hasIncome := false; educationValue := 1200;
                    incomeValue := 1000; zip := "68801" |} |}.

(** The number of cache lookups counted so far. *)
Definition lookups (st : State) : nat :=
  (cacheHits (stats st) + cacheMisses (stats st))%nat.

(** No request for this batch is answered, whenever and through whichever
    proxy it is sent. *)
Definition unanswered (E : Env) (batch : list string) : Prop :=
  forall n p, http E n p batch = None.

(** Every request for this batch is answered by [body]. *)
Definition answeredBy (E : Env) (batch : list string) (body : Body) : Prop :=
  forall n p, http E n p batch = Some body.

(** Every request for this batch fails for good: it gets no answer, or an
    answer on which [parseResponse] throws. *)
Definition failing (E : Env) (now : Z) (batch : list string) : Prop :=
  unanswered E batch \/
  exists body, answeredBy E batch body /\ parseResponse E now body batch = None.

(** The [try] block of [fetchBatchFromAPI] on this batch, entered in state
    [st], ends in the [catch] block in state [st1]: the request was given
    up after the last proxy, or its answer made [parseResponse] throw. *)
Definition caught (E : Env) (now : Z) (batch : list string) (st st1 : State) : Prop :=
  fetchWithCorsFallback E (proxyCount - 1) batch st = (st1, Rejected) \/
  exists body,
    fetchWithCorsFallback E (proxyCount - 1) batch st = (st1, Fulfilled body) /\
    parseResponse E now body batch = None.

(** The batches of the requests sent from [st] to [st'], in order. *)
Definition sentBetween (st st' : State) (batches : list (list string)) : Prop :=
  exists new, requests st' = requests st ++ new /\ map snd new = batches.

(** Each batch requested in turn, as many times as [attempts] says. *)
Definition tried (batches : list (list string)) (attempts : list nat)
    : list (list string) :=
  concat (map (fun ba => repeat (fst ba) (snd ba)) (combine batches attempts)).

(** Every request gets an answer, and one [parseResponse] does not throw
    on. *)
Definition answering (E : Env) (now : Z) : Prop :=
  forall n p batch,
    exists body,
      http E n p batch = Some body /\ parseResponse E now body batch <> None.

(** The ZIP code is in neither tier of the cache. *)
Definition uncached (st : State) (zip : string) : Prop :=
  JS.mapGet String.eqb zip (memoryCache st) = None /\
  match db st with
  | None => True
  | Some store => store !! (cachePrefix ++ zip)%string = None
  end.

(** What the fetch functions leave of the state: the requests sent are
    added to the log, each for a batch satisfying [P]; the lookup counters
    and the memory cache are untouched. *)
Definition grows (P : list string -> Prop) (st st' : State) : Prop :=
  exists new,
    requests st' = requests st ++ new /\
    Forall (fun request => P (snd request)) new /\
    cacheHits (stats st') = cacheHits (stats st) /\
    cacheMisses (stats st') = cacheMisses (stats st) /\
    memoryCache st' = memoryCache st.

(** A call on a batch settles, sends requests no longer than the batch,
    leaves the store, and returns payloads of the batch only. *)
Definition contained (batch : list string) (st : State)
    (result : option (State * Outcome (gmap string Payload))) : Prop :=
  exists st' outcome,
    result = Some (st', outcome) /\
    outcome <> Pending /\
    grows (fun sent => (length sent <= length batch)%nat) st st' /\
    db st' = db st /\
    (forall found, outcome = Fulfilled found ->
       forall z, is_Some (found !! z) -> In z batch).

(** The lengths of the chunks of an array of length [n]. *)
Fixpoint sizesFrom (fuel n size : nat) : list nat :=
  match fuel with
  | O => []
  | S fuel' =>
      match n with
      | O => []
      | _ => Nat.min size n :: sizesFrom fuel' (n - size) size
      end
  end.

End Service.

Module Upstream.

Import ACSAPIService.

Open Scope N_scope.

(** The five-digit ZIP code of a number. *)
Definition digit (n : N) : ascii := ascii_of_N (48 + n mod 10).

Definition zipOf (n : N) : string :=
  String (digit (n / 10000))
    (String (digit (n / 1000))
       (String (digit (n / 100))
          (String (digit (n / 10)) (String (digit n) EmptyString)))).

(** [count] consecutive ZIP codes from 10001 on. *)
Definition zips (count : nat) : list string :=
  map (fun i => zipOf (10001 + N.of_nat i)) (seq 0 count).

Definition headers : list string :=
  ["NAME"; "B15003_022E"; "B15003_023E"; "B15003_024E"; "B15003_025E";
   "B19001_014E"; "B19001_015E"; "B19001_016E"; "B19001_017E";
   "B19013_001E"; "zip code tabulation area"]%string.

(** The table the API returns for a batch: one row per ZIP code. *)
Definition table (batch : list string) : Body :=
  rows (headers ::
        map (fun zip => ["ZCTA5"; "300"; "300"; "300"; "300"; "300"; "300"; "300";
                         "300"; "61000"; zip]%string) batch).

(** A stand-in for [parseFloat] on the cells of [table]. *)
Definition parseCell (cell : string) : option Q :=
  if String.eqb cell "300" then Some 300%Q
  else if String.eqb cell "61000" then Some 61000%Q
  else None.

Close Scope N_scope.

(** An API that answers every request. *)
Definition healthy : Env := {| http := fun _ _ batch => Some (table batch);
                               parseFloat := parseCell |}.

(** An API that fails every request for more than 5 ZIP codes, and every
    request that asks for 10007. *)
Definition flaky : Env :=
  {| http := fun _ _ batch =>
               if (5 <? length batch)%nat then None
               else if existsb (String.eqb "10007") batch then None
               else Some (table batch);
     parseFloat := parseCell |}.

(** An API that answers every request for more than 5 ZIP codes with an
    array that is no table. *)
Definition garbled : Env :=
  {| http := fun _ _ batch =>
               if (5 <? length batch)%nat then Some malformed
               else Some (table batch);
     parseFloat := parseCell |}.

(** What a call of [fetchMissingData] for [zipCodes] returned: the ZIP codes
    that got a payload, and the sizes of the requests sent so far. *)
Definition report (zipCodes : list string)
    (result : option (State * Outcome (gmap string Payload)))
    : option (list string * list nat) :=
  match result with
  | Some (st', Fulfilled found) =>
      Some (List.filter (fun z => bool_decide (is_Some (found !! z))) zipCodes,
            map (fun request => length (snd request)) (requests st'))
  | _ => None
  end.

End Upstream.

Module Durable.

Import ACSAPIService.

(** The entry [cacheData] writes for a payload at clock reading [now]. *)
Definition entryFor (now : Z) (zip : string) (data : Payload) : CacheEntry :=
  {| key := (cachePrefix ++ zip)%string; entryData := data;
     expiry := (now + cacheDuration)%Z; cachedAt := now; entryZip := zip |}.

(** The store holds what has been returned so far, and is otherwise as
    [base]. *)
Definition written (now : Z) (base : gmap string CacheEntry) (st : State)
    (results : gmap string Payload) : Prop :=
  exists store,
    db st = Some store /\
    forall z,
      store !! (cachePrefix ++ z)%string
      = match results !! z with
        | Some p => Some (entryFor now z p)
        | None => base !! (cachePrefix ++ z)%string
        end.

(** The [results] Map has one entry per key, its keys are in [P], and so
    are the [missingZips]. *)
Definition among (P : string -> Prop) (l : Lookup) : Prop :=
  List.NoDup (map fst (results l)) /\
  (forall z, In z (map fst (results l)) -> P z) /\
  (forall z, In z (missingZips l) -> P z).

(** The state and the payloads a fulfilled fetch left. *)
Definition fetched (result : option (State * Outcome (gmap string Payload)))
    : State * gmap string Payload :=
  match result with
  | Some (st', Fulfilled found) => (st', found)
  | _ => (Service.withStore, ∅)
  end.

(** The state and the [results] a fulfilled [fetchCombinedData] left. *)
Definition combined (result : option (State * Outcome (list (string * Found))))
    : State * list (string * Found) :=
  match result with
  | Some (st', Fulfilled results) => (st', results)
  | _ => (Service.withStore, [])
  end.

End Durable.

Module Members.

Import Clusterer.

(** The weights of a list of markers, summed in order from 0. *)
Definition valueSum (markers : list Marker.t) : nat :=
  fold_left (fun total m => (total + value m)%nat) markers 0%nat.

(** The cell [addToGrid] writes for a marker, from what [grid.get] found. *)
Definition grown (cellX cellY : float) (marker : Marker.t) (found : option Cell.t)
    : Cell.t :=
  let cell := match found with
              | Some cell => cell
              | None => Cell.make [] 0%nat 0 0 0%nat cellX cellY
              end in
  Cell.make (Cell.markers cell ++ [marker])
    (Cell.totalValue cell + value marker)%nat
    (Cell.avgLat cell + Marker.lat marker)%float
    (Cell.avgLng cell + Marker.lng marker)%float
    (S (Cell.count cell)) (Cell.cellX cell) (Cell.cellY cell).

(** The members of a cell or hotspot with its two tallies. *)
Definition Tally : Type := (list Marker.t * nat * nat)%type.

Definition ofCell (c : Cell.t) : Tally :=
  (Cell.markers c, Cell.count c, Cell.totalValue c).

Definition ofCellHotspot (h : CellHotspot.t) : Tally :=
  (CellHotspot.markers h, CellHotspot.count h, CellHotspot.totalValue h).

Definition ofMerged (m : Merged) : Tally := (markers m, count m, totalValue m).

(** The tallies agree with the members: [count] is their number, at least
    one, and [totalValue] is the sum of their weights. *)
Definition consistent (t : Tally) : Prop :=
  snd (fst t) = length (fst (fst t)) /\
  (1 <= snd (fst t))%nat /\
  snd t = valueSum (fst (fst t)).

End Members.

Module Shown.

(** A map with one education marker and, north of it, one income marker,
    every layer switched on. *)
Definition twoLayers : Layers.State :=
  let markers :=
    [("68801"%string, Examples.mapMarkerAt 41 (-100) true false (Some 90000%Q));
     ("68802"%string, Examples.mapMarkerAt 42 (-100) false true (Some 70000%Q))] in
  {| Layers.markers := markers;
     Layers.layerVisibility := Layers.initialVisibility;
     Layers.markerList := Layers.buildMarkerList markers Layers.initialVisibility |}.

End Shown.

Module Position.

(** [bestIndex] is the position of [bestMarker] among the markers [seen],
    and -1 when there is none. *)
Definition located (seen : list MapMarker.t) (best : Navigator.Best) : Prop :=
  match Navigator.bestMarker best with
  | Some marker =>
      exists index,
        Navigator.bestIndex best = Z.of_nat index /\
        nth_error seen index = Some marker
  | None => Navigator.bestIndex best = (-1)%Z
  end.

End Position.

Module Index.

Import ZIPCodeIndex.

(** The record passes the two tests of [addRecord]. *)
Definition valid (E : Env) (record : Raw) : bool :=
  (String.length (zipOf E record) =? 5)%nat
  && truthy (rawLat record) && truthy (rawLng record)
  && negb (is_nan (parseFloat E (text E (rawLat record))))
  && negb (is_nan (parseFloat E (text E (rawLng record)))).

(** Stand-ins for the conversions, enough for the example record. *)
Definition conversions : Env :=
  {| numberToString := fun f => if (f =? 2134)%float then "2134" else "0";
     parseFloat := fun s =>
       if String.eqb s "42.35" then 42.35%float
       else if String.eqb s "-71.06" then (-71.06)%float
       else nan;
     parseInt := fun _ => nan |}.

(** A record whose ZIP code is the number 2134. *)
Definition boston : Raw :=
  {| rawZip := num 2134; rawZipcode := absent;
     rawLat := str "42.35"; rawLng := str "-71.06";
     rawCity := "Boston"; rawStateId := "MA"; rawState := "";
     rawCountyName := "Suffolk"; rawPopulation := absent |}.

(** A record of Puerto Rico. *)
Definition sanJuan : Raw :=
  {| rawZip := str "00901"; rawZipcode := absent;
     rawLat := str "42.35"; rawLng := str "-71.06";
     rawCity := "San Juan"; rawStateId := ""; rawState := "PR";
     rawCountyName := "San Juan"; rawPopulation := absent |}.

End Index.

Module Session.

Import RingVisualizer.

(** The ring state the constructor leaves, over the markers on the map. *)
Definition initial (markers : list MapMarker.t) : State :=
  {| RingVisualizer.markers := markers; isDrawing := false; drawingLock := false;
     tempCircle := false; startPoint := None; ringCounter := 0;
     rings := []; ringCreationOrder := [] |}.

(** The markers of the map replaced, as [visualizeCombinedData] does. *)
Definition withMarkers (markers : list MapMarker.t) (st : State) : State :=
  {| RingVisualizer.markers := markers; isDrawing := isDrawing st;
     drawingLock := drawingLock st; tempCircle := tempCircle st;
     startPoint := startPoint st; ringCounter := ringCounter st;
     rings := rings st; ringCreationOrder := ringCreationOrder st |}.

(** The states of a session that starts without saved rings: rings are
    drawn, removed and cleared, and the markers may be replaced. *)
Inductive reachable : State -> Prop :=
| reachable_initial (markers : list MapMarker.t) : reachable (initial markers)
| reachable_withMarkers (markers : list MapMarker.t) (st : State) :
    reachable st -> reachable (withMarkers markers st)
| reachable_startDrawing (startLatLng : Point.t) (st : State) :
    reachable st -> reachable (startDrawing startLatLng st)
| reachable_cancelDrawing (st : State) :
    reachable st -> reachable (cancelDrawing st)
| reachable_finishDrawing (M : JS.MathImpl) (now : Z) (baseRadiusMeters : float)
    (st : State) :
    reachable st -> reachable (fst (finishDrawing M now baseRadiusMeters st))
| reachable_removeRing (ringId : Z * nat) (st : State) :
    reachable st -> reachable (removeRing ringId st)
| reachable_clearAllRings (st : State) :
    reachable st -> reachable (clearAllRings st).

(** The creation order is the key order of the ring Map, no id occurs
    twice, every ring is stored under its own id, and every id was issued
    by the counter. *)
Definition ordered (st : State) : Prop :=
  ringCreationOrder st = map fst (rings st) /\
  List.NoDup (map fst (rings st)) /\
  Forall (fun kv => id (snd kv) = fst kv) (rings st) /\
  Forall (fun kv => (snd (fst kv) < ringCounter st)%nat) (rings st).

End Session.

Module Quota.

Import ACSAPIService.

(** From [st] to [st'] at most [n] requests were sent, each counted in
    [stats.apiCalls]. *)
Definition within (n : nat) (st st' : State) : Prop :=
  exists sent,
    requests st' = requests st ++ sent /\
    (length sent <= n)%nat /\
    apiCalls (stats st') = (apiCalls (stats st) + length sent)%nat.

End Quota.

Module Atlas.

(** A ZIP code index of one entry. *)
Definition grandIsland : gmap string Visualizer.ZipRecord :=
  <["68801"%string :=
      {| Visualizer.lat := 40.92%float; Visualizer.lng := (-98.34)%float;
         Visualizer.city := "Grand Island"; Visualizer.county_name := "Hall";
         Visualizer.state_id := "NE" |}]> ∅.

End Atlas.

(* ========================================================================= *)
(** * Properties                                                               *)
(* ========================================================================= *)

(* ------------------------------------------------------------------------- *)
(** ** Sorting with a comparator                                              *)
(* ------------------------------------------------------------------------- *)

Module SortFacts.

Lemma Qltb_true (q : Q) : JS.Qltb q 0 = true <-> (q < 0)%Q.
Proof.
  unfold JS.Qltb. rewrite negb_true_iff, <- not_true_iff_false, Qle_bool_iff.
  split; intros H; [now apply Qnot_le_lt|now apply Qlt_not_le].
Qed.

Lemma Qltb_false (q : Q) : JS.Qltb q 0 = false <-> (0 <= q)%Q.
Proof.
  rewrite <- not_true_iff_false, Qltb_true. split; intros H.
  - now apply Qnot_lt_le.
  - now apply Qle_not_lt.
Qed.

Section Comparator.
Context {A : Type} (cmp : A -> A -> Q) (le : A -> A -> Prop).
Hypothesis below : forall x y, (cmp x y < 0)%Q -> le x y.
Hypothesis above : forall x y, (0 <= cmp x y)%Q -> le y x.
Hypothesis le_trans : forall x y z, le x y -> le y z -> le x z.

Lemma sortInsert_perm (x : A) (l : list A) : Permutation (x :: l) (JS.sortInsert cmp x l).
Proof.
  induction l as [|y l IH]; simpl; [reflexivity|].
  destruct (JS.Qltb (cmp x y) 0); [reflexivity|].
  rewrite perm_swap. now constructor.
Qed.

Lemma sortInsert_sorted (x : A) (l : list A) :
  StronglySorted le l -> StronglySorted le (JS.sortInsert cmp x l).
Proof.
  induction 1 as [|y l Hl IH Hy]; simpl.
  - repeat constructor.
  - destruct (JS.Qltb (cmp x y) 0) eqn:E.
    + apply Qltb_true, below in E. constructor; [now constructor|].
      constructor; [exact E|].
      eapply List.Forall_impl; [|exact Hy]. intros z Hz. now apply le_trans with y.
    + apply Qltb_false, above in E. constructor; [exact IH|].
      apply (Permutation_Forall (sortInsert_perm x l)).
      now constructor.
Qed.

Lemma sort_from_perm (l acc : list A) :
  Permutation (acc ++ l) (fold_left (fun acc x => JS.sortInsert cmp x acc) l acc).
Proof.
  revert acc. induction l as [|x l IH]; intros acc; simpl.
  - now rewrite app_nil_r.
  - rewrite <- IH, <- (sortInsert_perm x acc). simpl.
    symmetry. apply Permutation_middle.
Qed.

Lemma sort_from_sorted (l acc : list A) :
  StronglySorted le acc ->
  StronglySorted le (fold_left (fun acc x => JS.sortInsert cmp x acc) l acc).
Proof.
  revert acc. induction l as [|x l IH]; intros acc Hacc; simpl; [exact Hacc|].
  apply IH, sortInsert_sorted, Hacc.
Qed.

Lemma sort_sorted (l : list A) : StronglySorted le (JS.sort cmp l).
Proof. apply sort_from_sorted. constructor. Qed.

Lemma sort_perm (l : list A) : Permutation l (JS.sort cmp l).
Proof. apply (sort_from_perm l []). Qed.

End Comparator.

(** [sort ((a, b) => a - b)] puts numbers in ascending order. *)
Lemma ascending_sorted (l : list Q) :
  StronglySorted Qle (JS.sort (fun a b => (a - b)%Q) l).
Proof.
  apply sort_sorted.
  - intros x y H. lra.
  - intros x y H. lra.
  - intros x y z. apply Qle_trans.
Qed.

Lemma ascending_perm (l : list Q) : Permutation l (JS.sort (fun a b => (a - b)%Q) l).
Proof. apply sort_perm. Qed.

(** *** Comparators that return a binary64 number *)

Lemma sortInsertF_perm {A : Type} (cmp : A -> A -> float) (x : A) (l : list A) :
  Permutation (x :: l) (JS.sortInsertF cmp x l).
Proof.
  induction l as [|y l IH]; simpl; [reflexivity|].
  destruct (cmp x y <? 0)%float; [reflexivity|].
  rewrite perm_swap. now apply perm_skip.
Qed.

Lemma sortF_from_perm {A : Type} (cmp : A -> A -> float) (l acc : list A) :
  Permutation (acc ++ l) (fold_left (fun acc x => JS.sortInsertF cmp x acc) l acc).
Proof.
  revert acc. induction l as [|x l IH]; intros acc; simpl.
  - now rewrite app_nil_r.
  - rewrite <- IH. rewrite <- sortInsertF_perm.
    symmetry. apply Permutation_middle.
Qed.

(** Sorting permutes, whatever the comparator. *)
Lemma sortF_perm {A : Type} (cmp : A -> A -> float) (l : list A) :
  Permutation l (JS.sortF cmp l).
Proof. apply (sortF_from_perm cmp l []). Qed.

(** Sorting orders the elements on which the comparator is consistent with
    an order: those that satisfy [P]. *)
Section FloatComparator.
Context {A : Type} (cmp : A -> A -> float) (le : A -> A -> Prop) (P : A -> Prop).
Hypothesis below : forall x y, P x -> P y -> (cmp x y <? 0)%float = true -> le x y.
Hypothesis above : forall x y, P x -> P y -> (cmp x y <? 0)%float = false -> le y x.
Hypothesis le_trans : forall x y z, le x y -> le y z -> le x z.

Lemma sortInsertF_sorted (x : A) (l : list A) :
  P x -> Forall P l -> StronglySorted le l ->
  StronglySorted le (JS.sortInsertF cmp x l).
Proof.
  intros Hx Hl Hs. induction Hs as [|y l Hs IH Hy]; simpl.
  - repeat constructor.
  - inversion Hl as [|? ? Py Pl]; subst.
    destruct (cmp x y <? 0)%float eqn:E.
    + apply (below x y Hx Py) in E. constructor; [now constructor|].
      constructor; [exact E|].
      eapply List.Forall_impl; [|exact Hy]. intros z Hz. now apply le_trans with y.
    + apply (above x y Hx Py) in E. constructor; [exact (IH Pl)|].
      apply (Permutation_Forall (sortInsertF_perm cmp x l)).
      now constructor.
Qed.

Lemma sortF_from_sorted (l acc : list A) :
  Forall P l -> Forall P acc -> StronglySorted le acc ->
  StronglySorted le (fold_left (fun acc x => JS.sortInsertF cmp x acc) l acc).
Proof.
  intros Hl. revert acc. induction Hl as [|x l Hx Hl IH]; intros acc Pacc Hacc; simpl;
    [exact Hacc|].
  apply IH.
  - apply (Permutation_Forall (sortInsertF_perm cmp x acc)). now constructor.
  - now apply sortInsertF_sorted.
Qed.

Lemma sortF_sorted (l : list A) : Forall P l -> StronglySorted le (JS.sortF cmp l).
Proof. intros Hl. apply sortF_from_sorted; [exact Hl|constructor|constructor]. Qed.

End FloatComparator.

End SortFacts.

Module CircleFacts.

Import SpatialUtils.

Section Loop.
Variables (M : JS.MathImpl) (center : Point.t) (radiusMeters : float).

Lemma visit_outside (s : Stats) (m : Marker.t) :
  Region.inCircle M center radiusMeters m = false ->
  visit M center radiusMeters s m = s.
Proof. unfold visit, Region.inCircle. now intros ->. Qed.

Lemma visit_inside (s : Stats) (m : Marker.t) :
  Region.inCircle M center radiusMeters m = true ->
  let s' := visit M center radiusMeters s m in
  totalMarkers s' = S (totalMarkers s) /\
  medianIncomes s' = medianIncomes s ++ Region.present [Marker.medianIncome m] /\
  ((educationOnly s' + incomeOnly s' + bothCriteria s')%nat =
   (educationOnly s + incomeOnly s + bothCriteria s
    + (if Marker.hasEducation m || Marker.hasIncome m then 1 else 0))%nat).
Proof.
  unfold visit, Region.inCircle. intros ->. simpl. split; [reflexivity|]. split.
  - destruct (Marker.medianIncome m) as [q|]; [destruct (JS.truthyQ q)|];
      simpl; now rewrite ?app_nil_r.
  - destruct (Marker.hasEducation m), (Marker.hasIncome m); simpl; lia.
Qed.

(** What the loop of [calculateCircleStats] has accumulated after a list of
    markers. *)
Lemma loop_invariant (l : list Marker.t) (s : Stats) :
  let s' := fold_left (visit M center radiusMeters) l s in
  totalMarkers s' =
    (totalMarkers s + length (List.filter (Region.inCircle M center radiusMeters) l))%nat /\
  medianIncomes s' =
    medianIncomes s ++
    Region.present (map Marker.medianIncome
                      (List.filter (Region.inCircle M center radiusMeters) l)) /\
  (Forall Region.flagged l ->
   (educationOnly s + incomeOnly s + bothCriteria s = totalMarkers s)%nat ->
   (educationOnly s' + incomeOnly s' + bothCriteria s' = totalMarkers s')%nat).
Proof.
  revert s. induction l as [|m l IH]; intros s; simpl.
  - rewrite Nat.add_0_r, app_nil_r. auto.
  - destruct (IH (visit M center radiusMeters s m)) as (Ht & Hm & Hc).
    destruct (Region.inCircle M center radiusMeters m) eqn:E.
    + destruct (visit_inside s m E) as (Vt & Vm & Vc). split; [|split].
      * rewrite Ht, Vt. simpl. lia.
      * rewrite Hm, Vm. unfold Region.present. simpl.
        now rewrite app_nil_r, <- app_assoc.
      * intros Hall Hs. inversion Hall as [|? ? Hf Hl]; subst.
        apply Hc; [exact Hl|]. rewrite Vc, Vt. unfold Region.flagged in Hf.
        rewrite Hf. lia.
    + rewrite (visit_outside s m E) in *. split; [exact Ht|]. split; [exact Hm|].
      intros Hall Hs. inversion Hall; subst. now apply Hc.
Qed.

End Loop.

Lemma parity_test (n : nat) : (n mod 2 =? 0)%nat = negb (Nat.odd n).
Proof.
  rewrite <- Nat.negb_even, negb_involutive.
  destruct (Nat.even n) eqn:Ev.
  - apply Nat.even_spec in Ev. destruct Ev as [k Hk].
    apply Nat.eqb_eq. rewrite Hk, Nat.mul_comm. apply Nat.Div0.mod_mul.
  - apply Nat.eqb_neq. intros H0.
    apply Nat.Div0.mod_divides in H0. destruct H0 as [k Hk].
    assert (Nat.even n = true) by (apply Nat.even_spec; now exists k).
    congruence.
Qed.

(** The value lines 258-263 assign, against the statistical median. *)
Lemma median_assigned (l sorted : list Q) :
  length sorted = length l ->
  (if (0 <? length l)%nat then Some (medianOfSorted sorted) else None)
  = Region.medianOf sorted.
Proof.
  intros Hlen. rewrite <- Hlen. unfold Region.medianOf, medianOfSorted.
  destruct sorted as [|q t]; [reflexivity|].
  set (n := length (q :: t)). rewrite parity_test.
  replace (0 <? n)%nat with true by (symmetry; apply Nat.ltb_lt; subst n; simpl; lia).
  now destruct (Nat.odd n).
Qed.

(** The array [finish] leaves is the collected values in ascending order,
    and the median it assigns is their statistical median. *)
Lemma finish_median (M : JS.MathImpl) (r : float) (s : Stats) :
  let sorted := JS.sort (fun a b => (a - b)%Q) (medianIncomes s) in
  Permutation (medianIncomes s) sorted /\
  StronglySorted Qle sorted /\
  medianIncome (finish M r s) = Region.medianOf sorted.
Proof.
  intros sorted.
  pose proof (SortFacts.ascending_perm (medianIncomes s)) as Hp.
  pose proof (SortFacts.ascending_sorted (medianIncomes s)) as Ha.
  fold sorted in Hp, Ha. split; [exact Hp|]. split; [exact Ha|].
  unfold finish. fold sorted. cbn [medianIncome].
  apply median_assigned. symmetry. now apply Permutation_length.
Qed.

End CircleFacts.

Module DonutFacts.

Import RingVisualizer.

Section Loop.
Variables (M : JS.MathImpl) (center : Point.t) (minMeters maxMeters : float).

Lemma band_visit_outside (s : Stats) (m : MapMarker.t) :
  Region.inBand M center minMeters maxMeters m = false ->
  visit M center minMeters maxMeters s m = s.
Proof.
  unfold visit, Region.inBand. destruct (MapMarker.data m); [|reflexivity].
  now intros ->.
Qed.

Lemma band_visit_inside (s : Stats) (m : MapMarker.t) :
  Region.inBand M center minMeters maxMeters m = true ->
  let s' := visit M center minMeters maxMeters s m in
  totalMarkers s' = S (totalMarkers s) /\
  medianIncomes s' = medianIncomes s ++ Region.present [Region.dataIncome m] /\
  (Region.flaggedData m ->
   (educationOnly s' + incomeOnly s' + bothCriteria s')%nat =
   S (educationOnly s + incomeOnly s + bothCriteria s)).
Proof.
  unfold visit, Region.inBand, Region.dataIncome, Region.flaggedData.
  destruct (MapMarker.data m) as [d|]; [|discriminate].
  intros ->. simpl. split; [reflexivity|]. split.
  - destruct (MarkerData.medianIncome d) as [q|]; [destruct (JS.truthyQ q)|];
      simpl; now rewrite ?app_nil_r.
  - intros Hf. specialize (Hf d eq_refl).
    destruct (MarkerData.hasEducation d), (MarkerData.hasIncome d); simpl in *;
      try discriminate; lia.
Qed.

Lemma band_loop_invariant (l : list MapMarker.t) (s : Stats) :
  let s' := fold_left (visit M center minMeters maxMeters) l s in
  totalMarkers s' =
    (totalMarkers s
     + length (List.filter (Region.inBand M center minMeters maxMeters) l))%nat /\
  medianIncomes s' =
    medianIncomes s ++
    Region.present (map Region.dataIncome
                      (List.filter (Region.inBand M center minMeters maxMeters) l)) /\
  (Forall Region.flaggedData l ->
   (educationOnly s + incomeOnly s + bothCriteria s = totalMarkers s)%nat ->
   (educationOnly s' + incomeOnly s' + bothCriteria s' = totalMarkers s')%nat).
Proof.
  revert s. induction l as [|m l IH]; intros s; simpl.
  - rewrite Nat.add_0_r, app_nil_r. auto.
  - destruct (IH (visit M center minMeters maxMeters s m)) as (Ht & Hm & Hc).
    destruct (Region.inBand M center minMeters maxMeters m) eqn:E.
    + destruct (band_visit_inside s m E) as (Vt & Vm & Vc). split; [|split].
      * rewrite Ht, Vt. simpl. lia.
      * rewrite Hm, Vm. unfold Region.present. simpl.
        now rewrite app_nil_r, <- app_assoc.
      * intros Hall Hs. inversion Hall as [|? ? Hf Hl]; subst.
        apply Hc; [exact Hl|]. rewrite (Vc Hf), Vt. lia.
    + rewrite (band_visit_outside s m E) in *. split; [exact Ht|]. split; [exact Hm|].
      intros Hall Hs. inversion Hall; subst. now apply Hc.
Qed.

End Loop.

Lemma band_finish_median (s : Stats) :
  let sorted := JS.sort (fun a b => (a - b)%Q) (medianIncomes s) in
  Permutation (medianIncomes s) sorted /\
  StronglySorted Qle sorted /\
  medianIncome (finish s) = Region.medianOf sorted.
Proof.
  intros sorted.
  pose proof (SortFacts.ascending_perm (medianIncomes s)) as Hp.
  pose proof (SortFacts.ascending_sorted (medianIncomes s)) as Ha.
  fold sorted in Hp, Ha. split; [exact Hp|]. split; [exact Ha|].
  unfold finish. fold sorted. cbn [medianIncome].
  apply CircleFacts.median_assigned. symmetry. now apply Permutation_length.
Qed.

End DonutFacts.

(* ------------------------------------------------------------------------- *)
(** ** The statistical aggregator                                             *)
(* ------------------------------------------------------------------------- *)

(** C1. When every marker satisfies at least one criterion (markers with
    neither are dropped upstream), the statistics of a circle and of a band
    satisfy educationOnly + incomeOnly + bothCriteria = totalMarkers, and
    totalMarkers is the number of markers inside the region. *)
Theorem categories_sum_to_total (M : JS.MathImpl)
    (markers : list Marker.t) (mapMarkers : list MapMarker.t)
    (center : Point.t) (radiusMeters minMeters maxMeters : float) :
  Forall Region.flagged markers ->
  Forall Region.flaggedData mapMarkers ->
  let circle := SpatialUtils.calculateCircleStats M markers center radiusMeters in
  let donut :=
    RingVisualizer.calculateDonutStats M mapMarkers center minMeters maxMeters in
  (SpatialUtils.educationOnly circle + SpatialUtils.incomeOnly circle
   + SpatialUtils.bothCriteria circle = SpatialUtils.totalMarkers circle)%nat /\
  SpatialUtils.totalMarkers circle
  = length (List.filter (Region.inCircle M center radiusMeters) markers) /\
  (RingVisualizer.educationOnly donut + RingVisualizer.incomeOnly donut
   + RingVisualizer.bothCriteria donut = RingVisualizer.totalMarkers donut)%nat /\
  RingVisualizer.totalMarkers donut
  = length (List.filter (Region.inBand M center minMeters maxMeters) mapMarkers).
Proof.
  intros Hm Hd circle donut. subst circle donut.
  unfold SpatialUtils.calculateCircleStats, RingVisualizer.calculateDonutStats.
  destruct (CircleFacts.loop_invariant M center radiusMeters markers
              SpatialUtils.emptyStats) as (Ct & _ & Cc).
  destruct (DonutFacts.band_loop_invariant M center minMeters maxMeters mapMarkers
              RingVisualizer.emptyStats) as (Dt & _ & Dc).
  specialize (Cc Hm eq_refl). specialize (Dc Hd eq_refl).
  cbn [SpatialUtils.finish SpatialUtils.totalMarkers SpatialUtils.educationOnly
       SpatialUtils.incomeOnly SpatialUtils.bothCriteria
       RingVisualizer.finish RingVisualizer.totalMarkers RingVisualizer.educationOnly
       RingVisualizer.incomeOnly RingVisualizer.bothCriteria].
  repeat split; [exact Cc | exact Ct | exact Dc | exact Dt].
Qed.

Lemma categories_sum_to_total_witness :
  let circle := SpatialUtils.calculateCircleStats Examples.smallAngle Examples.three
                  Examples.origin 1000 in
  let donut := RingVisualizer.calculateDonutStats Examples.smallAngle
                 Examples.threeOnMap Examples.origin 0 8046.7 in
  (SpatialUtils.educationOnly circle + SpatialUtils.incomeOnly circle
   + SpatialUtils.bothCriteria circle = SpatialUtils.totalMarkers circle)%nat /\
  SpatialUtils.totalMarkers circle = 3%nat /\
  (RingVisualizer.educationOnly donut + RingVisualizer.incomeOnly donut
   + RingVisualizer.bothCriteria donut = RingVisualizer.totalMarkers donut)%nat /\
  RingVisualizer.totalMarkers donut = 3%nat.
Proof.
  apply (categories_sum_to_total Examples.smallAngle Examples.three
           Examples.threeOnMap Examples.origin 1000 0 8046.7).
  - repeat constructor.
  - repeat constructor; intros d [= <-]; reflexivity.
Defined.

(** Without the assumption the sum falls short: a marker with neither flag
    is counted in totalMarkers and in no category. *)
Example unflagged_marker_is_counted_in_total_only :
  let circle :=
    SpatialUtils.calculateCircleStats Examples.smallAngle
      [Examples.markerAt 40 (-100) false false None] Examples.origin 1000 in
  SpatialUtils.totalMarkers circle = 1%nat /\
  (SpatialUtils.educationOnly circle + SpatialUtils.incomeOnly circle
   + SpatialUtils.bothCriteria circle = 0)%nat.
Proof. split; reflexivity. Qed.

(** C3.  The reported medianIncome is the statistical median of the median
    incomes collected over the region: the collected values are put in
    ascending order, the middle one is taken for an odd count and the
    average of the two middle ones for an even count, so that 50000, 70000,
    90000 give 70000 and 50000, 90000 give 70000.  When no value was
    collected the result holds no medianIncome: the property is never
    assigned. *)
Theorem median_income_is_statistical_median (M : JS.MathImpl)
    (markers : list Marker.t) (mapMarkers : list MapMarker.t)
    (center : Point.t) (radiusMeters minMeters maxMeters : float) :
  let circle := SpatialUtils.calculateCircleStats M markers center radiusMeters in
  let donut :=
    RingVisualizer.calculateDonutStats M mapMarkers center minMeters maxMeters in
  (exists ascending : list Q,
      Permutation (Region.circleIncomes M markers center radiusMeters) ascending /\
      StronglySorted Qle ascending /\
      SpatialUtils.medianIncome circle = Region.medianOf ascending) /\
  (exists ascending : list Q,
      Permutation (Region.bandIncomes M mapMarkers center minMeters maxMeters) ascending /\
      StronglySorted Qle ascending /\
      RingVisualizer.medianIncome donut = Region.medianOf ascending) /\
  (Region.circleIncomes M markers center radiusMeters = [] ->
   SpatialUtils.medianIncome circle = None) /\
  (Region.bandIncomes M mapMarkers center minMeters maxMeters = [] ->
   RingVisualizer.medianIncome donut = None) /\
  (SpatialUtils.medianOfSorted (JS.sort (fun a b => a - b) [50000; 70000; 90000])
   == 70000)%Q /\
  (SpatialUtils.medianOfSorted (JS.sort (fun a b => a - b) [50000; 90000])
   == 70000)%Q.
Proof.
  intros circle donut.
  destruct (CircleFacts.loop_invariant M center radiusMeters markers
              SpatialUtils.emptyStats) as (_ & Cm & _).
  destruct (DonutFacts.band_loop_invariant M center minMeters maxMeters mapMarkers
              RingVisualizer.emptyStats) as (_ & Dm & _).
  simpl in Cm, Dm. fold (Region.circleIncomes M markers center radiusMeters) in Cm.
  fold (Region.bandIncomes M mapMarkers center minMeters maxMeters) in Dm.
  destruct (CircleFacts.finish_median M radiusMeters
              (fold_left (SpatialUtils.visit M center radiusMeters) markers
                 SpatialUtils.emptyStats)) as (Cp & Ca & Ce).
  destruct (DonutFacts.band_finish_median
              (fold_left (RingVisualizer.visit M center minMeters maxMeters) mapMarkers
                 RingVisualizer.emptyStats)) as (Dp & Da & De).
  rewrite Cm in Cp, Ca, Ce. rewrite Dm in Dp, Da, De.
  repeat split.
  - eexists. split; [exact Cp|]. split; [exact Ca|exact Ce].
  - eexists. split; [exact Dp|]. split; [exact Da|exact De].
  - intros Hnil. subst circle. unfold SpatialUtils.calculateCircleStats.
    rewrite Ce, Hnil. reflexivity.
  - intros Hnil. subst donut. unfold RingVisualizer.calculateDonutStats.
    rewrite De, Hnil. reflexivity.
Qed.

(** The two scenarios of the specification, through the functions. *)
Example median_of_three :
  SpatialUtils.medianIncome
    (SpatialUtils.calculateCircleStats Examples.smallAngle Examples.three
       Examples.origin 1000) = Some 70000%Q /\
  RingVisualizer.medianIncome
    (RingVisualizer.calculateDonutStats Examples.smallAngle Examples.threeOnMap
       Examples.origin 0 8046.7) = Some 70000%Q.
Proof. split; reflexivity. Qed.

Example median_of_two :
  option_map Qred
    (SpatialUtils.medianIncome
       (SpatialUtils.calculateCircleStats Examples.smallAngle
          (firstn 2 Examples.three) Examples.origin 1000)) = Some 70000%Q.
Proof. reflexivity. Qed.

(** No marker at all: neither aggregator reports a median income. *)
Example median_of_nothing :
  SpatialUtils.medianIncome
    (SpatialUtils.calculateCircleStats Examples.smallAngle [] Examples.origin 1000)
  = None /\
  RingVisualizer.medianIncome
    (RingVisualizer.calculateDonutStats Examples.smallAngle [] Examples.origin 0 8046.7)
  = None.
Proof. split; reflexivity. Qed.

Lemma present_nonzero (incomes : list (option Q)) :
  Forall (fun q => ~ (q == 0)%Q) (Region.present incomes).
Proof.
  unfold Region.present. induction incomes as [|o l IH]; simpl; [constructor|].
  destruct o as [q|]; [|exact IH].
  destruct (JS.truthyQ q) eqn:E; [|exact IH].
  simpl. constructor; [|exact IH].
  unfold JS.truthyQ in E. apply negb_true_iff in E.
  intros H0. apply Qeq_bool_iff in H0. congruence.
Qed.

Lemma present_none (incomes : list (option Q)) :
  Forall (fun o => JS.truthy o = false) incomes -> Region.present incomes = [].
Proof.
  unfold Region.present. induction 1 as [|o l Ho Hl IH]; simpl; [reflexivity|].
  rewrite IH. destruct o as [q|]; [|reflexivity].
  simpl in Ho. now rewrite Ho.
Qed.

Lemma sorted_when_filled (b : bool) (l : list Q) :
  Permutation l (if b then JS.sort (fun x y => (x - y)%Q) l else l).
Proof. destruct b; [apply SortFacts.ascending_perm|reflexivity]. Qed.

(** C10.  Only the median incomes that are truthy (a number other than 0)
    are collected, in a circle and in a band: the array that is sorted holds
    exactly those values, and none of them is 0.  A region all of whose
    members report 0, null or nothing yields statistics without a
    medianIncome property: it reads as undefined, not as 0. *)
Theorem falsy_median_income_is_left_out (M : JS.MathImpl)
    (markers : list Marker.t) (mapMarkers : list MapMarker.t)
    (center : Point.t) (radiusMeters minMeters maxMeters : float) :
  let circle := SpatialUtils.calculateCircleStats M markers center radiusMeters in
  let donut :=
    RingVisualizer.calculateDonutStats M mapMarkers center minMeters maxMeters in
  let inCircle := List.filter (Region.inCircle M center radiusMeters) markers in
  let inBand := List.filter (Region.inBand M center minMeters maxMeters) mapMarkers in
  Permutation (Region.present (map Marker.medianIncome inCircle))
    (SpatialUtils.medianIncomes circle) /\
  Forall (fun q => ~ (q == 0)%Q) (SpatialUtils.medianIncomes circle) /\
  Permutation (Region.present (map Region.dataIncome inBand))
    (RingVisualizer.medianIncomes donut) /\
  Forall (fun q => ~ (q == 0)%Q) (RingVisualizer.medianIncomes donut) /\
  (Forall (fun m => JS.truthy (Marker.medianIncome m) = false) inCircle ->
   SpatialUtils.medianIncome circle = None /\
   JS.read (SpatialUtils.medianIncome circle) = JS.undefined) /\
  (Forall (fun m => JS.truthy (Region.dataIncome m) = false) inBand ->
   RingVisualizer.medianIncome donut = None /\
   JS.read (RingVisualizer.medianIncome donut) = JS.undefined).
Proof.
  intros circle donut inCircle inBand.
  destruct (CircleFacts.loop_invariant M center radiusMeters markers
              SpatialUtils.emptyStats) as (_ & Cm & _).
  destruct (DonutFacts.band_loop_invariant M center minMeters maxMeters mapMarkers
              RingVisualizer.emptyStats) as (_ & Dm & _).
  simpl in Cm, Dm. fold inCircle in Cm. fold inBand in Dm.
  assert (Cs : SpatialUtils.medianIncomes circle
               = if (0 <? length (Region.present (map Marker.medianIncome inCircle)))%nat
                 then JS.sort (fun a b => (a - b)%Q)
                        (Region.present (map Marker.medianIncome inCircle))
                 else Region.present (map Marker.medianIncome inCircle)).
  { subst circle. unfold SpatialUtils.calculateCircleStats, SpatialUtils.finish.
    cbn [SpatialUtils.medianIncomes]. now rewrite Cm. }
  assert (Ds : RingVisualizer.medianIncomes donut
               = if (0 <? length (Region.present (map Region.dataIncome inBand)))%nat
                 then JS.sort (fun a b => (a - b)%Q)
                        (Region.present (map Region.dataIncome inBand))
                 else Region.present (map Region.dataIncome inBand)).
  { subst donut. unfold RingVisualizer.calculateDonutStats, RingVisualizer.finish.
    cbn [RingVisualizer.medianIncomes]. now rewrite Dm. }
  assert (Cp : Permutation (Region.present (map Marker.medianIncome inCircle))
                 (SpatialUtils.medianIncomes circle)).
  { rewrite Cs. apply sorted_when_filled. }
  assert (Dp : Permutation (Region.present (map Region.dataIncome inBand))
                 (RingVisualizer.medianIncomes donut)).
  { rewrite Ds. apply sorted_when_filled. }
  split; [exact Cp|]. split.
  { apply (Permutation_Forall Cp), present_nonzero. }
  split; [exact Dp|]. split.
  { apply (Permutation_Forall Dp), present_nonzero. }
  split.
  - intros Hall.
    assert (E : SpatialUtils.medianIncome circle = None).
    { subst circle. unfold SpatialUtils.calculateCircleStats, SpatialUtils.finish.
      cbn [SpatialUtils.medianIncome]. rewrite Cm, present_none; [reflexivity|].
      now apply Forall_map. }
    now rewrite E.
  - intros Hall.
    assert (E : RingVisualizer.medianIncome donut = None).
    { subst donut. unfold RingVisualizer.calculateDonutStats, RingVisualizer.finish.
      cbn [RingVisualizer.medianIncome]. rewrite Dm, present_none; [reflexivity|].
      now apply Forall_map. }
    now rewrite E.
Qed.

(** A region whose three members all report a median income of 0. *)
Example all_zero_incomes :
  let zeros := map (fun m => Examples.markerAt (Marker.lat m) (Marker.lng m)
                               (Marker.hasEducation m) (Marker.hasIncome m) (Some 0%Q))
                 Examples.three in
  let circle := SpatialUtils.calculateCircleStats Examples.smallAngle zeros
                  Examples.origin 1000 in
  SpatialUtils.totalMarkers circle = 3%nat /\
  SpatialUtils.medianIncomes circle = [] /\
  JS.read (SpatialUtils.medianIncome circle) = JS.undefined.
Proof. repeat split. Qed.

(* ------------------------------------------------------------------------- *)
(** ** Rings                                                                  *)
(* ------------------------------------------------------------------------- *)

Lemma buildRing_outerAgree (M : JS.MathImpl) (now : Z) (st : RingVisualizer.State)
    (center : Point.t) : Rings.outerAgree (RingVisualizer.buildRing M now st center).
Proof. reflexivity. Qed.

(** C8.  For every ring [finishDrawing] creates, over every set of markers,
    the outer band of the weighted statistics equals the outer band of the
    donut statistics: both are the statistics of the band from the middle
    radius to the outer radius, 10 to 25 miles. *)
Theorem weighted_outer_is_donut_outer (M : JS.MathImpl) (now : Z)
    (baseRadiusMeters : float) (st st' : RingVisualizer.State)
    (ring : RingVisualizer.Ring) :
  RingVisualizer.finishDrawing M now baseRadiusMeters st = (st', Some ring) ->
  RingVisualizer.outer (RingVisualizer.weightedStats ring)
  = RingVisualizer.outer (RingVisualizer.donutStats ring) /\
  RingVisualizer.outer (RingVisualizer.weightedStats ring)
  = RingVisualizer.calculateDonutStats M (RingVisualizer.markers st)
      (RingVisualizer.center ring) (10 * 1609.34)%float (25 * 1609.34)%float /\
  RingVisualizer.outer (RingVisualizer.donutStats ring)
  = RingVisualizer.calculateDonutStats M (RingVisualizer.markers st)
      (RingVisualizer.center ring)
      (RingVisualizer.middleMeters (RingVisualizer.radii ring))
      (RingVisualizer.outerMeters (RingVisualizer.radii ring)).
Proof.
  unfold RingVisualizer.finishDrawing.
  destruct (RingVisualizer.startPoint st) as [c|]; [|discriminate].
  destruct (RingVisualizer.isDrawing st && RingVisualizer.tempCircle st);
    [|discriminate].
  intros [= _ <-]. repeat split.
Qed.

Lemma weighted_outer_is_donut_outer_witness :
  let ring := RingVisualizer.buildRing Examples.smallAngle 1700000000000 Rings.drawing
                Examples.origin in
  RingVisualizer.outer (RingVisualizer.weightedStats ring)
  = RingVisualizer.outer (RingVisualizer.donutStats ring) /\
  RingVisualizer.outer (RingVisualizer.weightedStats ring)
  = RingVisualizer.calculateDonutStats Examples.smallAngle
      (RingVisualizer.markers Rings.drawing)
      (RingVisualizer.center ring) (10 * 1609.34)%float (25 * 1609.34)%float /\
  RingVisualizer.outer (RingVisualizer.donutStats ring)
  = RingVisualizer.calculateDonutStats Examples.smallAngle
      (RingVisualizer.markers Rings.drawing)
      (RingVisualizer.center ring)
      (RingVisualizer.middleMeters (RingVisualizer.radii ring))
      (RingVisualizer.outerMeters (RingVisualizer.radii ring)).
Proof.
  exact (weighted_outer_is_donut_outer Examples.smallAngle 1700000000000 250%float
           Rings.drawing _ _ eq_refl).
Defined.

Module RingFacts.

Lemma mapSet_Forall {K V : Type} (eqb : K -> K -> bool) (P : K * V -> Prop)
    (k : K) (v : V) (m : list (K * V)) :
  P (k, v) -> Forall P m -> Forall P (JS.mapSet eqb k v m).
Proof.
  intros Hkv. induction 1 as [|[k' v'] m Hx Hm IH]; simpl.
  - now repeat constructor.
  - destruct (eqb k k'); constructor; auto.
Qed.

(** The rings kept by the visualizer all have agreeing outer bands, as long
    as the records read back from storage have. *)
Lemma rings_outerAgree_finishDrawing (M : JS.MathImpl) (now : Z) (r : float)
    (st : RingVisualizer.State) :
  Forall (fun kv => Rings.outerAgree (snd kv)) (RingVisualizer.rings st) ->
  Forall (fun kv => Rings.outerAgree (snd kv))
    (RingVisualizer.rings (fst (RingVisualizer.finishDrawing M now r st))).
Proof.
  intros H. unfold RingVisualizer.finishDrawing.
  destruct (RingVisualizer.startPoint st) as [c|]; [|exact H].
  destruct (RingVisualizer.isDrawing st && RingVisualizer.tempCircle st); [|exact H].
  simpl. apply mapSet_Forall; [reflexivity|exact H].
Qed.

Lemma rings_outerAgree_recreateRing (saved : RingVisualizer.Ring)
    (st : RingVisualizer.State) :
  Rings.outerAgree saved ->
  Forall (fun kv => Rings.outerAgree (snd kv)) (RingVisualizer.rings st) ->
  Forall (fun kv => Rings.outerAgree (snd kv))
    (RingVisualizer.rings (RingVisualizer.recreateRing saved st)).
Proof.
  intros Hs H. unfold RingVisualizer.recreateRing. simpl.
  apply mapSet_Forall; [exact Hs|exact H].
Qed.

End RingFacts.

(** *** Upstream of the aggregator: only flagged records become markers *)

Module VisualizerFacts.

Import Visualizer.

Lemma prepare_flagged (zipData : gmap string ZipRecord)
    (entry : string * ACSAPIService.Found) (dataPoints : list DataPoint) :
  Forall (fun p => hasEducation p || hasIncome p = true) dataPoints ->
  Forall (fun p => hasEducation p || hasIncome p = true)
    (prepare zipData dataPoints entry).
Proof.
  intros H. unfold prepare. destruct entry as [zip acsRecord].
  destruct (zipData !! zip) as [zipRecord|]; [|exact H].
  destruct acsRecord as [p|e]; [|exact H].
  destruct (ACSAPIService.hasEducation (ACSAPIService.metadata p)) eqn:Ee,
           (ACSAPIService.hasIncome (ACSAPIService.metadata p)) eqn:Ei;
    simpl; try exact H; apply Forall_app; (split; [exact H|]);
    repeat constructor.
Qed.

Lemma prepareDataPoints_flagged (zipData : gmap string ZipRecord)
    (acsData : list (string * ACSAPIService.Found)) :
  Forall (fun p => hasEducation p || hasIncome p = true)
    (prepareDataPoints zipData acsData).
Proof.
  unfold prepareDataPoints.
  assert (H : forall dataPoints,
             Forall (fun p => hasEducation p || hasIncome p = true) dataPoints ->
             Forall (fun p => hasEducation p || hasIncome p = true)
               (fold_left (prepare zipData) acsData dataPoints)).
  { induction acsData as [|entry acsData IH]; intros dataPoints Hd; simpl; [exact Hd|].
    apply IH, prepare_flagged, Hd. }
  apply H. constructor.
Qed.

Lemma createMarker_flagged (point : DataPoint) (marker : MapMarker.t) :
  hasEducation point || hasIncome point = true ->
  createMarker point = Some marker -> Region.flaggedData marker.
Proof.
  intros Hf. unfold createMarker.
  destruct (negb (JS.truthyF (pointLat point)) || negb (JS.truthyF (pointLng point)));
    [discriminate|].
  intros [= <-] d [= <-]. exact Hf.
Qed.

(** Every marker [visualizeCombinedData] puts on the map satisfies at least
    one criterion. *)
Lemma markers_flagged (zipData : gmap string ZipRecord)
    (acsData : list (string * ACSAPIService.Found)) :
  Forall (fun entry => Region.flaggedData (snd entry))
    (visualizeCombinedData zipData acsData).
Proof.
  unfold visualizeCombinedData.
  pose proof (prepareDataPoints_flagged zipData acsData) as Hp.
  assert (H : forall markers,
             Forall (fun entry => Region.flaggedData (snd entry)) markers ->
             Forall (fun entry : string * MapMarker.t => Region.flaggedData (snd entry))
               (fold_left
                  (fun markers point =>
                     match createMarker point with
                     | Some marker => JS.mapSet String.eqb (zip point) marker markers
                     | None => markers
                     end)
                  (prepareDataPoints zipData acsData) markers)).
  { induction Hp as [|point points Hpoint _ IH]; intros markers Hm; simpl; [exact Hm|].
    apply IH. destruct (createMarker point) as [marker|] eqn:E; [|exact Hm].
    apply RingFacts.mapSet_Forall; [|exact Hm].
    simpl. now apply (createMarker_flagged point). }
  apply H. constructor.
Qed.

Lemma markerData_flagged (markers : list (string * MapMarker.t)) :
  Forall (fun entry => Region.flaggedData (snd entry)) markers ->
  Forall Region.flagged (markerData markers).
Proof.
  unfold markerData. induction 1 as [|[zip marker] markers Hf _ IH]; simpl.
  - constructor.
  - apply Forall_app. split; [|exact IH].
    simpl in Hf. unfold Region.flaggedData in Hf.
    destruct (MapMarker.data marker) as [d|]; [|constructor].
    repeat constructor. unfold Region.flagged. simpl. now apply Hf.
Qed.

(** The statistics of a circle over the markers of the map partition the
    markers of the circle, with no assumption left. *)
Lemma circle_over_map_partitions (M : JS.MathImpl) (zipData : gmap string ZipRecord)
    (acsData : list (string * ACSAPIService.Found)) (center : Point.t)
    (radiusMeters : float) :
  let circle :=
    calculateCircleStatsWithRadius M (visualizeCombinedData zipData acsData) center
      radiusMeters in
  (SpatialUtils.educationOnly circle + SpatialUtils.incomeOnly circle
   + SpatialUtils.bothCriteria circle = SpatialUtils.totalMarkers circle)%nat.
Proof.
  intros circle. subst circle.
  unfold calculateCircleStatsWithRadius, SpatialUtils.calculateCircleStats.
  destruct (CircleFacts.loop_invariant M center radiusMeters
              (markerData (visualizeCombinedData zipData acsData))
              SpatialUtils.emptyStats) as (_ & _ & Hc).
  apply Hc; [|reflexivity].
  apply markerData_flagged, markers_flagged.
Qed.

End VisualizerFacts.

Module FloatOrder.

Open Scope float_scope.

Lemma SFcompare_lt_trans (a b c : spec_float) :
  SFcompare a b = Some Lt -> SFcompare b c = Some Lt -> SFcompare a c = Some Lt.
Proof.
  destruct a as [sa|sa| |sa ma ea], b as [sb|sb| |sb mb eb], c as [sc|sc| |sc mc ec];
    simpl;
    repeat match goal with s : bool |- _ => destruct s end;
    simpl; try congruence;
    change (PosDef.Pos.compare_cont Eq) with Pos.compare;
    destruct (Z.compare_spec ea eb), (Z.compare_spec eb ec), (Z.compare_spec ea ec);
    subst; try lia; try congruence;
    destruct (Pos.compare_spec ma mb), (Pos.compare_spec mb mc),
      (Pos.compare_spec ma mc);
    subst; simpl; try lia; congruence.
Qed.

(** [<] on binary64 is transitive. *)
Lemma ltb_trans (a b c : float) :
  (a <? b) = true -> (b <? c) = true -> (a <? c) = true.
Proof.
  rewrite !ltb_spec. unfold SFltb.
  destruct (SFcompare (Prim2SF a) (Prim2SF b)) as [[]|] eqn:Eab; try discriminate.
  destruct (SFcompare (Prim2SF b) (Prim2SF c)) as [[]|] eqn:Ebc; try discriminate.
  intros _ _. now rewrite (SFcompare_lt_trans _ _ _ Eab Ebc).
Qed.

End FloatOrder.

(* ------------------------------------------------------------------------- *)
(** ** The order of binary64 numbers                                          *)
(* ------------------------------------------------------------------------- *)

Module OrderFacts.

Open Scope float_scope.

Ltac by_cases :=
  unfold SFleb, SFltb, SFeqb;
  repeat match goal with a : spec_float |- _ => destruct a as [[]|[]| |[] ? ?] end;
  simpl; try congruence; try tauto;
  change (PosDef.Pos.compare_cont Eq) with Pos.compare;
  repeat match goal with
         | |- context [(?x ?= ?y)%Z] => destruct (Z.compare_spec x y); subst
         end;
  rewrite ?Z.compare_refl in *; try lia; simpl; try congruence; try tauto;
  repeat match goal with
         | |- context [(?x ?= ?y)%positive] => destruct (Pos.compare_spec x y); subst
         end;
  rewrite ?Pos.compare_refl in *; simpl; try lia; try congruence; try tauto.

Lemma SFleb_trans (a b c : spec_float) :
  SFleb a b = true -> SFleb b c = true -> SFleb a c = true.
Proof. by_cases. Qed.

Lemma SFltb_leb_trans (a b c : spec_float) :
  SFltb a b = true -> SFleb b c = true -> SFltb a c = true.
Proof. by_cases. Qed.

Lemma SFleb_ltb_trans (a b c : spec_float) :
  SFleb a b = true -> SFltb b c = true -> SFltb a c = true.
Proof. by_cases. Qed.

Lemma SFleb_not_gt (a b : spec_float) : SFleb a b = true -> SFltb b a = false.
Proof. by_cases. Qed.

Lemma SFltb_leb (a b : spec_float) : SFltb a b = true -> SFleb a b = true.
Proof. by_cases. Qed.

Lemma SFleb_total (a b : spec_float) :
  SFeqb a a = true -> SFeqb b b = true -> SFleb a b = true \/ SFltb b a = true.
Proof. by_cases. Qed.

Lemma SFleb_number_l (a b : spec_float) : SFleb a b = true -> SFeqb a a = true.
Proof. by_cases. Qed.

Lemma SFleb_number_r (a b : spec_float) : SFleb a b = true -> SFeqb b b = true.
Proof. by_cases. Qed.

Lemma SFltb_number_l (a b : spec_float) : SFltb a b = true -> SFeqb a a = true.
Proof. by_cases. Qed.

Lemma SFltb_number_r (a b : spec_float) : SFltb a b = true -> SFeqb b b = true.
Proof. by_cases. Qed.

Lemma SFleb_refl (a : spec_float) : SFeqb a a = true -> SFleb a a = true.
Proof. by_cases. Qed.

(** A number: not [NaN]. *)
Lemma is_nan_spec (a : float) : is_nan a = negb (SFeqb (Prim2SF a) (Prim2SF a)).
Proof. unfold is_nan. now rewrite FloatAxioms.eqb_spec. Qed.

Lemma number_spec (a : float) : is_nan a = false <-> SFeqb (Prim2SF a) (Prim2SF a) = true.
Proof. rewrite is_nan_spec. now destruct (SFeqb _ _). Qed.

Lemma leb_trans (a b c : float) :
  (a <=? b) = true -> (b <=? c) = true -> (a <=? c) = true.
Proof. rewrite !leb_spec. apply SFleb_trans. Qed.

Lemma ltb_leb_trans (a b c : float) :
  (a <? b) = true -> (b <=? c) = true -> (a <? c) = true.
Proof. rewrite !ltb_spec, !leb_spec. apply SFltb_leb_trans. Qed.

Lemma leb_ltb_trans (a b c : float) :
  (a <=? b) = true -> (b <? c) = true -> (a <? c) = true.
Proof. rewrite !ltb_spec, !leb_spec. apply SFleb_ltb_trans. Qed.

Lemma leb_not_gt (a b : float) : (a <=? b) = true -> (b <? a) = false.
Proof. rewrite !ltb_spec, !leb_spec. apply SFleb_not_gt. Qed.

Lemma gt_not_leb (a b : float) : (b <? a) = true -> (a <=? b) = false.
Proof.
  intros H. destruct (a <=? b) eqn:E; [|reflexivity].
  apply leb_not_gt in E. congruence.
Qed.

Lemma ltb_leb (a b : float) : (a <? b) = true -> (a <=? b) = true.
Proof. rewrite !ltb_spec, !leb_spec. apply SFltb_leb. Qed.

Lemma leb_total (a b : float) :
  is_nan a = false -> is_nan b = false -> (a <=? b) = true \/ (b <? a) = true.
Proof. rewrite !number_spec, !ltb_spec, !leb_spec. apply SFleb_total. Qed.

Lemma leb_refl (a : float) : is_nan a = false -> (a <=? a) = true.
Proof. rewrite number_spec, leb_spec. apply SFleb_refl. Qed.

Lemma leb_number_l (a b : float) : (a <=? b) = true -> is_nan a = false.
Proof. rewrite number_spec, leb_spec. apply SFleb_number_l. Qed.

Lemma leb_number_r (a b : float) : (a <=? b) = true -> is_nan b = false.
Proof. rewrite number_spec, leb_spec. apply SFleb_number_r. Qed.

Lemma ltb_number_l (a b : float) : (a <? b) = true -> is_nan a = false.
Proof. rewrite number_spec, ltb_spec. apply SFltb_number_l. Qed.

Lemma ltb_number_r (a b : float) : (a <? b) = true -> is_nan b = false.
Proof. rewrite number_spec, ltb_spec. apply SFltb_number_r. Qed.

(** A comparison with [NaN] is false. *)
Lemma leb_nan_r (a b : float) : is_nan b = true -> (a <=? b) = false.
Proof.
  intros H. destruct (a <=? b) eqn:E; [|reflexivity].
  apply leb_number_r in E. congruence.
Qed.

Lemma leb_nan_l (a b : float) : is_nan a = true -> (a <=? b) = false.
Proof.
  intros H. destruct (a <=? b) eqn:E; [|reflexivity].
  apply leb_number_l in E. congruence.
Qed.

Lemma ltb_nan_r (a b : float) : is_nan b = true -> (a <? b) = false.
Proof.
  intros H. destruct (a <? b) eqn:E; [|reflexivity].
  apply ltb_number_r in E. congruence.
Qed.

(** The band from [lo] to [hi] is cut at [mid] into two bands that do not
    meet. *)
Lemma band_cut (lo mid hi d : float) :
  (lo <=? mid) = true -> (mid <=? hi) = true ->
  (lo <? d) && (d <=? hi)
  = xorb ((lo <? d) && (d <=? mid)) ((mid <? d) && (d <=? hi)).
Proof.
  intros Hlm Hmh. destruct (is_nan d) eqn:Ed.
  - now rewrite !(ltb_nan_r _ d Ed).
  - destruct (leb_total d mid Ed (leb_number_r _ _ Hlm)) as [Hd|Hd].
    + rewrite Hd, (leb_not_gt _ _ Hd), (leb_trans _ _ _ Hd Hmh).
      now destruct (lo <? d).
    + rewrite Hd, (gt_not_leb _ _ Hd), (leb_ltb_trans _ _ _ Hlm Hd).
      now destruct (d <=? hi).
Qed.

End OrderFacts.

(* ------------------------------------------------------------------------- *)
(** ** Rounding to binary64                                                   *)
(* ------------------------------------------------------------------------- *)

Module RoundFacts.

Open Scope Z_scope.

(** *** The number of binary digits *)

Lemma digits2_size (p : positive) : digits2_pos p = Pos.size p.
Proof. induction p as [p IH|p IH|]; simpl; now rewrite ?IH. Qed.

Lemma digits_upper (p : positive) : Zpos p < 2 ^ Zpos (digits2_pos p).
Proof.
  rewrite digits2_size. pose proof (Pos.size_gt p) as H.
  apply Pos2Z.pos_lt_pos in H. now rewrite Pos2Z.inj_pow in H.
Qed.

Lemma digits_lower (p : positive) : 2 ^ (Zpos (digits2_pos p) - 1) <= Zpos p.
Proof.
  rewrite digits2_size. pose proof (Pos.size_le p) as H.
  apply Pos2Z.pos_le_pos in H. rewrite Pos2Z.inj_pow, (Pos2Z.inj_xO p) in H.
  replace (Zpos (Pos.size p)) with (Z.succ (Zpos (Pos.size p) - 1)) in H by lia.
  rewrite Z.pow_succ_r in H by lia. lia.
Qed.

(** A number below [2 ^ k] has at most [k] digits. *)
Lemma digits_le (p : positive) (k : Z) : Zpos p < 2 ^ k -> Zpos (digits2_pos p) <= k.
Proof.
  intros H. pose proof (digits_lower p) as Hl.
  destruct (Z.le_gt_cases (Zpos (digits2_pos p)) k) as [Hk|Hk]; [exact Hk|].
  assert (2 ^ k <= 2 ^ (Zpos (digits2_pos p) - 1)); [|lia].
  destruct (Z.le_gt_cases 0 k).
  - apply Z.pow_le_mono_r; lia.
  - rewrite (Z.pow_neg_r 2 k) by lia. apply Z.pow_nonneg. lia.
Qed.

(** *** Shifting to the right *)

Lemma shr_1_m (r : shr_record) : 0 <= shr_m r -> shr_m (shr_1 r) = shr_m r / 2.
Proof.
  destruct r as [m b s]. simpl. intros Hm.
  destruct m as [|[p|p|]|p]; simpl; try reflexivity; try lia.
  - now rewrite Pos2Z.inj_xI, Z.mul_comm, Z.div_add_l by lia.
  - now rewrite Pos2Z.inj_xO, Z.mul_comm, Z.div_mul by lia.
Qed.

Lemma pow2_xI (n : positive) : 2 ^ Zpos n~1 = 2 * (2 ^ Zpos n * 2 ^ Zpos n).
Proof.
  rewrite (Pos2Z.inj_xI n).
  replace (2 * Zpos n + 1) with (1 + (Zpos n + Zpos n)) by lia.
  rewrite !Z.pow_add_r by lia. reflexivity.
Qed.

Lemma pow2_xO (n : positive) : 2 ^ Zpos n~0 = 2 ^ Zpos n * 2 ^ Zpos n.
Proof.
  rewrite (Pos2Z.inj_xO n).
  replace (2 * Zpos n) with (Zpos n + Zpos n) by lia.
  rewrite !Z.pow_add_r by lia. reflexivity.
Qed.

Lemma iter_shr_m (n : positive) :
  forall r, 0 <= shr_m r -> shr_m (SpecFloat.iter_pos shr_1 n r) = shr_m r / 2 ^ Zpos n.
Proof.
  assert (Hpos : forall k, 0 < 2 ^ Zpos k) by (intros k; apply Z.pow_pos_nonneg; lia).
  induction n as [n IH|n IH|]; intros r Hr; cbn [SpecFloat.iter_pos].
  - assert (H1 : 0 <= shr_m (shr_1 r))
      by (rewrite shr_1_m by exact Hr; apply Z.div_pos; lia).
    assert (H2 : 0 <= shr_m (SpecFloat.iter_pos shr_1 n (shr_1 r)))
      by (rewrite IH by exact H1; apply Z.div_pos; [exact H1|apply Hpos]).
    rewrite (IH _ H2), (IH _ H1), shr_1_m by exact Hr.
    pose proof (Hpos n).
    rewrite !Z.div_div by lia.
    now rewrite pow2_xI.
  - assert (H2 : 0 <= shr_m (SpecFloat.iter_pos shr_1 n r))
      by (rewrite IH by exact Hr; apply Z.div_pos; [exact Hr|apply Hpos]).
    rewrite (IH _ H2), (IH _ Hr).
    pose proof (Hpos n).
    rewrite !Z.div_div by lia.
    now rewrite pow2_xO.
  - rewrite shr_1_m by exact Hr. reflexivity.
Qed.

Lemma shr_record_of_loc_m (m : Z) (l : location) : shr_m (shr_record_of_loc m l) = m.
Proof. destruct l as [|[]]; reflexivity. Qed.

(** *** Rounding to binary64 *)

Lemma fexp_eq (x : Z) : fexp prec emax x = Z.max (x - 53) (-1074).
Proof. reflexivity. Qed.

(** [shr_fexp] drops the digits beyond the 53rd, and none below the least
    exponent. *)
Lemma shr_fexp_eq (m : positive) (e : Z) (l : location) :
  let n := Z.max 0 (fexp prec emax (Zpos (digits2_pos m) + e) - e) in
  shr_m (fst (shr_fexp prec emax (Zpos m) e l)) = Zpos m / 2 ^ n /\
  snd (shr_fexp prec emax (Zpos m) e l) = e + n.
Proof.
  unfold shr_fexp, shr. cbn [Zdigits2].
  destruct (fexp prec emax (Zpos (digits2_pos m) + e) - e) as [|n|n] eqn:En;
    cbn [fst snd].
  - rewrite shr_record_of_loc_m. split; [now rewrite Z.div_1_r|lia].
  - rewrite iter_shr_m by (rewrite shr_record_of_loc_m; lia).
    rewrite shr_record_of_loc_m. split; [reflexivity|lia].
  - rewrite shr_record_of_loc_m. split; [now rewrite Z.div_1_r|lia].
Qed.

Lemma shr_fexp_positive (m : positive) (e : Z) (l : location) :
  -1074 <= e ->
  0 < shr_m (fst (shr_fexp prec emax (Zpos m) e l)) /\
  -1074 <= snd (shr_fexp prec emax (Zpos m) e l).
Proof.
  intros He. destruct (shr_fexp_eq m e l) as [-> ->]. rewrite fexp_eq.
  pose proof (digits_lower m) as Hl.
  set (d := Zpos (digits2_pos m)) in *.
  set (n := Z.max 0 (Z.max (d + e - 53) (-1074) - e)).
  assert (Hn : 0 <= n <= d - 1) by (subst n d; lia).
  split; [|lia].
  apply Z.div_str_pos. split; [apply Z.pow_pos_nonneg; lia|].
  transitivity (2 ^ (d - 1)); [apply Z.pow_le_mono_r; lia|exact Hl].
Qed.

Lemma shr_fexp_nonneg (m e : Z) (l : location) :
  0 <= m -> 0 <= shr_m (fst (shr_fexp prec emax m e l)).
Proof.
  intros Hm. unfold shr_fexp, shr.
  destruct (fexp prec emax (Zdigits2 m + e) - e) as [|n|n]; cbn [fst];
    rewrite ?iter_shr_m; rewrite ?shr_record_of_loc_m; try lia.
  apply Z.div_pos; [lia|apply Z.pow_pos_nonneg; lia].
Qed.

Lemma shr_fexp_bounded (m : positive) (e k : Z) (l : location) :
  Zpos m < 2 ^ k -> -1074 <= e ->
  shr_m (fst (shr_fexp prec emax (Zpos m) e l)) < 2 ^ k /\
  snd (shr_fexp prec emax (Zpos m) e l) <= e + k.
Proof.
  intros Hm He. destruct (shr_fexp_eq m e l) as [-> ->]. rewrite fexp_eq.
  pose proof (digits_le m k Hm) as Hd.
  pose proof (Pos2Z.is_pos (digits2_pos m)) as Hp.
  set (d := Zpos (digits2_pos m)) in *.
  set (n := Z.max 0 (Z.max (d + e - 53) (-1074) - e)).
  assert (Hn : 0 <= n <= k) by (subst n; lia).
  split; [|lia].
  apply Z.le_lt_trans with (Zpos m); [|exact Hm].
  apply Z.div_le_upper_bound; [apply Z.pow_pos_nonneg; lia|].
  assert (1 <= 2 ^ n) by (apply (Z.pow_le_mono_r 2 0 n); lia). nia.
Qed.

Lemma round_nearest_even_bounds (m : Z) (l : location) :
  m <= round_nearest_even m l <= m + 1.
Proof.
  destruct l as [|[]]; simpl; try lia. destruct (Z.even m); lia.
Qed.

(** Rounding keeps the sign, and produces no [NaN]. *)
Lemma binary_round_aux_sign (s : bool) (m e : Z) (l : location) :
  0 <= m ->
  match binary_round_aux prec emax s m e l with
  | S754_nan => False
  | S754_zero s' | S754_infinity s' | S754_finite s' _ _ => s' = s
  end.
Proof.
  intros Hm. unfold binary_round_aux.
  pose proof (shr_fexp_nonneg m e l Hm) as H1.
  destruct (shr_fexp prec emax m e l) as [r1 e1]. cbn [fst] in H1.
  pose proof (round_nearest_even_bounds (shr_m r1) (loc_of_shr_record r1)) as Hr.
  set (m2 := round_nearest_even (shr_m r1) (loc_of_shr_record r1)) in *.
  pose proof (shr_fexp_nonneg m2 e1 loc_Exact ltac:(lia)) as H2.
  destruct (shr_fexp prec emax m2 e1 loc_Exact) as [r2 e2]. cbn [fst] in H2.
  destruct (shr_m r2) as [|p|p]; [reflexivity| |lia].
  destruct (e2 <=? emax - prec); reflexivity.
Qed.

(** A positive number at an exponent that is not below the least one is not
    rounded to zero. *)
Lemma binary_round_aux_positive (s : bool) (m : positive) (e : Z) (l : location) :
  -1074 <= e ->
  match binary_round_aux prec emax s (Zpos m) e l with
  | S754_infinity s' | S754_finite s' _ _ => s' = s
  | _ => False
  end.
Proof.
  intros He. unfold binary_round_aux.
  destruct (shr_fexp_positive m e l He) as [H1 He1].
  destruct (shr_fexp prec emax (Zpos m) e l) as [r1 e1]. cbn [fst snd] in H1, He1.
  pose proof (round_nearest_even_bounds (shr_m r1) (loc_of_shr_record r1)) as Hr.
  destruct (round_nearest_even (shr_m r1) (loc_of_shr_record r1)) as [|m2|m2];
    try lia.
  destruct (shr_fexp_positive m2 e1 loc_Exact He1) as [H2 _].
  destruct (shr_fexp prec emax (Zpos m2) e1 loc_Exact) as [r2 e2]. cbn [fst] in H2.
  destruct (shr_m r2) as [|p|p]; try lia.
  destruct (e2 <=? emax - prec); reflexivity.
Qed.

(** A positive number below [2 ^ k], at an exponent far enough from the
    greatest one, is rounded to a finite number. *)
Lemma binary_round_aux_finite (s : bool) (m : positive) (e k : Z) (l : location) :
  Zpos m < 2 ^ k -> 0 <= k -> -1074 <= e -> e + 2 * k + 1 <= 971 ->
  exists m' e', binary_round_aux prec emax s (Zpos m) e l = S754_finite s m' e'.
Proof.
  intros Hm Hk He Hmax. unfold binary_round_aux.
  destruct (shr_fexp_positive m e l He) as [H1 He1].
  destruct (shr_fexp_bounded m e k l Hm He) as [Hb1 Hbe1].
  destruct (shr_fexp prec emax (Zpos m) e l) as [r1 e1].
  cbn [fst snd] in H1, He1, Hb1, Hbe1.
  pose proof (round_nearest_even_bounds (shr_m r1) (loc_of_shr_record r1)) as Hr.
  destruct (round_nearest_even (shr_m r1) (loc_of_shr_record r1)) as [|m2|m2];
    try lia.
  assert (Hm2 : Zpos m2 < 2 ^ (k + 1)).
  { rewrite Z.pow_add_r by lia. change (2 ^ 1) with 2. lia. }
  destruct (shr_fexp_positive m2 e1 loc_Exact He1) as [H2 _].
  destruct (shr_fexp_bounded m2 e1 (k + 1) loc_Exact Hm2 He1) as [_ Hbe2].
  destruct (shr_fexp prec emax (Zpos m2) e1 loc_Exact) as [r2 e2].
  cbn [fst snd] in H2, Hbe2.
  destruct (shr_m r2) as [|p|p]; try lia.
  replace (e2 <=? emax - prec) with true; [now exists p, e2|].
  symmetry. apply Z.leb_le. change (emax - prec) with 971. lia.
Qed.

(** *** Aligning two mantissas *)

Lemma iter_xO (m d : positive) : Zpos (Pos.iter xO m d) = Zpos m * 2 ^ Zpos d.
Proof.
  induction d as [|d IH] using Pos.peano_ind.
  - simpl. lia.
  - rewrite Pos.iter_succ, Pos2Z.inj_xO, IH, Pos2Z.inj_succ, Z.pow_succ_r; lia.
Qed.

Lemma shl_align_eq (m : positive) (e e' : Z) :
  snd (shl_align m e e') = Z.min e e' /\
  Zpos (fst (shl_align m e e')) = Zpos m * 2 ^ (e - Z.min e e').
Proof.
  unfold shl_align. destruct (e' - e) as [|d|d] eqn:Ed; cbn [fst snd].
  - replace (Z.min e e') with e by lia. rewrite Z.sub_diag. simpl. lia.
  - replace (Z.min e e') with e by lia. rewrite Z.sub_diag. simpl. lia.
  - replace (Z.min e e') with e' by lia. split; [reflexivity|].
    rewrite iter_xO. f_equal. f_equal. lia.
Qed.

(** *** Canonical mantissas *)

Lemma bounded_canonical (m : positive) (e : Z) :
  bounded prec emax m e = true ->
  -1074 <= e /\ Zpos m < 2 ^ 53 /\ (-1074 < e -> 2 ^ 52 <= Zpos m).
Proof.
  unfold bounded, canonical_mantissa. rewrite andb_true_iff, Z.eqb_eq, fexp_eq.
  intros [Hc _].
  pose proof (digits_upper m) as Hu. pose proof (digits_lower m) as Hl.
  set (d := Zpos (digits2_pos m)) in *.
  split; [lia|]. split.
  - apply Z.lt_le_trans with (2 ^ d); [exact Hu|]. apply Z.pow_le_mono_r; lia.
  - intros He. replace d with 53 in Hl by lia. exact Hl.
Qed.

(** The value of a finite number, as a multiple of [2 ^ e]. *)
Lemma scaled_lt (m m' : positive) (e e' : Z) :
  bounded prec emax m e = true -> bounded prec emax m' e' = true ->
  e < e' -> Zpos m < Zpos m' * 2 ^ (e' - e).
Proof.
  intros Hb Hb' He.
  destruct (bounded_canonical m e Hb) as (Hmin & Hlt & _).
  destruct (bounded_canonical m' e' Hb') as (_ & _ & Hge).
  specialize (Hge ltac:(lia)).
  assert (2 <= 2 ^ (e' - e)) by (apply (Z.pow_le_mono_r 2 1 (e' - e)); lia).
  change (2 ^ 53) with (2 ^ 52 * 2) in Hlt. nia.
Qed.

Lemma SFcompare_finite (s s' : bool) (m m' : positive) (e e' : Z) :
  bounded prec emax m e = true -> bounded prec emax m' e' = true ->
  SFcompare (S754_finite s m e) (S754_finite s' m' e')
  = Some (cond_Zopp s (Zpos m * 2 ^ (e - Z.min e e'))
          ?= cond_Zopp s' (Zpos m' * 2 ^ (e' - Z.min e e'))).
Proof.
  intros Hb Hb'. cbn [SFcompare]. f_equal.
  change (PosDef.Pos.compare_cont Eq) with Pos.compare.
  assert (Hp : forall k, 0 < 2 ^ k \/ k < 0)
    by (intros k; destruct (Z.le_gt_cases 0 k);
        [left; apply Z.pow_pos_nonneg; lia|now right]).
  destruct (Z.compare_spec e e') as [He|He|He].
  - subst e'. rewrite Z.min_id, Z.sub_diag. change (2 ^ 0) with 1. rewrite !Z.mul_1_r.
    destruct s, s'; cbn [cond_Zopp]; try reflexivity.
  - pose proof (scaled_lt m m' e e' Hb Hb' He) as Hlt.
    replace (Z.min e e') with e by lia. rewrite Z.sub_diag.
    change (2 ^ 0) with 1. rewrite Z.mul_1_r.
    destruct s, s'; cbn [cond_Zopp]; symmetry;
      try (apply Z.compare_lt_iff; lia); try (apply Z.compare_gt_iff; lia).
  - pose proof (scaled_lt m' m e' e Hb' Hb He) as Hlt.
    replace (Z.min e e') with e' by lia. rewrite Z.sub_diag.
    change (2 ^ 0) with 1. rewrite Z.mul_1_r.
    destruct s, s'; cbn [cond_Zopp]; symmetry;
      try (apply Z.compare_lt_iff; lia); try (apply Z.compare_gt_iff; lia).
Qed.

(** *** The sign of a difference *)

Lemma binary_round_positive (s : bool) (m : positive) (e : Z) :
  -1074 <= e ->
  match binary_round prec emax s m e with
  | S754_infinity s' | S754_finite s' _ _ => s' = s
  | _ => False
  end.
Proof.
  intros He. unfold binary_round.
  destruct (shl_align_eq m e (fexp prec emax (Zpos (digits2_pos m) + e))) as [Hs _].
  destruct (shl_align m e (fexp prec emax (Zpos (digits2_pos m) + e))) as [mz ez].
  cbn [snd] in Hs. apply binary_round_aux_positive.
  rewrite Hs, fexp_eq. lia.
Qed.

Lemma binary_normalize_negative (z e : Z) :
  -1074 <= e ->
  SFltb (binary_normalize prec emax z e false) (S754_zero false) = (z <? 0).
Proof.
  intros He. destruct z as [|p|p]; cbn [binary_normalize]; [reflexivity| |].
  - pose proof (binary_round_positive false p e He) as H.
    destruct (binary_round prec emax false p e) as [?|[]| |[] ? ?];
      try contradiction; try discriminate; reflexivity.
  - pose proof (binary_round_positive true p e He) as H.
    destruct (binary_round prec emax true p e) as [?|[]| |[] ? ?];
      try contradiction; try discriminate; reflexivity.
Qed.

Lemma SFsub_negative (x y : spec_float) :
  valid_binary x = true -> valid_binary y = true ->
  x <> S754_nan -> y <> S754_nan ->
  SFltb (SFsub prec emax x y) (S754_zero false) = SFltb x y.
Proof.
  intros Vx Vy Nx Ny.
  destruct x as [sx|sx| |sx mx ex], y as [sy|sy| |sy my ey]; try congruence;
    try (destruct sx, sy; reflexivity); try (destruct sx; reflexivity);
    try (destruct sy; reflexivity).
  cbn [valid_binary] in Vx, Vy. cbn [SFsub].
  destruct (bounded_canonical mx ex Vx) as (Hex & _).
  destruct (bounded_canonical my ey Vy) as (Hey & _).
  rewrite binary_normalize_negative by lia.
  destruct (shl_align_eq mx ex (Z.min ex ey)) as [_ ->].
  destruct (shl_align_eq my ey (Z.min ex ey)) as [_ ->].
  replace (Z.min ex (Z.min ex ey)) with (Z.min ex ey) by lia.
  replace (Z.min ey (Z.min ex ey)) with (Z.min ex ey) by lia.
  unfold SFltb. rewrite (SFcompare_finite sx sy mx my ex ey Vx Vy).
  set (vx := cond_Zopp sx (Zpos mx * 2 ^ (ex - Z.min ex ey))).
  set (vy := cond_Zopp sy (Zpos my * 2 ^ (ey - Z.min ex ey))).
  destruct (Z.compare_spec vx vy); destruct (Z.ltb_spec (vx - vy) 0); try reflexivity; lia.
Qed.

(** A number: not [NaN]. *)
Lemma number_iff (x : float) : is_nan x = false <-> Prim2SF x <> S754_nan.
Proof.
  unfold is_nan. rewrite FloatAxioms.eqb_spec, negb_false_iff. unfold SFeqb.
  destruct (Prim2SF x) as [s|s| |s m e]; cbn [SFcompare].
  - split; [discriminate|reflexivity].
  - destruct s; split; try discriminate; reflexivity.
  - split; [discriminate|congruence].
  - change (PosDef.Pos.compare_cont Eq) with Pos.compare.
    rewrite Z.compare_refl, Pos.compare_refl.
    destruct s; split; try discriminate; reflexivity.
Qed.

(** The comparator [a - b] is negative exactly when [a] is below [b]. *)
Lemma sub_negative (x y : float) :
  is_nan x = false -> is_nan y = false -> (x - y <? 0)%float = (x <? y)%float.
Proof.
  rewrite !number_iff, !ltb_spec, sub_spec. intros Hx Hy.
  exact (SFsub_negative _ _ (Prim2SF_valid x) (Prim2SF_valid y) Hx Hy).
Qed.

(** *** Counters as binary64 numbers *)

Lemma binary_normalize_finite (z : Z) :
  0 < z < 2 ^ 63 ->
  exists m e, binary_normalize prec emax z 0 false = S754_finite false m e.
Proof.
  intros Hz. destruct z as [|p|p]; try lia. cbn [binary_normalize].
  unfold binary_round.
  destruct (shl_align_eq p 0 (fexp prec emax (Zpos (digits2_pos p) + 0))) as [Hs Hm].
  destruct (shl_align p 0 (fexp prec emax (Zpos (digits2_pos p) + 0))) as [mz ez].
  cbn [fst snd] in Hs, Hm. rewrite fexp_eq in Hs, Hm. rewrite <- Hs in Hm.
  pose proof (digits_upper p) as Hu. pose proof (Pos2Z.is_pos (digits2_pos p)) as Hd.
  set (d := Zpos (digits2_pos p)) in *.
  apply (binary_round_aux_finite false mz ez 63); try lia.
  rewrite Hm. destruct (Z.le_gt_cases 53 d) as [Hbig|Hsmall].
  - replace (0 - ez) with 0 by lia. change (2 ^ 0) with 1. lia.
  - replace (0 - ez) with (53 - d) by lia.
    apply Z.lt_le_trans with (2 ^ d * 2 ^ (53 - d)).
    + apply Z.mul_lt_mono_pos_r; [apply Z.pow_pos_nonneg; lia|exact Hu].
    + rewrite <- Z.pow_add_r by lia. apply Z.pow_le_mono_r; lia.
Qed.

(** A counter is [+0] or a positive finite number. *)
Lemma ofNat_class (n : nat) :
  (Z.of_nat n mod 2 ^ 63 = 0 /\ Prim2SF (JS.ofNat n) = S754_zero false) \/
  (Z.of_nat n mod 2 ^ 63 <> 0 /\
   exists m e, Prim2SF (JS.ofNat n) = S754_finite false m e).
Proof.
  unfold JS.ofNat. rewrite of_uint63_spec.
  change (Uint63Axioms.to_Z (Uint63.of_Z (Z.of_nat n)))
    with (Uint63.to_Z (Uint63.of_Z (Z.of_nat n))).
  rewrite Uint63.of_Z_spec. change Uint63.wB with (2 ^ 63).
  pose proof (Z.mod_pos_bound (Z.of_nat n) (2 ^ 63) ltac:(lia)) as Hb.
  destruct (Z.eq_dec (Z.of_nat n mod 2 ^ 63) 0) as [H0|H0].
  - left. rewrite H0. split; reflexivity.
  - right. split; [exact H0|]. apply binary_normalize_finite. lia.
Qed.

Lemma div_eucl_nonneg (a b : Z) : 0 <= a -> 0 < b -> 0 <= fst (Z.div_eucl a b).
Proof.
  intros Ha Hb. pose proof (Z_div_mod a b ltac:(lia)) as H.
  destruct (Z.div_eucl a b) as [q r]. cbn [fst]. nia.
Qed.

Lemma SFdiv_number (sx : bool) (mx : positive) (ex : Z) (y : spec_float) :
  (y = S754_zero false \/ exists m e, y = S754_finite false m e) ->
  match SFdiv prec emax y (S754_finite sx mx ex) with
  | S754_nan => False
  | _ => True
  end.
Proof.
  intros [->|(m & e & ->)]; [exact I|]. cbn [SFdiv].
  destruct (SFdiv_core_binary prec emax (Zpos m) e (Zpos mx) ex) as [[mz ez] lz] eqn:Ed.
  assert (Hmz : 0 <= mz).
  { unfold SFdiv_core_binary in Ed.
    match type of Ed with context [Z.div_eucl ?a ?b] =>
      pose proof (div_eucl_nonneg a b) as Hq; destruct (Z.div_eucl a b) as [q r] end.
    injection Ed as <- _ _. cbn [fst] in Hq. apply Hq; [|lia].
    destruct (e - ex - _) as [|k|k]; try lia. apply Z.shiftl_nonneg. lia. }
  pose proof (binary_round_aux_sign (xorb false sx) mz ez lz Hmz) as Hs.
  destruct (binary_round_aux prec emax (xorb false sx) mz ez lz); tauto.
Qed.

Lemma SFmul_number (sx : bool) (mx : positive) (ex : Z) (y : spec_float) :
  y <> S754_nan ->
  match SFmul prec emax (S754_finite sx mx ex) y with
  | S754_nan => False
  | _ => True
  end.
Proof.
  intros Hy. destruct y as [sy|sy| |sy my ey]; try congruence; try exact I.
  cbn [SFmul].
  pose proof (binary_round_aux_sign (xorb sx sy) (Zpos (mx * my)) (ex + ey) loc_Exact
                ltac:(lia)) as Hs.
  destruct (binary_round_aux prec emax (xorb sx sy) (Zpos (mx * my)) (ex + ey) loc_Exact);
    tauto.
Qed.

(** The product of a count and the quotient of a total by that count is a
    number, unless the count is a multiple of [2 ^ 63]. *)
Lemma intensity_number (count total : nat) :
  Z.of_nat count mod 2 ^ 63 <> 0 ->
  is_nan (JS.ofNat count * (JS.ofNat total / JS.ofNat count))%float = false.
Proof.
  intros Hc. rewrite number_iff, mul_spec, div_spec.
  destruct (ofNat_class count) as [[H0 _]|(_ & mc & ec & ->)]; [contradiction|].
  assert (Ht : Prim2SF (JS.ofNat total) = S754_zero false \/
               exists m e, Prim2SF (JS.ofNat total) = S754_finite false m e).
  { destruct (ofNat_class total) as [[_ H]|(_ & H)]; [now left|now right]. }
  pose proof (SFdiv_number false mc ec (Prim2SF (JS.ofNat total)) Ht) as Hd.
  unfold SF64div.
  destruct (SFdiv prec emax (Prim2SF (JS.ofNat total)) (S754_finite false mc ec))
    as [sd|sd| |sd md ed] eqn:Ed; [| |contradiction|].
  all: match goal with |- SF64mul ?c ?d <> _ =>
         pose proof (SFmul_number false mc ec d ltac:(discriminate)) as Hm;
         unfold SF64mul; destruct (SFmul prec emax c d); [discriminate..|contradiction|discriminate]
       end.
Qed.

End RoundFacts.


Module NavigatorFacts.

Import Navigator.
Open Scope float_scope.

Lemma SFcompare_irrefl (a : spec_float) : SFcompare a a <> Some Lt.
Proof.
  destruct a as [s|s| |s m e]; simpl; try destruct s; try congruence;
    change (PosDef.Pos.compare_cont Eq) with Pos.compare;
    rewrite Z.compare_refl, Pos.compare_refl; simpl; congruence.
Qed.

Lemma ltb_irrefl (a : float) : (a <? a) = false.
Proof.
  rewrite ltb_spec. unfold SFltb.
  destruct (SFcompare (Prim2SF a) (Prim2SF a)) as [[]|] eqn:E; try reflexivity.
  now apply SFcompare_irrefl in E.
Qed.

Lemma forEachi_from_invariant {A St : Type} (I : list A -> St -> Prop)
    (f : St -> A -> nat -> St) :
  (forall seen s x i, I seen s -> I (seen ++ [x]) (f s x i)) ->
  forall l seen i s, I seen s -> I (seen ++ l) (JS.forEachi_from f i l s).
Proof.
  intros Hstep. induction l as [|x l IH]; intros seen i s Hs; simpl.
  - now rewrite app_nil_r.
  - replace (seen ++ x :: l) with ((seen ++ [x]) ++ l) by now rewrite <- app_assoc.
    apply IH, Hstep, Hs.
Qed.

Lemma isInDirection_qualifies (key : Key) (c : Point.t) (m : MapMarker.t) :
  isInDirection key c m = true <-> Direction.qualifies key c m.
Proof. destruct key; reflexivity. Qed.

Lemma visit_invariant (key : Key) (c : Point.t) (seen : list MapMarker.t) (best : Best)
    (m : MapMarker.t) (i : nat) :
  Direction.invariant key c seen best ->
  Direction.invariant key c (seen ++ [m]) (visit key c best m i).
Proof.
  intros [Hb Hm]. unfold visit.
  destruct (isInDirection key c m) eqn:Ed; simpl.
  - destruct (planar c m <? bestValue best) eqn:El; split; simpl.
    + intros b [= <-]. rewrite in_app_iff. simpl. auto.
    + intros m' Hin Hd'. apply in_app_iff in Hin. destruct Hin as [Hin|[<-|[]]].
      * destruct (planar c m' <? planar c m) eqn:E'; [|reflexivity].
        rewrite <- (Hm m' Hin Hd'). symmetry.
        exact (FloatOrder.ltb_trans _ _ _ E' El).
      * apply ltb_irrefl.
    + intros b Hbest. destruct (Hb b Hbest) as (Hin & Hd & Hv).
      rewrite in_app_iff. auto.
    + intros m' Hin Hd'. apply in_app_iff in Hin. destruct Hin as [Hin|[<-|[]]].
      * now apply Hm.
      * exact El.
  - split.
    + intros b Hbest. destruct (Hb b Hbest) as (Hin & Hd & Hv).
      rewrite in_app_iff. auto.
    + intros m' Hin Hd'. apply in_app_iff in Hin. destruct Hin as [Hin|[<-|[]]].
      * now apply Hm.
      * congruence.
Qed.

Lemma search_invariant (key : Key) (markerList : list MapMarker.t) (c : Point.t) :
  Direction.invariant key c markerList (search key markerList c).
Proof.
  unfold search, JS.forEachi.
  apply (forEachi_from_invariant (Direction.invariant key c) (visit key c)
           (fun seen s x i H => visit_invariant key c seen s x i H) markerList []).
  split; [discriminate|intros m []].
Qed.

Lemma visitScored_invariant (key : Key) (c : Point.t) (seen : list MapMarker.t)
    (best : Best) (m : MapMarker.t) (i : nat) :
  Direction.scoredInvariant key c seen best ->
  Direction.scoredInvariant key c (seen ++ [m]) (visitScored key c best m i).
Proof.
  intros [Hb Hm]. unfold visitScored.
  destruct (planar c m =? 0) eqn:Ez.
  - split.
    + intros b Hbest. destruct (Hb b Hbest) as (Hin & Hd & Hv).
      rewrite in_app_iff. auto.
    + intros m' Hin Hd'. apply in_app_iff in Hin. destruct Hin as [Hin|[<-|[]]].
      * now apply Hm.
      * congruence.
  - destruct (bestValue best <? score key c m) eqn:El; split; simpl.
    + intros b [= <-]. rewrite in_app_iff. simpl. auto.
    + intros m' Hin Hd'. apply in_app_iff in Hin. destruct Hin as [Hin|[<-|[]]].
      * destruct (score key c m <? score key c m') eqn:E'; [|reflexivity].
        rewrite <- (Hm m' Hin Hd'). symmetry.
        exact (FloatOrder.ltb_trans _ _ _ El E').
      * apply ltb_irrefl.
    + intros b Hbest. destruct (Hb b Hbest) as (Hin & Hd & Hv).
      rewrite in_app_iff. auto.
    + intros m' Hin Hd'. apply in_app_iff in Hin. destruct Hin as [Hin|[<-|[]]].
      * now apply Hm.
      * exact El.
Qed.

Lemma searchScored_invariant (key : Key) (markerList : list MapMarker.t) (c : Point.t) :
  Direction.scoredInvariant key c markerList (searchScored key markerList c).
Proof.
  unfold searchScored, JS.forEachi.
  apply (forEachi_from_invariant (Direction.scoredInvariant key c) (visitScored key c)
           (fun seen s x i H => visitScored_invariant key c seen s x i H) markerList []).
  split; [discriminate|intros m []].
Qed.

(** Until a marker is selected, [bestDistance] is [Infinity]. *)
Lemma search_unselected (key : Key) (markerList : list MapMarker.t) (c : Point.t) :
  bestMarker (search key markerList c) = None ->
  bestValue (search key markerList c) = infinity.
Proof.
  unfold search, JS.forEachi.
  apply (forEachi_from_invariant
           (fun _ best => bestMarker best = None -> bestValue best = infinity)
           (visit key c)) with (seen := []); [|reflexivity].
  intros seen best m i Hbest. unfold visit.
  destruct (isInDirection key c m && (planar c m <? bestValue best));
    [discriminate|exact Hbest].
Qed.

(** The best score is a number, and [-Infinity] until a marker is
    selected. *)
Lemma searchScored_number (key : Key) (markerList : list MapMarker.t) (c : Point.t) :
  is_nan (bestValue (searchScored key markerList c)) = false /\
  (bestMarker (searchScored key markerList c) = None ->
   bestValue (searchScored key markerList c) = neg_infinity).
Proof.
  unfold searchScored, JS.forEachi.
  apply (forEachi_from_invariant
           (fun _ best =>
              is_nan (bestValue best) = false /\
              (bestMarker best = None -> bestValue best = neg_infinity))
           (visitScored key c)) with (seen := []); [|split; reflexivity].
  intros seen best m i [Hn Hbest]. unfold visitScored.
  destruct (planar c m =? 0); [now split|].
  destruct (bestValue best <? score key c m) eqn:El; [|now split].
  split; [exact (OrderFacts.ltb_number_r _ _ El)|discriminate].
Qed.

End NavigatorFacts.

(** The navigator of js/mapVisualizer.js, asked for the marker to the North
    (W) of (0, 0) among a marker at (0.1, 1) and a marker at (2, 0), both to
    the North, selects the second, which is the farther of the two. *)
Lemma scored_navigator_prefers_alignment :
  let near := Direction.at_ 0.1 1 in
  let far := Direction.at_ 2 0 in
  let centre := Point.make 0 0 in
  Navigator.nearestByScore Navigator.KeyW [near; far] centre = Some far /\
  Direction.qualifies Navigator.KeyW centre near /\
  (Navigator.planar centre near <? Navigator.planar centre far)%float = true.
Proof. repeat split. Qed.

(** The same navigator selects a marker close to the centre whatever its
    direction: asked for the North of (0, 0) among the single marker at
    (-0.5, 0), it selects that marker, which lies to the South. *)
Example scored_navigator_selects_against_direction :
  let south := Direction.at_ (-0.5) 0 in
  Navigator.nearestByScore Navigator.KeyW [south] (Point.make 0 0) = Some south /\
  ~ Direction.qualifies Navigator.KeyW (Point.make 0 0) south.
Proof. split; [reflexivity|discriminate]. Qed.

(** C9, amended.  In the ring and circle visualizers (the two unnamed
    variants), for every list of visible markers, centre and key, the marker
    selected qualifies by the strict inequality of the direction (latitude
    strictly greater than the centre's for North, strictly less for South,
    longitude strictly greater for East, strictly less for West) and no
    qualifying marker has a smaller planar distance sqrt (dlat^2 + dlng^2)
    from the centre; no marker is selected when none qualifies, and a marker
    is selected as soon as one qualifies at a distance below [Infinity].
    The navigator of js/mapVisualizer.js ranks the markers away from the
    centre by the score 2 max (0, cos) + 0.5 / (distance + 0.1) instead: the
    marker it selects has the highest score, a score above 0.5, and it
    selects a marker as soon as one away from the centre scores above
    0.5. *)
Theorem nearest_in_direction_is_closest_qualifying (key : Navigator.Key)
    (markerList : list MapMarker.t) (currentCenter : Point.t) :
  (forall best,
     Navigator.nearestInDirection key markerList currentCenter = Some best ->
     In best markerList /\
     Direction.qualifies key currentCenter best /\
     (forall m, In m markerList -> Direction.qualifies key currentCenter m ->
        (Navigator.planar currentCenter m <? Navigator.planar currentCenter best)%float
        = false)) /\
  ((forall m, In m markerList -> ~ Direction.qualifies key currentCenter m) ->
   Navigator.nearestInDirection key markerList currentCenter = None) /\
  (forall m,
     In m markerList -> Direction.qualifies key currentCenter m ->
     (Navigator.planar currentCenter m <? infinity)%float = true ->
     exists best, Navigator.nearestInDirection key markerList currentCenter = Some best) /\
  (forall best,
     Navigator.nearestByScore key markerList currentCenter = Some best ->
     In best markerList /\
     (0.5 <? Navigator.score key currentCenter best)%float = true /\
     (forall m, In m markerList ->
        (Navigator.planar currentCenter m =? 0)%float = false ->
        (Navigator.score key currentCenter best <? Navigator.score key currentCenter m)%float
        = false)) /\
  (forall m,
     In m markerList ->
     (Navigator.planar currentCenter m =? 0)%float = false ->
     (0.5 <? Navigator.score key currentCenter m)%float = true ->
     exists best, Navigator.nearestByScore key markerList currentCenter = Some best).
Proof.
  destruct (NavigatorFacts.search_invariant key markerList currentCenter) as [Hb Hm].
  destruct (NavigatorFacts.searchScored_invariant key markerList currentCenter)
    as [Sb Sm].
  pose proof (NavigatorFacts.search_unselected key markerList currentCenter) as Hu.
  destruct (NavigatorFacts.searchScored_number key markerList currentCenter)
    as [Sn Su].
  unfold Navigator.nearestInDirection, Navigator.nearestByScore.
  split; [|split; [|split; [|split]]].
  - intros best Hbest. destruct (Hb best Hbest) as (Hin & Hd & Hv).
    split; [exact Hin|]. split; [now apply NavigatorFacts.isInDirection_qualifies|].
    intros m Hm_in Hq. rewrite <- Hv. apply Hm; [exact Hm_in|].
    now apply NavigatorFacts.isInDirection_qualifies.
  - intros Hnone.
    destruct (Navigator.bestMarker (Navigator.search key markerList currentCenter))
      as [b|] eqn:E; [|reflexivity].
    destruct (Hb b eq_refl) as (Hin & Hd & _).
    exfalso. apply (Hnone b Hin). now apply NavigatorFacts.isInDirection_qualifies.
  - intros m Hm_in Hq Hfinite.
    destruct (Navigator.bestMarker (Navigator.search key markerList currentCenter))
      as [b|] eqn:E; [now exists b|].
    apply NavigatorFacts.isInDirection_qualifies in Hq.
    specialize (Hm m Hm_in Hq). rewrite (Hu eq_refl) in Hm. congruence.
  - intros best.
    destruct (Navigator.bestMarker (Navigator.searchScored key markerList currentCenter))
      as [b|] eqn:E; [|discriminate].
    destruct (0.5 <? Navigator.bestValue
                       (Navigator.searchScored key markerList currentCenter))%float
      eqn:Et; [|discriminate].
    intros [= <-]. destruct (Sb b eq_refl) as (Hin & Hd & Hv).
    split; [exact Hin|]. rewrite <- Hv. split; [exact Et|].
    intros m Hm_in Hz. now apply Sm.
  - intros m Hm_in Hz Hscore. specialize (Sm m Hm_in Hz).
    assert (Hbest : (0.5 <? Navigator.bestValue
                              (Navigator.searchScored key markerList currentCenter))%float
                    = true).
    { destruct (OrderFacts.leb_total _ _ (OrderFacts.ltb_number_r _ _ Hscore) Sn)
        as [Hle|Hlt]; [|congruence].
      exact (OrderFacts.ltb_leb_trans _ _ _ Hscore Hle). }
    destruct (Navigator.bestMarker (Navigator.searchScored key markerList currentCenter))
      as [b|] eqn:E.
    + exists b. now rewrite Hbest.
    + rewrite (Su eq_refl) in Hbest. discriminate Hbest.
Qed.

(** North of (0, 0) among four markers: the nearest of the three to the
    North is selected. *)
Example nearest_north :
  Navigator.nearestInDirection Navigator.KeyW
    [Direction.at_ (-0.5) 0; Direction.at_ 2 0; Direction.at_ 1 1; Direction.at_ 1 0]
    (Point.make 0 0)
  = Some (Direction.at_ 1 0).
Proof. reflexivity. Qed.

(* ------------------------------------------------------------------------- *)
(** ** The hotspot clusterer                                                  *)
(* ------------------------------------------------------------------------- *)

Module ClustererFacts.

Import Clusterer.
Open Scope float_scope.

(** *** Merging *)

Lemma cellHotspot_withoutAverages (entry : (float * float) * Cell.t)
    (hotspots : list CellHotspot.t) :
  Forall Ranking.withoutAverages hotspots ->
  Forall Ranking.withoutAverages (cellHotspot hotspots entry).
Proof.
  intros H. unfold cellHotspot.
  destruct (Cell.count (snd entry) =? 0)%nat; [exact H|].
  apply Forall_app. split; [exact H|]. constructor; [|constructor].
  split; reflexivity.
Qed.

Lemma hotspots_withoutAverages (grid : list ((float * float) * Cell.t))
    (hotspots : list CellHotspot.t) :
  Forall Ranking.withoutAverages hotspots ->
  Forall Ranking.withoutAverages (fold_left cellHotspot grid hotspots).
Proof.
  revert hotspots. induction grid as [|entry grid IH]; intros hotspots H; simpl.
  - exact H.
  - apply IH, cellHotspot_withoutAverages, H.
Qed.

(** A distance computed from [undefined] coordinates is [NaN], and [NaN] is
    below no merge distance. *)
Lemma absorb_nothing (mergeDistance : float) (hi hj : CellHotspot.t)
    (st : Cluster.t * list nat) (j : nat) :
  Ranking.withoutAverages hi -> Ranking.withoutAverages hj ->
  absorb mergeDistance hi st hj j = st.
Proof.
  intros [Hlat Hlng] [Hlat' Hlng']. unfold absorb. destruct st as [c u].
  destruct (used u j); [reflexivity|].
  rewrite Hlat, Hlng, Hlat', Hlng'.
  replace (JS.sqrt _ <? mergeDistance) with false; [reflexivity|].
  symmetry. rewrite ltb_spec. reflexivity.
Qed.

Lemma inner_loop_nothing (mergeDistance : float) (hi : CellHotspot.t)
    (rest : list CellHotspot.t) (j : nat) (st : Cluster.t * list nat) :
  Ranking.withoutAverages hi -> Forall Ranking.withoutAverages rest ->
  JS.forEachi_from (absorb mergeDistance hi) j rest st = st.
Proof.
  intros Hi Hrest. revert j. induction Hrest as [|hj rest Hj _ IH]; intros j; simpl.
  - reflexivity.
  - rewrite (absorb_nothing mergeDistance hi hj st j Hi Hj). apply IH.
Qed.

Lemma skipn_Forall {A : Type} (P : A -> Prop) (n : nat) (l : list A) :
  Forall P l -> Forall P (skipn n l).
Proof.
  intros H. revert n. induction H as [|x l Hx Hl IH]; intros [|n]; simpl;
    try constructor; auto.
Qed.

Lemma outer_loop_alone (hotspots : list CellHotspot.t) (mergeDistance : float)
    (suffix : list CellHotspot.t) (i : nat) (merged : list Merged) (usedSet : list nat) :
  Forall Ranking.withoutAverages hotspots ->
  Forall Ranking.withoutAverages suffix ->
  (forall j, (i <= j)%nat -> used usedSet j = false) ->
  fst (JS.forEachi_from (cluster hotspots mergeDistance) i suffix (merged, usedSet))
  = merged ++ map Ranking.alone suffix.
Proof.
  intros Hall Hsuffix. revert i merged usedSet.
  induction Hsuffix as [|hi suffix Hi _ IH]; intros i merged usedSet Hfree; simpl.
  - now rewrite app_nil_r.
  - rewrite (Hfree i (le_n i)).
    rewrite (inner_loop_nothing mergeDistance hi (skipn (S i) hotspots) (S i) _ Hi
               (skipn_Forall _ _ _ Hall)).
    rewrite IH.
    + now rewrite <- app_assoc.
    + intros j Hj. unfold used. simpl.
      replace (j =? i)%nat with false by (symmetry; apply Nat.eqb_neq; lia).
      apply Hfree. lia.
Qed.

(** On the hotspot objects [findHotspots] builds, [mergeAdjacentCells]
    merges nothing: every cell comes back as a cluster of its own. *)
Lemma mergeAdjacentCells_merges_nothing (grid : list ((float * float) * Cell.t))
    (mergeDistance : float) :
  let hotspots := fold_left cellHotspot grid [] in
  (1 < length hotspots)%nat ->
  mergeAdjacentCells hotspots mergeDistance = map Ranking.alone hotspots.
Proof.
  intros hotspots Hlen. unfold mergeAdjacentCells.
  replace (length hotspots <=? 1)%nat with false
    by (symmetry; apply Nat.leb_gt; exact Hlen).
  assert (H : Forall Ranking.withoutAverages hotspots)
    by (apply hotspots_withoutAverages; constructor).
  unfold JS.forEachi.
  now rewrite (outer_loop_alone hotspots mergeDistance hotspots 0 [] [] H H).
Qed.

End ClustererFacts.

(** *** The members of a hotspot *)

Module MemberFacts.

Import Clusterer.

(** [map.set (key, f (map.get (key)))] on an insertion-ordered Map. *)
Section Update.
Context {K V : Type} (eqb : K -> K -> bool) (f : option V -> V) (k : K).

Lemma update_Forall (Q : V -> Prop) (m : list (K * V)) :
  Q (f None) -> (forall v, Q v -> Q (f (Some v))) ->
  Forall (fun kv => Q (snd kv)) m ->
  Forall (fun kv => Q (snd kv)) (JS.mapSet eqb k (f (JS.mapGet eqb k m)) m).
Proof.
  intros Hnone Hsome. induction 1 as [|[k' v'] m Hv Hm IH]; simpl.
  - constructor; [exact Hnone|constructor].
  - destruct (eqb k k').
    + constructor; [now apply Hsome|exact Hm].
    + constructor; [exact Hv|exact IH].
Qed.

Lemma update_Permutation {A : Type} (items : V -> list A) (x : A) (m : list (K * V)) :
  items (f None) = [x] ->
  (forall v, items (f (Some v)) = items v ++ [x]) ->
  Permutation
    (concat (map (fun kv => items (snd kv)) (JS.mapSet eqb k (f (JS.mapGet eqb k m)) m)))
    (x :: concat (map (fun kv => items (snd kv)) m)).
Proof.
  intros Hnone Hsome. induction m as [|[k' v'] m IH]; simpl.
  - now rewrite Hnone.
  - destruct (eqb k k'); simpl.
    + rewrite Hsome, <- app_assoc. simpl.
      symmetry. apply Permutation_middle.
    + rewrite IH. symmetry. apply Permutation_middle.
Qed.

End Update.

Lemma valueSum_snoc (l : list Marker.t) (m : Marker.t) :
  Members.valueSum (l ++ [m]) = (Members.valueSum l + value m)%nat.
Proof. unfold Members.valueSum. now rewrite fold_left_app. Qed.

Lemma addToGrid_update (grid : list ((float * float) * Cell.t)) (marker : Marker.t) :
  addToGrid grid marker
  = JS.mapSet keyEqb
      (JS.floor (Marker.lat marker / gridSize), JS.floor (Marker.lng marker / gridSize))
      (Members.grown (JS.floor (Marker.lat marker / gridSize))
         (JS.floor (Marker.lng marker / gridSize)) marker
         (JS.mapGet keyEqb
            (JS.floor (Marker.lat marker / gridSize),
             JS.floor (Marker.lng marker / gridSize))
            grid))
      grid.
Proof. reflexivity. Qed.

Lemma addToGrid_consistent (grid : list ((float * float) * Cell.t)) (marker : Marker.t) :
  Forall (fun kv => Members.consistent (Members.ofCell (snd kv))) grid ->
  Forall (fun kv => Members.consistent (Members.ofCell (snd kv))) (addToGrid grid marker).
Proof.
  intros H. rewrite addToGrid_update.
  apply (update_Forall keyEqb _ _ (fun c => Members.consistent (Members.ofCell c)));
    [| |exact H].
  - unfold Members.consistent, Members.ofCell. simpl. repeat split; lia.
  - intros c (Hc & Hpos & Hv). unfold Members.consistent, Members.ofCell in *.
    simpl in *. rewrite length_app, valueSum_snoc, Hc, Hv. simpl.
    repeat split; lia.
Qed.

Lemma addToGrid_members (grid : list ((float * float) * Cell.t)) (marker : Marker.t) :
  Permutation
    (concat (map (fun kv => Cell.markers (snd kv)) (addToGrid grid marker)))
    (marker :: concat (map (fun kv => Cell.markers (snd kv)) grid)).
Proof.
  rewrite addToGrid_update.
  apply (update_Permutation keyEqb _ _ Cell.markers); [reflexivity|].
  intros c. reflexivity.
Qed.

(** Step 1: the cells hold every marker once, with tallies that agree. *)
Lemma grid_members (markers : list Marker.t) :
  forall grid,
    Forall (fun kv => Members.consistent (Members.ofCell (snd kv))) grid ->
    let grid' := fold_left addToGrid markers grid in
    Forall (fun kv => Members.consistent (Members.ofCell (snd kv))) grid' /\
    Permutation (concat (map (fun kv => Cell.markers (snd kv)) grid'))
      (concat (map (fun kv => Cell.markers (snd kv)) grid) ++ markers).
Proof.
  induction markers as [|m markers IH]; intros grid Hg; simpl.
  - split; [exact Hg|now rewrite app_nil_r].
  - destruct (IH (addToGrid grid m) (addToGrid_consistent grid m Hg)) as [Hc Hp].
    split; [exact Hc|].
    rewrite Hp, addToGrid_members. simpl. apply Permutation_middle.
Qed.

(** Step 2: one hotspot object per cell, with the members and tallies of
    the cell. *)
Lemma cellHotspots_tallies (grid : list ((float * float) * Cell.t)) :
  Forall (fun kv => Members.consistent (Members.ofCell (snd kv))) grid ->
  forall hotspots,
    map Members.ofCellHotspot (fold_left cellHotspot grid hotspots)
    = map Members.ofCellHotspot hotspots ++ map (fun kv => Members.ofCell (snd kv)) grid.
Proof.
  induction 1 as [|[key cell] grid Hcell Hgrid IH]; intros hotspots; simpl.
  - now rewrite app_nil_r.
  - assert (Hstep : map Members.ofCellHotspot (cellHotspot hotspots (key, cell))
                     = map Members.ofCellHotspot hotspots ++ [Members.ofCell cell]).
    { unfold cellHotspot. cbn [fst snd].
      destruct Hcell as (_ & Hpos & _). cbn [Members.ofCell fst snd] in Hpos.
      destruct (Cell.count cell =? 0)%nat eqn:E; [apply Nat.eqb_eq in E; lia|].
      now rewrite map_app. }
    rewrite IH, Hstep, <- app_assoc. reflexivity.
Qed.

(** Step 3: the merge returns one element per hotspot object, with the same
    members and tallies, whatever the merge distance. *)
Lemma merged_tallies (grid : list ((float * float) * Cell.t)) (mergeDistance : float) :
  let hotspots := fold_left cellHotspot grid [] in
  map Members.ofMerged (mergeAdjacentCells hotspots mergeDistance)
  = map Members.ofCellHotspot hotspots.
Proof.
  intros hotspots. destruct (Nat.lt_ge_cases 1 (length hotspots)) as [Hlen|Hlen].
  - subst hotspots.
    rewrite (ClustererFacts.mergeAdjacentCells_merges_nothing grid mergeDistance Hlen).
    rewrite map_map. reflexivity.
  - unfold mergeAdjacentCells.
    replace (length hotspots <=? 1)%nat with true by (symmetry; now apply Nat.leb_le).
    rewrite map_map. reflexivity.
Qed.

Lemma Forall_map_eq {A B C : Type} (f : A -> C) (g : B -> C) (P : C -> Prop)
    (l : list A) (l' : list B) :
  map f l = map g l' -> Forall (fun y => P (g y)) l' -> Forall (fun x => P (f x)) l.
Proof.
  revert l'. induction l as [|x l IH]; intros [|y l'] Hmap H; try discriminate;
    constructor; simpl in Hmap; injection Hmap as Hx Hl; inversion H; subst.
  - now rewrite Hx.
  - now apply (IH l').
Qed.

Lemma concat_members_eq {A B : Type} (f : A -> Members.Tally) (g : B -> Members.Tally)
    (l : list A) (l' : list B) :
  map f l = map g l' ->
  concat (map (fun x => fst (fst (f x))) l) = concat (map (fun y => fst (fst (g y))) l').
Proof.
  revert l'. induction l as [|x l IH]; intros [|y l'] Hmap; try discriminate;
    [reflexivity|].
  simpl in *. injection Hmap as Hx Hl. now rewrite Hx, (IH l' Hl).
Qed.

Lemma source_mapi_from (f : Merged -> nat -> Hotspot.t) (i : nat) (l : list Merged) :
  (forall m k, Hotspot.source (f m k) = m) ->
  map Hotspot.source (JS.mapi_from f i l) = l.
Proof.
  intros Hf. revert i. induction l as [|m l IH]; intros i; simpl; [reflexivity|].
  now rewrite Hf, IH.
Qed.

Lemma source_rankTop (mergedHotspots : list Merged) :
  map Hotspot.source (rankTop mergedHotspots)
  = firstn 50 (JS.sortF (fun a b => (intensity b - intensity a)%float) mergedHotspots).
Proof. unfold rankTop, JS.mapi, JS.slice0. now apply source_mapi_from. Qed.

Lemma Permutation_concat_map {A B : Type} (f : A -> list B) (l l' : list A) :
  Permutation l l' -> Permutation (concat (map f l)) (concat (map f l')).
Proof.
  induction 1 as [|x l l' _ IH|x y l|l l' l'' _ IH1 _ IH2]; simpl.
  - constructor.
  - now apply Permutation_app_head.
  - rewrite !app_assoc. apply Permutation_app_tail, Permutation_app_comm.
  - now transitivity (concat (map f l')).
Qed.

End MemberFacts.

(** *** Ranking *)

Module RankingFacts.

Import Clusterer.
Open Scope float_scope.

Lemma mapi_from_rank (f : Merged -> nat -> Hotspot.t) (i : nat) (l : list Merged) :
  (forall m k, Hotspot.rank (f m k) = (k + 1)%nat) ->
  map Hotspot.rank (JS.mapi_from f i l) = seq (i + 1) (length l).
Proof.
  intros Hf. revert i. induction l as [|m l IH]; intros i; simpl; [reflexivity|].
  rewrite Hf. f_equal. apply (IH (S i)).
Qed.

Lemma mapi_from_length {A B : Type} (f : A -> nat -> B) (i : nat) (l : list A) :
  length (JS.mapi_from f i l) = length l.
Proof. revert i. induction l as [|x l IH]; intros i; simpl; auto. Qed.

Lemma mapi_from_sorted (f : Merged -> nat -> Hotspot.t) (i : nat) (l : list Merged) :
  (forall m k, Hotspot.source (f m k) = m) ->
  StronglySorted (fun a b => (intensity b <=? intensity a) = true) l ->
  StronglySorted
    (fun a b => (intensity (Hotspot.source b) <=? intensity (Hotspot.source a)) = true)
    (JS.mapi_from f i l).
Proof.
  intros Hf Hs. revert i. induction Hs as [|m l Hl IH Hm]; intros i; simpl.
  - constructor.
  - constructor; [apply IH|].
    rewrite Hf. clear IH Hl. revert i. induction Hm as [|x l Hx Hl IH]; intros i; simpl.
    + constructor.
    + constructor; [now rewrite Hf|apply IH].
Qed.

Lemma firstn_sorted {A : Type} (R : A -> A -> Prop) (n : nat) (l : list A) :
  StronglySorted R l -> StronglySorted R (firstn n l).
Proof.
  intros Hs. revert n. induction Hs as [|x l Hl IH Hx]; intros [|n]; simpl;
    try constructor.
  - apply IH.
  - clear IH Hl. revert n. induction Hx as [|y l Hy Hl IH]; intros [|n]; simpl;
      constructor; auto.
Qed.

(** The intensity of a cell is a binary64 product of a binary64 quotient: it
    is not always the total value of the cell. *)
Example intensity_is_rounded :
  (JS.ofNat 11 * (JS.ofNat 15 / JS.ofNat 11) <? JS.ofNat 15) = true.
Proof. reflexivity. Qed.

(** The comparator [b.intensity - a.intensity] orders numbers downwards. *)
Lemma sorted_downwards (mergedHotspots : list Merged) :
  Forall (fun m => is_nan (intensity m) = false) mergedHotspots ->
  StronglySorted (fun a b => (intensity b <=? intensity a) = true)
    (JS.sortF (fun a b => intensity b - intensity a) mergedHotspots).
Proof.
  apply (SortFacts.sortF_sorted _ _ (fun m => is_nan (intensity m) = false)).
  - intros x y Hx Hy. rewrite (RoundFacts.sub_negative _ _ Hy Hx).
    apply OrderFacts.ltb_leb.
  - intros x y Hx Hy. rewrite (RoundFacts.sub_negative _ _ Hy Hx). intros Hlt.
    destruct (OrderFacts.leb_total _ _ Hx Hy) as [Hle|Hgt]; [exact Hle|congruence].
  - intros x y z Hxy Hyz. exact (OrderFacts.leb_trans _ _ _ Hyz Hxy).
Qed.

Lemma rankTop_ranked (mergedHotspots : list Merged) :
  Forall (fun m => is_nan (intensity m) = false) mergedHotspots ->
  Ranking.ranked (rankTop mergedHotspots).
Proof.
  intros Hn. unfold Ranking.ranked, rankTop, JS.mapi, JS.slice0.
  rewrite mapi_from_length. split; [|split].
  - apply (mapi_from_rank _ 0). reflexivity.
  - rewrite length_firstn. lia.
  - apply mapi_from_sorted; [reflexivity|].
    now apply firstn_sorted, sorted_downwards.
Qed.

Lemma ranked_nil : Ranking.ranked [].
Proof. repeat split; simpl; try lia; constructor. Qed.

(** *** The intensities are numbers *)

Lemma member_length {A B : Type} (f : A -> list B) (x : A) (l : list A) :
  In x l -> (length (f x) <= length (concat (map f l)))%nat.
Proof.
  induction l as [|y l IH]; simpl; [intros []|].
  rewrite length_app. intros [->|Hin]; [lia|]. specialize (IH Hin). lia.
Qed.

(** No cell counts more markers than the array holds. *)
Lemma grid_counts (markers : list Marker.t) :
  Forall (fun kv => (1 <= Cell.count (snd kv) <= length markers)%nat)
    (fold_left addToGrid markers []).
Proof.
  destruct (MemberFacts.grid_members markers [] (List.Forall_nil _)) as [Hcons Hperm].
  simpl in Hperm. apply List.Forall_forall. intros kv Hin.
  destruct (proj1 (List.Forall_forall _ _) Hcons kv Hin) as (Hc & Hpos & _).
  cbn [Members.ofCell fst snd] in Hc, Hpos. split; [exact Hpos|].
  rewrite Hc, <- (Permutation_length Hperm).
  exact (member_length (fun kv => Cell.markers (snd kv)) kv _ Hin).
Qed.

Lemma cellHotspots_numbers (bound : nat) (grid : list ((float * float) * Cell.t)) :
  Ranking.arrayLength bound ->
  Forall (fun kv => (Cell.count (snd kv) <= bound)%nat) grid ->
  forall hotspots,
    Forall (fun h => is_nan (CellHotspot.intensity h) = false) hotspots ->
    Forall (fun h => is_nan (CellHotspot.intensity h) = false)
      (fold_left cellHotspot grid hotspots).
Proof.
  intros Hbound. unfold Ranking.arrayLength in Hbound.
  induction 1 as [|[key cell] grid Hcell _ IH]; intros hotspots Hh; simpl;
    [exact Hh|].
  apply IH. unfold cellHotspot. cbn [fst snd] in *.
  destruct (Cell.count cell =? 0)%nat eqn:E; [exact Hh|].
  apply Nat.eqb_neq in E. apply Forall_app. split; [exact Hh|].
  constructor; [|constructor]. cbn [CellHotspot.intensity].
  apply RoundFacts.intensity_number.
  rewrite Z.mod_small; lia.
Qed.

(** The merged list [findHotspots] sorts holds numbers only. *)
Lemma merged_numbers (markers : list Marker.t) (mergeDistance : float) :
  Ranking.arrayLength (length markers) ->
  Forall (fun m => is_nan (intensity m) = false)
    (mergeAdjacentCells (fold_left cellHotspot (fold_left addToGrid markers []) [])
       mergeDistance).
Proof.
  intros Hbound.
  set (grid := fold_left addToGrid markers []).
  set (hotspots := fold_left cellHotspot grid []).
  assert (Hh : Forall (fun h => is_nan (CellHotspot.intensity h) = false) hotspots).
  { apply (cellHotspots_numbers (length markers)); [exact Hbound| |constructor].
    eapply List.Forall_impl; [|exact (grid_counts markers)].
    intros kv H. cbv beta in H. lia. }
  destruct (Nat.lt_ge_cases 1 (length hotspots)) as [Hlen|Hlen].
  - subst hotspots.
    rewrite (ClustererFacts.mergeAdjacentCells_merges_nothing grid mergeDistance Hlen).
    apply Forall_map. exact Hh.
  - unfold mergeAdjacentCells.
    replace (length hotspots <=? 1)%nat with true by (symmetry; now apply Nat.leb_le).
    apply Forall_map. exact Hh.
Qed.

Lemma compute_ranked (markers : list Marker.t) :
  Ranking.arrayLength (length markers) -> Ranking.ranked (compute markers).
Proof. intros Hbound. apply rankTop_ranked, merged_numbers, Hbound. Qed.

(** What the cache holds is a ranked list. *)
Lemma cache_ranked (st : State) :
  Ranking.reachable st ->
  forall cached, hotspotCache st = Some cached -> Ranking.ranked cached.
Proof.
  induction 1 as [|now markers st Hbound _ IH]; [discriminate|].
  intros cached. unfold findHotspots.
  destruct (hotspotCache st) as [c|] eqn:Ec.
  - destruct (now - lastHotspotCalculation st <? cacheDuration)%Z.
    + simpl. rewrite Ec. intros [= <-]. now apply IH.
    + destruct markers as [|m markers]; simpl.
      * rewrite Ec. intros [= <-]. now apply IH.
      * intros [= <-]. now apply compute_ranked.
  - destruct markers as [|m markers]; simpl.
    + rewrite Ec. discriminate.
    + intros [= <-]. now apply compute_ranked.
Qed.

End RankingFacts.

(** C4, on the code.  For the three markers of the scenario, at a grid
    size of 0.1 degree, [findHotspots] returns three hotspots of one marker
    each, of intensities 3, 1 and 1: the two nearby markers, which fall in
    the adjacent cells (400, -1000) and (400, -1001), are not merged into a
    hotspot of intensity 4. *)
Theorem scenario_is_not_merged :
  map fst (fold_left Clusterer.addToGrid Ranking.scenario [])
  = [(400, -1000); (400, -1001); (450, -900)]%float /\
  map (fun h => (Clusterer.Hotspot.rank h,
                 Clusterer.intensity (Clusterer.Hotspot.source h),
                 Clusterer.count (Clusterer.Hotspot.source h)))
      (snd (Clusterer.findHotspots 0 Ranking.scenario Clusterer.initial))
  = [(1%nat, 3%float, 1%nat); (2%nat, 1%float, 1%nat); (3%nat, 1%float, 1%nat)].
Proof. split; vm_compute; reflexivity. Qed.

(** Two hotspots of equal intensity get the ranks 1 and 2: the first is not
    strictly more intense than the second. *)
Lemma tied_hotspots_are_ranked_apart :
  exists first second,
    snd (Clusterer.findHotspots 0 Ranking.farApart Clusterer.initial) = [first; second] /\
    Clusterer.Hotspot.rank first = 1%nat /\
    Clusterer.Hotspot.rank second = 2%nat /\
    (Clusterer.intensity (Clusterer.Hotspot.source second)
     <? Clusterer.intensity (Clusterer.Hotspot.source first))%float = false.
Proof.
  eexists. eexists. split; [vm_compute; reflexivity|].
  split; [reflexivity|]. split; reflexivity.
Qed.

(** C5, amended.  In every state the clusterer can be in, for every array
    of markers (an array holds fewer than 2^32 elements), the list
    [findHotspots] returns carries the ranks 1, 2, ..., N with N at most 50,
    in order of descending intensity: the hotspot of rank k is at least as
    intense as the hotspot of rank k + 1 (hotspots of equal intensity
    occur).  The intensities are the binary64 numbers the code computes and
    compares. *)
Theorem hotspots_are_ranked (now : Z) (markers : list Marker.t) (st : Clusterer.State) :
  Ranking.reachable st ->
  Ranking.arrayLength (length markers) ->
  let hotspots := snd (Clusterer.findHotspots now markers st) in
  map Clusterer.Hotspot.rank hotspots = seq 1 (length hotspots) /\
  (length hotspots <= 50)%nat /\
  StronglySorted
    (fun a b => (Clusterer.intensity (Clusterer.Hotspot.source b)
                 <=? Clusterer.intensity (Clusterer.Hotspot.source a))%float = true)
    hotspots.
Proof.
  intros Hst Hbound hotspots. subst hotspots.
  change (Ranking.ranked (snd (Clusterer.findHotspots now markers st))).
  unfold Clusterer.findHotspots.
  destruct (Clusterer.hotspotCache st) as [c|] eqn:Ec.
  - destruct (now - Clusterer.lastHotspotCalculation st <? Clusterer.cacheDuration)%Z.
    + simpl. exact (RankingFacts.cache_ranked st Hst c Ec).
    + destruct markers as [|m markers]; cbn [snd].
      * apply RankingFacts.ranked_nil.
      * now apply RankingFacts.compute_ranked.
  - destruct markers as [|m markers]; cbn [snd].
    + apply RankingFacts.ranked_nil.
    + now apply RankingFacts.compute_ranked.
Qed.

Lemma hotspots_are_ranked_witness :
  let hotspots :=
    snd (Clusterer.findHotspots 400000 Ranking.farApart
           (fst (Clusterer.findHotspots 0 Ranking.scenario Clusterer.initial))) in
  map Clusterer.Hotspot.rank hotspots = seq 1 (length hotspots) /\
  (length hotspots <= 50)%nat /\
  StronglySorted
    (fun a b => (Clusterer.intensity (Clusterer.Hotspot.source b)
                 <=? Clusterer.intensity (Clusterer.Hotspot.source a))%float = true)
    hotspots.
Proof.
  apply (hotspots_are_ranked 400000 Ranking.farApart
           (fst (Clusterer.findHotspots 0 Ranking.scenario Clusterer.initial))).
  - apply Ranking.reachable_findHotspots; [reflexivity|apply Ranking.reachable_initial].
  - reflexivity.
Defined.

(* ------------------------------------------------------------------------- *)
(** ** The cache and the fetch client                                         *)
(* ------------------------------------------------------------------------- *)

Module ChunkFacts.

Import ACSAPIService.

Lemma chunkFrom_concat {A : Type} (size fuel : nat) (array : list A) :
  (0 < size)%nat -> (length array <= fuel)%nat ->
  concat (chunkFrom fuel array size) = array.
Proof.
  intros Hsize. revert array. induction fuel as [|fuel IH]; intros array Hlen; simpl.
  - destruct array; [reflexivity|simpl in Hlen; lia].
  - destruct array as [|x array]; [reflexivity|].
    cbn [concat]. rewrite IH.
    + apply firstn_skipn.
    + rewrite length_skipn. simpl in *. lia.
Qed.

Lemma chunkArray_concat {A : Type} (size : nat) (array : list A) :
  (0 < size)%nat -> concat (chunkArray array size) = array.
Proof. intros H. now apply chunkFrom_concat. Qed.

Lemma chunkFrom_sizes {A : Type} (size fuel : nat) (array : list A) :
  (0 < size)%nat ->
  Forall (fun chunk => (0 < length chunk <= size)%nat) (chunkFrom fuel array size).
Proof.
  intros Hsize. revert array. induction fuel as [|fuel IH]; intros array; simpl.
  - constructor.
  - destruct array as [|x array]; [constructor|].
    constructor; [|apply IH].
    rewrite length_firstn. simpl. lia.
Qed.

Lemma chunkArray_sizes {A : Type} (size : nat) (array : list A) :
  (0 < size)%nat ->
  Forall (fun chunk => (0 < length chunk <= size)%nat) (chunkArray array size).
Proof. apply chunkFrom_sizes. Qed.

(** The lengths of the chunks depend on the length of the array only. *)
Lemma chunkFrom_lengths {A : Type} (size fuel : nat) (array : list A) :
  map length (chunkFrom fuel array size) = Service.sizesFrom fuel (length array) size.
Proof.
  revert array. induction fuel as [|fuel IH]; intros array; simpl; [reflexivity|].
  destruct array as [|x array]; [reflexivity|].
  cbn [map length]. rewrite IH, length_firstn, length_skipn. reflexivity.
Qed.

Lemma chunkArray_65 {A : Type} (array : list A) :
  length array = 65%nat -> map length (chunkArray array batchSize) = [30; 30; 5]%nat.
Proof.
  intros H. unfold chunkArray. rewrite chunkFrom_lengths, H. reflexivity.
Qed.

Lemma in_chunk {A : Type} (size : nat) (array chunk : list A) (x : A) :
  (0 < size)%nat -> In chunk (chunkArray array size) -> In x chunk -> In x array.
Proof.
  intros Hsize Hc Hx. rewrite <- (chunkArray_concat size array Hsize).
  apply in_concat. eauto.
Qed.

End ChunkFacts.

Module UniqueFacts.

Import ACSAPIService.

Lemma existsb_eqb (z : string) (l : list string) :
  existsb (String.eqb z) l = true <-> In z l.
Proof.
  rewrite existsb_exists. split.
  - intros (x & Hx & E). apply String.eqb_eq in E. now subst.
  - intros H. exists z. split; [exact H|apply String.eqb_refl].
Qed.

Lemma uniqueFrom_spec (zipCodes seen : list string) :
  List.NoDup (uniqueFrom seen zipCodes) /\
  (forall z, In z (uniqueFrom seen zipCodes) <-> In z zipCodes /\ ~ In z seen).
Proof.
  revert seen. induction zipCodes as [|x rest IH]; intros seen; simpl.
  - split; [constructor|]. intros z. tauto.
  - destruct (existsb (String.eqb x) seen) eqn:E.
    + apply existsb_eqb in E. destruct (IH seen) as [Hn Hi].
      split; [exact Hn|]. intros z. rewrite Hi. split.
      * intros [H1 H2]. auto.
      * intros [[<-|H1] H2]; [contradiction|auto].
    + assert (Hx : ~ In x seen).
      { intros H. apply existsb_eqb in H. congruence. }
      destruct (IH (x :: seen)) as [Hn Hi]. split.
      * constructor; [|exact Hn]. rewrite Hi. simpl. tauto.
      * intros z. simpl. rewrite Hi. simpl. split.
        -- intros [<-|[H1 H2]]; [auto|]. split; [auto|tauto].
        -- intros [[<-|H1] H2]; [auto|].
           destruct (String.eqb_spec x z) as [->|Hne]; [auto|]. right. tauto.
Qed.

Lemma unique_NoDup (zipCodes : list string) : List.NoDup (unique zipCodes).
Proof. apply uniqueFrom_spec. Qed.

Lemma unique_In (zipCodes : list string) (z : string) :
  In z (unique zipCodes) <-> In z zipCodes.
Proof.
  unfold unique. destruct (uniqueFrom_spec zipCodes []) as [_ H].
  rewrite H. simpl. tauto.
Qed.

Lemma uniqueFrom_NoDup (zipCodes seen : list string) :
  List.NoDup zipCodes -> (forall z, In z zipCodes -> ~ In z seen) ->
  uniqueFrom seen zipCodes = zipCodes.
Proof.
  intros Hn. revert seen. induction Hn as [|x rest Hx Hn IH]; intros seen Hs; simpl.
  - reflexivity.
  - destruct (existsb (String.eqb x) seen) eqn:E.
    + apply existsb_eqb in E. exfalso. apply (Hs x); simpl; auto.
    + f_equal. apply IH. intros z Hz [<-|H]; [contradiction|].
      apply (Hs z); simpl; auto.
Qed.

Lemma unique_NoDup_id (zipCodes : list string) :
  List.NoDup zipCodes -> unique zipCodes = zipCodes.
Proof. intros H. apply uniqueFrom_NoDup; auto. Qed.

End UniqueFacts.

Module CacheFacts.

Import ACSAPIService.

Lemma cacheData_db (now : Z) (zip : string) (data : Payload) (st : State)
    (store : gmap string CacheEntry) :
  db st = Some store ->
  db (cacheData now zip data st)
  = Some (<[(cachePrefix ++ zip)%string :=
             {| key := (cachePrefix ++ zip)%string; entryData := data;
                expiry := (now + cacheDuration)%Z; cachedAt := now;
                entryZip := zip |}]> store).
Proof. intros H. unfold cacheData. now rewrite H. Qed.

(** An expired entry: the lookup does not settle and the store keeps the
    entry, the delete being issued on a read-only transaction. *)
Lemma expired_lookup (now : Z) (zip : string) (st : State)
    (store : gmap string CacheEntry) (entry : CacheEntry) :
  db st = Some store ->
  store !! (cachePrefix ++ zip)%string = Some entry ->
  (expiry entry < now)%Z ->
  getFromCache now zip st = (st, Pending).
Proof.
  intros Hdb Hentry Hexp. unfold getFromCache. rewrite Hdb, Hentry.
  replace (expiry entry <? now)%Z with true by (symmetry; now apply Z.ltb_lt).
  reflexivity.
Qed.

End CacheFacts.

(** With no durable store, a payload written with [cacheData] is not
    returned by the [getFromCache] that follows. *)
Lemma round_trip_fails_without_store :
  snd (ACSAPIService.getFromCache 0 "68801"
         (ACSAPIService.cacheData 0 "68801" Service.samplePayload Service.withoutStore))
  <> ACSAPIService.Fulfilled (Some Service.samplePayload).
Proof. discriminate. Qed.

(** C2, amended.  When the durable store is open, for every ZIP key and
    payload, [cacheData (zip, data)] followed by [getFromCache (zip)] no
    later than the expiry returns the payload unchanged; with no durable
    store [cacheData] stores nothing and [getFromCache] returns null.  A
    stored entry whose expiry is in the past is never returned by
    [getFromCache (zip)], neither by the first lookup nor by a subsequent
    one. *)
Theorem cache_round_trip (written read : Z) (zip : string)
    (data : ACSAPIService.Payload) (st : ACSAPIService.State) :
  (written <= read <= written + ACSAPIService.cacheDuration)%Z ->
  (ACSAPIService.db st <> None ->
   snd (ACSAPIService.getFromCache read zip
          (ACSAPIService.cacheData written zip data st))
   = ACSAPIService.Fulfilled (Some data)) /\
  (ACSAPIService.db st = None ->
   ACSAPIService.cacheData written zip data st = st /\
   ACSAPIService.getFromCache read zip st = (st, ACSAPIService.Fulfilled None)) /\
  (forall store entry later,
     ACSAPIService.db st = Some store ->
     store !! (ACSAPIService.cachePrefix ++ zip)%string = Some entry ->
     (ACSAPIService.expiry entry < read <= later)%Z ->
     let first := ACSAPIService.getFromCache read zip st in
     let second := ACSAPIService.getFromCache later zip (fst first) in
     (forall stale, snd first <> ACSAPIService.Fulfilled (Some stale)) /\
     (forall stale, snd second <> ACSAPIService.Fulfilled (Some stale))).
Proof.
  intros Htime. split; [|split].
  - intros Hdb. destruct (ACSAPIService.db st) as [store|] eqn:E; [|congruence].
    unfold ACSAPIService.getFromCache.
    rewrite (CacheFacts.cacheData_db written zip data st store E).
    rewrite lookup_insert_eq. simpl.
    replace (written + ACSAPIService.cacheDuration <? read)%Z with false
      by (symmetry; apply Z.ltb_ge; lia).
    reflexivity.
  - intros Hdb. unfold ACSAPIService.cacheData, ACSAPIService.getFromCache.
    now rewrite Hdb.
  - intros store entry later Hdb Hentry Hexp first second.
    assert (H1 : first = (st, ACSAPIService.Pending)).
    { apply (CacheFacts.expired_lookup read zip st store entry Hdb Hentry). lia. }
    assert (H2 : second = (st, ACSAPIService.Pending)).
    { subst second. rewrite H1. simpl.
      apply (CacheFacts.expired_lookup later zip st store entry Hdb Hentry). lia. }
    rewrite H1, H2. split; intros stale; discriminate.
Qed.

Lemma cache_round_trip_witness :
  snd (ACSAPIService.getFromCache 1000 "68801"
         (ACSAPIService.cacheData 0 "68801" Service.samplePayload Service.withStore))
  = ACSAPIService.Fulfilled (Some Service.samplePayload).
Proof.
  refine (proj1 (cache_round_trip 0 1000 "68801" Service.samplePayload
                   Service.withStore _) _).
  - unfold ACSAPIService.cacheDuration. lia.
  - discriminate.
Defined.
Module FetchFacts.

Import ACSAPIService.
Import Service.

Lemma grows_refl (P : list string -> Prop) (st : State) : grows P st st.
Proof. exists []. rewrite app_nil_r. repeat split. constructor. Qed.

Lemma grows_trans (P : list string -> Prop) (st1 st2 st3 : State) :
  grows P st1 st2 -> grows P st2 st3 -> grows P st1 st3.
Proof.
  intros (n1 & R1 & F1 & H1 & M1 & C1) (n2 & R2 & F2 & H2 & M2 & C2).
  exists (n1 ++ n2). rewrite R2, R1, app_assoc. repeat split; try congruence.
  apply Forall_app. now split.
Qed.

Lemma grows_weaken (P Q : list string -> Prop) (st st' : State) :
  (forall batch, P batch -> Q batch) -> grows P st st' -> grows Q st st'.
Proof.
  intros HPQ (new & R & F & H). exists new. split; [exact R|]. split; [|exact H].
  eapply List.Forall_impl; [|exact F]. intros request. apply HPQ.
Qed.

Lemma send_grows (zipCodes : list string) (st : State) :
  grows (eq zipCodes) st (send zipCodes st).
Proof.
  exists [(currentProxyIndex st, zipCodes)]. repeat split. now repeat constructor.
Qed.

Lemma setProxy_grows (P : list string -> Prop) (st : State) (p : nat) :
  grows P st (setProxy st p).
Proof. exists []. simpl. rewrite app_nil_r. repeat split. constructor. Qed.

Lemma sentBetween_refl (st : State) : sentBetween st st [].
Proof. exists []. now rewrite app_nil_r. Qed.

Lemma sentBetween_trans (st1 st2 st3 : State) (b1 b2 : list (list string)) :
  sentBetween st1 st2 b1 -> sentBetween st2 st3 b2 -> sentBetween st1 st3 (b1 ++ b2).
Proof.
  intros (n1 & R1 & M1) (n2 & R2 & M2). exists (n1 ++ n2).
  rewrite R2, R1, app_assoc, map_app, M1, M2. now split.
Qed.

(** *** [fetchWithCorsFallback] *)

Lemma fetchWithCorsFallback_settles (E : Env) (retriesLeft : nat)
    (zipCodes : list string) (st : State) :
  let result := fetchWithCorsFallback E retriesLeft zipCodes st in
  grows (eq zipCodes) st (fst result) /\
  db (fst result) = db st /\
  snd result <> Pending.
Proof.
  revert st. induction retriesLeft as [|r IH]; intros st; simpl.
  - destruct (http E _ _ zipCodes); simpl;
      (split; [apply send_grows|split; [reflexivity|discriminate]]).
  - destruct (http E _ _ zipCodes); simpl.
    + split; [apply send_grows|split; [reflexivity|discriminate]].
    + match goal with |- context [fetchWithCorsFallback E r zipCodes ?s] =>
        destruct (IH s) as (Hg & Hdb & Hp) end.
      split; [|split; [exact Hdb|exact Hp]].
      eapply grows_trans; [apply send_grows|].
      eapply grows_trans; [apply setProxy_grows|exact Hg].
Qed.

(** The requests of one call: the same batch, at least once and at most
    once per proxy. *)
Lemma fetchWithCorsFallback_tries (E : Env) (retriesLeft : nat)
    (zipCodes : list string) (st : State) :
  exists attempts,
    (1 <= attempts <= S retriesLeft)%nat /\
    sentBetween st (fst (fetchWithCorsFallback E retriesLeft zipCodes st))
      (repeat zipCodes attempts).
Proof.
  revert st. induction retriesLeft as [|r IH]; intros st;
    cbn [fetchWithCorsFallback];
    destruct (http E _ _ zipCodes).
  1, 2, 3: exists 1%nat; split; [lia|];
    exists [(currentProxyIndex st, zipCodes)]; now split.
  match goal with |- context [fetchWithCorsFallback E r zipCodes ?s] =>
    destruct (IH s) as (k & Hk & new & Hr & Hm) end.
  exists (S k). split; [lia|].
  exists ((currentProxyIndex st, zipCodes) :: new). rewrite Hr. simpl.
  rewrite <- app_assoc, Hm. now split.
Qed.

Lemma fetchWithCorsFallback_unanswered (E : Env) (retriesLeft : nat)
    (zipCodes : list string) (st : State) :
  Service.unanswered E zipCodes ->
  snd (fetchWithCorsFallback E retriesLeft zipCodes st) = Rejected.
Proof.
  intros Hu. revert st. induction retriesLeft as [|r IH]; intros st; simpl;
    rewrite Hu; [reflexivity|apply IH].
Qed.

Lemma fetchWithCorsFallback_answered (E : Env) (retriesLeft : nat)
    (zipCodes : list string) (st : State) (body : Body) :
  http E (apiCalls (stats st)) (currentProxyIndex st) zipCodes = Some body ->
  fetchWithCorsFallback E retriesLeft zipCodes st = (send zipCodes st, Fulfilled body).
Proof. intros H. destruct retriesLeft; simpl; now rewrite H. Qed.

(** *** [parseResponse] *)

(** Only requested ZIP codes get a payload. *)
Lemma parseTable_requested (E : Env) (now : Z) (headers : list string)
    (table : list (list string)) (requestedZips : list string) (z : string) :
  is_Some (parseTable E now headers table requestedZips !! z) -> In z requestedZips.
Proof.
  unfold parseTable.
  match goal with |- context [fold_left ?f table ?a] =>
    set (step := f); set (start := a) end.
  assert (H : forall acc,
             (forall x, is_Some (fst acc !! x) -> In x requestedZips) ->
             (forall x, In x (snd acc) -> In x requestedZips) ->
             forall x, is_Some (fst (fold_left step table acc) !! x) ->
                       In x requestedZips).
  { induction table as [|row table IH]; intros acc Hk Hs x; simpl; [apply Hk|].
    apply IH.
    - subst step. cbv beta. destruct acc as [results requestedSet].
      destruct (indexOf headers "zip code tabulation area"); [|exact Hk].
      destruct (nth_error row n) as [zip|]; [|exact Hk].
      destruct (existsb (String.eqb zip) requestedSet) eqn:Ez; [|exact Hk].
      simpl. intros y. rewrite lookup_insert. case_decide as Hy.
      + intros _. subst y. apply Hs. now apply UniqueFacts.existsb_eqb.
      + apply Hk.
    - subst step. cbv beta. destruct acc as [results requestedSet].
      destruct (indexOf headers "zip code tabulation area"); [|exact Hs].
      destruct (nth_error row n) as [zip|]; [|exact Hs].
      destruct (existsb (String.eqb zip) requestedSet) eqn:Ez; [|exact Hs].
      simpl. intros y Hy. apply filter_In in Hy. apply Hs, Hy. }
  apply H; subst start; simpl.
  - intros x. rewrite lookup_empty. intros [? [=]].
  - auto.
Qed.

Lemma parseResponse_requested (E : Env) (now : Z) (body : Body)
    (requestedZips : list string) (parsed : gmap string Payload) (z : string) :
  parseResponse E now body requestedZips = Some parsed ->
  is_Some (parsed !! z) -> In z requestedZips.
Proof.
  unfold parseResponse. destruct body as [[|headers table]| |]; intros [= <-];
    try (rewrite lookup_empty; intros [? [=]]).
  apply parseTable_requested.
Qed.

(** *** [fetchBatchFromAPI] *)

(** The function on a batch that is not empty: the [try] block, then either
    the parsed answer or the [catch] block. *)
Lemma fetchBatchFromAPI_fuel_eq (fuel : nat) (E : Env) (now : Z) (batch : list string)
    (st : State) :
  batch <> [] ->
  fetchBatchFromAPI_fuel (S fuel) E now batch st
  = let caught :=
      if (5 <? length batch)%nat
      then eachSmallBatch (fetchBatchFromAPI_fuel fuel E now) (chunkArray batch 5)
             (fst (fetchWithCorsFallback E (proxyCount - 1) batch st)) ∅
      else Some (fst (fetchWithCorsFallback E (proxyCount - 1) batch st), Rejected) in
    match snd (fetchWithCorsFallback E (proxyCount - 1) batch st) with
    | Fulfilled body =>
        match parseResponse E now body batch with
        | Some results =>
            Some (fst (fetchWithCorsFallback E (proxyCount - 1) batch st),
                  Fulfilled results)
        | None => caught
        end
    | Rejected => caught
    | Pending => Some (fst (fetchWithCorsFallback E (proxyCount - 1) batch st), Pending)
    end.
Proof.
  intros Hne. cbn [fetchBatchFromAPI_fuel].
  replace (length batch =? 0)%nat with false
    by (symmetry; apply Nat.eqb_neq; destruct batch; [congruence|simpl; lia]).
  now destruct (fetchWithCorsFallback E (proxyCount - 1) batch st) as [st1 fetched].
Qed.

Lemma fetchBatchFromAPI_fuel_nil (fuel : nat) (E : Env) (now : Z) (st : State) :
  fetchBatchFromAPI_fuel (S fuel) E now [] st = Some (st, Fulfilled ∅).
Proof. reflexivity. Qed.

(** A batch of at most 5 ZIP codes is fetched without a further call. *)
Lemma small_batch_fuel (fuel fuel' : nat) (E : Env) (now : Z) (batch : list string)
    (st : State) :
  (0 < fuel)%nat -> (0 < fuel')%nat -> (length batch <= 5)%nat ->
  fetchBatchFromAPI_fuel fuel E now batch st
  = fetchBatchFromAPI_fuel fuel' E now batch st.
Proof.
  intros Hf Hf' Hlen. destruct fuel as [|fuel]; [lia|]. destruct fuel' as [|fuel']; [lia|].
  destruct batch as [|z batch]; [reflexivity|].
  rewrite !fetchBatchFromAPI_fuel_eq by discriminate.
  replace (5 <? length (z :: batch))%nat with false; [reflexivity|].
  symmetry. apply Nat.ltb_ge. exact Hlen.
Qed.

(** What a call on a batch of at most 5 ZIP codes does. *)
Lemma small_batch_eq (E : Env) (now : Z) (batch : list string) (st : State) :
  (0 < length batch <= 5)%nat ->
  fetchBatchFromAPI E now batch st
  = match snd (fetchWithCorsFallback E (proxyCount - 1) batch st) with
    | Fulfilled body =>
        match parseResponse E now body batch with
        | Some results =>
            Some (fst (fetchWithCorsFallback E (proxyCount - 1) batch st),
                  Fulfilled results)
        | None =>
            Some (fst (fetchWithCorsFallback E (proxyCount - 1) batch st), Rejected)
        end
    | Rejected => Some (fst (fetchWithCorsFallback E (proxyCount - 1) batch st), Rejected)
    | Pending => Some (fst (fetchWithCorsFallback E (proxyCount - 1) batch st), Pending)
    end.
Proof.
  intros Hlen. unfold fetchBatchFromAPI.
  rewrite fetchBatchFromAPI_fuel_eq by (intros ->; simpl in Hlen; lia).
  replace (5 <? length batch)%nat with false by (symmetry; apply Nat.ltb_ge; lia).
  reflexivity.
Qed.

Lemma small_batch_contained (fuel : nat) (E : Env) (now : Z) (batch : list string)
    (st : State) :
  (0 < fuel)%nat -> (length batch <= 5)%nat ->
  contained batch st (fetchBatchFromAPI_fuel fuel E now batch st).
Proof.
  intros Hf Hlen.
  rewrite (small_batch_fuel fuel (S (length batch)) E now batch st) by lia.
  unfold contained.
  destruct batch as [|z rest].
  { exists st, (Fulfilled ∅). split; [reflexivity|]. split; [discriminate|].
    split; [apply grows_refl|]. split; [reflexivity|].
    intros found [= <-] x. rewrite lookup_empty. intros [? [=]]. }
  set (batch := z :: rest) in *.
  change (fetchBatchFromAPI_fuel (S (length batch)) E now batch st)
    with (fetchBatchFromAPI E now batch st).
  rewrite small_batch_eq by (subst batch; simpl in *; lia).
  destruct (fetchWithCorsFallback_settles E (proxyCount - 1) batch st)
    as (Hg & Hdb & Hp).
  assert (Hg' : grows (fun sent => (length sent <= length batch)%nat) st
                  (fst (fetchWithCorsFallback E (proxyCount - 1) batch st))).
  { eapply grows_weaken; [|exact Hg]. now intros sent <-. }
  destruct (fetchWithCorsFallback E (proxyCount - 1) batch st) as [st1 [body| |]];
    cbn [fst snd] in *; [| |congruence].
  - destruct (parseResponse E now body batch) as [parsed|] eqn:Ep.
    + exists st1, (Fulfilled parsed).
      split; [reflexivity|]. split; [discriminate|]. split; [exact Hg'|].
      split; [exact Hdb|]. intros found [= <-] x.
      exact (parseResponse_requested E now body batch parsed x Ep).
    + exists st1, Rejected. split; [reflexivity|]. split; [discriminate|].
      split; [exact Hg'|]. split; [exact Hdb|]. discriminate.
  - exists st1, Rejected. split; [reflexivity|]. split; [discriminate|].
    split; [exact Hg'|]. split; [exact Hdb|]. discriminate.
Qed.

(** The loop over the sub-batches of a failed batch: it settles, and
    returns payloads of the sub-batches only. *)
Lemma eachSmallBatch_contained
    (call : list string -> State -> option (State * Outcome (gmap string Payload)))
    (batch : list string) (smallerBatches : list (list string)) :
  (forall small st, In small smallerBatches -> contained small st (call small st)) ->
  (forall small z, In small smallerBatches -> In z small -> In z batch) ->
  (forall small, In small smallerBatches -> (length small <= length batch)%nat) ->
  forall st results,
    (forall z, is_Some (results !! z) -> In z batch) ->
    exists st' found,
      eachSmallBatch call smallerBatches st results = Some (st', Fulfilled found) /\
      grows (fun sent => (length sent <= length batch)%nat) st st' /\
      db st' = db st /\
      (forall z, is_Some (found !! z) -> In z batch).
Proof.
  induction smallerBatches as [|small rest IH]; intros Hcall Hin Hlen st results Hres;
    simpl.
  - exists st, results. split; [reflexivity|]. split; [apply grows_refl|].
    split; [reflexivity|exact Hres].
  - destruct (Hcall small st (or_introl eq_refl))
      as (st1 & outcome & -> & Hp & Hg & Hdb & Hk).
    assert (Hg1 : grows (fun sent => (length sent <= length batch)%nat) st st1).
    { eapply grows_weaken; [|exact Hg]. intros sent Hs.
      specialize (Hlen small (or_introl eq_refl)). cbv beta in *. lia. }
    assert (IH' : forall results1,
               (forall z, is_Some (results1 !! z) -> In z batch) ->
               exists st' found,
                 eachSmallBatch call rest st1 results1 = Some (st', Fulfilled found) /\
                 grows (fun sent => (length sent <= length batch)%nat) st st' /\
                 db st' = db st /\
                 (forall z, is_Some (found !! z) -> In z batch)).
    { intros results1 Hres1.
      destruct (IH (fun s t H => Hcall s t (or_intror H))
                   (fun s z H => Hin s z (or_intror H))
                   (fun s H => Hlen s (or_intror H)) st1 results1 Hres1)
        as (st' & found & He & Hg' & Hdb' & Hk').
      exists st', found. split; [exact He|]. split; [|split; [congruence|exact Hk']].
      eapply grows_trans; [exact Hg1|exact Hg']. }
    destruct outcome as [smallResult| |]; [| |congruence].
    + apply IH'. intros z Hz. apply lookup_union_is_Some in Hz.
      destruct Hz as [Hz|Hz]; [|now apply Hres].
      apply (Hin small z (or_introl eq_refl)). now apply (Hk smallResult eq_refl).
    + apply IH'. exact Hres.
Qed.

(** The [catch] block on a batch of more than 5 ZIP codes. *)
Lemma caught_contained (E : Env) (now : Z) (batch : list string) (st1 : State) :
  (5 < length batch)%nat ->
  exists st' found,
    eachSmallBatch (fetchBatchFromAPI_fuel (length batch) E now) (chunkArray batch 5) st1 ∅
    = Some (st', Fulfilled found) /\
    grows (fun sent => (length sent <= length batch)%nat) st1 st' /\
    db st' = db st1 /\
    (forall z, is_Some (found !! z) -> In z batch).
Proof.
  intros Hbig.
  pose proof (ChunkFacts.chunkArray_sizes 5 batch ltac:(lia)) as Hsizes.
  rewrite List.Forall_forall in Hsizes.
  apply eachSmallBatch_contained.
  - intros small st0 Hs. specialize (Hsizes small Hs).
    apply small_batch_contained; lia.
  - intros small z Hs Hz.
    apply (ChunkFacts.in_chunk 5 batch small z); [lia|exact Hs|exact Hz].
  - intros small Hs. specialize (Hsizes small Hs). lia.
  - intros z. rewrite lookup_empty. intros [? [=]].
Qed.

(** [fetchBatchFromAPI] always settles: it never runs out of depth, and it
    throws only for a batch of at most 5 ZIP codes. *)
Lemma fetchBatchFromAPI_contained (E : Env) (now : Z) (batch : list string)
    (st : State) :
  contained batch st (fetchBatchFromAPI E now batch st) /\
  (forall st', fetchBatchFromAPI E now batch st = Some (st', Rejected) ->
               (length batch <= 5)%nat).
Proof.
  destruct (Nat.le_gt_cases (length batch) 5) as [Hsmall|Hbig].
  { split; [apply small_batch_contained; lia|auto]. }
  unfold fetchBatchFromAPI.
  rewrite fetchBatchFromAPI_fuel_eq by (intros ->; simpl in Hbig; lia).
  replace (5 <? length batch)%nat with true by (symmetry; apply Nat.ltb_lt; lia).
  destruct (fetchWithCorsFallback_settles E (proxyCount - 1) batch st)
    as (Hg & Hdb & Hp).
  assert (Hg' : grows (fun sent => (length sent <= length batch)%nat) st
                  (fst (fetchWithCorsFallback E (proxyCount - 1) batch st))).
  { eapply grows_weaken; [|exact Hg]. now intros sent <-. }
  destruct (fetchWithCorsFallback E (proxyCount - 1) batch st) as [st1 fetched].
  cbn [fst snd] in *. cbv zeta.
  destruct (caught_contained E now batch st1 Hbig)
    as (st' & found & He & Hg2 & Hdb2 & Hk).
  assert (Hcaught :
    contained batch st
      (eachSmallBatch (fetchBatchFromAPI_fuel (length batch) E now)
         (chunkArray batch 5) st1 ∅) /\
    (forall st'',
       eachSmallBatch (fetchBatchFromAPI_fuel (length batch) E now)
         (chunkArray batch 5) st1 ∅ = Some (st'', Rejected) ->
       (length batch <= 5)%nat)).
  { rewrite He. split; [|discriminate].
    exists st', (Fulfilled found). split; [reflexivity|]. split; [discriminate|].
    split; [eapply grows_trans; [exact Hg'|exact Hg2]|].
    split; [congruence|]. intros f [= <-]. exact Hk. }
  destruct fetched as [body| |]; [|exact Hcaught|congruence].
  destruct (parseResponse E now body batch) as [parsed|] eqn:Ep; [|exact Hcaught].
  split; [|discriminate].
  exists st1, (Fulfilled parsed).
  split; [reflexivity|]. split; [discriminate|]. split; [exact Hg'|].
  split; [exact Hdb|]. intros f [= <-] z.
  exact (parseResponse_requested E now body batch parsed z Ep).
Qed.

(** The loop over sub-batches of at most 5 ZIP codes does not depend on the
    depth that is left. *)
Lemma eachSmallBatch_fuel (fuel : nat) (E : Env) (now : Z)
    (smallerBatches : list (list string)) :
  (0 < fuel)%nat ->
  Forall (fun small => (0 < length small <= 5)%nat) smallerBatches ->
  forall st results,
    eachSmallBatch (fetchBatchFromAPI_fuel fuel E now) smallerBatches st results
    = eachSmallBatch (fetchBatchFromAPI E now) smallerBatches st results.
Proof.
  intros Hf. induction 1 as [|small rest Hs _ IH]; intros st results; simpl;
    [reflexivity|].
  unfold fetchBatchFromAPI at 1.
  rewrite (small_batch_fuel fuel (S (length small)) E now small st) by lia.
  destruct (fetchBatchFromAPI_fuel (S (length small)) E now small st)
    as [[st2 [smallResult| |]]|]; auto.
Qed.

(** A batch of more than 5 ZIP codes whose [try] block fails is fetched
    again as its sub-batches of at most 5, each through [fetchBatchFromAPI]
    itself. *)
Lemma fetchBatchFromAPI_retry (E : Env) (now : Z) (batch : list string)
    (st st1 : State) :
  (5 < length batch)%nat ->
  Service.caught E now batch st st1 ->
  fetchBatchFromAPI E now batch st
  = eachSmallBatch (fetchBatchFromAPI E now) (chunkArray batch 5) st1 ∅.
Proof.
  intros Hbig Hfail. unfold fetchBatchFromAPI at 1.
  rewrite fetchBatchFromAPI_fuel_eq by (intros ->; simpl in Hbig; lia).
  replace (5 <? length batch)%nat with true by (symmetry; apply Nat.ltb_lt; lia).
  rewrite <- (eachSmallBatch_fuel (length batch) E now (chunkArray batch 5))
    by (try apply ChunkFacts.chunkArray_sizes; lia).
  destruct Hfail as [Hf|(body & Hf & Hp)]; rewrite Hf; cbn [fst snd]; cbv zeta;
    [reflexivity|now rewrite Hp].
Qed.

(** A batch whose [try] block does not fail returns what its answer parses
    to. *)
Lemma fetchBatchFromAPI_parsed (E : Env) (now : Z) (batch : list string)
    (st st1 : State) (body : Body) (parsed : gmap string Payload) :
  batch <> [] ->
  fetchWithCorsFallback E (proxyCount - 1) batch st = (st1, Fulfilled body) ->
  parseResponse E now body batch = Some parsed ->
  fetchBatchFromAPI E now batch st = Some (st1, Fulfilled parsed).
Proof.
  intros Hne Hf Hp. unfold fetchBatchFromAPI.
  rewrite fetchBatchFromAPI_fuel_eq by exact Hne.
  rewrite Hf. cbn [fst snd]. cbv zeta. now rewrite Hp.
Qed.

End FetchFacts.
Module BatchFacts.

Import ACSAPIService.
Import Service.
Import FetchFacts.

(** *** Writing to the cache leaves the rest of the state *)

Lemma cacheData_frame (now : Z) (zip : string) (data : Payload) (st : State) :
  let st' := cacheData now zip data st in
  requests st' = requests st /\ stats st' = stats st /\
  memoryCache st' = memoryCache st /\ currentProxyIndex st' = currentProxyIndex st.
Proof. unfold cacheData. destruct (db st); repeat split. Qed.

Lemma cacheAll_frame (now : Z) (batchData : gmap string Payload) (st : State) :
  let st' := cacheAll now batchData st in
  requests st' = requests st /\ stats st' = stats st /\
  memoryCache st' = memoryCache st /\ currentProxyIndex st' = currentProxyIndex st.
Proof.
  unfold cacheAll. generalize (map_to_list batchData) as entries. intros entries.
  revert st. induction entries as [|[zip data] entries IH]; intros st; simpl.
  - repeat split.
  - destruct (IH (cacheData now zip data st)) as (R & S & M & P).
    destruct (cacheData_frame now zip data st) as (R' & S' & M' & P').
    repeat split; congruence.
Qed.

Lemma cacheAll_grows (P : list string -> Prop) (now : Z)
    (batchData : gmap string Payload) (st : State) :
  grows P st (cacheAll now batchData st).
Proof.
  destruct (cacheAll_frame now batchData st) as (R & S & M & _).
  exists []. rewrite app_nil_r, S. repeat split; auto.
Qed.

(** *** The loop of [fetchMissingData] *)

(** The loop settles with a map, whatever the batches do. *)
Lemma eachBatch_settles (E : Env) (now : Z) (batches : list (list string)) :
  Forall (fun batch => (length batch <= batchSize)%nat) batches ->
  forall st results,
    exists st' found,
      eachBatch E now batches st results = Some (st', Fulfilled found) /\
      grows (fun sent => (length sent <= batchSize)%nat) st st'.
Proof.
  induction 1 as [|batch rest Hb _ IH]; intros st results; simpl.
  - exists st, results. split; [reflexivity|apply grows_refl].
  - destruct (fetchBatchFromAPI_contained E now batch st)
      as [(st1 & outcome & -> & Hp & Hg & _ & _) _].
    assert (Hg1 : grows (fun sent => (length sent <= batchSize)%nat) st st1).
    { eapply grows_weaken; [|exact Hg]. intros sent Hs. cbv beta in *. lia. }
    destruct outcome as [batchData| |]; [| |congruence].
    + destruct (IH (cacheAll now batchData st1) (batchData ∪ results))
        as (st' & found & He & Hg').
      exists st', found. split; [exact He|].
      eapply grows_trans; [exact Hg1|].
      eapply grows_trans; [apply cacheAll_grows|exact Hg'].
    + destruct (IH st1 results) as (st' & found & He & Hg').
      exists st', found. split; [exact He|].
      eapply grows_trans; [exact Hg1|exact Hg'].
Qed.

(** *** Batches that fail, batches that are answered *)

(** The [try] block of a failing batch ends in the [catch] block. *)
Lemma failing_caught (E : Env) (now : Z) (batch : list string) (st : State) :
  Service.failing E now batch ->
  Service.caught E now batch st
    (fst (fetchWithCorsFallback E (proxyCount - 1) batch st)).
Proof.
  intros [Hu|(body & Hb & Hp)].
  - left. pose proof (fetchWithCorsFallback_unanswered E (proxyCount - 1) batch st Hu).
    destruct (fetchWithCorsFallback E (proxyCount - 1) batch st). simpl in *. congruence.
  - right. exists body. split; [|exact Hp].
    now rewrite (fetchWithCorsFallback_answered E _ batch st body (Hb _ _)).
Qed.

(** A failing batch of at most 5 ZIP codes throws. *)
Lemma small_failing (E : Env) (now : Z) (batch : list string) (st : State) :
  (0 < length batch <= 5)%nat -> Service.failing E now batch ->
  exists st', fetchBatchFromAPI E now batch st = Some (st', Rejected).
Proof.
  intros Hlen Hf. rewrite small_batch_eq by exact Hlen.
  destruct (failing_caught E now batch st Hf) as [Hc|(body & Hc & Hp)];
    rewrite Hc; cbn [fst snd]; [|rewrite Hp]; eauto.
Qed.

(** An answer that parses is what the batch returns, after one request. *)
Lemma answered_batch (E : Env) (now : Z) (batch : list string) (st : State)
    (body : Body) (parsed : gmap string Payload) :
  batch <> [] ->
  http E (apiCalls (stats st)) (currentProxyIndex st) batch = Some body ->
  parseResponse E now body batch = Some parsed ->
  fetchBatchFromAPI E now batch st = Some (send batch st, Fulfilled parsed).
Proof.
  intros Hne Hb Hp.
  apply (fetchBatchFromAPI_parsed E now batch st (send batch st) body parsed Hne);
    [|exact Hp].
  exact (fetchWithCorsFallback_answered E _ batch st body Hb).
Qed.

Lemma NoDup_app_inv {A : Type} (l k : list A) :
  List.NoDup (l ++ k) ->
  List.NoDup l /\ (forall x, In x l -> In x k -> False) /\ List.NoDup k.
Proof.
  induction l as [|a l IH]; simpl; intros H.
  - split; [constructor|]. split; [intros x []|exact H].
  - inversion H as [|? ? Ha Hl]; subst. destruct (IH Hl) as (Hn & Hd & Hk).
    split; [|split; [|exact Hk]].
    + constructor; [|exact Hn]. intros Hin. apply Ha, in_or_app. auto.
    + intros x [<-|Hx] Hxk; [apply Ha, in_or_app; auto|exact (Hd x Hx Hxk)].
Qed.

(** What the loop over the sub-batches returns for the ZIP codes of each
    sub-batch, the sub-batches sharing no ZIP code: nothing for a sub-batch
    that fails, the parsed payloads for one that is answered. *)
Lemma eachSmallBatch_results (E : Env) (now : Z) (smallerBatches : list (list string)) :
  Forall (fun small => (0 < length small <= 5)%nat) smallerBatches ->
  forall st results st' found,
    eachSmallBatch (fetchBatchFromAPI E now) smallerBatches st results
    = Some (st', Fulfilled found) ->
    List.NoDup (concat smallerBatches) ->
    (forall z, In z (concat smallerBatches) -> results !! z = None) ->
    (forall z, ~ In z (concat smallerBatches) -> found !! z = results !! z) /\
    (forall small, In small smallerBatches ->
       (Service.failing E now small -> forall z, In z small -> found !! z = None) /\
       (forall body parsed,
          Service.answeredBy E small body ->
          parseResponse E now body small = Some parsed ->
          forall z, In z small -> found !! z = parsed !! z)).
Proof.
  induction 1 as [|small rest Hs _ IH]; intros st results st' found; simpl.
  - intros [= _ <-] _ _. split; [reflexivity|]. intros small [].
  - intros Hrun Hnd Hfresh.
    apply NoDup_app_inv in Hnd. destruct Hnd as (Hnb & Hdisj & Hnr).
    destruct (fetchBatchFromAPI_contained E now small st)
      as [(st1 & outcome & Ecall & Hp & _ & _ & Hkeys) _].
    rewrite Ecall in Hrun.
    assert (Hne : small <> []) by (intros ->; simpl in Hs; lia).
    assert (Hnext : exists results1,
               eachSmallBatch (fetchBatchFromAPI E now) rest st1 results1
               = Some (st', Fulfilled found) /\
               (forall z, ~ In z small -> results1 !! z = results !! z) /\
               (forall z, In z small ->
                  (Service.failing E now small -> results1 !! z = None) /\
                  (forall body parsed,
                     Service.answeredBy E small body ->
                     parseResponse E now body small = Some parsed ->
                     results1 !! z = parsed !! z))).
    { destruct outcome as [smallResult| |]; [| |congruence].
      - exists (smallResult ∪ results). split; [exact Hrun|]. split.
        + intros z Hz. apply lookup_union_r. apply eq_None_not_Some.
          intros Hsome. apply Hz. now apply (Hkeys smallResult eq_refl).
        + intros z Hz. rewrite lookup_union_l by (apply Hfresh, in_or_app; auto).
          split.
          * intros Hf. destruct (small_failing E now small st Hs Hf) as (st2 & Hr).
            congruence.
          * intros body parsed Hb Hparse.
            rewrite (answered_batch E now small st body parsed Hne (Hb _ _) Hparse)
              in Ecall.
            now injection Ecall as _ <-.
      - exists results. split; [exact Hrun|]. split; [auto|].
        intros z Hz. split.
        + intros _. apply Hfresh, in_or_app. auto.
        + intros body parsed Hb Hparse.
          rewrite (answered_batch E now small st body parsed Hne (Hb _ _) Hparse)
            in Ecall.
          discriminate. }
    destruct Hnext as (results1 & Hrest & Hout & Hin).
    destruct (IH st1 results1 st' found Hrest Hnr) as [Hkeep Heach].
    { intros z Hz. rewrite Hout; [apply Hfresh, in_or_app; auto|].
      intros Hb. exact (Hdisj z Hb Hz). }
    split.
    + intros z Hz. rewrite Hkeep by (intros H; apply Hz, in_or_app; auto).
      apply Hout. intros H. apply Hz, in_or_app. auto.
    + intros b [<-|Hb]; [|now apply Heach].
      split.
      * intros Hf z Hz. rewrite Hkeep by (intros H; exact (Hdisj z Hz H)).
        now apply (Hin z Hz).
      * intros body parsed Hbody Hparse z Hz.
        rewrite Hkeep by (intros H; exact (Hdisj z Hz H)).
        now apply (proj2 (Hin z Hz) body parsed).
Qed.

(** The requests of the loop over the sub-batches: each sub-batch in turn,
    one to three times. *)
Lemma eachSmallBatch_tried (E : Env) (now : Z) (smallerBatches : list (list string)) :
  Forall (fun small => (0 < length small <= 5)%nat) smallerBatches ->
  forall st results st' outcome,
    eachSmallBatch (fetchBatchFromAPI E now) smallerBatches st results
    = Some (st', outcome) ->
    exists attempts,
      length attempts = length smallerBatches /\
      Forall (fun k => (1 <= k <= 3)%nat) attempts /\
      Service.sentBetween st st' (Service.tried smallerBatches attempts).
Proof.
  induction 1 as [|small rest Hs Hrest IH]; intros st results st' outcome; simpl.
  - intros [= <- _]. exists []. split; [reflexivity|]. split; [constructor|].
    apply sentBetween_refl.
  - rewrite small_batch_eq by exact Hs.
    destruct (fetchWithCorsFallback_tries E (proxyCount - 1) small st)
      as (k & Hk & Hsent).
    destruct (fetchWithCorsFallback_settles E (proxyCount - 1) small st)
      as (_ & _ & Hp).
    destruct (fetchWithCorsFallback E (proxyCount - 1) small st) as [st1 fetched].
    cbn [fst snd] in *.
    assert (Hgo : forall results1,
               eachSmallBatch (fetchBatchFromAPI E now) rest st1 results1
               = Some (st', outcome) ->
               exists attempts,
                 length attempts = S (length rest) /\
                 Forall (fun k => (1 <= k <= 3)%nat) attempts /\
                 Service.sentBetween st st' (Service.tried (small :: rest) attempts)).
    { intros results1 Hrun.
      destruct (IH st1 results1 st' outcome Hrun) as (attempts & Hlen & Hall & Hs').
      exists (k :: attempts). split; [simpl; now rewrite Hlen|].
      split; [constructor; [unfold proxyCount in Hk; lia|exact Hall]|].
      unfold Service.tried. cbn [combine map concat fst snd].
      exact (sentBetween_trans _ _ _ _ _ Hsent Hs'). }
    destruct fetched as [body| |]; [|apply Hgo|congruence].
    destruct (parseResponse E now body small); apply Hgo.
Qed.

(** A batch that fails, and whose sub-batches fail, adds nothing to the
    results. *)
Lemma exhausted_batch (E : Env) (now : Z) (batch : list string) (st st' : State)
    (batchData : gmap string Payload) :
  Service.failing E now batch ->
  (forall small, In small (chunkArray batch 5) -> Service.failing E now small) ->
  List.NoDup batch ->
  fetchBatchFromAPI E now batch st = Some (st', Fulfilled batchData) ->
  forall z, In z batch -> batchData !! z = None.
Proof.
  intros Hf Hsmall Hnd Hrun z Hz.
  destruct (Nat.le_gt_cases (length batch) 5) as [Hle|Hbig].
  - assert (Hlen : (0 < length batch <= 5)%nat)
      by (destruct batch; [destruct Hz|simpl in *; lia]).
    destruct (small_failing E now batch st Hlen Hf) as (st1 & Hr). congruence.
  - rewrite (fetchBatchFromAPI_retry E now batch st _ Hbig (failing_caught E now batch st Hf))
      in Hrun.
    pose proof (ChunkFacts.chunkArray_sizes 5 batch ltac:(lia)) as Hsizes.
    pose proof (ChunkFacts.chunkArray_concat 5 batch ltac:(lia)) as Hc.
    destruct (eachSmallBatch_results E now (chunkArray batch 5) Hsizes _ _ _ _ Hrun)
      as [_ Heach].
    + now rewrite Hc.
    + intros x _. apply lookup_empty.
    + rewrite <- Hc in Hz. apply in_concat in Hz. destruct Hz as (small & Hin & Hzs).
      exact (proj1 (Heach small Hin) (Hsmall small Hin) z Hzs).
Qed.

(** A sub-batch that is answered contributes its payloads to what the
    failed batch returns. *)
Lemma recovered_batch (E : Env) (now : Z) (batch small : list string) (st st' : State)
    (batchData parsed : gmap string Payload) (body : Body) :
  (5 < length batch)%nat ->
  Service.failing E now batch ->
  In small (chunkArray batch 5) ->
  Service.answeredBy E small body ->
  parseResponse E now body small = Some parsed ->
  List.NoDup batch ->
  fetchBatchFromAPI E now batch st = Some (st', Fulfilled batchData) ->
  forall z, In z small -> batchData !! z = parsed !! z.
Proof.
  intros Hbig Hf Hin Hb Hparse Hnd Hrun z Hz.
  rewrite (fetchBatchFromAPI_retry E now batch st _ Hbig (failing_caught E now batch st Hf))
    in Hrun.
  pose proof (ChunkFacts.chunkArray_sizes 5 batch ltac:(lia)) as Hsizes.
  pose proof (ChunkFacts.chunkArray_concat 5 batch ltac:(lia)) as Hc.
  destruct (eachSmallBatch_results E now (chunkArray batch 5) Hsizes _ _ _ _ Hrun)
    as [_ Heach].
  - now rewrite Hc.
  - intros x _. apply lookup_empty.
  - exact (proj2 (Heach small Hin) body parsed Hb Hparse z Hz).
Qed.

Lemma NoDup_chunk (batches : list (list string)) (batch : list string) :
  List.NoDup (concat batches) -> In batch batches -> List.NoDup batch.
Proof.
  induction batches as [|b rest IH]; simpl; [intros _ []|].
  intros Hnd. apply NoDup_app_inv in Hnd. destruct Hnd as (Hb & _ & Hrest).
  intros [<-|Hin]; [exact Hb|now apply IH].
Qed.

(** What the loop returns for the ZIP codes of each batch, the batches
    sharing no ZIP code. *)
Lemma eachBatch_results (E : Env) (now : Z) (batches : list (list string)) :
  forall st results st' found,
    eachBatch E now batches st results = Some (st', Fulfilled found) ->
    List.NoDup (concat batches) ->
    (forall z, In z (concat batches) -> results !! z = None) ->
    (forall z, ~ In z (concat batches) -> found !! z = results !! z) /\
    (forall batch, In batch batches ->
       (Service.failing E now batch ->
        (forall small, In small (chunkArray batch 5) -> Service.failing E now small) ->
        forall z, In z batch -> found !! z = None) /\
       (forall body parsed,
          Service.answeredBy E batch body ->
          parseResponse E now body batch = Some parsed ->
          forall z, In z batch -> found !! z = parsed !! z) /\
       (forall small body parsed,
          (5 < length batch)%nat ->
          Service.failing E now batch ->
          In small (chunkArray batch 5) ->
          Service.answeredBy E small body ->
          parseResponse E now body small = Some parsed ->
          forall z, In z small -> found !! z = parsed !! z)).
Proof.
  induction batches as [|batch rest IH]; intros st results st' found; simpl.
  - intros [= _ <-] _ _. split; [reflexivity|]. intros batch [].
  - intros Hrun Hnd Hfresh.
    pose proof (NoDup_chunk (batch :: rest) batch Hnd (or_introl eq_refl)) as Hndb.
    apply NoDup_app_inv in Hnd. destruct Hnd as (Hnb & Hdisj & Hnr).
    destruct (fetchBatchFromAPI_contained E now batch st)
      as [(st1 & outcome & Ecall & Hp & _ & _ & Hkeys) Hrej].
    rewrite Ecall in Hrun.
    (* the results after this batch, and the state the loop goes on from *)
    assert (Hnext : exists st2 results1,
               eachBatch E now rest st2 results1 = Some (st', Fulfilled found) /\
               (forall z, ~ In z batch -> results1 !! z = results !! z) /\
               (forall z, In z batch ->
                  (Service.failing E now batch ->
                   (forall small, In small (chunkArray batch 5) ->
                                  Service.failing E now small) ->
                   results1 !! z = None) /\
                  (forall body parsed,
                     Service.answeredBy E batch body ->
                     parseResponse E now body batch = Some parsed ->
                     results1 !! z = parsed !! z)) /\
               (forall small body parsed z,
                  (5 < length batch)%nat ->
                  Service.failing E now batch ->
                  In small (chunkArray batch 5) ->
                  Service.answeredBy E small body ->
                  parseResponse E now body small = Some parsed ->
                  In z small -> results1 !! z = parsed !! z)).
    { destruct outcome as [batchData| |]; [| |congruence].
      - exists (cacheAll now batchData st1), (batchData ∪ results).
        split; [exact Hrun|]. split; [|split].
        + intros z Hz. apply lookup_union_r. apply eq_None_not_Some.
          intros Hs. apply Hz. now apply (Hkeys batchData eq_refl).
        + intros z Hz. rewrite lookup_union_l by (apply Hfresh, in_or_app; auto).
          split.
          * intros Hf Hsmall.
            exact (exhausted_batch E now batch st st1 batchData Hf Hsmall Hndb Ecall
                     z Hz).
          * intros body parsed Hb Hparse.
            assert (Hne : batch <> []) by (intros ->; destruct Hz).
            rewrite (answered_batch E now batch st body parsed Hne (Hb _ _) Hparse)
              in Ecall.
            now injection Ecall as _ <-.
        + intros small body parsed z Hbig Hf Hin Hb Hparse Hz.
          assert (Hzb : In z batch)
            by (apply (ChunkFacts.in_chunk 5 batch small z); [lia|exact Hin|exact Hz]).
          rewrite lookup_union_l by (apply Hfresh, in_or_app; auto).
          exact (recovered_batch E now batch small st st1 batchData parsed body
                   Hbig Hf Hin Hb Hparse Hndb Ecall z Hz).
      - exists st1, results. split; [exact Hrun|]. split; [auto|]. split.
        + intros z Hz. split.
          * intros _ _. apply Hfresh, in_or_app. auto.
          * intros body parsed Hb Hparse.
            assert (Hne : batch <> []) by (intros ->; destruct Hz).
            rewrite (answered_batch E now batch st body parsed Hne (Hb _ _) Hparse)
              in Ecall.
            discriminate.
        + intros small body parsed z Hbig _ _ _ _ _.
          specialize (Hrej st1 Ecall). lia. }
    destruct Hnext as (st2 & results1 & Hrest & Hout & Hin & Hsub).
    destruct (IH st2 results1 st' found Hrest Hnr) as [Hkeep Heach].
    { intros z Hz. rewrite Hout; [apply Hfresh, in_or_app; auto|].
      intros Hb. exact (Hdisj z Hb Hz). }
    split.
    + intros z Hz. rewrite Hkeep by (intros H; apply Hz, in_or_app; auto).
      apply Hout. intros H. apply Hz, in_or_app. auto.
    + intros b [<-|Hb]; [|now apply Heach].
      split; [|split].
      * intros Hf Hsmall z Hz. rewrite Hkeep by (intros H; exact (Hdisj z Hz H)).
        now apply (Hin z Hz).
      * intros body parsed Hbody Hparse z Hz.
        rewrite Hkeep by (intros H; exact (Hdisj z Hz H)).
        now apply (proj2 (Hin z Hz) body parsed).
      * intros small body parsed Hbig Hf Hsm Hbody Hparse z Hz.
        assert (Hzb : In z batch)
          by (apply (ChunkFacts.in_chunk 5 batch small z); [lia|exact Hsm|exact Hz]).
        rewrite Hkeep by (intros H; exact (Hdisj z Hzb H)).
        exact (Hsub small body parsed z Hbig Hf Hsm Hbody Hparse Hz).
Qed.

(** When every request gets an answer that parses, one request is sent per
    batch. *)
Lemma eachBatch_answered (E : Env) (now : Z) (batches : list (list string)) :
  Service.answering E now ->
  Forall (fun batch => batch <> []) batches ->
  forall st results,
    exists st' found,
      eachBatch E now batches st results = Some (st', Fulfilled found) /\
      requests st' = requests st ++ map (fun batch => (currentProxyIndex st, batch)) batches /\
      stats st' = {| cacheHits := cacheHits (stats st);
                     cacheMisses := cacheMisses (stats st);
                     apiCalls := (apiCalls (stats st) + length batches)%nat;
                     bytesSaved := bytesSaved (stats st) |} /\
      memoryCache st' = memoryCache st.
Proof.
  intros Hall. induction 1 as [|batch rest Hne _ IH]; intros st results; simpl.
  - exists st, results. rewrite app_nil_r, Nat.add_0_r. repeat split.
    now destruct (stats st).
  - destruct (Hall (apiCalls (stats st)) (currentProxyIndex st) batch)
      as (body & Eb & Hparse).
    destruct (parseResponse E now body batch) as [parsed|] eqn:Ep; [|congruence].
    rewrite (answered_batch E now batch st body parsed Hne Eb Ep).
    destruct (IH (cacheAll now parsed (send batch st)) (parsed ∪ results))
      as (st' & found & He & Hr & Hs & Hm).
    destruct (cacheAll_frame now parsed (send batch st)) as (R & S & M & P).
    exists st', found. split; [exact He|]. rewrite Hr, Hs, Hm, R, S, M, P. simpl.
    rewrite <- app_assoc. repeat split. f_equal. lia.
Qed.

End BatchFacts.
Module LookupFacts.

Import ACSAPIService.
Import Service.
Import FetchFacts.

Lemma getFromCache_frame (now : Z) (zip : string) (st : State) :
  fst (getFromCache now zip st) = st.
Proof.
  unfold getFromCache. destruct (db st) as [store|]; [|reflexivity].
  destruct (store !! (cachePrefix ++ zip)%string) as [cached|]; [|reflexivity].
  destruct (expiry cached <? now)%Z; reflexivity.
Qed.

(** A chunk of one ZIP code: the callback runs from start to end. *)
Lemma processChunk_one (now : Z) (zip : string) (acc : State * Lookup) :
  processChunk now [zip] acc = lookup now acc zip.
Proof.
  unfold processChunk, lookup. destruct acc as [st l]. cbn [fold_left start].
  destruct (JS.mapGet String.eqb zip (memoryCache st)); reflexivity.
Qed.

(** The callbacks up to their [await]: the log of requests, the memory
    cache and the store are untouched, and every ZIP code of the chunk is
    either counted as a hit or waiting. *)
Lemma start_step (st : State) (l : Lookup) (awaiting : list string) (zip : string) :
  let result := start ((st, l), awaiting) zip in
  requests (fst (fst result)) = requests st /\
  memoryCache (fst (fst result)) = memoryCache st /\
  db (fst (fst result)) = db st /\
  hung (snd (fst result)) = hung l /\
  missingZips (snd (fst result)) = missingZips l /\
  (Service.lookups (fst (fst result)) + length (snd result)
   = S (Service.lookups st + length awaiting))%nat.
Proof.
  unfold start.
  destruct (JS.mapGet String.eqb zip (memoryCache st)) as [memoryCached|];
    unfold Service.lookups; cbn; rewrite ?length_app; cbn; repeat split; lia.
Qed.

Lemma started (zips : list string) :
  forall st l awaiting,
    let result := fold_left start zips ((st, l), awaiting) in
    requests (fst (fst result)) = requests st /\
    memoryCache (fst (fst result)) = memoryCache st /\
    db (fst (fst result)) = db st /\
    hung (snd (fst result)) = hung l /\
    missingZips (snd (fst result)) = missingZips l /\
    (Service.lookups (fst (fst result)) + length (snd result)
     = Service.lookups st + length awaiting + length zips)%nat.
Proof.
  induction zips as [|zip zips IH]; intros st l awaiting; cbv zeta;
    cbn [fold_left length fst snd].
  - repeat split; lia.
  - destruct (start_step st l awaiting zip) as (R & M & D & H & Z & C).
    destruct (start ((st, l), awaiting) zip) as [[st1 l1] awaiting1].
    cbn [fst snd] in *.
    destruct (IH st1 l1 awaiting1) as (R' & M' & D' & H' & Z' & C').
    repeat split; try congruence. lia.
Qed.

(** One callback resumed: the log of requests is untouched; unless the
    lookup hangs, one more lookup is counted. *)
Lemma resume_step (now : Z) (st : State) (l : Lookup) (zip : string) :
  let result := resume now (st, l) zip in
  requests (fst result) = requests st /\
  (hung l = true -> hung (snd result) = true) /\
  (hung (snd result) = false ->
   Service.lookups (fst result) = S (Service.lookups st)).
Proof.
  unfold resume.
  pose proof (getFromCache_frame now zip st) as Hf.
  destruct (getFromCache now zip st) as [st1 [[cached|]| |]]; simpl in *; subst st1;
    unfold Service.lookups; simpl; repeat split; auto; try discriminate; lia.
Qed.

Lemma resumed (now : Z) (zips : list string) (st : State) (l : Lookup) :
  let result := fold_left (resume now) zips (st, l) in
  requests (fst result) = requests st /\
  (hung l = true -> hung (snd result) = true) /\
  (hung (snd result) = false ->
   Service.lookups (fst result) = (Service.lookups st + length zips)%nat).
Proof.
  revert st l. induction zips as [|zip zips IH]; intros st l; cbn [fold_left length].
  - repeat split; auto.
  - destruct (resume_step now st l zip) as (R & H & C).
    destruct (resume now (st, l) zip) as [st1 l1]. simpl in *.
    destruct (IH st1 l1) as (R' & H' & C').
    split; [congruence|]. split; [auto|].
    intros Hn. rewrite (C' Hn), C; [lia|].
    destruct (hung l1) eqn:E; [|reflexivity].
    rewrite (H' eq_refl) in Hn. discriminate.
Qed.

(** A chunk: unless a lookup hangs, one lookup is counted per ZIP code. *)
Lemma processChunk_counted (now : Z) (zipChunk : list string) (st : State) (l : Lookup) :
  let result := processChunk now zipChunk (st, l) in
  requests (fst result) = requests st /\
  (hung l = true -> hung (snd result) = true) /\
  (hung (snd result) = false ->
   Service.lookups (fst result) = (Service.lookups st + length zipChunk)%nat).
Proof.
  unfold processChunk.
  destruct (started zipChunk st l []) as (R & _ & _ & H & _ & C).
  destruct (fold_left start zipChunk ((st, l), [])) as [[st1 l1] awaiting].
  cbn [fst snd length] in *.
  destruct (resumed now awaiting st1 l1) as (R' & H' & C').
  split; [congruence|]. split; [intros Hh; apply H'; congruence|].
  intros Hn. rewrite (C' Hn). lia.
Qed.

(** The chunks: unless a lookup hangs, one lookup is counted per ZIP code
    of every chunk. *)
Lemma chunks_counted (now : Z) (chunks : list (list string)) :
  forall st l,
    let result :=
      fold_left
        (fun acc chunk => if hung (snd acc) then acc else processChunk now chunk acc)
        chunks (st, l) in
    requests (fst result) = requests st /\
    (hung l = true -> hung (snd result) = true) /\
    (hung l = false -> hung (snd result) = false ->
     Service.lookups (fst result) = (Service.lookups st + length (concat chunks))%nat).
Proof.
  induction chunks as [|chunk chunks IH]; intros st l; cbv zeta;
    cbn [fold_left concat fst snd].
  - split; [reflexivity|]. split; [auto|]. intros _ _. simpl. lia.
  - destruct (hung l) eqn:Eh.
    + destruct (IH st l) as (R & H & _). split; [exact R|]. split; [|discriminate].
      intros _. apply H, Eh.
    + destruct (processChunk_counted now chunk st l) as (R & _ & C).
      destruct (processChunk now chunk (st, l)) as [st1 l1]. cbn [fst snd] in *.
      destruct (IH st1 l1) as (R' & H' & C').
      split; [congruence|]. split; [discriminate|].
      intros _ Hn. rewrite length_app.
      destruct (hung l1) eqn:E1; [rewrite (H' eq_refl) in Hn; discriminate|].
      rewrite (C' eq_refl Hn), (C eq_refl). lia.
Qed.

Lemma lookupChunks_counted (now : Z) (uniqueZips : list string) (st : State) :
  let result := lookupChunks now uniqueZips st in
  requests (fst result) = requests st /\
  (hung (snd result) = false ->
   Service.lookups (fst result) = (Service.lookups st + length uniqueZips)%nat).
Proof.
  unfold lookupChunks.
  destruct (chunks_counted now (chunkArray uniqueZips 300) st
              {| results := []; missingZips := []; hung := false |}) as (R & _ & C).
  split; [exact R|]. intros Hn.
  rewrite (C eq_refl Hn), ChunkFacts.chunkArray_concat; [reflexivity|lia].
Qed.

(** ZIP codes in neither tier all miss: the state only counts the misses. *)
Lemma miss_uncached (st : State) (zip : string) :
  Service.uncached st zip -> Service.uncached (miss st) zip.
Proof. auto. Qed.

Lemma start_all_miss (zips : list string) (st : State) (l : Lookup)
    (awaiting : list string) :
  (forall z, In z zips -> Service.uncached st z) ->
  fold_left start zips ((st, l), awaiting) = ((st, l), awaiting ++ zips).
Proof.
  revert awaiting. induction zips as [|zip zips IH]; intros awaiting Hu;
    cbn [fold_left].
  - now rewrite app_nil_r.
  - destruct (Hu zip (or_introl eq_refl)) as [Hm _].
    unfold start at 2. rewrite Hm, IH by (intros z Hz; apply Hu; now right).
    now rewrite <- app_assoc.
Qed.

Lemma resume_all_miss (now : Z) (zips : list string) (st : State) (l : Lookup) :
  (forall z, In z zips -> Service.uncached st z) ->
  fold_left (resume now) zips (st, l)
  = (Nat.iter (length zips) miss st,
     {| results := results l; missingZips := missingZips l ++ zips; hung := hung l |}).
Proof.
  revert st l. induction zips as [|zip zips IH]; intros st l Hu;
    cbn [fold_left length].
  - rewrite app_nil_r. now destruct l.
  - destruct (Hu zip (or_introl eq_refl)) as [Hm Hd].
    unfold resume at 2.
    assert (Hget : getFromCache now zip st = (st, Fulfilled None)).
    { unfold getFromCache. destruct (db st) as [store|]; [|reflexivity].
      now rewrite Hd. }
    rewrite Hget, IH.
    + simpl. rewrite <- app_assoc. f_equal. clear.
      induction (length zips) as [|n IHn]; simpl; [reflexivity|now rewrite IHn].
    + intros z Hz. apply miss_uncached, Hu. now right.
Qed.

Lemma processChunk_all_miss (now : Z) (zips : list string) (st : State) (l : Lookup) :
  (forall z, In z zips -> Service.uncached st z) ->
  processChunk now zips (st, l)
  = (Nat.iter (length zips) miss st,
     {| results := results l; missingZips := missingZips l ++ zips; hung := hung l |}).
Proof.
  intros Hu. unfold processChunk. rewrite (start_all_miss zips st l [] Hu).
  cbn [app]. now apply resume_all_miss.
Qed.

Lemma iter_miss (n : nat) (st : State) :
  requests (Nat.iter n miss st) = requests st /\
  currentProxyIndex (Nat.iter n miss st) = currentProxyIndex st /\
  Service.lookups (Nat.iter n miss st) = (Service.lookups st + n)%nat.
Proof.
  induction n as [|n (R & P & L)]; simpl.
  - repeat split. lia.
  - unfold Service.lookups in *. simpl. repeat split; auto. lia.
Qed.

Lemma iter_miss_uncached (n : nat) (st : State) (zip : string) :
  Service.uncached st zip -> Service.uncached (Nat.iter n miss st) zip.
Proof. induction n as [|n IH]; simpl; auto. Qed.

Lemma chunks_all_miss (now : Z) (chunks : list (list string)) :
  forall st l,
    hung l = false ->
    (forall z, In z (concat chunks) -> Service.uncached st z) ->
    fold_left
      (fun acc chunk => if hung (snd acc) then acc else processChunk now chunk acc)
      chunks (st, l)
    = (Nat.iter (length (concat chunks)) miss st,
       {| results := results l; missingZips := missingZips l ++ concat chunks;
          hung := false |}).
Proof.
  induction chunks as [|chunk chunks IH]; intros st l Hh Hu; cbn [fold_left concat snd].
  - rewrite app_nil_r. destruct l. simpl in *. now subst.
  - rewrite Hh, processChunk_all_miss
      by (intros z Hz; apply Hu, in_or_app; now left).
    rewrite IH.
    + cbn [results missingZips]. rewrite length_app, <- app_assoc. f_equal.
      rewrite (Nat.add_comm (length chunk)). clear.
      induction (length (concat chunks)) as [|n IHn]; simpl; [reflexivity|].
      now rewrite IHn.
    + exact Hh.
    + intros z Hz. apply iter_miss_uncached, Hu, in_or_app. now right.
Qed.

Lemma lookupChunks_all_miss (now : Z) (zips : list string) (st : State) :
  (forall z, In z zips -> Service.uncached st z) ->
  lookupChunks now zips st
  = (Nat.iter (length zips) miss st,
     {| results := []; missingZips := zips; hung := false |}).
Proof.
  intros Hu. unfold lookupChunks.
  pose proof (ChunkFacts.chunkArray_concat 300 zips ltac:(lia)) as Hc.
  rewrite chunks_all_miss; [now rewrite Hc|reflexivity|now rewrite Hc].
Qed.

(** The loop that stores what was fetched sends nothing and counts no
    lookup. *)
Lemma store_frame (now : Z) (entries : list (string * Payload)) (st : State)
    (found : list (string * Found)) :
  let result := fold_left (store now) entries (st, found) in
  requests (fst result) = requests st /\ stats (fst result) = stats st.
Proof.
  revert st found. induction entries as [|[zip data] entries IH]; intros st found; simpl.
  - auto.
  - match goal with |- context [fold_left (store now) entries (?s, ?f)] =>
      destruct (IH s f) as (R & S) end.
    destruct (BatchFacts.cacheData_frame now zip data st) as (R' & S' & _).
    rewrite R, S. unfold addToMemoryCache. simpl. auto.
Qed.

End LookupFacts.

(** C6.  The fetch client does not propagate the failure of a batch:
    [fetchMissingData] always returns a map and [fetchCombinedData] never
    throws.  When the [try] block of [fetchBatchFromAPI] fails on a batch of
    more than 5 ZIP codes (the request was given up, or its answer made
    [parseResponse] throw), the sub-batches of at most 5 ZIP codes are
    requested, each in turn and one to three times, and the call returns a
    map; only a batch of at most 5 can throw.  In the map
    [fetchMissingData] returns for distinct ZIP codes, the ZIP codes of a
    batch that fails for good, it and its sub-batches, are absent; the ZIP
    codes of a batch whose answer parses have the payloads parsed from that
    answer; and when a batch of more than 5 fails, the ZIP codes of each of
    its sub-batches whose answer parses have the payloads parsed from the
    answer to the sub-batch. *)
Theorem batch_failures_are_contained (E : ACSAPIService.Env) (now : Z) :
  (forall zipCodes st,
     exists st' found,
       ACSAPIService.fetchMissingData E now zipCodes st
       = Some (st', ACSAPIService.Fulfilled found)) /\
  (forall zipCodes st,
     exists st' outcome,
       ACSAPIService.fetchCombinedData E now zipCodes st = Some (st', outcome) /\
       outcome <> ACSAPIService.Rejected) /\
  (forall batch st st1,
     (5 < length batch)%nat ->
     Service.caught E now batch st st1 ->
     exists st2 found attempts,
       ACSAPIService.fetchBatchFromAPI E now batch st
       = Some (st2, ACSAPIService.Fulfilled found) /\
       length attempts = length (ACSAPIService.chunkArray batch 5) /\
       Forall (fun k => (1 <= k <= 3)%nat) attempts /\
       Service.sentBetween st1 st2
         (Service.tried (ACSAPIService.chunkArray batch 5) attempts) /\
       Forall (fun small => (0 < length small <= 5)%nat)
         (ACSAPIService.chunkArray batch 5) /\
       concat (ACSAPIService.chunkArray batch 5) = batch) /\
  (forall batch st st',
     ACSAPIService.fetchBatchFromAPI E now batch st
     = Some (st', ACSAPIService.Rejected) ->
     (length batch <= 5)%nat) /\
  (forall zipCodes st st' found,
     List.NoDup zipCodes ->
     ACSAPIService.fetchMissingData E now zipCodes st
     = Some (st', ACSAPIService.Fulfilled found) ->
     forall batch,
       In batch (ACSAPIService.chunkArray zipCodes ACSAPIService.batchSize) ->
       (Service.failing E now batch ->
        (forall small, In small (ACSAPIService.chunkArray batch 5) ->
                       Service.failing E now small) ->
        forall z, In z batch -> found !! z = None) /\
       (forall body parsed,
          Service.answeredBy E batch body ->
          ACSAPIService.parseResponse E now body batch = Some parsed ->
          forall z, In z batch -> found !! z = parsed !! z) /\
       (forall small body parsed,
          (5 < length batch)%nat ->
          Service.failing E now batch ->
          In small (ACSAPIService.chunkArray batch 5) ->
          Service.answeredBy E small body ->
          ACSAPIService.parseResponse E now body small = Some parsed ->
          forall z, In z small -> found !! z = parsed !! z)).
Proof.
  assert (Hmissing : forall zipCodes st,
             exists st' found,
               ACSAPIService.fetchMissingData E now zipCodes st
               = Some (st', ACSAPIService.Fulfilled found)).
  { intros zipCodes st. unfold ACSAPIService.fetchMissingData.
    destruct (length zipCodes =? 0)%nat; [now exists st, ∅|].
    destruct (BatchFacts.eachBatch_settles E now
                (ACSAPIService.chunkArray zipCodes ACSAPIService.batchSize)) with
      (st := st) (results := (∅ : gmap string ACSAPIService.Payload))
      as (st' & found & He & _).
    - eapply List.Forall_impl;
        [|apply (ChunkFacts.chunkArray_sizes ACSAPIService.batchSize);
          unfold ACSAPIService.batchSize; lia].
      intros chunk H. cbv beta in H. lia.
    - now exists st', found. }
  split; [exact Hmissing|]. split; [|split; [|split]].
  - intros zipCodes st. unfold ACSAPIService.fetchCombinedData.
    destruct (length zipCodes =? 0)%nat.
    { exists st, (ACSAPIService.Fulfilled []). split; [reflexivity|discriminate]. }
    destruct (ACSAPIService.lookupChunks now (ACSAPIService.unique zipCodes) st)
      as [st1 l].
    destruct (ACSAPIService.hung l).
    { exists st1, ACSAPIService.Pending. split; [reflexivity|discriminate]. }
    destruct (0 <? length (ACSAPIService.missingZips l))%nat.
    + destruct (Hmissing (ACSAPIService.missingZips l) st1) as (st2 & found & ->).
      destruct (fold_left (ACSAPIService.store now) (map_to_list found)
                  (st2, ACSAPIService.results l)) as [st3 results].
      exists st3, (ACSAPIService.Fulfilled results). split; [reflexivity|discriminate].
    + exists st1, (ACSAPIService.Fulfilled (ACSAPIService.results l)).
      split; [reflexivity|discriminate].
  - intros batch st st1 Hbig Hfail.
    pose proof (ChunkFacts.chunkArray_sizes 5 batch ltac:(lia)) as Hsizes.
    destruct (FetchFacts.fetchBatchFromAPI_contained E now batch st)
      as [(st2 & outcome & Ecall & Hp & _) Hrej].
    destruct outcome as [found| |]; [|specialize (Hrej st2 Ecall); lia|congruence].
    pose proof Ecall as Hrun.
    rewrite (FetchFacts.fetchBatchFromAPI_retry E now batch st st1 Hbig Hfail) in Hrun.
    destruct (BatchFacts.eachSmallBatch_tried E now _ Hsizes _ _ _ _ Hrun)
      as (attempts & Hlen & Hall & Hsent).
    exists st2, found, attempts. split; [exact Ecall|]. split; [exact Hlen|].
    split; [exact Hall|]. split; [exact Hsent|]. split; [exact Hsizes|].
    apply ChunkFacts.chunkArray_concat. lia.
  - intros batch st st' Hrej.
    exact (proj2 (FetchFacts.fetchBatchFromAPI_contained E now batch st) st' Hrej).
  - intros zipCodes st st' found Hnd Hrun batch Hbatch.
    unfold ACSAPIService.fetchMissingData in Hrun.
    destruct (length zipCodes =? 0)%nat eqn:Ez.
    { apply Nat.eqb_eq, length_zero_iff_nil in Ez. subst zipCodes. destruct Hbatch. }
    assert (Hc : concat (ACSAPIService.chunkArray zipCodes ACSAPIService.batchSize)
                 = zipCodes)
      by (apply ChunkFacts.chunkArray_concat; unfold ACSAPIService.batchSize; lia).
    destruct (BatchFacts.eachBatch_results E now _ st ∅ st' found Hrun) as [_ Heach].
    + now rewrite Hc.
    + intros z _. apply lookup_empty.
    + now apply Heach.
Qed.

(** 35 ZIP codes against an API that fails every request for more than 5
    ZIP codes and every request that asks for 10007: the batch of 30 is
    tried through the three proxies and retried as 6 sub-batches, the
    sub-batch 10006 to 10010 is lost after three tries, and the 30 other ZIP
    codes are returned. *)
Example retried_in_sub_batches :
  Upstream.report (Upstream.zips 35)
    (ACSAPIService.fetchMissingData Upstream.flaky 0 (Upstream.zips 35)
       Service.withStore)
  = Some (Upstream.zips 5 ++ skipn 10 (Upstream.zips 35),
          [30; 30; 30; 5; 5; 5; 5; 5; 5; 5; 5; 5]%nat).
Proof. vm_compute. reflexivity. Qed.

(** 35 ZIP codes against an API that answers every request for more than 5
    ZIP codes with an array that is no table: [parseResponse] throws on the
    answer to the batch of 30, which is fetched again as 6 sub-batches, and
    all 35 ZIP codes are returned after 8 requests. *)
Example retried_after_a_malformed_answer :
  Upstream.report (Upstream.zips 35)
    (ACSAPIService.fetchMissingData Upstream.garbled 0 (Upstream.zips 35)
       Service.withStore)
  = Some (Upstream.zips 35, [30; 5; 5; 5; 5; 5; 5; 5]%nat).
Proof. vm_compute. reflexivity. Qed.

(** C7.  For every input list, [fetchCombinedData] looks up the distinct ZIP
    codes of the list, once each, and every request it sends is for at most
    30 ZIP codes.  Requesting 65 distinct ZIP codes that are in neither tier
    of the cache hands the 65 to [fetchMissingData], which fetches them as
    three batches of 30, 30 and 5; when every request gets an answer that
    [parseResponse] accepts, exactly these three requests are sent.
    Requesting the same ZIP code twice yields one lookup. *)
Theorem zip_codes_are_deduplicated_and_batched (E : ACSAPIService.Env) (now : Z)
    (zipCodes : list string) (st : ACSAPIService.State) :
  List.NoDup (ACSAPIService.unique zipCodes) /\
  (forall z, In z (ACSAPIService.unique zipCodes) <-> In z zipCodes) /\
  (forall z, ACSAPIService.unique [z; z] = [z]) /\
  (exists st' outcome,
     ACSAPIService.fetchCombinedData E now zipCodes st = Some (st', outcome) /\
     (zipCodes <> [] -> outcome <> ACSAPIService.Pending ->
      Service.lookups st'
      = (Service.lookups st + length (ACSAPIService.unique zipCodes))%nat) /\
     (exists sent,
        ACSAPIService.requests st' = ACSAPIService.requests st ++ sent /\
        Forall (fun request => (length (snd request) <= 30)%nat) sent) /\
     (List.NoDup zipCodes -> length zipCodes = 65%nat ->
      (forall z, In z zipCodes -> Service.uncached st z) ->
      exists st1 first second third,
        ACSAPIService.lookupChunks now (ACSAPIService.unique zipCodes) st
        = (st1, {| ACSAPIService.results := [];
                   ACSAPIService.missingZips := zipCodes;
                   ACSAPIService.hung := false |}) /\
        ACSAPIService.chunkArray zipCodes ACSAPIService.batchSize
        = [first; second; third] /\
        zipCodes = first ++ second ++ third /\
        length first = 30%nat /\ length second = 30%nat /\ length third = 5%nat /\
        ACSAPIService.fetchMissingData E now zipCodes st1
        = ACSAPIService.eachBatch E now [first; second; third] st1 ∅ /\
        (Service.answering E now ->
         ACSAPIService.requests st'
         = ACSAPIService.requests st
           ++ [(ACSAPIService.currentProxyIndex st, first);
               (ACSAPIService.currentProxyIndex st, second);
               (ACSAPIService.currentProxyIndex st, third)]))).
Proof.
  split; [apply UniqueFacts.unique_NoDup|].
  split; [apply UniqueFacts.unique_In|].
  split.
  { intros z. unfold ACSAPIService.unique. simpl. now rewrite String.eqb_refl. }
  unfold ACSAPIService.fetchCombinedData.
  destruct (length zipCodes =? 0)%nat eqn:Ez.
  { apply Nat.eqb_eq in Ez. exists st, (ACSAPIService.Fulfilled []).
    split; [reflexivity|]. split.
    - intros Hne. apply length_zero_iff_nil in Ez. contradiction.
    - split; [exists []; rewrite app_nil_r; split; [reflexivity|constructor]|].
      intros _ H65. rewrite Ez in H65. discriminate. }
  destruct (LookupFacts.lookupChunks_counted now (ACSAPIService.unique zipCodes) st)
    as (Rl & Cl).
  pose proof (LookupFacts.lookupChunks_all_miss now (ACSAPIService.unique zipCodes) st)
    as Hmiss.
  destruct (ACSAPIService.lookupChunks now (ACSAPIService.unique zipCodes) st)
    as [st1 l] eqn:El.
  simpl in Rl, Cl.
  (* the 65 distinct uncached ZIP codes all miss *)
  assert (H65 : List.NoDup zipCodes -> length zipCodes = 65%nat ->
                (forall z, In z zipCodes -> Service.uncached st z) ->
                st1 = Nat.iter 65 ACSAPIService.miss st /\
                l = {| ACSAPIService.results := []; ACSAPIService.missingZips := zipCodes;
                       ACSAPIService.hung := false |} /\
                exists first second third,
                  ACSAPIService.chunkArray zipCodes ACSAPIService.batchSize
                  = [first; second; third] /\
                  zipCodes = first ++ second ++ third /\
                  length first = 30%nat /\ length second = 30%nat /\
                  length third = 5%nat).
  { intros Hnd Hlen Hun.
    rewrite (UniqueFacts.unique_NoDup_id zipCodes Hnd) in Hmiss.
    specialize (Hmiss Hun). injection Hmiss as -> ->.
    rewrite Hlen. split; [reflexivity|]. split; [reflexivity|].
    pose proof (ChunkFacts.chunkArray_65 zipCodes Hlen) as Hs.
    pose proof (ChunkFacts.chunkArray_concat ACSAPIService.batchSize zipCodes
                  ltac:(unfold ACSAPIService.batchSize; lia)) as Hc.
    destruct (ACSAPIService.chunkArray zipCodes ACSAPIService.batchSize)
      as [|first [|second [|third [|? ?]]]]; try discriminate Hs.
    injection Hs as H1 H2 H3. exists first, second, third.
    simpl in Hc. rewrite app_nil_r in Hc. auto. }
  destruct (ACSAPIService.hung l) eqn:Eh.
  { exists st1, ACSAPIService.Pending. split; [reflexivity|].
    split; [congruence|]. split.
    - exists []. rewrite app_nil_r. split; [exact Rl|constructor].
    - intros Hnd Hlen Hun. destruct (H65 Hnd Hlen Hun) as (_ & -> & _). discriminate. }
  specialize (Cl eq_refl).
  destruct (0 <? length (ACSAPIService.missingZips l))%nat eqn:Em.
  - unfold ACSAPIService.fetchMissingData.
    replace (length (ACSAPIService.missingZips l) =? 0)%nat with false
      by (symmetry; apply Nat.eqb_neq; apply Nat.ltb_lt in Em; lia).
    destruct (BatchFacts.eachBatch_settles E now
                (ACSAPIService.chunkArray (ACSAPIService.missingZips l)
                   ACSAPIService.batchSize)) with
      (st := st1) (results := (∅ : gmap string ACSAPIService.Payload))
      as (st2 & found & He & (sent & Rs & Fs & Hh & Hm & _)).
    { eapply List.Forall_impl;
        [|apply (ChunkFacts.chunkArray_sizes ACSAPIService.batchSize);
          unfold ACSAPIService.batchSize; lia].
      intros chunk H. cbv beta in H. lia. }
    rewrite He.
    destruct (LookupFacts.store_frame now (map_to_list found) st2
                (ACSAPIService.results l)) as (R3 & S3).
    destruct (fold_left (ACSAPIService.store now) (map_to_list found)
                (st2, ACSAPIService.results l)) as [st3 results].
    simpl in R3, S3.
    exists st3, (ACSAPIService.Fulfilled results). split; [reflexivity|]. split.
    { intros _ _. unfold Service.lookups in *. rewrite S3, Hh, Hm. exact Cl. }
    split.
    { exists sent. rewrite R3, Rs, Rl. split; [reflexivity|].
      eapply List.Forall_impl; [|exact Fs]. intros request H.
      unfold ACSAPIService.batchSize in H. exact H. }
    intros Hnd Hlen Hun.
    destruct (H65 Hnd Hlen Hun) as (-> & -> & first & second & third & Hc & Hz & H1 & H2 & H3).
    destruct (LookupFacts.iter_miss 65 st) as (Ri & Pi & _).
    set (stm := Nat.iter 65 ACSAPIService.miss st) in *.
    exists stm, first, second, third.
    split; [reflexivity|]. split; [exact Hc|]. split; [exact Hz|].
    split; [exact H1|]. split; [exact H2|]. split; [exact H3|]. split.
    { unfold ACSAPIService.fetchMissingData. rewrite Hlen, Hc. reflexivity. }
    intros Hall. cbn [ACSAPIService.missingZips] in He. rewrite Hc in He.
    destruct (BatchFacts.eachBatch_answered E now [first; second; third] Hall) with
      (st := stm) (results := (∅ : gmap string ACSAPIService.Payload))
      as (st2' & found' & He' & Rq & _).
    { repeat constructor; intros ->; discriminate. }
    rewrite He in He'. injection He' as <- <-.
    rewrite R3, Rq, Ri, Pi. reflexivity.
  - exists st1, (ACSAPIService.Fulfilled (ACSAPIService.results l)).
    split; [reflexivity|]. split; [intros _ _; exact Cl|]. split.
    + exists []. rewrite app_nil_r. split; [exact Rl|constructor].
    + intros Hnd Hlen Hun. destruct (H65 Hnd Hlen Hun) as (_ & -> & _).
      simpl in Em. rewrite Hlen in Em. discriminate.
Qed.

(** The 65 ZIP codes 10001 to 10065, and the same ZIP code twice, against an
    API that answers. *)
Example sixty_five_zip_codes :
  match ACSAPIService.fetchCombinedData Upstream.healthy 0 (Upstream.zips 65)
          Service.withStore with
  | Some (st', ACSAPIService.Fulfilled found) =>
      (map (fun request => length (snd request)) (ACSAPIService.requests st'),
       Service.lookups st', length found)
  | _ => ([], 0, 0)%nat
  end = ([30; 30; 5], 65, 65)%nat.
Proof. vm_compute. reflexivity. Qed.

Example same_zip_code_twice :
  match ACSAPIService.fetchCombinedData Upstream.healthy 0 ["68801"; "68801"]%string
          Service.withStore with
  | Some (st', ACSAPIService.Fulfilled found) =>
      (map snd (ACSAPIService.requests st'), Service.lookups st', map fst found)
  | _ => ([], 0%nat, [])
  end = ([["68801"%string]], 1%nat, ["68801"%string]).
Proof. vm_compute. reflexivity. Qed.

(** The same 65 ZIP codes against the API whose answer to every request for
    more than 5 ZIP codes is an array that is no table: each batch of 30 is
    fetched again as 6 sub-batches, 15 requests in all. *)
Example sixty_five_zip_codes_garbled :
  match ACSAPIService.fetchCombinedData Upstream.garbled 0 (Upstream.zips 65)
          Service.withStore with
  | Some (st', ACSAPIService.Fulfilled found) =>
      (map (fun request => length (snd request)) (ACSAPIService.requests st'),
       length found)
  | _ => ([], 0)%nat
  end = ([30; 5; 5; 5; 5; 5; 5; 30; 5; 5; 5; 5; 5; 5; 5], 65)%nat.
Proof. vm_compute. reflexivity. Qed.

(* ========================================================================= *)
(** * Further properties of the functions                                     *)
(* ========================================================================= *)

(* ------------------------------------------------------------------------- *)
(** ** The fetch client, function by function                                 *)
(* ------------------------------------------------------------------------- *)

Module ClientFacts.

Import ACSAPIService.

Lemma sizesFrom_shape (size : nat) :
  (0 < size)%nat ->
  forall fuel n, (n <= fuel)%nat ->
    Service.sizesFrom fuel n size
    = repeat size (n / size) ++ (if (n mod size =? 0)%nat then [] else [n mod size]%nat).
Proof.
  intros Hs. induction fuel as [|fuel IH]; intros n Hn.
  - assert (n = 0%nat) by lia. subst n. simpl.
    rewrite Nat.Div0.div_0_l, Nat.Div0.mod_0_l. reflexivity.
  - destruct n as [|n'].
    + simpl. rewrite Nat.Div0.div_0_l, Nat.Div0.mod_0_l. reflexivity.
    + cbn [Service.sizesFrom]. set (n := S n') in *.
      destruct (Nat.lt_ge_cases n size) as [Hlt|Hge].
      * rewrite Nat.min_r by lia.
        replace (n - size)%nat with 0%nat by lia.
        rewrite Nat.div_small, Nat.mod_small by lia.
        destruct (n =? 0)%nat eqn:E0; [apply Nat.eqb_eq in E0; lia|].
        simpl. destruct fuel; reflexivity.
      * assert (Hd : n = (n - size + 1 * size)%nat) by lia.
        assert (Hdiv : (n / size = S ((n - size) / size))%nat).
        { rewrite Hd at 1. rewrite Nat.div_add by lia. lia. }
        assert (Hmod : (n mod size = (n - size) mod size)%nat).
        { rewrite Hd at 1. now rewrite Nat.Div0.mod_add. }
        rewrite Nat.min_l, Hdiv, Hmod, IH by lia. reflexivity.
Qed.

End ClientFacts.

(** X1.  [chunkArray (array, size)] with a positive [size] cuts the array
    into consecutive chunks: concatenated in order they give the array back,
    every chunk but the last holds exactly [size] elements, and the last one
    holds the remainder, so no chunk is empty. *)
Theorem chunks_tile_the_array {A : Type} (array : list A) (size : nat) :
  (0 < size)%nat ->
  concat (ACSAPIService.chunkArray array size) = array /\
  map length (ACSAPIService.chunkArray array size)
  = repeat size (length array / size)
    ++ (if (length array mod size =? 0)%nat then [] else [length array mod size]%nat) /\
  Forall (fun chunk => (0 < length chunk <= size)%nat)
    (ACSAPIService.chunkArray array size).
Proof.
  intros Hs. split; [now apply ChunkFacts.chunkArray_concat|].
  split; [|now apply ChunkFacts.chunkArray_sizes].
  unfold ACSAPIService.chunkArray. rewrite ChunkFacts.chunkFrom_lengths.
  now apply ClientFacts.sizesFrom_shape.
Qed.

Lemma chunks_tile_the_array_witness :
  concat (ACSAPIService.chunkArray [1; 2; 3; 4; 5; 6; 7]%nat 3) = [1; 2; 3; 4; 5; 6; 7]%nat /\
  map length (ACSAPIService.chunkArray [1; 2; 3; 4; 5; 6; 7]%nat 3) = [3; 3; 1]%nat /\
  Forall (fun chunk => (0 < length chunk <= 3)%nat)
    (ACSAPIService.chunkArray [1; 2; 3; 4; 5; 6; 7]%nat 3).
Proof. apply (chunks_tile_the_array [1; 2; 3; 4; 5; 6; 7]%nat 3). lia. Defined.

(** X2.  Every payload [parseResponse] returns is filed under a requested
    ZIP code, carries that ZIP code and the time of parsing in its metadata,
    and is classified by the threshold 1000: [hasEducation] holds exactly
    when the summed higher-education count is at least 1000, [hasIncome]
    exactly when the summed high-income count is, the two sizing values are
    never below 1000, and a median income of 0 is never reported. *)
Theorem parsed_payloads_are_classified (E : ACSAPIService.Env) (now : Z)
    (body : ACSAPIService.Body) (requestedZips : list string)
    (parsed : gmap string ACSAPIService.Payload) (z : string)
    (p : ACSAPIService.Payload) :
  ACSAPIService.parseResponse E now body requestedZips = Some parsed ->
  parsed !! z = Some p ->
  In z requestedZips /\
  ACSAPIService.zip (ACSAPIService.metadata p) = z /\
  ACSAPIService.fetchedAt (ACSAPIService.metadata p) = now /\
  ACSAPIService.hasEducation (ACSAPIService.metadata p)
  = Qle_bool 1000 (ACSAPIService.Higher_Education (ACSAPIService.data p)) /\
  ACSAPIService.hasIncome (ACSAPIService.metadata p)
  = Qle_bool 1000 (ACSAPIService.High_Income_Households (ACSAPIService.data p)) /\
  (1000 <= ACSAPIService.educationValue (ACSAPIService.metadata p))%Q /\
  (1000 <= ACSAPIService.incomeValue (ACSAPIService.metadata p))%Q /\
  (forall q, ACSAPIService.Median_Income (ACSAPIService.data p) = Some q -> ~ (q == 0)%Q).
Proof.
  intros Hparse Hp.
  split; [apply (FetchFacts.parseResponse_requested E now body _ parsed z Hparse);
          now rewrite Hp|].
  revert Hp. unfold ACSAPIService.parseResponse in Hparse.
  destruct body as [[|headers table]| |]; try discriminate Hparse;
    injection Hparse as <-; try (rewrite lookup_empty; discriminate).
  unfold ACSAPIService.parseTable.
  match goal with |- context [fold_left ?f table ?a] =>
    set (step := f); set (start := a) end.
  set (good := fun (x : string) (r : ACSAPIService.Payload) =>
    ACSAPIService.zip (ACSAPIService.metadata r) = x /\
    ACSAPIService.fetchedAt (ACSAPIService.metadata r) = now /\
    ACSAPIService.hasEducation (ACSAPIService.metadata r)
    = Qle_bool 1000 (ACSAPIService.Higher_Education (ACSAPIService.data r)) /\
    ACSAPIService.hasIncome (ACSAPIService.metadata r)
    = Qle_bool 1000 (ACSAPIService.High_Income_Households (ACSAPIService.data r)) /\
    (1000 <= ACSAPIService.educationValue (ACSAPIService.metadata r))%Q /\
    (1000 <= ACSAPIService.incomeValue (ACSAPIService.metadata r))%Q /\
    (forall q, ACSAPIService.Median_Income (ACSAPIService.data r) = Some q ->
               ~ (q == 0)%Q)).
  assert (Hmax : forall a, (1000 <= ACSAPIService.Qmax a 1000)%Q).
  { intros a. unfold ACSAPIService.Qmax.
    destruct (Qle_bool a 1000) eqn:Ea; [apply Qle_refl|].
    destruct (Qlt_le_dec 1000 a) as [Hl|Hl]; [now apply Qlt_le_weak|].
    apply Qle_bool_iff in Hl. congruence. }
  assert (H : forall acc,
             (forall x r, fst acc !! x = Some r -> good x r) ->
             forall x r, fst (fold_left step table acc) !! x = Some r -> good x r).
  { induction table as [|row table IH]; intros acc Hk; simpl; [exact Hk|].
    apply IH. subst step. cbv beta. destruct acc as [results requestedSet].
    destruct (ACSAPIService.indexOf headers "zip code tabulation area"); [|exact Hk].
    destruct (nth_error row n) as [zip|]; [|exact Hk].
    destruct (existsb (String.eqb zip) requestedSet); [|exact Hk].
    simpl. intros y r. rewrite lookup_insert. case_decide as Hy; [|apply Hk].
    intros [= <-]. subst y. unfold good. simpl.
    repeat split; try apply Hmax.
    intros q.
    destruct (ACSAPIService.indexOf headers "B19013_001E") as [mi|]; [|discriminate].
    destruct (nth_error row mi) as [cell|]; [|discriminate].
    destruct (ACSAPIService.parseFloat E cell) as [v|]; [|discriminate].
    destruct (JS.truthyQ v) eqn:Ev; [|discriminate].
    intros [= <-] Hz. unfold JS.truthyQ in Ev.
    apply Qeq_bool_iff in Hz. rewrite Hz in Ev. discriminate. }
  intros Hp. apply (H start); [|exact Hp].
  subst start. simpl. intros x r. rewrite lookup_empty. discriminate.
Qed.

Lemma parsed_payloads_are_classified_witness :
  exists parsed p,
    ACSAPIService.parseResponse Upstream.healthy 0 (Upstream.table ["10001"; "10002"])
      ["10001"] = Some parsed /\
    parsed !! "10001" = Some p /\
    ACSAPIService.zip (ACSAPIService.metadata p) = "10001" /\
    ACSAPIService.hasEducation (ACSAPIService.metadata p) = true.
Proof.
  eexists. eexists. split; [reflexivity|]. split; [vm_compute; reflexivity|].
  match goal with |- ACSAPIService.zip (ACSAPIService.metadata ?p) = _ /\ _ =>
    destruct (parsed_payloads_are_classified Upstream.healthy 0
                (Upstream.table ["10001"; "10002"]) ["10001"] _ "10001" p eq_refl)
      as (_ & Hz & _ & He & _)
  end.
  - vm_compute. reflexivity.
  - split; [exact Hz|]. rewrite He. vm_compute. reflexivity.
Defined.

(** X3.  [fetchWithCorsFallback] sends between one and [retriesLeft + 1]
    requests, all for the same batch, each through the proxy after the one
    before it (modulo the number of proxies), and counts each in
    [stats.apiCalls].  It never stays pending; it throws only after
    [retriesLeft + 1] requests have failed, and when it returns a body, that
    body is the answer to the last request, whose proxy stays the current
    one.  Neither cache tier nor the hit and miss counters are touched. *)
Theorem fallback_rotates_through_the_proxies (E : ACSAPIService.Env)
    (retriesLeft : nat) (zipCodes : list string) (st : ACSAPIService.State) :
  let result := ACSAPIService.fetchWithCorsFallback E retriesLeft zipCodes st in
  let next := fun p => ((p + 1) mod ACSAPIService.proxyCount)%nat in
  let proxy := fun i => Nat.iter i next (ACSAPIService.currentProxyIndex st) in
  exists attempts,
    (1 <= attempts <= S retriesLeft)%nat /\
    ACSAPIService.requests (fst result)
    = ACSAPIService.requests st ++ map (fun i => (proxy i, zipCodes)) (seq 0 attempts) /\
    ACSAPIService.apiCalls (ACSAPIService.stats (fst result))
    = (ACSAPIService.apiCalls (ACSAPIService.stats st) + attempts)%nat /\
    ACSAPIService.currentProxyIndex (fst result) = proxy (attempts - 1)%nat /\
    snd result <> ACSAPIService.Pending /\
    (snd result = ACSAPIService.Rejected -> attempts = S retriesLeft) /\
    (forall body, snd result = ACSAPIService.Fulfilled body ->
       ACSAPIService.http E
         (ACSAPIService.apiCalls (ACSAPIService.stats st) + attempts - 1)%nat
         (proxy (attempts - 1)%nat) zipCodes = Some body) /\
    ACSAPIService.db (fst result) = ACSAPIService.db st /\
    ACSAPIService.memoryCache (fst result) = ACSAPIService.memoryCache st /\
    ACSAPIService.cacheHits (ACSAPIService.stats (fst result))
    = ACSAPIService.cacheHits (ACSAPIService.stats st) /\
    ACSAPIService.cacheMisses (ACSAPIService.stats (fst result))
    = ACSAPIService.cacheMisses (ACSAPIService.stats st).
Proof.
  cbv zeta. revert st.
  induction retriesLeft as [|r IH]; intros st;
    cbn [ACSAPIService.fetchWithCorsFallback];
    destruct (ACSAPIService.http E _ _ zipCodes) as [body|] eqn:Eh.
  1, 2, 3: exists 1%nat; cbn -[Nat.modulo]; rewrite ?Nat.add_1_r;
    repeat split; try lia; try discriminate;
    try (intros b [= <-]; cbn [Nat.sub]; rewrite Nat.sub_0_r; exact Eh).
  match goal with |- context [ACSAPIService.fetchWithCorsFallback E r zipCodes ?s] =>
    set (st2 := s) end.
  destruct (IH st2) as (a & Ha & Hreq & Hcalls & Hproxy & Hp & Hrej & Hful & Hdb & Hm & Hh & Hms).
  exists (S a). subst st2. cbn [ACSAPIService.requests ACSAPIService.setProxy
    ACSAPIService.send ACSAPIService.stats ACSAPIService.apiCalls
    ACSAPIService.currentProxyIndex ACSAPIService.db ACSAPIService.memoryCache
    ACSAPIService.cacheHits ACSAPIService.cacheMisses] in *.
  assert (Hshift : forall i,
            Nat.iter i (fun p => ((p + 1) mod ACSAPIService.proxyCount)%nat)
              ((ACSAPIService.currentProxyIndex st + 1) mod ACSAPIService.proxyCount)%nat
            = Nat.iter (S i) (fun p => ((p + 1) mod ACSAPIService.proxyCount)%nat)
                (ACSAPIService.currentProxyIndex st)).
  { intros i. now rewrite Nat.iter_succ_r. }
  split; [lia|]. split.
  { rewrite Hreq, <- app_assoc. f_equal. cbn [seq map app Nat.iter nat_rect].
    f_equal. rewrite <- seq_shift, map_map. apply map_ext. intros i.
    now rewrite Hshift. }
  split; [lia|]. split.
  { rewrite Hproxy, Hshift. f_equal. lia. }
  split; [exact Hp|]. split; [intros Hr; specialize (Hrej Hr); lia|].
  split.
  { intros b Hb. specialize (Hful b Hb). rewrite Hshift in Hful.
    replace (ACSAPIService.apiCalls (ACSAPIService.stats st) + S a - 1)%nat
      with (S (ACSAPIService.apiCalls (ACSAPIService.stats st)) + a - 1)%nat by lia.
    replace (S a - 1)%nat with (S (a - 1)) by lia. exact Hful. }
  repeat split; assumption.
Qed.

(* ------------------------------------------------------------------------- *)
(** ** Insertion-ordered Maps                                                 *)
(* ------------------------------------------------------------------------- *)

Module MapFacts.

Section Keys.
Context {K V : Type} (eqb : K -> K -> bool).
Hypothesis eqb_eq : forall a b, eqb a b = true <-> a = b.

Lemma eqb_refl (a : K) : eqb a a = true.
Proof. now apply eqb_eq. Qed.

Lemma eqb_neq (a b : K) : a <> b -> eqb a b = false.
Proof.
  intros H. destruct (eqb a b) eqn:E; [|reflexivity].
  apply eqb_eq in E. contradiction.
Qed.

Lemma mapGet_mapSet_eq (k : K) (v : V) (m : list (K * V)) :
  JS.mapGet eqb k (JS.mapSet eqb k v m) = Some v.
Proof.
  induction m as [|[k' v'] m IH]; simpl.
  - now rewrite eqb_refl.
  - destruct (eqb k k') eqn:E; simpl; [now rewrite eqb_refl|now rewrite E].
Qed.

Lemma mapGet_mapSet_ne (k k' : K) (v : V) (m : list (K * V)) :
  k <> k' -> JS.mapGet eqb k' (JS.mapSet eqb k v m) = JS.mapGet eqb k' m.
Proof.
  intros Hne. induction m as [|[j w] m IH]; simpl.
  - rewrite eqb_neq; [reflexivity|congruence].
  - destruct (eqb k j) eqn:E; simpl.
    + apply eqb_eq in E. subst j.
      rewrite !eqb_neq by congruence. reflexivity.
    + destruct (eqb k' j); [reflexivity|exact IH].
Qed.

Lemma mapGet_mapDelete_eq (k : K) (m : list (K * V)) :
  JS.mapGet eqb k (JS.mapDelete eqb k m) = None.
Proof.
  unfold JS.mapDelete. induction m as [|[j w] m IH]; simpl; [reflexivity|].
  destruct (eqb k j) eqn:E; simpl; [exact IH|]. now rewrite E.
Qed.

Lemma mapGet_mapDelete_ne (k k' : K) (m : list (K * V)) :
  k <> k' -> JS.mapGet eqb k' (JS.mapDelete eqb k m) = JS.mapGet eqb k' m.
Proof.
  intros Hne. unfold JS.mapDelete. induction m as [|[j w] m IH]; simpl; [reflexivity|].
  destruct (eqb k j) eqn:E; simpl.
  - apply eqb_eq in E. subst j. rewrite eqb_neq by congruence. exact IH.
  - destruct (eqb k' j); [reflexivity|exact IH].
Qed.

Lemma mapSet_length (k : K) (v : V) (m : list (K * V)) :
  (length (JS.mapSet eqb k v m) <= S (length m))%nat.
Proof.
  induction m as [|[j w] m IH]; simpl; [lia|].
  destruct (eqb k j); simpl; lia.
Qed.

Lemma mapDelete_length (k : K) (m : list (K * V)) :
  (length (JS.mapDelete eqb k m) <= length m)%nat.
Proof. apply List.filter_length_le. Qed.

Lemma mapDelete_first (k : K) (v : V) (m : list (K * V)) :
  (length (JS.mapDelete eqb k ((k, v) :: m)) <= length m)%nat.
Proof.
  unfold JS.mapDelete. simpl. rewrite eqb_refl. simpl. apply List.filter_length_le.
Qed.

Lemma mapGet_In (k : K) (v : V) (m : list (K * V)) :
  JS.mapGet eqb k m = Some v -> In (k, v) m.
Proof.
  induction m as [|[j w] m IH]; simpl; [discriminate|].
  destruct (eqb k j) eqn:E.
  - apply eqb_eq in E. intros [= ->]. subst. now left.
  - intros H. right. now apply IH.
Qed.

Lemma mapGet_None (k : K) (m : list (K * V)) :
  JS.mapGet eqb k m = None <-> ~ In k (map fst m).
Proof.
  induction m as [|[j w] m IH]; simpl; [tauto|].
  destruct (eqb k j) eqn:E.
  - apply eqb_eq in E. subst. split; [discriminate|]. intros H. exfalso. apply H. now left.
  - rewrite IH. split.
    + intros H [Hj|Hin]; [|contradiction]. subst. rewrite eqb_refl in E. discriminate.
    + intros H Hin. apply H. now right.
Qed.

Lemma mapSet_keys (k : K) (v : V) (m : list (K * V)) (x : K) :
  In x (map fst (JS.mapSet eqb k v m)) <-> x = k \/ In x (map fst m).
Proof.
  induction m as [|[j w] m IH]; simpl; [intuition congruence|].
  destruct (eqb k j) eqn:E; simpl.
  - apply eqb_eq in E. subst. intuition congruence.
  - rewrite IH. intuition congruence.
Qed.

Lemma mapSet_NoDup (k : K) (v : V) (m : list (K * V)) :
  List.NoDup (map fst m) -> List.NoDup (map fst (JS.mapSet eqb k v m)).
Proof.
  induction m as [|[j w] m IH]; simpl; intros Hnd.
  - constructor; [intros []|constructor].
  - inversion Hnd as [|? ? Hj Hrest]; subst.
    destruct (eqb k j) eqn:E; simpl.
    + apply eqb_eq in E. subst. now constructor.
    + constructor; [|now apply IH].
      rewrite mapSet_keys. intros [->|Hin]; [|contradiction].
      rewrite eqb_refl in E. discriminate.
Qed.

End Keys.

Lemma string_eqb_eq (a b : string) : String.eqb a b = true <-> a = b.
Proof. apply String.eqb_eq. Qed.

End MapFacts.

Module TierFacts.

Import ACSAPIService.

(** The key of the object store determines the ZIP code. *)
Lemma cacheKey_inj (zip zip' : string) :
  (cachePrefix ++ zip)%string = (cachePrefix ++ zip')%string -> zip = zip'.
Proof. unfold cachePrefix. cbv. now intros [= ->]. Qed.

End TierFacts.

(** X4.  [addToMemoryCache] keeps the memory cache within its 500 entries:
    from a cache that holds at most 500, it leaves at most 500, the oldest
    entry making room when the cache is full.  The ZIP code written reads
    back with the payload and the time of writing; every other ZIP code
    still in the cache reads as before, and below 500 entries nothing is
    evicted.  The durable store, the counters and the request log are not
    touched. *)
Theorem memory_cache_stays_within_its_size (now : Z) (zip : string)
    (data : ACSAPIService.Payload) (st : ACSAPIService.State) :
  (length (ACSAPIService.memoryCache st) <= ACSAPIService.memoryCacheSize)%nat ->
  let st' := ACSAPIService.addToMemoryCache now zip data st in
  (length (ACSAPIService.memoryCache st') <= ACSAPIService.memoryCacheSize)%nat /\
  JS.mapGet String.eqb zip (ACSAPIService.memoryCache st')
  = Some {| ACSAPIService.memData := data; ACSAPIService.timestamp := now |} /\
  (forall z e, z <> zip ->
     JS.mapGet String.eqb z (ACSAPIService.memoryCache st') = Some e ->
     JS.mapGet String.eqb z (ACSAPIService.memoryCache st) = Some e) /\
  ((length (ACSAPIService.memoryCache st) < ACSAPIService.memoryCacheSize)%nat ->
   forall z, z <> zip ->
     JS.mapGet String.eqb z (ACSAPIService.memoryCache st')
     = JS.mapGet String.eqb z (ACSAPIService.memoryCache st)) /\
  ACSAPIService.db st' = ACSAPIService.db st /\
  ACSAPIService.stats st' = ACSAPIService.stats st /\
  ACSAPIService.requests st' = ACSAPIService.requests st.
Proof.
  intros Hlen st'. subst st'. unfold ACSAPIService.addToMemoryCache.
  cbn [ACSAPIService.memoryCache ACSAPIService.setMemoryCache ACSAPIService.db
       ACSAPIService.stats ACSAPIService.requests].
  set (m := ACSAPIService.memoryCache st) in *.
  split; [|split; [|split; [|split; [|repeat split]]]].
  - destruct (ACSAPIService.memoryCacheSize <=? length m)%nat eqn:Efull.
    + apply Nat.leb_le in Efull. destruct m as [|[firstKey v] m'].
      * simpl. unfold ACSAPIService.memoryCacheSize. lia.
      * etransitivity; [apply MapFacts.mapSet_length|].
        pose proof (MapFacts.mapDelete_first String.eqb MapFacts.string_eqb_eq
                      firstKey v m') as Hd.
        simpl in Hlen. lia.
    + apply Nat.leb_gt in Efull.
      etransitivity; [apply MapFacts.mapSet_length|]. lia.
  - apply MapFacts.mapGet_mapSet_eq, MapFacts.string_eqb_eq.
  - intros z e Hz.
    rewrite (MapFacts.mapGet_mapSet_ne String.eqb MapFacts.string_eqb_eq) by congruence.
    destruct (ACSAPIService.memoryCacheSize <=? length m)%nat; [|tauto].
    destruct m as [|[firstKey v] m']; [discriminate|].
    destruct (String.eqb_spec firstKey z) as [->|Hne].
    + rewrite (MapFacts.mapGet_mapDelete_eq String.eqb). discriminate.
    + now rewrite (MapFacts.mapGet_mapDelete_ne String.eqb MapFacts.string_eqb_eq).
  - intros Hroom z Hz.
    rewrite (MapFacts.mapGet_mapSet_ne String.eqb MapFacts.string_eqb_eq) by congruence.
    apply Nat.leb_gt in Hroom. now rewrite Hroom.
Qed.

Lemma memory_cache_stays_within_its_size_witness :
  let st' := ACSAPIService.addToMemoryCache 7 "68801" Service.samplePayload
               Service.withStore in
  (length (ACSAPIService.memoryCache st') <= ACSAPIService.memoryCacheSize)%nat /\
  JS.mapGet String.eqb "68801" (ACSAPIService.memoryCache st')
  = Some {| ACSAPIService.memData := Service.samplePayload;
            ACSAPIService.timestamp := 7 |}.
Proof.
  destruct (memory_cache_stays_within_its_size 7 "68801" Service.samplePayload
              Service.withStore) as (H1 & H2 & _).
  - simpl. unfold ACSAPIService.memoryCacheSize. lia.
  - split; [exact H1|exact H2].
Defined.

Module PromotionFacts.

Import ACSAPIService.

Section Held.
Variables (zip : string) (held : MemoryEntry).

(** The callbacks up to their [await] leave the memory cache alone: a ZIP
    code it holds is answered from it, and does not wait for the store. *)
Lemma started_held (zips : list string) :
  forall st l awaiting,
    JS.mapGet String.eqb zip (memoryCache st) = Some held ->
    ~ In zip awaiting ->
    In zip zips \/ JS.mapGet String.eqb zip (results l) = Some (wrapped held) ->
    let result := fold_left start zips ((st, l), awaiting) in
    JS.mapGet String.eqb zip (results (snd (fst result))) = Some (wrapped held) /\
    ~ In zip (snd result).
Proof.
  induction zips as [|z zips IH]; intros st l awaiting Hheld Hwait Hin; cbv zeta;
    cbn [fold_left].
  - destruct Hin as [[]|Hres]. now split.
  - unfold start at 2 4.
    destruct (String.eqb_spec z zip) as [->|Hne].
    + rewrite Hheld. apply IH; [exact Hheld|exact Hwait|].
      right. cbn [results].
      apply MapFacts.mapGet_mapSet_eq, MapFacts.string_eqb_eq.
    + assert (Hin' : forall l',
                 JS.mapGet String.eqb zip (results l') = JS.mapGet String.eqb zip (results l) ->
                 In zip zips \/
                 JS.mapGet String.eqb zip (results l') = Some (wrapped held)).
      { intros l' Hl'. destruct Hin as [[Hz|Hz]|Hres]; [congruence|now left|].
        right. congruence. }
      destruct (JS.mapGet String.eqb z (memoryCache st)) as [memoryCached|].
      * apply IH; [exact Hheld|exact Hwait|]. apply Hin'. cbn [results].
        now apply MapFacts.mapGet_mapSet_ne; [apply MapFacts.string_eqb_eq|].
      * apply IH; [exact Hheld| |now apply Hin'].
        intros Hz. apply in_app_iff in Hz as [Hz|[Hz|[]]]; [now apply Hwait|congruence].
Qed.

(** The callbacks that resume for other ZIP codes leave its entry in the
    [results] Map. *)
Lemma resumed_other (now : Z) (zips : list string) :
  ~ In zip zips ->
  forall st l,
    JS.mapGet String.eqb zip (results (snd (fold_left (resume now) zips (st, l))))
    = JS.mapGet String.eqb zip (results l).
Proof.
  induction zips as [|z zips IH]; intros Hout st l; cbn [fold_left]; [reflexivity|].
  assert (Hne : z <> zip) by (intros ->; apply Hout; now left).
  assert (Hrest : ~ In zip zips) by (intros H; apply Hout; now right).
  unfold resume at 2.
  destruct (getFromCache now z st) as [st1 [[cached|]| |]]; rewrite (IH Hrest);
    cbn [results]; try reflexivity.
  now apply MapFacts.mapGet_mapSet_ne; [apply MapFacts.string_eqb_eq|].
Qed.

(** A chunk that holds the ZIP code reports its wrapper object. *)
Lemma processChunk_held (now : Z) (zipChunk : list string) (st : State) (l : Lookup) :
  JS.mapGet String.eqb zip (memoryCache st) = Some held ->
  In zip zipChunk ->
  JS.mapGet String.eqb zip (results (snd (processChunk now zipChunk (st, l))))
  = Some (wrapped held).
Proof.
  intros Hheld Hin. unfold processChunk.
  destruct (started_held zipChunk st l [] Hheld ltac:(intros []) (or_introl Hin))
    as [Hres Hwait].
  destruct (fold_left start zipChunk ((st, l), [])) as [[st1 l1] awaiting].
  cbn [fst snd] in *. now rewrite (resumed_other now awaiting Hwait).
Qed.

End Held.

End PromotionFacts.

(** X5.  A ZIP code served from the durable store is promoted to the memory
    cache: the lookup reports the stored payload, counts a hit and leaves
    the wrapper object [{ data, timestamp }] of the promotion in the memory
    cache.  From then on, in whatever state and however much later, a chunk
    that asks for a ZIP code whose wrapper object is still in the memory
    cache (the oldest entry goes when the cache holds 500) reports that
    wrapper object instead of the payload; asked for alone, the ZIP code
    counts a hit and neither tier of the cache is touched, whether or not
    the stored entry has expired. *)
Theorem durable_hit_is_promoted_to_memory (now : Z) (zip : string)
    (st : ACSAPIService.State) (l : ACSAPIService.Lookup)
    (store : gmap string ACSAPIService.CacheEntry) (entry : ACSAPIService.CacheEntry) :
  JS.mapGet String.eqb zip (ACSAPIService.memoryCache st) = None ->
  ACSAPIService.db st = Some store ->
  store !! (ACSAPIService.cachePrefix ++ zip)%string = Some entry ->
  (now <= ACSAPIService.expiry entry)%Z ->
  let first := ACSAPIService.processChunk now [zip] (st, l) in
  let promoted :=
    {| ACSAPIService.memData := ACSAPIService.entryData entry;
       ACSAPIService.timestamp := now |} in
  ACSAPIService.results (snd first)
  = JS.mapSet String.eqb zip (ACSAPIService.payload (ACSAPIService.entryData entry))
      (ACSAPIService.results l) /\
  ACSAPIService.missingZips (snd first) = ACSAPIService.missingZips l /\
  ACSAPIService.cacheHits (ACSAPIService.stats (fst first))
  = S (ACSAPIService.cacheHits (ACSAPIService.stats st)) /\
  JS.mapGet String.eqb zip (ACSAPIService.memoryCache (fst first)) = Some promoted /\
  (forall later st' l' held,
     JS.mapGet String.eqb zip (ACSAPIService.memoryCache st') = Some held ->
     (forall zipChunk,
        In zip zipChunk ->
        JS.mapGet String.eqb zip
          (ACSAPIService.results
             (snd (ACSAPIService.processChunk later zipChunk (st', l'))))
        = Some (ACSAPIService.wrapped held)) /\
     let second := ACSAPIService.processChunk later [zip] (st', l') in
     ACSAPIService.results (snd second)
     = JS.mapSet String.eqb zip (ACSAPIService.wrapped held)
         (ACSAPIService.results l') /\
     ACSAPIService.missingZips (snd second) = ACSAPIService.missingZips l' /\
     ACSAPIService.memoryCache (fst second) = ACSAPIService.memoryCache st' /\
     ACSAPIService.db (fst second) = ACSAPIService.db st' /\
     ACSAPIService.cacheHits (ACSAPIService.stats (fst second))
     = S (ACSAPIService.cacheHits (ACSAPIService.stats st'))).
Proof.
  intros Hmem Hdb Hstore Hfresh first promoted.
  assert (Hfirst :
    first
    = (ACSAPIService.hit
         (ACSAPIService.addToMemoryCache now zip (ACSAPIService.entryData entry) st),
       {| ACSAPIService.results :=
            JS.mapSet String.eqb zip
              (ACSAPIService.payload (ACSAPIService.entryData entry))
              (ACSAPIService.results l);
          ACSAPIService.missingZips := ACSAPIService.missingZips l;
          ACSAPIService.hung := ACSAPIService.hung l |})).
  { subst first. rewrite LookupFacts.processChunk_one.
    unfold ACSAPIService.lookup, ACSAPIService.resume. rewrite Hmem.
    unfold ACSAPIService.getFromCache. rewrite Hdb, Hstore.
    destruct (ACSAPIService.expiry entry <? now)%Z eqn:E; [|reflexivity].
    apply Z.ltb_lt in E. lia. }
  split; [now rewrite Hfirst|]. split; [now rewrite Hfirst|].
  split; [now rewrite Hfirst|]. split.
  { rewrite Hfirst. cbn [fst ACSAPIService.hit ACSAPIService.setStats
      ACSAPIService.memoryCache ACSAPIService.addToMemoryCache
      ACSAPIService.setMemoryCache].
    apply MapFacts.mapGet_mapSet_eq, MapFacts.string_eqb_eq. }
  intros later st' l' held Hheld. split.
  { intros zipChunk Hin.
    exact (PromotionFacts.processChunk_held zip held later zipChunk st' l' Hheld Hin). }
  intros second. subst second.
  rewrite LookupFacts.processChunk_one. unfold ACSAPIService.lookup.
  rewrite Hheld. repeat split.
Qed.

Lemma durable_hit_is_promoted_to_memory_witness :
  let st := ACSAPIService.cacheData 0 "68801" Service.samplePayload Service.withStore in
  let empty := {| ACSAPIService.results := []; ACSAPIService.missingZips := [];
                  ACSAPIService.hung := false |} in
  let first := ACSAPIService.processChunk 1000 ["68801"] (st, empty) in
  ACSAPIService.results (snd first)
  = [("68801"%string, ACSAPIService.payload Service.samplePayload)] /\
  JS.mapGet String.eqb "68801"
    (ACSAPIService.results
       (snd (ACSAPIService.processChunk 9000000000 ["10001"; "68801"]
               (fst first, empty))))
  = Some (ACSAPIService.wrapped {| ACSAPIService.memData := Service.samplePayload;
                                   ACSAPIService.timestamp := 1000 |}).
Proof.
  intros st empty first.
  destruct (durable_hit_is_promoted_to_memory 1000 "68801" st empty
              (<[(ACSAPIService.cachePrefix ++ "68801")%string :=
                   {| ACSAPIService.key := (ACSAPIService.cachePrefix ++ "68801")%string;
                      ACSAPIService.entryData := Service.samplePayload;
                      ACSAPIService.expiry := 0 + ACSAPIService.cacheDuration;
                      ACSAPIService.cachedAt := 0;
                      ACSAPIService.entryZip := "68801" |}]> ∅)
              {| ACSAPIService.key := (ACSAPIService.cachePrefix ++ "68801")%string;
                 ACSAPIService.entryData := Service.samplePayload;
                 ACSAPIService.expiry := 0 + ACSAPIService.cacheDuration;
                 ACSAPIService.cachedAt := 0;
                 ACSAPIService.entryZip := "68801" |})
    as (H1 & _ & _ & Hget & H2).
  - reflexivity.
  - reflexivity.
  - vm_compute. reflexivity.
  - vm_compute. discriminate.
  - split; [exact H1|].
    apply (proj1 (H2 9000000000%Z (fst first) empty _ Hget)).
    right. now left.
Defined.

(** X6.  [clearCache] empties both tiers when the durable store is open:
    afterwards every ZIP code is a miss.  When the store could not be
    opened it changes nothing: the memory cache is not cleared, and an
    entry it holds is still served. *)
Theorem clearing_needs_the_durable_store (st : ACSAPIService.State) :
  (ACSAPIService.db st <> None ->
   snd (ACSAPIService.clearCache st) = ACSAPIService.Fulfilled 1%nat /\
   ACSAPIService.db (fst (ACSAPIService.clearCache st)) = Some ∅ /\
   ACSAPIService.memoryCache (fst (ACSAPIService.clearCache st)) = [] /\
   forall now zip l,
     snd (ACSAPIService.lookup now (fst (ACSAPIService.clearCache st), l) zip)
     = {| ACSAPIService.results := ACSAPIService.results l;
          ACSAPIService.missingZips := ACSAPIService.missingZips l ++ [zip];
          ACSAPIService.hung := ACSAPIService.hung l |}) /\
  (ACSAPIService.db st = None ->
   ACSAPIService.clearCache st = (st, ACSAPIService.Fulfilled 0%nat) /\
   forall now zip l e,
     JS.mapGet String.eqb zip (ACSAPIService.memoryCache st) = Some e ->
     ACSAPIService.results
       (snd (ACSAPIService.lookup now (fst (ACSAPIService.clearCache st), l) zip))
     = JS.mapSet String.eqb zip (ACSAPIService.wrapped e) (ACSAPIService.results l)).
Proof.
  unfold ACSAPIService.clearCache. split.
  - destruct (ACSAPIService.db st) as [store|] eqn:Edb; [intros _|congruence].
    cbn [fst snd]. do 3 (split; [reflexivity|]).
    intros now zip l.
    unfold ACSAPIService.lookup, ACSAPIService.resume, ACSAPIService.getFromCache.
    cbn [ACSAPIService.memoryCache ACSAPIService.setMemoryCache ACSAPIService.setDb
         ACSAPIService.db JS.mapGet].
    now rewrite lookup_empty.
  - intros Edb. rewrite Edb. split; [reflexivity|].
    intros now zip l e Hget. cbn [fst]. unfold ACSAPIService.lookup. now rewrite Hget.
Qed.

(** X7.  Writing one ZIP code to the durable cache does not change what the
    cache answers for another ZIP code, and of two writes of the same ZIP
    code the later one is the one read back. *)
Theorem cache_writes_are_independent (zip other : string) (written read : Z)
    (data : ACSAPIService.Payload) (st : ACSAPIService.State) :
  zip <> other ->
  snd (ACSAPIService.getFromCache read other
         (ACSAPIService.cacheData written zip data st))
  = snd (ACSAPIService.getFromCache read other st) /\
  (forall earlier overwritten,
     ACSAPIService.cacheData written zip data
       (ACSAPIService.cacheData earlier zip overwritten st)
     = ACSAPIService.cacheData written zip data st).
Proof.
  intros Hne. split.
  - unfold ACSAPIService.getFromCache, ACSAPIService.cacheData.
    destruct (ACSAPIService.db st) as [store|] eqn:Edb; [|now rewrite Edb].
    cbn [ACSAPIService.db ACSAPIService.setDb].
    rewrite lookup_insert_ne
      by (intros Hk; apply TierFacts.cacheKey_inj in Hk; contradiction).
    destruct (store !! (ACSAPIService.cachePrefix ++ other)%string) as [cached|];
      [|reflexivity].
    destruct (ACSAPIService.expiry cached <? read)%Z; reflexivity.
  - intros earlier overwritten. unfold ACSAPIService.cacheData.
    destruct (ACSAPIService.db st) as [store|] eqn:Edb;
      cbn [ACSAPIService.db ACSAPIService.setDb]; [|now rewrite Edb].
    unfold ACSAPIService.setDb. cbn. now rewrite insert_insert_eq.
Qed.

Lemma cache_writes_are_independent_witness :
  snd (ACSAPIService.getFromCache 10 "10001"
         (ACSAPIService.cacheData 5 "68801" Service.samplePayload Service.withStore))
  = snd (ACSAPIService.getFromCache 10 "10001" Service.withStore).
Proof.
  apply (cache_writes_are_independent "68801" "10001" 5 10 Service.samplePayload
           Service.withStore).
  discriminate.
Defined.

Module CleanFacts.

Import ACSAPIService.

(** On a [readwrite] transaction every entry under the cursor is deleted
    and counted. *)
Lemma deleteEach_readwrite (cursor : list (string * CacheEntry)) :
  forall (store : gmap string CacheEntry) (cleaned : nat),
    List.NoDup (map fst cursor) ->
    (forall k, In k (map fst cursor) -> is_Some (store !! k)) ->
    exists store',
      deleteEach readwrite cursor store cleaned
      = Some (store', (cleaned + length cursor)%nat) /\
      (forall k, In k (map fst cursor) -> store' !! k = None) /\
      (forall k, ~ In k (map fst cursor) -> store' !! k = store !! k) /\
      size store = (size store' + length cursor)%nat.
Proof.
  induction cursor as [|[k0 e0] rest IH]; intros store cleaned Hnd Hin.
  - exists store. simpl. rewrite Nat.add_0_r. repeat split; try tauto. lia.
  - simpl in Hnd. inversion Hnd as [|? ? Hk0 Hrest]; subst.
    destruct (IH (delete k0 store) (S cleaned) Hrest) as (store' & Hrun & Hgone & Hkept & Hsize).
    { intros k Hk. rewrite lookup_delete_ne; [apply Hin; now right|].
      intros ->. contradiction. }
    exists store'. cbn [deleteEach storeDelete length]. rewrite Hrun.
    split; [f_equal; f_equal; lia|]. split; [|split].
    + intros k [Hk|Hk]; [simpl in Hk; subst k|now apply Hgone].
      rewrite (Hkept k0 Hk0). apply lookup_delete_eq.
    + intros k Hk. simpl in Hk. rewrite Hkept by tauto.
      apply lookup_delete_ne. intros ->. apply Hk. now left.
    + assert (Hsome : is_Some (store !! k0)) by (apply Hin; now left).
      pose proof (map_size_delete_Some k0 store Hsome) as Hd.
      pose proof (map_size_ne_0_lookup_2 store k0 Hsome) as Hpos.
      simpl. lia.
Qed.

(** The cursor visits the entries whose expiry is not after [now], each
    once. *)
Lemma expiredEntries_spec (now : Z) (store : gmap string CacheEntry) :
  List.NoDup (map fst (expiredEntries now store)) /\
  (forall k, In k (map fst (expiredEntries now store)) <->
             exists e, store !! k = Some e /\ (expiry e <= now)%Z).
Proof.
  unfold expiredEntries. split.
  - pose proof (NoDup_fst_map_to_list store) as Hnd.
    apply NoDup_ListNoDup in Hnd.
    induction (map_to_list store) as [|[k e] l IH]; simpl in *; [constructor|].
    inversion Hnd as [|? ? Hk Hl]; subst.
    destruct (expiry e <=? now)%Z; simpl; [|now apply IH].
    constructor; [|now apply IH].
    intros Hin. apply Hk. apply in_map_iff in Hin as ([k' e'] & Hfst & Hin).
    simpl in Hfst. subst k'. apply filter_In in Hin as [Hin _].
    apply in_map_iff. now exists (k, e').
  - intros k. rewrite in_map_iff. split.
    + intros ([k' e] & Hfst & Hin). simpl in Hfst. subst k'.
      apply filter_In in Hin as [Hin He]. simpl in He. apply Z.leb_le in He.
      exists e. split; [|exact He].
      now apply elem_of_map_to_list, list_elem_of_In.
    + intros (e & Hk & He). exists (k, e). split; [reflexivity|].
      apply filter_In. split.
      * now apply list_elem_of_In, elem_of_map_to_list.
      * simpl. now apply Z.leb_le.
Qed.

End CleanFacts.

(** X8.  With the durable store open, [cleanExpiredCache] deletes exactly
    the entries whose expiry is not after the clock reading (an entry
    expiring at that very reading included), keeps every other entry as it
    is, and resolves with the number of entries deleted.  Right after it no
    lookup of the durable cache at that clock reading is left pending, and
    an entry that expires later is served. *)
Theorem expired_entries_are_cleaned (now : Z) (st : ACSAPIService.State)
    (store : gmap string ACSAPIService.CacheEntry) :
  ACSAPIService.db st = Some store ->
  exists store' cleaned,
    ACSAPIService.cleanExpiredCache now st
    = (ACSAPIService.setDb st (Some store'), ACSAPIService.Fulfilled cleaned) /\
    (forall k,
       store' !! k
       = match store !! k with
         | Some e => if (ACSAPIService.expiry e <=? now)%Z then None else Some e
         | None => None
         end) /\
    size store = (size store' + cleaned)%nat /\
    (forall zip,
       snd (ACSAPIService.getFromCache now zip
              (fst (ACSAPIService.cleanExpiredCache now st)))
       <> ACSAPIService.Pending) /\
    (forall zip e,
       store !! (ACSAPIService.cachePrefix ++ zip)%string = Some e ->
       (now < ACSAPIService.expiry e)%Z ->
       snd (ACSAPIService.getFromCache now zip
              (fst (ACSAPIService.cleanExpiredCache now st)))
       = ACSAPIService.Fulfilled (Some (ACSAPIService.entryData e))).
Proof.
  intros Hdb.
  destruct (CleanFacts.expiredEntries_spec now store) as [Hnd Hkeys].
  destruct (CleanFacts.deleteEach_readwrite (ACSAPIService.expiredEntries now store)
              store 0 Hnd) as (store' & Hrun & Hgone & Hkept & Hsize).
  { intros k Hk. apply Hkeys in Hk as (e & He & _). now exists e. }
  assert (Hclean :
    ACSAPIService.cleanExpiredCache now st
    = (ACSAPIService.setDb st (Some store'),
       ACSAPIService.Fulfilled (length (ACSAPIService.expiredEntries now store)))).
  { unfold ACSAPIService.cleanExpiredCache. now rewrite Hdb, Hrun. }
  assert (Hlookup : forall k,
    store' !! k
    = match store !! k with
      | Some e => if (ACSAPIService.expiry e <=? now)%Z then None else Some e
      | None => None
      end).
  { intros k. destruct (store !! k) as [e|] eqn:Ek.
    - destruct (ACSAPIService.expiry e <=? now)%Z eqn:Ee.
      + apply Hgone, Hkeys. exists e. split; [exact Ek|now apply Z.leb_le].
      + rewrite Hkept, Ek; [reflexivity|].
        intros Hin. apply Hkeys in Hin as (e' & He' & Hle).
        rewrite Ek in He'. injection He' as <-. apply Z.leb_gt in Ee. lia.
    - rewrite Hkept, Ek; [reflexivity|].
      intros Hin. apply Hkeys in Hin as (e' & He' & _). congruence. }
  exists store', (length (ACSAPIService.expiredEntries now store)).
  split; [exact Hclean|]. split; [exact Hlookup|]. split; [exact Hsize|].
  rewrite Hclean. cbn [fst]. unfold ACSAPIService.getFromCache.
  cbn [ACSAPIService.db ACSAPIService.setDb]. split.
  - intros zip. rewrite Hlookup.
    destruct (store !! (ACSAPIService.cachePrefix ++ zip)%string) as [e|];
      [|discriminate].
    destruct (ACSAPIService.expiry e <=? now)%Z eqn:Ele; [discriminate|].
    destruct (ACSAPIService.expiry e <? now)%Z eqn:Elt; [|discriminate].
    apply Z.leb_gt in Ele. apply Z.ltb_lt in Elt. lia.
  - intros zip e He Hlater. rewrite Hlookup, He.
    destruct (ACSAPIService.expiry e <=? now)%Z eqn:Ele;
      [apply Z.leb_le in Ele; lia|].
    destruct (ACSAPIService.expiry e <? now)%Z eqn:Elt; [|reflexivity].
    apply Z.ltb_lt in Elt. lia.
Qed.

Lemma expired_entries_are_cleaned_witness :
  let st := ACSAPIService.cacheData 100 "10001" Service.samplePayload
              (ACSAPIService.cacheData 0 "68801" Service.samplePayload
                 Service.withStore) in
  exists store' cleaned,
    ACSAPIService.cleanExpiredCache ACSAPIService.cacheDuration st
    = (ACSAPIService.setDb st (Some store'), ACSAPIService.Fulfilled cleaned) /\
    size (default ∅ (ACSAPIService.db st)) = (size store' + cleaned)%nat.
Proof.
  intros st.
  destruct (expired_entries_are_cleaned ACSAPIService.cacheDuration st
              (default ∅ (ACSAPIService.db st)) eq_refl)
    as (store' & cleaned & Hrun & _ & Hsize & _).
  exists store', cleaned. split; [exact Hrun|exact Hsize].
Defined.

(** Two entries written at 0 and at 100: at the expiry of the first, the
    cleaning deletes that one and keeps the other. *)
Example one_of_two_entries_expired :
  let st := ACSAPIService.cacheData 100 "10001" Service.samplePayload
              (ACSAPIService.cacheData 0 "68801" Service.samplePayload
                 Service.withStore) in
  let cleaned := ACSAPIService.cleanExpiredCache ACSAPIService.cacheDuration st in
  snd cleaned = ACSAPIService.Fulfilled 1%nat /\
  snd (ACSAPIService.getFromCache ACSAPIService.cacheDuration "68801" st)
  = ACSAPIService.Fulfilled (Some Service.samplePayload) /\
  snd (ACSAPIService.getFromCache ACSAPIService.cacheDuration "68801" (fst cleaned))
  = ACSAPIService.Fulfilled None /\
  snd (ACSAPIService.getFromCache ACSAPIService.cacheDuration "10001" (fst cleaned))
  = ACSAPIService.Fulfilled (Some Service.samplePayload).
Proof. vm_compute. repeat split. Qed.

Module WriteFacts.

Import ACSAPIService.

Lemma cacheEach_lookup (now : Z) (entries : list (string * Payload)) :
  forall (st : State) (store : gmap string CacheEntry),
    db st = Some store ->
    List.NoDup (map fst entries) ->
    exists store',
      db (fold_left (fun st zd => cacheData now (fst zd) (snd zd) st) entries st)
      = Some store' /\
      (forall z p, In (z, p) entries ->
         store' !! (cachePrefix ++ z)%string = Some (Durable.entryFor now z p)) /\
      (forall z, ~ In z (map fst entries) ->
         store' !! (cachePrefix ++ z)%string = store !! (cachePrefix ++ z)%string).
Proof.
  induction entries as [|[z0 p0] rest IH]; intros st store Hdb Hnd.
  - exists store. simpl. repeat split; tauto.
  - simpl in Hnd. inversion Hnd as [|? ? Hz0 Hrest]; subst.
    pose proof (CacheFacts.cacheData_db now z0 p0 st store Hdb) as Hdb1.
    destruct (IH _ _ Hdb1 Hrest) as (store' & Hfold & Hin & Hout).
    exists store'. cbn [fold_left fst snd]. split; [exact Hfold|]. split.
    + intros z p [[= -> ->]|Hzp]; [|now apply Hin].
      rewrite (Hout z Hz0). apply lookup_insert_eq.
    + intros z Hz. simpl in Hz. rewrite Hout by tauto.
      apply lookup_insert_ne. intros Hk. apply TierFacts.cacheKey_inj in Hk.
      apply Hz. now left.
Qed.

(** What [cacheAll] leaves in the store. *)
Lemma cacheAll_lookup (now : Z) (batchData : gmap string Payload) (st : State)
    (store : gmap string CacheEntry) :
  db st = Some store ->
  exists store',
    db (cacheAll now batchData st) = Some store' /\
    forall z,
      store' !! (cachePrefix ++ z)%string
      = match batchData !! z with
        | Some p => Some (Durable.entryFor now z p)
        | None => store !! (cachePrefix ++ z)%string
        end.
Proof.
  intros Hdb. unfold cacheAll.
  destruct (cacheEach_lookup now (map_to_list batchData) st store Hdb)
    as (store' & Hfold & Hin & Hout).
  { apply NoDup_ListNoDup, NoDup_fst_map_to_list. }
  exists store'. split; [exact Hfold|]. intros z.
  destruct (batchData !! z) as [p|] eqn:Ez.
  - apply Hin. now apply list_elem_of_In, elem_of_map_to_list.
  - apply Hout. intros Hz. apply in_map_iff in Hz as ([z' p] & Hfst & Hzp).
    simpl in Hfst. subst z'.
    apply list_elem_of_In, elem_of_map_to_list in Hzp. congruence.
Qed.

Lemma eachBatch_written (E : Env) (now : Z) (base : gmap string CacheEntry)
    (batches : list (list string)) :
  forall st results st' found,
    eachBatch E now batches st results = Some (st', Fulfilled found) ->
    Durable.written now base st results -> Durable.written now base st' found.
Proof.
  induction batches as [|batch rest IH]; intros st results st' found Hrun Hw.
  - simpl in Hrun. now injection Hrun as <- <-.
  - cbn [eachBatch] in Hrun.
    destruct (FetchFacts.fetchBatchFromAPI_contained E now batch st)
      as [(st1 & outcome & Ecall & _ & _ & Hdb & _) _].
    rewrite Ecall in Hrun. destruct Hw as (store & Hstore & Hlook).
    destruct outcome as [batchData| |]; [| |discriminate].
    + apply (IH _ _ _ _ Hrun).
      destruct (cacheAll_lookup now batchData st1 store) as (store' & Hdb' & Hlook');
        [congruence|].
      exists store'. split; [exact Hdb'|]. intros z. rewrite Hlook'.
      destruct (batchData !! z) as [p|] eqn:Ez.
      * now rewrite (lookup_union_Some_l _ _ _ _ Ez).
      * rewrite (lookup_union_r _ _ _ Ez). apply Hlook.
    + apply (IH _ _ _ _ Hrun). exists store. split; [congruence|exact Hlook].
Qed.

End WriteFacts.

(** X9.  With the durable store open, every payload [fetchMissingData]
    returns has been written to the store under its ZIP code, with the
    fetch time and an expiry 90 days later; the store is unchanged for
    every other ZIP code.  Each payload is therefore served by
    [getFromCache] at any time up to that expiry. *)
Theorem fetched_payloads_are_written_through (E : ACSAPIService.Env) (now : Z)
    (zipCodes : list string) (st st' : ACSAPIService.State)
    (store : gmap string ACSAPIService.CacheEntry)
    (found : gmap string ACSAPIService.Payload) :
  ACSAPIService.db st = Some store ->
  ACSAPIService.fetchMissingData E now zipCodes st
  = Some (st', ACSAPIService.Fulfilled found) ->
  exists store',
    ACSAPIService.db st' = Some store' /\
    (forall z,
       store' !! (ACSAPIService.cachePrefix ++ z)%string
       = match found !! z with
         | Some p =>
             Some {| ACSAPIService.key := (ACSAPIService.cachePrefix ++ z)%string;
                     ACSAPIService.entryData := p;
                     ACSAPIService.expiry := (now + ACSAPIService.cacheDuration)%Z;
                     ACSAPIService.cachedAt := now;
                     ACSAPIService.entryZip := z |}
         | None => store !! (ACSAPIService.cachePrefix ++ z)%string
         end) /\
    (forall z p read,
       found !! z = Some p ->
       (read <= now + ACSAPIService.cacheDuration)%Z ->
       ACSAPIService.getFromCache read z st'
       = (st', ACSAPIService.Fulfilled (Some p))).
Proof.
  intros Hdb Hrun.
  assert (Hw : Durable.written now store st' found).
  { unfold ACSAPIService.fetchMissingData in Hrun.
    destruct (length zipCodes =? 0)%nat.
    - injection Hrun as <- <-. exists store. split; [exact Hdb|].
      intros z. now rewrite lookup_empty.
    - apply (WriteFacts.eachBatch_written E now store _ _ _ _ _ Hrun).
      exists store. split; [exact Hdb|]. intros z. now rewrite lookup_empty. }
  destruct Hw as (store' & Hdb' & Hlook).
  exists store'. split; [exact Hdb'|]. split; [exact Hlook|].
  intros z p read Hz Hread. unfold ACSAPIService.getFromCache.
  rewrite Hdb', Hlook, Hz. cbn [ACSAPIService.expiry Durable.entryFor
    ACSAPIService.entryData].
  destruct (now + ACSAPIService.cacheDuration <? read)%Z eqn:El; [|reflexivity].
  apply Z.ltb_lt in El. lia.
Qed.

Lemma fetched_payloads_are_written_through_witness :
  let result :=
    Durable.fetched
      (ACSAPIService.fetchMissingData Upstream.healthy 0 (Upstream.zips 2)
         Service.withStore) in
  exists p,
    snd result !! "10001" = Some p /\
    ACSAPIService.getFromCache 1000 "10001" (fst result)
    = (fst result, ACSAPIService.Fulfilled (Some p)).
Proof.
  intros result.
  destruct (fetched_payloads_are_written_through Upstream.healthy 0 (Upstream.zips 2)
              Service.withStore (fst result) ∅ (snd result) eq_refl)
    as (store' & _ & _ & Hget).
  - vm_compute. reflexivity.
  - eexists. split; [vm_compute; reflexivity|].
    apply Hget; [vm_compute; reflexivity|].
    vm_compute. discriminate.
Defined.

Module KeyFacts.

Import ACSAPIService.

Section Among.
Variable P : string -> Prop.

Lemma set_among (l : Lookup) (zip : string) (v : Found) :
  P zip -> Durable.among P l ->
  Durable.among P {| results := JS.mapSet String.eqb zip v (results l);
                     missingZips := missingZips l; hung := hung l |}.
Proof.
  intros Hzip (Hnd & Hkeys & Hmiss). split; [|split]; cbn [results missingZips].
  - now apply MapFacts.mapSet_NoDup; [apply MapFacts.string_eqb_eq|].
  - intros z Hz.
    apply (MapFacts.mapSet_keys String.eqb MapFacts.string_eqb_eq) in Hz
      as [->|Hz]; [exact Hzip|now apply Hkeys].
  - exact Hmiss.
Qed.

Lemma resume_among (now : Z) (st : State) (l : Lookup) (zip : string) :
  P zip -> Durable.among P l -> Durable.among P (snd (resume now (st, l) zip)).
Proof.
  intros Hzip Hl. pose proof Hl as (Hnd & Hkeys & Hmiss). unfold resume.
  destruct (getFromCache now zip st) as [st1 [[cached|]| |]]; cbn [snd].
  - now apply set_among.
  - split; [exact Hnd|]. split; [exact Hkeys|]. cbn [missingZips].
    intros z Hz. apply in_app_iff in Hz as [Hz|[<-|[]]]; [now apply Hmiss|exact Hzip].
  - split; [exact Hnd|]. split; [exact Hkeys|exact Hmiss].
  - split; [exact Hnd|]. split; [exact Hkeys|exact Hmiss].
Qed.

Lemma resumed_among (now : Z) (zips : list string) :
  (forall z, In z zips -> P z) ->
  forall st l,
    Durable.among P l -> Durable.among P (snd (fold_left (resume now) zips (st, l))).
Proof.
  induction zips as [|zip rest IH]; intros Hzips st l Hl; [exact Hl|].
  cbn [fold_left]. destruct (resume now (st, l) zip) as [st1 l1] eqn:E.
  apply IH; [intros z Hz; apply Hzips; now right|].
  replace l1 with (snd (resume now (st, l) zip)) by now rewrite E.
  apply resume_among; [apply Hzips; now left|exact Hl].
Qed.

Lemma started_among (zips : list string) :
  (forall z, In z zips -> P z) ->
  forall st l awaiting,
    Durable.among P l -> (forall z, In z awaiting -> P z) ->
    Durable.among P (snd (fst (fold_left start zips ((st, l), awaiting)))) /\
    (forall z, In z (snd (fold_left start zips ((st, l), awaiting))) -> P z).
Proof.
  induction zips as [|zip rest IH]; intros Hzips st l awaiting Hl Ha; [now split|].
  cbn [fold_left]. unfold start at 2 4.
  destruct (JS.mapGet String.eqb zip (memoryCache st)) as [memoryCached|].
  - apply IH; [intros z Hz; apply Hzips; now right| |exact Ha].
    apply set_among; [apply Hzips; now left|exact Hl].
  - apply IH; [intros z Hz; apply Hzips; now right|exact Hl|].
    intros z Hz. apply in_app_iff in Hz as [Hz|[<-|[]]];
      [now apply Ha|apply Hzips; now left].
Qed.

Lemma processChunk_among (now : Z) (zipChunk : list string) (st : State) (l : Lookup) :
  (forall z, In z zipChunk -> P z) ->
  Durable.among P l -> Durable.among P (snd (processChunk now zipChunk (st, l))).
Proof.
  intros Hzips Hl. unfold processChunk.
  destruct (started_among zipChunk Hzips st l [] Hl ltac:(intros z [])) as [H1 H2].
  destruct (fold_left start zipChunk ((st, l), [])) as [[st1 l1] awaiting].
  cbn [fst snd] in *. now apply resumed_among.
Qed.

Lemma lookupChunks_among (now : Z) (uniqueZips : list string) (st : State) :
  (forall z, In z uniqueZips -> P z) ->
  Durable.among P (snd (lookupChunks now uniqueZips st)).
Proof.
  intros Hzips. unfold lookupChunks.
  assert (Hchunks : forall chunk z,
            In chunk (chunkArray uniqueZips 300) -> In z chunk -> P z).
  { intros chunk z Hc Hz. apply Hzips.
    apply (ChunkFacts.in_chunk 300 uniqueZips chunk z); [lia|exact Hc|exact Hz]. }
  assert (Hstart : Durable.among P {| results := []; missingZips := []; hung := false |}).
  { split; [constructor|]. split; intros z []. }
  revert Hchunks Hstart. generalize (chunkArray uniqueZips 300) as chunks.
  generalize {| results := []; missingZips := []; hung := false |} as l. revert st.
  intros st l chunks. revert st l.
  induction chunks as [|chunk chunks IH]; intros st l Hchunks Hl; [exact Hl|].
  cbn [fold_left snd]. destruct (hung l).
  - apply IH; [intros c z Hc; apply Hchunks; now right|exact Hl].
  - destruct (processChunk now chunk (st, l)) as [st1 l1] eqn:E.
    apply IH; [intros c z Hc; apply Hchunks; now right|].
    replace l1 with (snd (processChunk now chunk (st, l))) by now rewrite E.
    apply processChunk_among; [|exact Hl].
    intros z Hz. apply (Hchunks chunk z); [now left|exact Hz].
Qed.

Lemma eachBatch_among (E : Env) (now : Z) (batches : list (list string)) :
  (forall batch z, In batch batches -> In z batch -> P z) ->
  forall st results st' found,
    eachBatch E now batches st results = Some (st', Fulfilled found) ->
    (forall z, is_Some (results !! z) -> P z) ->
    forall z, is_Some (found !! z) -> P z.
Proof.
  induction batches as [|batch rest IH]; intros Hb st results st' found Hrun Hres.
  - simpl in Hrun. now injection Hrun as <- <-.
  - cbn [eachBatch] in Hrun.
    destruct (FetchFacts.fetchBatchFromAPI_contained E now batch st)
      as [(st1 & outcome & Ecall & _ & _ & _ & Hin) _].
    rewrite Ecall in Hrun.
    assert (Hrest : forall batch z, In batch rest -> In z batch -> P z)
      by (intros b z Hb'; apply Hb; now right).
    destruct outcome as [batchData| |]; [| |discriminate].
    + apply (IH Hrest _ _ _ _ Hrun). intros z Hz.
      apply lookup_union_is_Some in Hz as [Hz|Hz]; [|now apply Hres].
      apply (Hb batch); [now left|]. now apply (Hin batchData eq_refl).
    + now apply (IH Hrest _ _ _ _ Hrun).
Qed.

Lemma store_among (now : Z) (entries : list (string * Payload)) :
  (forall zd, In zd entries -> P (fst zd)) ->
  forall st found,
    List.NoDup (map fst found) -> (forall z, In z (map fst found) -> P z) ->
    let result := snd (fold_left (store now) entries (st, found)) in
    List.NoDup (map fst result) /\ (forall z, In z (map fst result) -> P z).
Proof.
  induction entries as [|zd rest IH]; intros Hent st found Hnd Hkeys; [now split|].
  cbn [fold_left store]. apply IH.
  - intros zd' H. apply Hent. now right.
  - now apply MapFacts.mapSet_NoDup; [apply MapFacts.string_eqb_eq|].
  - intros z Hz.
    apply (MapFacts.mapSet_keys String.eqb MapFacts.string_eqb_eq) in Hz
      as [->|Hz]; [apply Hent; now left|now apply Hkeys].
Qed.

End Among.

Lemma fetchMissingData_among (E : Env) (now : Z) (zipCodes : list string)
    (st st' : State) (found : gmap string Payload) :
  fetchMissingData E now zipCodes st = Some (st', Fulfilled found) ->
  forall z, is_Some (found !! z) -> In z zipCodes.
Proof.
  unfold fetchMissingData. destruct (length zipCodes =? 0)%nat.
  - intros [= <- <-] z. rewrite lookup_empty. intros [? [=]].
  - intros Hrun.
    apply (eachBatch_among (fun z => In z zipCodes) E now _
             (fun batch z Hb Hz =>
                ChunkFacts.in_chunk batchSize zipCodes batch z
                  ltac:(unfold batchSize; lia) Hb Hz)
             _ _ _ _ Hrun).
    intros z. rewrite lookup_empty. intros [? [=]].
Qed.

End KeyFacts.

(** X10.  The object [fetchCombinedData] resolves with has one property per
    ZIP code at most, and every one of its keys is a ZIP code of the list
    that was asked for. *)
Theorem combined_data_is_keyed_by_requested_zip_codes (E : ACSAPIService.Env)
    (now : Z) (zipCodes : list string) (st st' : ACSAPIService.State)
    (results : list (string * ACSAPIService.Found)) :
  ACSAPIService.fetchCombinedData E now zipCodes st
  = Some (st', ACSAPIService.Fulfilled results) ->
  List.NoDup (map fst results) /\
  (forall z, In z (map fst results) -> In z zipCodes).
Proof.
  unfold ACSAPIService.fetchCombinedData.
  destruct (length zipCodes =? 0)%nat.
  { intros [= <- <-]. split; [constructor|intros z []]. }
  pose proof (KeyFacts.lookupChunks_among (fun z => In z zipCodes) now
                (ACSAPIService.unique zipCodes) st
                (fun z Hz => proj1 (UniqueFacts.unique_In zipCodes z) Hz))
    as Hl.
  destruct (ACSAPIService.lookupChunks now (ACSAPIService.unique zipCodes) st)
    as [st1 l].
  destruct Hl as (Hnd & Hkeys & Hmiss).
  cbn [snd] in *.
  destruct (ACSAPIService.hung l); [discriminate|].
  destruct (0 <? length (ACSAPIService.missingZips l))%nat;
    [|intros [= <- <-]; now split].
  destruct (ACSAPIService.fetchMissingData E now (ACSAPIService.missingZips l) st1)
    as [[st2 [missingData| |]]|] eqn:Efetch; try discriminate.
  pose proof (KeyFacts.store_among (fun z => In z zipCodes) now
                (map_to_list missingData)) as Hstore.
  destruct (fold_left (ACSAPIService.store now) (map_to_list missingData)
              (st2, ACSAPIService.results l)) as [st3 found] eqn:Efold.
  intros [= <- <-].
  assert (Hfound : forall zd, In zd (map_to_list missingData) -> In (fst zd) zipCodes).
  { intros [z p] Hzd. apply Hmiss.
    apply (KeyFacts.fetchMissingData_among E now _ _ _ _ Efetch).
    exists p. now apply elem_of_map_to_list, list_elem_of_In. }
  specialize (Hstore Hfound st2 (ACSAPIService.results l) Hnd Hkeys).
  rewrite Efold in Hstore. exact Hstore.
Qed.

Lemma combined_data_is_keyed_by_requested_zip_codes_witness :
  let zipCodes := ["10002"; "10001"; "10002"]%string in
  let result :=
    Durable.combined
      (ACSAPIService.fetchCombinedData Upstream.healthy 0 zipCodes Service.withStore) in
  map fst (snd result) = ["10001"; "10002"]%string /\
  List.NoDup (map fst (snd result)) /\
  (forall z, In z (map fst (snd result)) -> In z zipCodes).
Proof.
  intros zipCodes result. split; [vm_compute; reflexivity|].
  apply (combined_data_is_keyed_by_requested_zip_codes Upstream.healthy 0 zipCodes
           Service.withStore (fst result)).
  vm_compute. reflexivity.
Defined.

Module RegionFacts.

Open Scope float_scope.

Lemma filter_length_sum {A : Type} (f g h : A -> bool) (l : list A) :
  (forall x, h x = f x || g x) -> (forall x, f x && g x = false) ->
  length (List.filter h l)
  = (length (List.filter f l) + length (List.filter g l))%nat.
Proof.
  intros Hh Hfg. induction l as [|x l IH]; simpl; [reflexivity|].
  rewrite Hh. specialize (Hfg x).
  destruct (f x), (g x); simpl in *; try discriminate; lia.
Qed.

Lemma filter_narrow {A : Type} (f g : A -> bool) (l : list A) :
  (forall x, f x = true -> g x = true) ->
  List.filter f (List.filter g l) = List.filter f l.
Proof.
  intros Hfg. induction l as [|x l IH]; simpl; [reflexivity|].
  destruct (g x) eqn:Eg; simpl; [now rewrite IH|].
  destruct (f x) eqn:Ef; [|exact IH].
  apply Hfg in Ef. congruence.
Qed.

(** The [markers] array of the circle statistics: the markers within the
    radius, in the order of the input. *)
Lemma circle_markers_from (M : JS.MathImpl) (center : Point.t) (r : float)
    (l : list Marker.t) (s : SpatialUtils.Stats) :
  SpatialUtils.markers (fold_left (SpatialUtils.visit M center r) l s)
  = SpatialUtils.markers s ++ List.filter (Region.inCircle M center r) l.
Proof.
  revert s. induction l as [|m l IH]; intros s; simpl; [now rewrite app_nil_r|].
  rewrite IH. unfold SpatialUtils.visit, Region.inCircle.
  destruct (SpatialUtils.haversineDistance M center _ <=? r); simpl;
    [now rewrite <- app_assoc|reflexivity].
Qed.

Lemma circle_markers (M : JS.MathImpl) (markers : list Marker.t) (center : Point.t)
    (r : float) :
  SpatialUtils.markers (SpatialUtils.calculateCircleStats M markers center r)
  = List.filter (Region.inCircle M center r) markers.
Proof.
  unfold SpatialUtils.calculateCircleStats, SpatialUtils.finish.
  cbn [SpatialUtils.markers]. now rewrite circle_markers_from.
Qed.

Lemma circle_total (M : JS.MathImpl) (markers : list Marker.t) (center : Point.t)
    (r : float) :
  SpatialUtils.totalMarkers (SpatialUtils.calculateCircleStats M markers center r)
  = length (List.filter (Region.inCircle M center r) markers).
Proof.
  unfold SpatialUtils.calculateCircleStats, SpatialUtils.finish.
  cbn [SpatialUtils.totalMarkers].
  now rewrite (proj1 (CircleFacts.loop_invariant M center r markers
                        SpatialUtils.emptyStats)).
Qed.

Lemma donut_total (M : JS.MathImpl) (markers : list MapMarker.t) (center : Point.t)
    (lo hi : float) :
  RingVisualizer.totalMarkers
    (RingVisualizer.calculateDonutStats M markers center lo hi)
  = length (List.filter (Region.inBand M center lo hi) markers).
Proof.
  unfold RingVisualizer.calculateDonutStats, RingVisualizer.finish.
  cbn [RingVisualizer.totalMarkers].
  now rewrite (proj1 (DonutFacts.band_loop_invariant M center lo hi markers
                        RingVisualizer.emptyStats)).
Qed.

Lemma inBand_cut (M : JS.MathImpl) (center : Point.t) (lo mid hi : float)
    (marker : MapMarker.t) :
  (lo <=? mid) = true -> (mid <=? hi) = true ->
  Region.inBand M center lo hi marker
  = Region.inBand M center lo mid marker || Region.inBand M center mid hi marker.
Proof.
  intros Hlm Hmh. unfold Region.inBand.
  destruct (MapMarker.data marker); [|reflexivity].
  rewrite (OrderFacts.band_cut lo mid hi _ Hlm Hmh).
  match goal with |- context [?a <=? mid] => destruct (a <=? mid) eqn:E end.
  - rewrite (OrderFacts.leb_not_gt _ _ E). now destruct (lo <? _).
  - now rewrite !andb_false_r.
Qed.

Lemma inBand_apart (M : JS.MathImpl) (center : Point.t) (lo mid hi : float)
    (marker : MapMarker.t) :
  Region.inBand M center lo mid marker && Region.inBand M center mid hi marker = false.
Proof.
  unfold Region.inBand. destruct (MapMarker.data marker); [|reflexivity].
  match goal with |- context [?a <=? mid] => destruct (a <=? mid) eqn:E end.
  - rewrite (OrderFacts.leb_not_gt _ _ E). now rewrite andb_false_r.
  - now rewrite andb_false_r.
Qed.

Lemma donut_cut (M : JS.MathImpl) (markers : list MapMarker.t) (center : Point.t)
    (lo mid hi : float) :
  (lo <=? mid) = true -> (mid <=? hi) = true ->
  RingVisualizer.totalMarkers (RingVisualizer.calculateDonutStats M markers center lo hi)
  = (RingVisualizer.totalMarkers
       (RingVisualizer.calculateDonutStats M markers center lo mid)
     + RingVisualizer.totalMarkers
         (RingVisualizer.calculateDonutStats M markers center mid hi))%nat.
Proof.
  intros Hlm Hmh. rewrite !donut_total. apply filter_length_sum.
  - intros x. now apply inBand_cut.
  - intros x. apply inBand_apart.
Qed.

End RegionFacts.

(** X11.  The circle statistics grow with the radius: of two circles around
    the same centre, the one with the larger radius counts at least as many
    markers, and the markers of the smaller circle are the markers of the
    larger one that lie within the smaller radius.  A radius that is NaN
    selects no marker. *)
Theorem circle_grows_with_the_radius (M : JS.MathImpl) (markers : list Marker.t)
    (center : Point.t) (r1 r2 : float) :
  (r1 <=? r2)%float = true ->
  let small := SpatialUtils.calculateCircleStats M markers center r1 in
  let large := SpatialUtils.calculateCircleStats M markers center r2 in
  (SpatialUtils.totalMarkers small <= SpatialUtils.totalMarkers large)%nat /\
  SpatialUtils.markers small
  = List.filter (Region.inCircle M center r1) (SpatialUtils.markers large) /\
  (forall r, is_nan r = true ->
     SpatialUtils.totalMarkers (SpatialUtils.calculateCircleStats M markers center r)
     = 0%nat).
Proof.
  intros Hr small large. subst small large.
  assert (Hin : forall m, Region.inCircle M center r1 m = true ->
                          Region.inCircle M center r2 m = true).
  { intros m. unfold Region.inCircle. intros H.
    exact (OrderFacts.leb_trans _ _ _ H Hr). }
  rewrite !RegionFacts.circle_total, !RegionFacts.circle_markers.
  split; [|split].
  - rewrite <- (RegionFacts.filter_narrow _ _ markers Hin).
    apply List.filter_length_le.
  - now rewrite RegionFacts.filter_narrow.
  - intros r Hnan. rewrite RegionFacts.circle_total.
    replace (List.filter (Region.inCircle M center r) markers) with (@nil Marker.t);
      [reflexivity|].
    symmetry. induction markers as [|m l IH]; simpl; [reflexivity|].
    unfold Region.inCircle at 1. now rewrite (OrderFacts.leb_nan_r _ r Hnan).
Qed.

Lemma circle_grows_with_the_radius_witness :
  let small := SpatialUtils.calculateCircleStats Examples.smallAngle Examples.three
                 Examples.origin 1000 in
  let large := SpatialUtils.calculateCircleStats Examples.smallAngle Examples.three
                 Examples.origin 2000 in
  (SpatialUtils.totalMarkers small <= SpatialUtils.totalMarkers large)%nat.
Proof.
  apply (circle_grows_with_the_radius Examples.smallAngle Examples.three
           Examples.origin 1000 2000).
  reflexivity.
Defined.

(** X12.  The three donut bands of a ring do not overlap and leave no gap:
    for radii 0 <= inner <= middle <= outer, every marker is counted in at
    most one of the bands (0, inner], (inner, middle] and (middle, outer],
    and the three marker counts add up to the count of the band
    (0, outer].  A marker exactly at the centre is in none of them. *)
Theorem donut_bands_add_up (M : JS.MathImpl) (markers : list MapMarker.t)
    (center : Point.t) (inner middle outer : float) :
  (0 <=? inner)%float = true ->
  (inner <=? middle)%float = true ->
  (middle <=? outer)%float = true ->
  let total := fun lo hi =>
    RingVisualizer.totalMarkers
      (RingVisualizer.calculateDonutStats M markers center lo hi) in
  (total 0%float inner + total inner middle + total middle outer)%nat
  = total 0%float outer /\
  (forall marker,
     (Nat.b2n (Region.inBand M center 0 inner marker)
      + Nat.b2n (Region.inBand M center inner middle marker)
      + Nat.b2n (Region.inBand M center middle outer marker))%nat
     = Nat.b2n (Region.inBand M center 0 outer marker)) /\
  (forall marker,
     SpatialUtils.haversineDistance M
       (Point.make (Point.lat center) (Point.lng center))
       (Point.make (Point.lat (MapMarker.latlng marker))
          (Point.lng (MapMarker.latlng marker))) = 0%float ->
     Region.inBand M center 0 outer marker = false).
Proof.
  intros H0 Him Hmo total. subst total. cbv beta.
  assert (H0m : (0 <=? middle)%float = true) by exact (OrderFacts.leb_trans _ _ _ H0 Him).
  split; [|split].
  - rewrite (RegionFacts.donut_cut M markers center 0 middle outer H0m Hmo).
    now rewrite (RegionFacts.donut_cut M markers center 0 inner middle H0 Him).
  - intros marker.
    rewrite (RegionFacts.inBand_cut M center 0 middle outer marker H0m Hmo).
    rewrite (RegionFacts.inBand_cut M center 0 inner middle marker H0 Him).
    pose proof (RegionFacts.inBand_apart M center 0 inner middle marker) as H1.
    pose proof (RegionFacts.inBand_apart M center inner middle outer marker) as H2.
    pose proof (RegionFacts.inBand_apart M center 0 middle outer marker) as H3.
    rewrite (RegionFacts.inBand_cut M center 0 inner middle marker H0 Him) in H3.
    destruct (Region.inBand M center 0 inner marker),
      (Region.inBand M center inner middle marker),
      (Region.inBand M center middle outer marker); simpl in *; congruence.
  - intros marker Hd. unfold Region.inBand.
    destruct (MapMarker.data marker); [|reflexivity].
    now rewrite Hd.
Qed.

Lemma donut_bands_add_up_witness :
  let ring := RingVisualizer.buildRing Examples.smallAngle 1700000000000 Rings.drawing
                Examples.origin in
  (RingVisualizer.totalMarkers (RingVisualizer.inner (RingVisualizer.donutStats ring))
   + RingVisualizer.totalMarkers (RingVisualizer.middle (RingVisualizer.donutStats ring))
   + RingVisualizer.totalMarkers (RingVisualizer.outer (RingVisualizer.donutStats ring)))%nat
  = RingVisualizer.totalMarkers
      (RingVisualizer.calculateDonutStats Examples.smallAngle Examples.threeOnMap
         Examples.origin 0 (25 * 1609.34)).
Proof.
  apply (donut_bands_add_up Examples.smallAngle Examples.threeOnMap Examples.origin
           (5 * 1609.34) (10 * 1609.34) (25 * 1609.34)); reflexivity.
Defined.

Module ClampFacts.

Open Scope float_scope.

Lemma max_bounds (a b : float) :
  is_nan a = false -> is_nan b = false ->
  (JS.max a b = a \/ JS.max a b = b) /\
  (a <=? JS.max a b) = true /\ (b <=? JS.max a b) = true.
Proof.
  intros Ha Hb. unfold JS.max. rewrite Ha, Hb. cbn [orb].
  destruct (a <? b) eqn:Eab.
  { split; [now right|]. split; [now apply OrderFacts.ltb_leb|now apply OrderFacts.leb_refl]. }
  destruct (b <? a) eqn:Eba.
  { split; [now left|]. split; [now apply OrderFacts.leb_refl|now apply OrderFacts.ltb_leb]. }
  assert (Hab : (a <=? b) = true)
    by (destruct (OrderFacts.leb_total a b Ha Hb); [assumption|congruence]).
  assert (Hba : (b <=? a) = true)
    by (destruct (OrderFacts.leb_total b a Hb Ha); [assumption|congruence]).
  destruct (is_zero a && get_sign a).
  - split; [now right|]. split; [exact Hab|now apply OrderFacts.leb_refl].
  - split; [now left|]. split; [now apply OrderFacts.leb_refl|exact Hba].
Qed.

Lemma min_bounds (a b : float) :
  is_nan a = false -> is_nan b = false ->
  (JS.min a b = a \/ JS.min a b = b) /\
  (JS.min a b <=? a) = true /\ (JS.min a b <=? b) = true.
Proof.
  intros Ha Hb. unfold JS.min. rewrite Ha, Hb. cbn [orb].
  destruct (a <? b) eqn:Eab.
  { split; [now left|]. split; [now apply OrderFacts.leb_refl|now apply OrderFacts.ltb_leb]. }
  destruct (b <? a) eqn:Eba.
  { split; [now right|]. split; [now apply OrderFacts.ltb_leb|now apply OrderFacts.leb_refl]. }
  assert (Hab : (a <=? b) = true)
    by (destruct (OrderFacts.leb_total a b Ha Hb); [assumption|congruence]).
  assert (Hba : (b <=? a) = true)
    by (destruct (OrderFacts.leb_total b a Hb Ha); [assumption|congruence]).
  destruct (is_zero a && get_sign a).
  - split; [now left|]. split; [now apply OrderFacts.leb_refl|exact Hab].
  - split; [now right|]. split; [exact Hba|now apply OrderFacts.leb_refl].
Qed.

(** [Math.min (Math.max (x, lo), hi)] for numbers [lo <= hi]. *)
Lemma clamp (x lo hi : float) :
  (lo <=? hi) = true ->
  (is_nan x = true -> is_nan (JS.min (JS.max x lo) hi) = true) /\
  (is_nan x = false ->
   (lo <=? JS.min (JS.max x lo) hi) = true /\
   (JS.min (JS.max x lo) hi <=? hi) = true).
Proof.
  intros Hlh.
  pose proof (OrderFacts.leb_number_l _ _ Hlh) as Hlo.
  pose proof (OrderFacts.leb_number_r _ _ Hlh) as Hhi.
  split.
  - intros Hx. unfold JS.max. rewrite Hx. cbn [orb]. reflexivity.
  - intros Hx.
    destruct (max_bounds x lo Hx Hlo) as (Hm & _ & Hlm).
    assert (Hmn : is_nan (JS.max x lo) = false) by (destruct Hm as [-> | ->]; assumption).
    destruct (min_bounds (JS.max x lo) hi Hmn Hhi) as (Hr & _ & Hrh).
    split; [|exact Hrh].
    destruct Hr as [-> | ->]; assumption.
Qed.

End ClampFacts.

(** X13.  [calculateMarkerSize] never returns a radius outside its range:
    unless the scaled value [Math.sqrt (value) * 0.15] is NaN (a negative
    or NaN [value]), the radius lies between 8 and 20 pixels for the type
    ['both'] and between 5 and 16 pixels for every other type; when the
    scaled value is NaN, so is the radius. *)
Theorem marker_radius_is_clamped (value : float) (type : string) :
  let scaledValue := (JS.sqrt value * 0.15)%float in
  let radius := SpatialUtils.calculateMarkerSize value type in
  let lowest := if String.eqb type "both" then 8%float else 5%float in
  let highest := if String.eqb type "both" then 20%float else 16%float in
  (is_nan scaledValue = true -> is_nan radius = true) /\
  (is_nan scaledValue = false ->
   (lowest <=? radius)%float = true /\ (radius <=? highest)%float = true).
Proof.
  cbv zeta. unfold SpatialUtils.calculateMarkerSize.
  destruct (String.eqb type "both"); apply ClampFacts.clamp; reflexivity.
Qed.

(** A count of 1000 gives the smallest radius of its type, a count of ten
    million the largest, and a negative count no radius at all. *)
Example marker_radius_at_the_bounds :
  SpatialUtils.calculateMarkerSize 1000 "education" = 5%float /\
  SpatialUtils.calculateMarkerSize 1000 "both" = 8%float /\
  SpatialUtils.calculateMarkerSize 6400 "income" = 12%float /\
  SpatialUtils.calculateMarkerSize 10000000 "income" = 16%float /\
  SpatialUtils.calculateMarkerSize 10000000 "both" = 20%float /\
  is_nan (SpatialUtils.calculateMarkerSize (-1) "both") = true.
Proof. vm_compute. repeat split. Qed.

(* ------------------------------------------------------------------------- *)
(** ** Hotspots and their members                                             *)
(* ------------------------------------------------------------------------- *)


(** X14.  In the list a fresh [SpatialUtils] returns from [findHotspots],
    every hotspot has at least one member, its [count] is the number of its
    members and its [totalValue] the sum of their weights (3 for both
    criteria, 1 for one, 0 for none).  No marker is a member of two
    hotspots; the members of the hotspots are markers of the input, and when
    the markers fall into at most 50 grid cells every marker is a member of
    exactly one hotspot. *)
Theorem hotspots_partition_the_markers (now : Z) (markers : list Marker.t) :
  let hotspots := snd (Clusterer.findHotspots now markers Clusterer.initial) in
  let members := fun h => Clusterer.markers (Clusterer.Hotspot.source h) in
  Forall
    (fun h =>
       Clusterer.count (Clusterer.Hotspot.source h) = length (members h) /\
       (1 <= Clusterer.count (Clusterer.Hotspot.source h))%nat /\
       Clusterer.totalValue (Clusterer.Hotspot.source h)
       = Members.valueSum (members h))
    hotspots /\
  (exists others, Permutation (concat (map members hotspots) ++ others) markers) /\
  ((length (fold_left Clusterer.addToGrid markers []) <= 50)%nat ->
   Permutation (concat (map members hotspots)) markers).
Proof.
  intros hotspots members. subst hotspots members.
  destruct markers as [|first rest].
  { simpl. split; [constructor|]. split; [now exists []|constructor]. }
  change (snd (Clusterer.findHotspots now (first :: rest) Clusterer.initial))
    with (Clusterer.compute (first :: rest)).
  set (markers := first :: rest). unfold Clusterer.compute.
  set (grid := fold_left Clusterer.addToGrid markers []).
  set (cells := fold_left Clusterer.cellHotspot grid []).
  set (merged := Clusterer.mergeAdjacentCells cells (Clusterer.gridSize * 1.5)).
  set (sorted := JS.sortF
                   (fun a b => (Clusterer.intensity b - Clusterer.intensity a)%float)
                   merged).
  destruct (MemberFacts.grid_members markers [] (List.Forall_nil _)) as [Hcons Hperm].
  fold grid in Hcons, Hperm. simpl in Hperm.
  assert (Htally : map Members.ofMerged merged
                   = map (fun kv => Members.ofCell (snd kv)) grid).
  { subst merged cells. rewrite MemberFacts.merged_tallies.
    now rewrite (MemberFacts.cellHotspots_tallies grid Hcons []). }
  assert (Hmerged : Forall (fun m => Members.consistent (Members.ofMerged m)) merged).
  { exact (MemberFacts.Forall_map_eq Members.ofMerged
             (fun kv => Members.ofCell (snd kv)) Members.consistent
             merged grid Htally Hcons). }
  assert (Hall : Permutation (concat (map Clusterer.markers merged)) markers).
  { rewrite <- Hperm.
    pose proof (MemberFacts.concat_members_eq Members.ofMerged
                  (fun kv => Members.ofCell (snd kv)) merged grid Htally) as Hc.
    change (concat (map Clusterer.markers merged)
            = concat (map (fun kv => Clusterer.Cell.markers (snd kv)) grid)) in Hc.
    now rewrite Hc. }
  assert (Hsorted : Permutation merged sorted) by apply SortFacts.sortF_perm.
  assert (Hmembers :
    concat (map (fun h => Clusterer.markers (Clusterer.Hotspot.source h))
              (Clusterer.rankTop merged))
    = concat (map Clusterer.markers (firstn 50 sorted))).
  { unfold sorted. rewrite <- (MemberFacts.source_rankTop merged), map_map.
    reflexivity. }
  split; [|split].
  - apply List.Forall_forall. intros h Hh.
    assert (Hsrc : In (Clusterer.Hotspot.source h) (firstn 50 sorted)).
    { unfold sorted. rewrite <- (MemberFacts.source_rankTop merged).
      now apply in_map. }
    assert (Hin : In (Clusterer.Hotspot.source h) merged).
    { apply (Permutation_in _ (Permutation_sym Hsorted)).
      rewrite <- (firstn_skipn 50 sorted). apply in_or_app. now left. }
    exact (proj1 (List.Forall_forall _ _) Hmerged _ Hin).
  - exists (concat (map Clusterer.markers (skipn 50 sorted))).
    rewrite Hmembers, <- concat_app, <- map_app, firstn_skipn.
    rewrite <- Hall. symmetry. now apply MemberFacts.Permutation_concat_map.
  - intros Hfew. rewrite Hmembers.
    assert (Hlen : (length sorted <= 50)%nat).
    { rewrite <- (Permutation_length Hsorted).
      rewrite <- (length_map Members.ofMerged), Htally, length_map. exact Hfew. }
    rewrite firstn_all2 by exact Hlen.
    rewrite <- Hall. symmetry. now apply MemberFacts.Permutation_concat_map.
Qed.

(** X15.  [mergeAdjacentCells] never merges two cells of [findHotspots]:
    whatever the merge distance, it returns one element per cell hotspot,
    in the same order and with the same members, count, total value and
    intensity.  A fresh [SpatialUtils] therefore returns as many hotspots
    as the markers occupy grid cells, up to 50. *)
Theorem every_grid_cell_is_its_own_hotspot (now : Z) (markers : list Marker.t)
    (mergeDistance : float) :
  let grid := fold_left Clusterer.addToGrid markers [] in
  let hotspots := fold_left Clusterer.cellHotspot grid [] in
  let merged := Clusterer.mergeAdjacentCells hotspots mergeDistance in
  map Clusterer.markers merged = map Clusterer.CellHotspot.markers hotspots /\
  map Clusterer.count merged = map Clusterer.CellHotspot.count hotspots /\
  map Clusterer.totalValue merged = map Clusterer.CellHotspot.totalValue hotspots /\
  map Clusterer.intensity merged = map Clusterer.CellHotspot.intensity hotspots /\
  length (snd (Clusterer.findHotspots now markers Clusterer.initial))
  = Nat.min 50 (length grid).
Proof.
  intros grid hotspots merged.
  assert (Hmerged : merged = map Ranking.alone hotspots \/
                    merged = map Clusterer.ofCell hotspots).
  { subst merged. destruct (Nat.lt_ge_cases 1 (length hotspots)) as [Hlen|Hlen].
    - left. subst hotspots.
      now apply ClustererFacts.mergeAdjacentCells_merges_nothing.
    - right. unfold Clusterer.mergeAdjacentCells.
      now replace (length hotspots <=? 1)%nat with true
        by (symmetry; now apply Nat.leb_le). }
  assert (Hlen : forall d,
            length (Clusterer.mergeAdjacentCells hotspots d) = length grid).
  { intros d. rewrite <- (length_map Members.ofMerged).
    subst hotspots. rewrite MemberFacts.merged_tallies.
    destruct (MemberFacts.grid_members markers [] (List.Forall_nil _)) as [Hcons _].
    fold grid in Hcons.
    rewrite (MemberFacts.cellHotspots_tallies grid Hcons []). simpl.
    now rewrite length_map. }
  repeat split; try (destruct Hmerged as [-> | ->]; rewrite map_map; reflexivity).
  destruct markers as [|first rest]; [reflexivity|].
  change (snd (Clusterer.findHotspots now (first :: rest) Clusterer.initial))
    with (Clusterer.compute (first :: rest)).
  unfold Clusterer.compute, Clusterer.rankTop, JS.mapi, JS.slice0.
  rewrite RankingFacts.mapi_from_length, length_firstn.
  rewrite <- (Permutation_length (SortFacts.sortF_perm _ _)).
  fold grid. fold hotspots. now rewrite Hlen.
Qed.

(** X16.  The hotspot list is reused for five minutes: once [findHotspots]
    has computed a list from a non-empty array, every call less than
    300000 ms after that computation returns this very list and leaves the
    state alone, whatever markers it is given; the first call from then on
    with a non-empty array computes afresh.  A call with an empty array on
    a [SpatialUtils] that holds no list returns the empty list and caches
    nothing. *)
Theorem hotspot_list_is_reused_for_five_minutes (computed : Z)
    (first : list Marker.t) (st : Clusterer.State) :
  Clusterer.hotspotCache st = None ->
  first <> [] ->
  let st1 := fst (Clusterer.findHotspots computed first st) in
  let result := snd (Clusterer.findHotspots computed first st) in
  result = Clusterer.compute first /\
  (forall now later,
     (now - computed < 5 * 60 * 1000)%Z ->
     Clusterer.findHotspots now later st1 = (st1, result)) /\
  (forall now later,
     (5 * 60 * 1000 <= now - computed)%Z -> later <> [] ->
     Clusterer.findHotspots now later st1
     = ({| Clusterer.hotspotCache := Some (Clusterer.compute later);
           Clusterer.lastHotspotCalculation := now |},
        Clusterer.compute later)) /\
  (forall now, Clusterer.findHotspots now [] st = (st, [])).
Proof.
  intros Hcache Hfirst. cbv zeta.
  assert (Hrun :
    Clusterer.findHotspots computed first st
    = ({| Clusterer.hotspotCache := Some (Clusterer.compute first);
          Clusterer.lastHotspotCalculation := computed |},
       Clusterer.compute first)).
  { unfold Clusterer.findHotspots. rewrite Hcache.
    destruct first; [congruence|reflexivity]. }
  rewrite Hrun. cbn [fst snd].
  split; [reflexivity|]. split; [|split].
  - intros now later Hnow. unfold Clusterer.findHotspots.
    cbn [Clusterer.hotspotCache Clusterer.lastHotspotCalculation].
    replace (now - computed <? Clusterer.cacheDuration)%Z with true; [reflexivity|].
    symmetry. apply Z.ltb_lt. unfold Clusterer.cacheDuration. lia.
  - intros now later Hnow Hlater. unfold Clusterer.findHotspots.
    cbn [Clusterer.hotspotCache Clusterer.lastHotspotCalculation].
    replace (now - computed <? Clusterer.cacheDuration)%Z with false.
    + destruct later; [congruence|reflexivity].
    + symmetry. apply Z.ltb_ge. unfold Clusterer.cacheDuration. lia.
  - intros now. unfold Clusterer.findHotspots. now rewrite Hcache.
Qed.

Lemma hotspot_list_is_reused_for_five_minutes_witness :
  let st1 := fst (Clusterer.findHotspots 0 Ranking.scenario Clusterer.initial) in
  let result := snd (Clusterer.findHotspots 0 Ranking.scenario Clusterer.initial) in
  Clusterer.findHotspots 299999 Ranking.farApart st1 = (st1, result) /\
  Clusterer.findHotspots 299999 [] st1 = (st1, result).
Proof.
  destruct (hotspot_list_is_reused_for_five_minutes 0 Ranking.scenario Clusterer.initial
              eq_refl) as (_ & Hreuse & _).
  - discriminate.
  - split; apply Hreuse; reflexivity.
Defined.

(* ------------------------------------------------------------------------- *)
(** ** Removing rings                                                         *)
(* ------------------------------------------------------------------------- *)

Module RemoveFacts.

Import RingVisualizer.

Lemma idEqb_eq (a b : Z * nat) : idEqb a b = true <-> a = b.
Proof.
  unfold idEqb. destruct a as [t n], b as [t' n']. simpl.
  rewrite andb_true_iff, Z.eqb_eq, Nat.eqb_eq. split.
  - now intros [-> ->].
  - now intros [= -> ->].
Qed.

Lemma spliceFirst_absent (ringId : Z * nat) (order : list (Z * nat)) :
  ~ In ringId order -> spliceFirst ringId order = order.
Proof.
  induction order as [|x order IH]; simpl; [reflexivity|]. intros Hin.
  destruct (idEqb x ringId) eqn:E.
  - apply idEqb_eq in E. subst. exfalso. apply Hin. now left.
  - rewrite IH; [reflexivity|]. intros H. apply Hin. now right.
Qed.

Lemma spliceFirst_last (ringId : Z * nat) (order : list (Z * nat)) :
  ~ In ringId order -> spliceFirst ringId (order ++ [ringId]) = order.
Proof.
  induction order as [|x order IH]; simpl; intros Hin.
  - now rewrite (proj2 (idEqb_eq ringId ringId) eq_refl).
  - destruct (idEqb x ringId) eqn:E.
    + apply idEqb_eq in E. subst. exfalso. apply Hin. now left.
    + rewrite IH; [reflexivity|]. intros H. apply Hin. now right.
Qed.

Lemma spliceFirst_others (ringId other : Z * nat) (order : list (Z * nat)) :
  other <> ringId -> (In other (spliceFirst ringId order) <-> In other order).
Proof.
  intros Hne. induction order as [|x order IH]; simpl; [tauto|].
  destruct (idEqb x ringId) eqn:E.
  - apply idEqb_eq in E. subst. split; [now right|]. intros [H|H]; [congruence|exact H].
  - simpl. now rewrite IH.
Qed.

Lemma mapDelete_absent {V : Type} (ringId : Z * nat) (m : list ((Z * nat) * V)) :
  JS.mapGet idEqb ringId m = None -> JS.mapDelete idEqb ringId m = m.
Proof.
  unfold JS.mapDelete. induction m as [|[k v] m IH]; simpl; [reflexivity|].
  destruct (idEqb ringId k); [discriminate|]. intros H. simpl. now rewrite IH.
Qed.

Lemma mapDelete_mapSet {V : Type} (ringId : Z * nat) (v : V)
    (m : list ((Z * nat) * V)) :
  JS.mapGet idEqb ringId m = None ->
  JS.mapDelete idEqb ringId (JS.mapSet idEqb ringId v m) = m.
Proof.
  unfold JS.mapDelete. induction m as [|[k w] m IH]; simpl.
  - now rewrite (proj2 (idEqb_eq ringId ringId) eq_refl).
  - destruct (idEqb ringId k) eqn:E; [discriminate|]. intros H. simpl.
    now rewrite E, IH.
Qed.

End RemoveFacts.

(** X17.  [removeRing] removes the ring of the given id and nothing else:
    afterwards the id has no ring, every other id has the ring it had and
    keeps its place in the creation order, and the markers and the drawing
    state are as before.  For an id that has no ring the call changes
    nothing, so removing twice is removing once. *)
Theorem removing_a_ring_leaves_the_others (ringId : Z * nat)
    (st : RingVisualizer.State) :
  let st' := RingVisualizer.removeRing ringId st in
  JS.mapGet RingVisualizer.idEqb ringId (RingVisualizer.rings st') = None /\
  (forall other, other <> ringId ->
     JS.mapGet RingVisualizer.idEqb other (RingVisualizer.rings st')
     = JS.mapGet RingVisualizer.idEqb other (RingVisualizer.rings st) /\
     (In other (RingVisualizer.ringCreationOrder st')
      <-> In other (RingVisualizer.ringCreationOrder st))) /\
  (JS.mapGet RingVisualizer.idEqb ringId (RingVisualizer.rings st) = None -> st' = st) /\
  RingVisualizer.removeRing ringId st' = st' /\
  RingVisualizer.markers st' = RingVisualizer.markers st /\
  RingVisualizer.isDrawing st' = RingVisualizer.isDrawing st /\
  RingVisualizer.startPoint st' = RingVisualizer.startPoint st /\
  RingVisualizer.ringCounter st' = RingVisualizer.ringCounter st.
Proof.
  intros st'.
  destruct (JS.mapGet RingVisualizer.idEqb ringId (RingVisualizer.rings st))
    as [ring|] eqn:Eget.
  - assert (Hst' :
      st' = {| RingVisualizer.markers := RingVisualizer.markers st;
               RingVisualizer.isDrawing := RingVisualizer.isDrawing st;
               RingVisualizer.drawingLock := RingVisualizer.drawingLock st;
               RingVisualizer.tempCircle := RingVisualizer.tempCircle st;
               RingVisualizer.startPoint := RingVisualizer.startPoint st;
               RingVisualizer.ringCounter := RingVisualizer.ringCounter st;
               RingVisualizer.rings :=
                 JS.mapDelete RingVisualizer.idEqb ringId (RingVisualizer.rings st);
               RingVisualizer.ringCreationOrder :=
                 RingVisualizer.spliceFirst ringId
                   (RingVisualizer.ringCreationOrder st) |})
      by (subst st'; unfold RingVisualizer.removeRing; now rewrite Eget).
    assert (Hgone :
      JS.mapGet RingVisualizer.idEqb ringId (RingVisualizer.rings st') = None)
      by (rewrite Hst'; apply MapFacts.mapGet_mapDelete_eq).
    split; [exact Hgone|]. split; [|split; [discriminate|split]].
    + intros other Hne. rewrite Hst'. split.
      * apply MapFacts.mapGet_mapDelete_ne; [apply RemoveFacts.idEqb_eq|congruence].
      * now apply RemoveFacts.spliceFirst_others.
    + unfold RingVisualizer.removeRing. now rewrite Hgone.
    + now rewrite Hst'.
  - assert (Hst' : st' = st)
      by (subst st'; unfold RingVisualizer.removeRing; now rewrite Eget).
    rewrite Hst'. split; [exact Eget|]. split; [intros other Hne; split; tauto|].
    split; [reflexivity|]. split; [|repeat split].
    unfold RingVisualizer.removeRing. now rewrite Eget.
Qed.

(** X18.  Drawing a ring and removing it again gives back the rings and the
    creation order there were before, provided the id of the new ring was
    not in use. *)
Theorem drawn_ring_can_be_removed_again (M : JS.MathImpl) (now : Z)
    (baseRadiusMeters : float) (st st' : RingVisualizer.State)
    (ring : RingVisualizer.Ring) :
  RingVisualizer.finishDrawing M now baseRadiusMeters st = (st', Some ring) ->
  JS.mapGet RingVisualizer.idEqb (RingVisualizer.id ring) (RingVisualizer.rings st)
  = None ->
  ~ In (RingVisualizer.id ring) (RingVisualizer.ringCreationOrder st) ->
  JS.mapGet RingVisualizer.idEqb (RingVisualizer.id ring) (RingVisualizer.rings st')
  = Some ring /\
  RingVisualizer.rings (RingVisualizer.removeRing (RingVisualizer.id ring) st')
  = RingVisualizer.rings st /\
  RingVisualizer.ringCreationOrder
    (RingVisualizer.removeRing (RingVisualizer.id ring) st')
  = RingVisualizer.ringCreationOrder st.
Proof.
  unfold RingVisualizer.finishDrawing.
  destruct (RingVisualizer.startPoint st) as [center|]; [|discriminate].
  destruct (RingVisualizer.isDrawing st && RingVisualizer.tempCircle st);
    [|discriminate].
  remember (RingVisualizer.buildRing M now st center) as built eqn:Ebuilt.
  intros [= <- <-] Hfresh Horder. clear Ebuilt. rename built into ring.
  assert (Hget :
    JS.mapGet RingVisualizer.idEqb (RingVisualizer.id ring)
      (JS.mapSet RingVisualizer.idEqb (RingVisualizer.id ring) ring
         (RingVisualizer.rings st)) = Some ring)
    by apply MapFacts.mapGet_mapSet_eq, RemoveFacts.idEqb_eq.
  unfold RingVisualizer.removeRing.
  cbn [RingVisualizer.cancelDrawing RingVisualizer.rings
       RingVisualizer.ringCreationOrder].
  rewrite Hget. cbn [RingVisualizer.rings RingVisualizer.ringCreationOrder].
  split; [reflexivity|]. split.
  - now apply RemoveFacts.mapDelete_mapSet.
  - now apply RemoveFacts.spliceFirst_last.
Qed.

Lemma drawn_ring_can_be_removed_again_witness :
  let drawn :=
    RingVisualizer.finishDrawing Examples.smallAngle 1700000000000 8000 Rings.drawing in
  RingVisualizer.rings
    (RingVisualizer.removeRing (1700000000000%Z, 0%nat) (fst drawn)) = [] /\
  RingVisualizer.ringCreationOrder
    (RingVisualizer.removeRing (1700000000000%Z, 0%nat) (fst drawn)) = [].
Proof.
  intros drawn.
  destruct (drawn_ring_can_be_removed_again Examples.smallAngle 1700000000000 8000
              Rings.drawing (fst drawn)
              (RingVisualizer.buildRing Examples.smallAngle 1700000000000
                 Rings.drawing Examples.origin))
    as (_ & Hrings & Horder).
  - reflexivity.
  - reflexivity.
  - intros [].
  - split; [exact Hrings|exact Horder].
Defined.

(* ------------------------------------------------------------------------- *)
(** ** Layers and the navigation list                                         *)
(* ------------------------------------------------------------------------- *)

Module LayerFacts.

Import Layers.

Lemma buildMarkerList_perm (markers : list (string * MapMarker.t))
    (layerVisibility : gmap string bool) :
  Permutation (List.filter (shown layerVisibility) (map snd markers))
    (buildMarkerList markers layerVisibility).
Proof. apply SortFacts.sortF_perm. Qed.

Lemma shown_other_layer (layerVisibility : gmap string bool) (layerType : string)
    (visible : bool) (marker : MapMarker.t) :
  (forall data, MapMarker.data marker = Some data ->
                MarkerData.markerType data <> layerType) ->
  shown (<[layerType := visible]> layerVisibility) marker = shown layerVisibility marker.
Proof.
  unfold shown. destruct (MapMarker.data marker) as [data|]; [|reflexivity].
  intros H. rewrite lookup_insert_ne; [reflexivity|].
  intros Heq. now apply (H data eq_refl).
Qed.

Lemma shown_this_layer (layerVisibility : gmap string bool) (layerType : string)
    (visible : bool) (marker : MapMarker.t) (data : MarkerData.t) :
  MapMarker.data marker = Some data -> MarkerData.markerType data = layerType ->
  shown (<[layerType := visible]> layerVisibility) marker = visible.
Proof.
  intros Hd Ht. unfold shown. rewrite Hd, Ht. now rewrite lookup_insert_eq.
Qed.

End LayerFacts.

(** X19.  The navigation list [buildMarkerList] builds holds exactly the
    markers of the map that carry data and whose layer is switched on, each
    as often as it is on the map.  After [toggleLayer (type, false)] it
    holds no marker of that type, and the markers of every other type are
    in it exactly as they would be without the call; after
    [toggleLayer (type, true)] it holds every marker of that type. *)
Theorem navigation_list_holds_the_shown_markers (st : Layers.State)
    (layerType : string) (visible : bool) :
  Permutation
    (List.filter (Layers.shown (Layers.layerVisibility st))
       (map snd (Layers.markers st)))
    (Layers.buildMarkerList (Layers.markers st) (Layers.layerVisibility st)) /\
  (forall marker,
     In marker (Layers.buildMarkerList (Layers.markers st) (Layers.layerVisibility st))
     <-> In marker (map snd (Layers.markers st)) /\
         Layers.shown (Layers.layerVisibility st) marker = true) /\
  let st' := Layers.toggleLayer layerType visible st in
  Layers.markers st' = Layers.markers st /\
  (forall marker data,
     MapMarker.data marker = Some data -> MarkerData.markerType data = layerType ->
     (In marker (Layers.markerList st')
      <-> In marker (map snd (Layers.markers st)) /\ visible = true)) /\
  (forall marker,
     (forall data, MapMarker.data marker = Some data ->
                   MarkerData.markerType data <> layerType) ->
     (In marker (Layers.markerList st')
      <-> In marker
            (Layers.buildMarkerList (Layers.markers st) (Layers.layerVisibility st)))).
Proof.
  assert (Hin : forall markers layerVisibility marker,
            In marker (Layers.buildMarkerList markers layerVisibility)
            <-> In marker (map snd markers) /\ Layers.shown layerVisibility marker = true).
  { intros markers lv marker. rewrite <- filter_In. split.
    - apply Permutation_in. symmetry. apply LayerFacts.buildMarkerList_perm.
    - apply Permutation_in. apply LayerFacts.buildMarkerList_perm. }
  split; [apply LayerFacts.buildMarkerList_perm|]. split; [apply Hin|].
  cbv zeta. unfold Layers.toggleLayer. cbn [Layers.markers Layers.markerList].
  split; [reflexivity|]. split.
  - intros marker data Hd Ht. rewrite Hin.
    rewrite (LayerFacts.shown_this_layer _ _ _ _ _ Hd Ht). reflexivity.
  - intros marker Hother. rewrite !Hin.
    now rewrite (LayerFacts.shown_other_layer _ _ _ _ Hother).
Qed.

(** X20.  Keyboard navigation never selects a marker of a layer that is
    switched off: after [toggleLayer (type, false)], whatever marker the
    directional search over the navigation list selects is a marker of the
    map that carries data of another type. *)
Theorem navigation_skips_hidden_layers (st : Layers.State) (layerType : string)
    (key : Navigator.Key) (currentCenter : Point.t) (best : MapMarker.t) :
  Navigator.nearestInDirection key
    (Layers.markerList (Layers.toggleLayer layerType false st)) currentCenter
  = Some best ->
  In best (map snd (Layers.markers st)) /\
  exists data,
    MapMarker.data best = Some data /\
    MarkerData.markerType data <> layerType /\
    Layers.layerVisibility st !! MarkerData.markerType data = Some true.
Proof.
  intros Hbest. unfold Navigator.nearestInDirection in Hbest.
  destruct (NavigatorFacts.search_invariant key
              (Layers.markerList (Layers.toggleLayer layerType false st))
              currentCenter) as [Hsel _].
  destruct (Hsel best Hbest) as (Hin & _).
  unfold Layers.toggleLayer in Hin. cbn [Layers.markerList] in Hin.
  apply (Permutation_in _ (Permutation_sym
           (LayerFacts.buildMarkerList_perm _ _))) in Hin.
  apply filter_In in Hin as [Hmap Hshown]. split; [exact Hmap|].
  unfold Layers.shown in Hshown.
  destruct (MapMarker.data best) as [data|]; [|discriminate].
  exists data. split; [reflexivity|].
  destruct (String.eqb_spec (MarkerData.markerType data) layerType) as [Heq|Hne].
  - rewrite Heq, lookup_insert_eq in Hshown. discriminate.
  - split; [exact Hne|]. rewrite lookup_insert_ne in Hshown by congruence.
    destruct (Layers.layerVisibility st !! MarkerData.markerType data) as [[]|];
      congruence.
Qed.

Lemma navigation_skips_hidden_layers_witness :
  let north := Examples.mapMarkerAt 42 (-100) false true (Some 70000%Q) in
  Navigator.nearestInDirection Navigator.KeyW
    (Layers.markerList (Layers.toggleLayer "education" false Shown.twoLayers))
    Examples.origin
  = Some north /\
  exists data,
    MapMarker.data north = Some data /\ MarkerData.markerType data <> "education"%string.
Proof.
  intros north. split; [vm_compute; reflexivity|].
  destruct (navigation_skips_hidden_layers Shown.twoLayers "education" Navigator.KeyW
              Examples.origin north) as (_ & data & Hd & Ht & _).
  - vm_compute. reflexivity.
  - exists data. split; [exact Hd|exact Ht].
Defined.

Module PositionFacts.

Import Navigator.

Lemma located_grows (seen : list MapMarker.t) (x : MapMarker.t) (best : Best) :
  Position.located seen best -> Position.located (seen ++ [x]) best.
Proof.
  unfold Position.located. destruct (bestMarker best); [|tauto].
  intros (index & Hi & Hn). exists index. split; [exact Hi|].
  rewrite nth_error_app1; [exact Hn|]. apply nth_error_Some. congruence.
Qed.

Lemma forEachi_from_located (f : Best -> MapMarker.t -> nat -> Best) :
  (forall seen best x,
     Position.located seen best ->
     Position.located (seen ++ [x]) (f best x (length seen))) ->
  forall l seen best,
    Position.located seen best ->
    Position.located (seen ++ l) (JS.forEachi_from f (length seen) l best).
Proof.
  intros Hstep. induction l as [|x l IH]; intros seen best Hb; simpl.
  - now rewrite app_nil_r.
  - replace (seen ++ x :: l) with ((seen ++ [x]) ++ l) by now rewrite <- app_assoc.
    replace (S (length seen)) with (length (seen ++ [x]))
      by (rewrite length_app; simpl; lia).
    apply IH, Hstep, Hb.
Qed.

Lemma located_here (seen : list MapMarker.t) (x : MapMarker.t) (value : float) :
  Position.located (seen ++ [x])
    {| bestMarker := Some x; bestValue := value;
       bestIndex := Z.of_nat (length seen) |}.
Proof.
  exists (length seen). split; [reflexivity|].
  rewrite nth_error_app2 by lia. now rewrite Nat.sub_diag.
Qed.

Lemma visit_located (key : Key) (c : Point.t) (seen : list MapMarker.t) (best : Best)
    (x : MapMarker.t) :
  Position.located seen best ->
  Position.located (seen ++ [x]) (visit key c best x (length seen)).
Proof.
  intros Hb. unfold visit.
  destruct (isInDirection key c x && (planar c x <? bestValue best)%float).
  - apply located_here.
  - now apply located_grows.
Qed.

Lemma visitScored_located (key : Key) (c : Point.t) (seen : list MapMarker.t)
    (best : Best) (x : MapMarker.t) :
  Position.located seen best ->
  Position.located (seen ++ [x]) (visitScored key c best x (length seen)).
Proof.
  intros Hb. unfold visitScored.
  destruct (planar c x =? 0)%float; [now apply located_grows|].
  destruct (bestValue best <? score key c x)%float.
  - apply located_here.
  - now apply located_grows.
Qed.

End PositionFacts.

(** X21.  The index the directional search reports is the position of the
    marker it selected: in all three visualizers [bestIndex] is the index of
    [bestMarker] in the navigation list, within its bounds, and it is -1
    exactly when no marker was selected. *)
Theorem best_index_locates_the_best_marker (key : Navigator.Key)
    (markerList : list MapMarker.t) (currentCenter : Point.t) :
  let located := fun best =>
    match Navigator.bestMarker best with
    | Some marker =>
        (0 <= Navigator.bestIndex best < Z.of_nat (length markerList))%Z /\
        nth_error markerList (Z.to_nat (Navigator.bestIndex best)) = Some marker
    | None => Navigator.bestIndex best = (-1)%Z
    end in
  located (Navigator.search key markerList currentCenter) /\
  located (Navigator.searchScored key markerList currentCenter).
Proof.
  cbv zeta.
  assert (H : forall best,
            Position.located markerList best ->
            match Navigator.bestMarker best with
            | Some marker =>
                (0 <= Navigator.bestIndex best < Z.of_nat (length markerList))%Z /\
                nth_error markerList (Z.to_nat (Navigator.bestIndex best)) = Some marker
            | None => Navigator.bestIndex best = (-1)%Z
            end).
  { intros best. unfold Position.located.
    destruct (Navigator.bestMarker best); [|tauto].
    intros (index & -> & Hn). rewrite Nat2Z.id. split; [|exact Hn].
    assert (index < length markerList)%nat by (apply nth_error_Some; congruence).
    lia. }
  split; apply H.
  - apply (PositionFacts.forEachi_from_located
             (Navigator.visit key currentCenter)
             (PositionFacts.visit_located key currentCenter) markerList []).
    reflexivity.
  - apply (PositionFacts.forEachi_from_located
             (Navigator.visitScored key currentCenter)
             (PositionFacts.visitScored_located key currentCenter) markerList []).
    reflexivity.
Qed.

(* ------------------------------------------------------------------------- *)
(** ** The statistics of a load                                               *)
(* ------------------------------------------------------------------------- *)

Module LoadFacts.

Import ACSApplication.

Lemma visit_thrown (apiData : list (string * ACSAPIService.Found)) :
  fold_left visit apiData None = None.
Proof. induction apiData as [|entry apiData IH]; simpl; auto. Qed.

Lemma visit_each (apiData : list (string * ACSAPIService.Found)) :
  forall (processedData : gmap string ACSAPIService.Payload) (statistics : Statistics),
    List.NoDup (map fst apiData) ->
    (forall z, In z (map fst apiData) -> processedData !! z = None) ->
    (educationOnly statistics + incomeOnly statistics + both statistics)%nat
    = size processedData ->
    match fold_left visit apiData (Some (processedData, statistics)) with
    | Some (processedData', statistics') =>
        (educationOnly statistics' + incomeOnly statistics' + both statistics')%nat
        = size processedData' /\
        (forall z r,
           processedData' !! z = Some r <->
           processedData !! z = Some r \/
           In (z, ACSAPIService.payload r) apiData /\
           ACSAPIService.hasEducation (ACSAPIService.metadata r)
           || ACSAPIService.hasIncome (ACSAPIService.metadata r) = true) /\
        (forall z e, ~ In (z, ACSAPIService.wrapped e) apiData)
    | None => exists z e, In (z, ACSAPIService.wrapped e) apiData
    end.
Proof.
  induction apiData as [|[z0 found] apiData IH];
    intros processedData statistics Hnd Hfresh Hsum.
  - simpl. split; [exact Hsum|]. split; [|intros z e []].
    intros z r. split; [now left|]. intros [H|[[] _]]. exact H.
  - simpl in Hnd. inversion Hnd as [|? ? Hz0 Hrest]; subst.
    cbn [fold_left visit]. destruct found as [record|e].
    2: { rewrite visit_thrown. exists z0, e. now left. }
    set (hasEducation := ACSAPIService.hasEducation (ACSAPIService.metadata record)).
    set (hasIncome := ACSAPIService.hasIncome (ACSAPIService.metadata record)).
    match goal with |- context [fold_left visit apiData (Some (?p, ?s))] =>
      specialize (IH p s Hrest) end.
    assert (Hnone : processedData !! z0 = None) by (apply Hfresh; now left).
    destruct (fold_left visit apiData _) as [[processedData' statistics']|].
    + destruct IH as (Hsum' & Hkeys & Hnow).
      * intros z Hz. destruct (hasEducation || hasIncome).
        -- rewrite lookup_insert_ne; [apply Hfresh; now right|].
           intros ->. contradiction.
        -- apply Hfresh. now right.
      * cbn [educationOnly incomeOnly both].
        destruct hasEducation, hasIncome; cbn [orb andb];
          rewrite ?map_size_insert_None by exact Hnone; lia.
      * split; [exact Hsum'|]. split.
        -- intros z r. rewrite Hkeys. split.
           ++ intros [Hz|[Hin Hk]]; [|right; split; [now right|exact Hk]].
              destruct (hasEducation || hasIncome) eqn:Ek; [|now left].
              rewrite lookup_insert in Hz. case_decide as Hzz; [|now left].
              injection Hz as <-. subst z. right. split; [now left|exact Ek].
           ++ intros [Hz|[[Heq|Hin] Hk]].
              ** left. destruct (hasEducation || hasIncome); [|exact Hz].
                 rewrite lookup_insert_ne; [exact Hz|]. intros ->. congruence.
              ** injection Heq as -> ->. left. fold hasEducation hasIncome in Hk.
                 rewrite Hk. apply lookup_insert_eq.
              ** right. split; assumption.
        -- intros z e [H|H]; [discriminate|]. now apply (Hnow z e).
    + destruct IH as (z & e & Hin).
      * intros z Hz. destruct (hasEducation || hasIncome).
        -- rewrite lookup_insert_ne; [apply Hfresh; now right|].
           intros ->. contradiction.
        -- apply Hfresh. now right.
      * cbn [educationOnly incomeOnly both].
        destruct hasEducation, hasIncome; cbn [orb andb];
          rewrite ?map_size_insert_None by exact Hnone; lia.
      * exists z, e. now right.
Qed.

End LoadFacts.

(** X22.  [processData] keeps exactly the records that satisfy a criterion,
    and its statistics add up: [total], the number of records kept, is the
    sum of [educationOnly], [incomeOnly] and [both].  It throws exactly
    when the fetched data holds a wrapper object of the memory cache, which
    has no [metadata]. *)
Theorem load_statistics_add_up (apiData : list (string * ACSAPIService.Found)) :
  List.NoDup (map fst apiData) ->
  (forall processedData statistics,
     ACSApplication.processData apiData = Some (processedData, statistics) ->
     ACSApplication.total statistics
     = (ACSApplication.educationOnly statistics + ACSApplication.incomeOnly statistics
        + ACSApplication.both statistics)%nat /\
     ACSApplication.total statistics = size processedData /\
     (forall z r,
        processedData !! z = Some r <->
        In (z, ACSAPIService.payload r) apiData /\
        ACSAPIService.hasEducation (ACSAPIService.metadata r)
        || ACSAPIService.hasIncome (ACSAPIService.metadata r) = true)) /\
  (ACSApplication.processData apiData = None <->
   exists z e, In (z, ACSAPIService.wrapped e) apiData).
Proof.
  intros Hnd. unfold ACSApplication.processData.
  pose proof (LoadFacts.visit_each apiData ∅
                {| ACSApplication.educationOnly := 0; ACSApplication.incomeOnly := 0;
                   ACSApplication.both := 0; ACSApplication.total := 0 |}
                Hnd (fun z _ => lookup_empty z) eq_refl) as H.
  destruct (fold_left ACSApplication.visit apiData _)
    as [[processedData' statistics']|].
  - destruct H as (Hsum & Hkeys & Hnow). split.
    + intros processedData statistics [= <- <-].
      cbn [ACSApplication.total ACSApplication.educationOnly
           ACSApplication.incomeOnly ACSApplication.both].
      split; [now rewrite Hsum|]. split; [reflexivity|].
      intros z r. rewrite Hkeys, lookup_empty. intuition discriminate.
    + split; [discriminate|]. intros (z & e & Hin). now apply Hnow in Hin.
  - split; [discriminate|]. split; [intros _; exact H|reflexivity].
Qed.

Lemma load_statistics_add_up_witness :
  exists processedData statistics,
    ACSApplication.processData [("68801"%string, ACSAPIService.payload Service.samplePayload)]
    = Some (processedData, statistics) /\
    ACSApplication.total statistics
    = (ACSApplication.educationOnly statistics + ACSApplication.incomeOnly statistics
       + ACSApplication.both statistics)%nat.
Proof.
  eexists. eexists. split; [vm_compute; reflexivity|].
  refine (proj1 (proj1 (load_statistics_add_up
                          [("68801"%string, ACSAPIService.payload Service.samplePayload)]
                          _) _ _ _)).
  - constructor; [intros []|constructor].
  - vm_compute. reflexivity.
Defined.

(** A second load in the same session: the ZIP code is answered from the
    memory cache with its wrapper object, and [processData] throws. *)
Example second_load_of_a_session_throws :
  let first :=
    Durable.combined
      (ACSAPIService.fetchCombinedData Upstream.healthy 0 ["10001"] Service.withStore) in
  let second :=
    Durable.combined
      (ACSAPIService.fetchCombinedData Upstream.healthy 1 ["10001"] (fst first)) in
  ACSApplication.processData (snd first) <> None /\
  ACSApplication.processData (snd second) = None.
Proof. vm_compute. split; [discriminate|reflexivity]. Qed.

(* ------------------------------------------------------------------------- *)
(** ** The ZIP code index                                                     *)
(* ------------------------------------------------------------------------- *)

Module IndexFacts.

Import ZIPCodeIndex.

Lemma length_append (s t : string) :
  String.length (s ++ t)%string = (String.length s + String.length t)%nat.
Proof. induction s as [|c s IH]; simpl; [reflexivity|now rewrite IH]. Qed.

Lemma length_zeros (n : nat) :
  String.length (string_of_list_ascii (repeat "0"%char n)) = n.
Proof. induction n as [|n IH]; simpl; [reflexivity|now rewrite IH]. Qed.

Lemma padStart0_length (n : nat) (s : string) :
  String.length (JS.padStart0 n s) = Nat.max n (String.length s).
Proof. unfold JS.padStart0. rewrite length_append, length_zeros. lia. Qed.

Lemma padStart0_long (n : nat) (s : string) :
  (n <= String.length s)%nat -> JS.padStart0 n s = s.
Proof.
  intros H. unfold JS.padStart0.
  now replace (n - String.length s)%nat with 0%nat by lia.
Qed.

Lemma padStart0_twice (n : nat) (s : string) :
  JS.padStart0 n (JS.padStart0 n s) = JS.padStart0 n s.
Proof. apply padStart0_long. rewrite padStart0_length. lia. Qed.

(** What [addRecord] does with a record that passes its tests, and with one
    that does not. *)
Lemma addRecord_valid (E : Env) (zips : list (string * Entry)) (record : Raw) :
  Index.valid E record = true ->
  exists entry,
    addRecord E zips record = JS.mapSet String.eqb (zipOf E record) entry zips /\
    zip entry = zipOf E record /\
    lat entry = parseFloat E (text E (rawLat record)) /\
    lng entry = parseFloat E (text E (rawLng record)) /\
    city entry = rawCity record /\
    county_name entry = rawCountyName record /\
    state_id entry = (if negb (String.eqb (rawStateId record) "")
                      then rawStateId record else rawState record).
Proof.
  unfold Index.valid, addRecord. intros H.
  apply andb_prop in H as [H H5]. apply andb_prop in H as [H H4].
  rewrite H, H4, H5. cbn [andb]. eexists. split; [reflexivity|]. repeat split.
Qed.

Lemma addRecord_invalid (E : Env) (zips : list (string * Entry)) (record : Raw) :
  Index.valid E record = false -> addRecord E zips record = zips.
Proof.
  unfold Index.valid, addRecord. intros H.
  destruct ((String.length (zipOf E record) =? 5)%nat && truthy (rawLat record)
            && truthy (rawLng record)); [|reflexivity].
  cbn [andb] in H. now rewrite H.
Qed.

End IndexFacts.

(** X23.  Every entry of the ZIP code index built by [loadFromJSON] from an
    array is filed under a key of exactly five characters, which is the
    entry's own [zip]; its coordinates are numbers; no key occurs twice.
    [get] pads its argument, so a ZIP code is found with or without its
    leading zeros, and what it returns carries the padded ZIP code. *)
Theorem zip_index_is_keyed_by_five_characters (E : ZIPCodeIndex.Env)
    (data : list ZIPCodeIndex.Raw) :
  let zips := ZIPCodeIndex.loadRecords E data [] in
  Forall
    (fun kv =>
       String.length (fst kv) = 5%nat /\
       ZIPCodeIndex.zip (snd kv) = fst kv /\
       is_nan (ZIPCodeIndex.lat (snd kv)) = false /\
       is_nan (ZIPCodeIndex.lng (snd kv)) = false)
    zips /\
  List.NoDup (map fst zips) /\
  (forall z, ZIPCodeIndex.get zips (JS.padStart0 5 z) = ZIPCodeIndex.get zips z) /\
  (forall z entry,
     ZIPCodeIndex.get zips z = Some entry ->
     ZIPCodeIndex.zip entry = JS.padStart0 5 z).
Proof.
  intros zips.
  set (good := fun kv : string * ZIPCodeIndex.Entry =>
    String.length (fst kv) = 5%nat /\
    ZIPCodeIndex.zip (snd kv) = fst kv /\
    is_nan (ZIPCodeIndex.lat (snd kv)) = false /\
    is_nan (ZIPCodeIndex.lng (snd kv)) = false).
  assert (H : forall data start,
            Forall good start -> List.NoDup (map fst start) ->
            Forall good (ZIPCodeIndex.loadRecords E data start) /\
            List.NoDup (map fst (ZIPCodeIndex.loadRecords E data start))).
  { clear. induction data as [|record data IH]; intros start Hgood Hnd; [now split|].
    unfold ZIPCodeIndex.loadRecords. cbn [fold_left]. apply IH.
    - destruct (Index.valid E record) eqn:Ev.
      + destruct (IndexFacts.addRecord_valid E start record Ev)
          as (entry & -> & Hzip & Hlat & Hlng & _).
        apply RingFacts.mapSet_Forall; [|exact Hgood].
        unfold Index.valid in Ev.
        apply andb_prop in Ev as [Ev H5]. apply andb_prop in Ev as [Ev H4].
        apply andb_prop in Ev as [Ev _]. apply andb_prop in Ev as [Ev _].
        apply Nat.eqb_eq in Ev. unfold good. cbn [fst snd].
        rewrite Hlat, Hlng. repeat split; try assumption.
        * now destruct (is_nan _).
        * now destruct (is_nan (ZIPCodeIndex.parseFloat E
                                  (ZIPCodeIndex.text E (ZIPCodeIndex.rawLng record)))).
      + now rewrite IndexFacts.addRecord_invalid.
    - destruct (Index.valid E record) eqn:Ev.
      + destruct (IndexFacts.addRecord_valid E start record Ev) as (entry & -> & _).
        now apply MapFacts.mapSet_NoDup; [apply MapFacts.string_eqb_eq|].
      + now rewrite IndexFacts.addRecord_invalid. }
  destruct (H data [] (List.Forall_nil _) (List.NoDup_nil _)) as [Hgood Hnd].
  fold zips in Hgood, Hnd. split; [exact Hgood|]. split; [exact Hnd|]. split.
  - intros z. unfold ZIPCodeIndex.get. now rewrite IndexFacts.padStart0_twice.
  - intros z entry Hget. unfold ZIPCodeIndex.get in Hget.
    apply (MapFacts.mapGet_In String.eqb MapFacts.string_eqb_eq) in Hget.
    exact (proj1 (proj2 (proj1 (List.Forall_forall _ _) Hgood _ Hget))).
Qed.

(** X24.  A record that passes the tests of [addRecord] (a ZIP code of at
    most five characters, coordinates that are truthy and parse to numbers)
    is found by [get] under its ZIP code, padded or not, with the parsed
    coordinates, and the entries of every other ZIP code are as before.  A
    record that fails a test leaves the index as it was. *)
Theorem added_record_is_found_by_its_zip (E : ZIPCodeIndex.Env)
    (zips : list (string * ZIPCodeIndex.Entry)) (record : ZIPCodeIndex.Raw) :
  (Index.valid E record = true ->
   (forall z,
      JS.padStart0 5 z = ZIPCodeIndex.zipOf E record ->
      exists entry,
        ZIPCodeIndex.get (ZIPCodeIndex.addRecord E zips record) z = Some entry /\
        ZIPCodeIndex.zip entry = ZIPCodeIndex.zipOf E record /\
        ZIPCodeIndex.lat entry
        = ZIPCodeIndex.parseFloat E (ZIPCodeIndex.text E (ZIPCodeIndex.rawLat record)) /\
        ZIPCodeIndex.lng entry
        = ZIPCodeIndex.parseFloat E (ZIPCodeIndex.text E (ZIPCodeIndex.rawLng record)) /\
        ZIPCodeIndex.city entry = ZIPCodeIndex.rawCity record /\
        ZIPCodeIndex.county_name entry = ZIPCodeIndex.rawCountyName record) /\
   (forall z,
      JS.padStart0 5 z <> ZIPCodeIndex.zipOf E record ->
      ZIPCodeIndex.get (ZIPCodeIndex.addRecord E zips record) z
      = ZIPCodeIndex.get zips z)) /\
  (Index.valid E record = false -> ZIPCodeIndex.addRecord E zips record = zips) /\
  (Index.valid E record = true <->
   ((String.length
       (if ZIPCodeIndex.truthy (ZIPCodeIndex.rawZip record)
        then ZIPCodeIndex.text E (ZIPCodeIndex.rawZip record)
        else if ZIPCodeIndex.truthy (ZIPCodeIndex.rawZipcode record)
             then ZIPCodeIndex.text E (ZIPCodeIndex.rawZipcode record)
             else "") <= 5)%nat /\
    ZIPCodeIndex.truthy (ZIPCodeIndex.rawLat record) = true /\
    ZIPCodeIndex.truthy (ZIPCodeIndex.rawLng record) = true /\
    is_nan (ZIPCodeIndex.parseFloat E
              (ZIPCodeIndex.text E (ZIPCodeIndex.rawLat record))) = false /\
    is_nan (ZIPCodeIndex.parseFloat E
              (ZIPCodeIndex.text E (ZIPCodeIndex.rawLng record))) = false)).
Proof.
  split; [|split].
  - intros Hv.
    destruct (IndexFacts.addRecord_valid E zips record Hv)
      as (entry & -> & Hzip & Hlat & Hlng & Hcity & Hcounty & _).
    split.
    + intros z Hz. exists entry. unfold ZIPCodeIndex.get. rewrite Hz.
      rewrite (MapFacts.mapGet_mapSet_eq String.eqb MapFacts.string_eqb_eq).
      repeat split; assumption.
    + intros z Hz. unfold ZIPCodeIndex.get.
      apply MapFacts.mapGet_mapSet_ne; [apply MapFacts.string_eqb_eq|congruence].
  - apply IndexFacts.addRecord_invalid.
  - unfold Index.valid, ZIPCodeIndex.zipOf.
    rewrite !andb_true_iff, !negb_true_iff, Nat.eqb_eq, IndexFacts.padStart0_length.
    split.
    + intros ((((H1 & H2) & H3) & H4) & H5). repeat split; try assumption. lia.
    + intros (H1 & H2 & H3 & H4 & H5). repeat split; try assumption. lia.
Qed.

(** The number 2134 is filed under 02134 and found under both spellings. *)
Example zip_code_with_a_leading_zero :
  let zips := ZIPCodeIndex.addRecord Index.conversions [] Index.boston in
  map fst zips = ["02134"%string] /\
  ZIPCodeIndex.get zips "2134" = ZIPCodeIndex.get zips "02134" /\
  option_map ZIPCodeIndex.city (ZIPCodeIndex.get zips "2134") = Some "Boston"%string.
Proof. vm_compute. repeat split. Qed.

(** X25.  [getAllStateZips] returns, in the order of the index, the ZIP codes
    whose entry has a state that is not excluded: a ZIP code it returns
    comes with an entry of the index whose [state_id] is neither empty nor
    in the exclusion list, and the entry of an excluded territory or without
    a state contributes nothing. *)
Theorem state_zips_leave_out_the_excluded (zips : list (string * ZIPCodeIndex.Entry))
    (excludeTerritories : list string) :
  ZIPCodeIndex.getAllStateZips zips excludeTerritories
  = map fst
      (List.filter
         (fun kv =>
            negb (String.eqb (ZIPCodeIndex.state_id (snd kv)) "")
            && negb (existsb (String.eqb (ZIPCodeIndex.state_id (snd kv)))
                       excludeTerritories))
         zips) /\
  (forall z,
     In z (ZIPCodeIndex.getAllStateZips zips excludeTerritories) <->
     exists entry,
       In (z, entry) zips /\
       ZIPCodeIndex.state_id entry <> ""%string /\
       ~ In (ZIPCodeIndex.state_id entry) excludeTerritories).
Proof.
  assert (H : forall acc,
            fold_left
              (fun (stateZips : list string) (entry : string * ZIPCodeIndex.Entry) =>
                 let (zip, data) := entry in
                 if negb (String.eqb (ZIPCodeIndex.state_id data) "")
                    && negb (existsb (String.eqb (ZIPCodeIndex.state_id data))
                               excludeTerritories)
                 then stateZips ++ [zip] else stateZips)
              zips acc
            = acc ++ map fst
                (List.filter
                   (fun kv =>
                      negb (String.eqb (ZIPCodeIndex.state_id (snd kv)) "")
                      && negb (existsb (String.eqb (ZIPCodeIndex.state_id (snd kv)))
                                 excludeTerritories))
                   zips)).
  { induction zips as [|[z e] zips IH]; intros acc; simpl; [now rewrite app_nil_r|].
    rewrite IH.
    destruct (negb (String.eqb (ZIPCodeIndex.state_id e) "")
              && negb (existsb (String.eqb (ZIPCodeIndex.state_id e))
                         excludeTerritories)); simpl;
      [now rewrite <- app_assoc|reflexivity]. }
  assert (Heq : ZIPCodeIndex.getAllStateZips zips excludeTerritories
                = map fst
                    (List.filter
                       (fun kv =>
                          negb (String.eqb (ZIPCodeIndex.state_id (snd kv)) "")
                          && negb (existsb
                                     (String.eqb (ZIPCodeIndex.state_id (snd kv)))
                                     excludeTerritories))
                       zips))
    by (unfold ZIPCodeIndex.getAllStateZips; now rewrite H).
  split; [exact Heq|]. intros z. rewrite Heq, in_map_iff. split.
  - intros ([z' entry] & Hz & Hin). simpl in Hz. subst z'.
    apply filter_In in Hin as [Hin Hok]. cbn [snd] in Hok.
    apply andb_prop in Hok as [Hstate Hexcl].
    exists entry. split; [exact Hin|]. split.
    + intros Hs. rewrite Hs in Hstate. discriminate.
    + intros Hs. apply UniqueFacts.existsb_eqb in Hs. rewrite Hs in Hexcl. discriminate.
  - intros (entry & Hin & Hstate & Hexcl). exists (z, entry). split; [reflexivity|].
    apply filter_In. split; [exact Hin|]. cbn [snd]. apply andb_true_intro. split.
    + destruct (String.eqb_spec (ZIPCodeIndex.state_id entry) ""); [contradiction|reflexivity].
    + destruct (existsb _ excludeTerritories) eqn:Ex; [|reflexivity].
      apply UniqueFacts.existsb_eqb in Ex. contradiction.
Qed.

(** With the default exclusion list a ZIP code of Puerto Rico is left out. *)
Example territories_are_left_out :
  ZIPCodeIndex.getAllStateZips
    (ZIPCodeIndex.loadRecords Index.conversions [Index.sanJuan; Index.boston] [])
    ZIPCodeIndex.defaultExcluded
  = ["02134"%string].
Proof. vm_compute. reflexivity. Qed.

(* ------------------------------------------------------------------------- *)
(** ** The markers of the map                                                 *)
(* ------------------------------------------------------------------------- *)

Module MarkerFacts.

Import Visualizer.

(** What [prepareDataPoints] puts on the map: a point for a payload, at the
    position the index gives, with a criterion and the type of its
    criteria. *)
Lemma prepareDataPoints_points (zipData : gmap string ZipRecord)
    (acsData : list (string * ACSAPIService.Found)) :
  Forall
    (fun p =>
       (exists r,
          In (zip p, ACSAPIService.payload r) acsData /\
          hasEducation p = ACSAPIService.hasEducation (ACSAPIService.metadata r) /\
          hasIncome p = ACSAPIService.hasIncome (ACSAPIService.metadata r)) /\
       (exists record,
          zipData !! zip p = Some record /\
          pointLat p = lat record /\ pointLng p = lng record) /\
       hasEducation p || hasIncome p = true /\
       markerType p = (if hasEducation p && hasIncome p then "both"
                       else if hasEducation p then "education" else "income")%string)
    (prepareDataPoints zipData acsData).
Proof.
  unfold prepareDataPoints.
  set (good := fun (seen : list (string * ACSAPIService.Found)) (p : DataPoint) =>
    (exists r,
       In (zip p, ACSAPIService.payload r) seen /\
       hasEducation p = ACSAPIService.hasEducation (ACSAPIService.metadata r) /\
       hasIncome p = ACSAPIService.hasIncome (ACSAPIService.metadata r)) /\
    (exists record,
       zipData !! zip p = Some record /\
       pointLat p = lat record /\ pointLng p = lng record) /\
    hasEducation p || hasIncome p = true /\
    markerType p = (if hasEducation p && hasIncome p then "both"
                    else if hasEducation p then "education" else "income")%string).
  assert (H : forall rest seen points,
            Forall (good seen) points ->
            Forall (good (seen ++ rest)) (fold_left (prepare zipData) rest points)).
  { induction rest as [|[z found] rest IH]; intros seen points Hp; simpl.
    - now rewrite app_nil_r.
    - replace (seen ++ (z, found) :: rest) with ((seen ++ [(z, found)]) ++ rest)
        by now rewrite <- app_assoc.
      apply IH.
      assert (Hold : Forall (good (seen ++ [(z, found)])) points).
      { revert Hp. apply List.Forall_impl. intros p ((r & Hin & Hflags) & Hrest).
        split; [|exact Hrest]. exists r. split; [|exact Hflags].
        apply in_or_app. now left. }
      destruct (zipData !! z) as [record|] eqn:Ez; [|exact Hold].
      destruct found as [p|e]; [|exact Hold].
      destruct (negb (ACSAPIService.hasEducation (ACSAPIService.metadata p))
                && negb (ACSAPIService.hasIncome (ACSAPIService.metadata p))) eqn:Ef;
        [exact Hold|].
      apply Forall_app. split; [exact Hold|]. constructor; [|constructor].
      unfold good. cbn [zip pointLat pointLng hasEducation hasIncome markerType].
      split; [exists p; split; [apply in_or_app; right; now left|now split]|].
      split; [exists record; now repeat split|].
      split; [|reflexivity].
      destruct (ACSAPIService.hasEducation (ACSAPIService.metadata p)),
        (ACSAPIService.hasIncome (ACSAPIService.metadata p)); simpl in *; congruence. }
  apply (H acsData [] []). constructor.
Qed.

End MarkerFacts.

(** X26.  Every marker [visualizeCombinedData] puts on the map stands for a
    payload of the fetched data (a wrapper object of the memory cache gets
    no marker) whose ZIP code the index knows; it stands at the position the
    index gives, which has neither a zero nor a NaN coordinate.  The marker
    is filed under its own ZIP code, no ZIP code has two markers, and its
    data carries the two flags of the payload, of which at least one holds,
    and names the layer of these flags, a layer that is switched on at the
    start. *)
Theorem created_markers_are_well_formed (zipData : gmap string Visualizer.ZipRecord)
    (acsData : list (string * ACSAPIService.Found)) :
  let markers := Visualizer.visualizeCombinedData zipData acsData in
  List.NoDup (map fst markers) /\
  Forall
    (fun entry =>
       let marker := snd entry in
       MapMarker.zip marker = fst entry /\
       (exists record,
          zipData !! fst entry = Some record /\
          MapMarker.latlng marker
          = Point.make (Visualizer.lat record) (Visualizer.lng record)) /\
       JS.truthyF (Point.lat (MapMarker.latlng marker)) = true /\
       JS.truthyF (Point.lng (MapMarker.latlng marker)) = true /\
       exists data,
         MapMarker.data marker = Some data /\
         (exists r,
            In (fst entry, ACSAPIService.payload r) acsData /\
            MarkerData.hasEducation data
            = ACSAPIService.hasEducation (ACSAPIService.metadata r) /\
            MarkerData.hasIncome data
            = ACSAPIService.hasIncome (ACSAPIService.metadata r)) /\
         MarkerData.hasEducation data || MarkerData.hasIncome data = true /\
         MarkerData.markerType data
         = (if MarkerData.hasEducation data && MarkerData.hasIncome data then "both"
            else if MarkerData.hasEducation data then "education"
                 else "income")%string /\
         Layers.shown Layers.initialVisibility marker = true)
    markers.
Proof.
  intros markers. subst markers. unfold Visualizer.visualizeCombinedData.
  pose proof (MarkerFacts.prepareDataPoints_points zipData acsData) as Hpoints.
  set (points := Visualizer.prepareDataPoints zipData acsData) in *.
  clearbody points.
  match goal with |- context [fold_left ?f points []] => set (step := f) end.
  match goal with |- _ /\ Forall ?P _ => set (good := P) end.
  assert (H : forall markers,
            List.NoDup (map fst markers) -> Forall good markers ->
            List.NoDup (map fst (fold_left step points markers)) /\
            Forall good (fold_left step points markers)).
  { induction Hpoints as [|p points Hp Hrest IH]; intros markers Hnd Hgood;
      [now split|].
    cbn [fold_left]. apply IH; subst step; cbv beta.
    - destruct (Visualizer.createMarker p); [|exact Hnd].
      now apply MapFacts.mapSet_NoDup; [apply MapFacts.string_eqb_eq|].
    - destruct (Visualizer.createMarker p) as [marker|] eqn:Ec; [|exact Hgood].
      apply RingFacts.mapSet_Forall; [|exact Hgood].
      unfold Visualizer.createMarker in Ec.
      destruct (JS.truthyF (Visualizer.pointLat p)) eqn:Elat; [|discriminate].
      destruct (JS.truthyF (Visualizer.pointLng p)) eqn:Elng; [|discriminate].
      cbn [negb orb] in Ec. injection Ec as <-.
      destruct Hp as (Hin & (record & Hz & Hlat & Hlng) & Hflag & Htype).
      unfold good. cbn [fst snd MapMarker.zip MapMarker.latlng MapMarker.data
        Point.lat Point.lng].
      split; [reflexivity|].
      split; [exists record; split; [exact Hz|now rewrite Hlat, Hlng]|].
      split; [exact Elat|]. split; [exact Elng|].
      eexists. split; [reflexivity|].
      cbn [MarkerData.hasEducation MarkerData.hasIncome MarkerData.markerType].
      split; [exact Hin|]. split; [exact Hflag|]. split; [exact Htype|].
      unfold Layers.shown.
      cbn [MapMarker.data MarkerData.markerType]. rewrite Htype.
      destruct (Visualizer.hasEducation p), (Visualizer.hasIncome p);
        cbn [andb]; reflexivity. }
  apply H; constructor.
Qed.

(** A payload with a criterion gets its marker; the wrapper object of the
    same payload gets none. *)
Example wrapper_object_gets_no_marker :
  map fst
    (Visualizer.visualizeCombinedData Atlas.grandIsland
       [("68801"%string, ACSAPIService.payload Service.samplePayload)])
  = ["68801"%string] /\
  Visualizer.visualizeCombinedData Atlas.grandIsland
    [("68801"%string,
      ACSAPIService.wrapped {| ACSAPIService.memData := Service.samplePayload;
                               ACSAPIService.timestamp := 0 |})]
  = [].
Proof. vm_compute. split; reflexivity. Qed.

Module SessionFacts.

Import RingVisualizer.

Lemma mapSet_fresh {V : Type} (k : Z * nat) (v : V) (m : list ((Z * nat) * V)) :
  ~ In k (map fst m) -> JS.mapSet idEqb k v m = m ++ [(k, v)].
Proof.
  induction m as [|[j w] m IH]; simpl; intros Hin; [reflexivity|].
  destruct (idEqb k j) eqn:E.
  - apply RemoveFacts.idEqb_eq in E. subst. exfalso. apply Hin. now left.
  - rewrite IH; [reflexivity|]. intros H. apply Hin. now right.
Qed.

Lemma mapDelete_keys {V : Type} (k : Z * nat) (m : list ((Z * nat) * V)) :
  List.NoDup (map fst m) ->
  map fst (JS.mapDelete idEqb k m) = spliceFirst k (map fst m).
Proof.
  unfold JS.mapDelete. induction m as [|[j w] m IH]; simpl; intros Hnd; [reflexivity|].
  inversion Hnd as [|? ? Hj Hrest]; subst.
  destruct (idEqb k j) eqn:E.
  - apply RemoveFacts.idEqb_eq in E. subst j.
    rewrite (proj2 (RemoveFacts.idEqb_eq k k) eq_refl). cbn [negb].
    fold (JS.mapDelete idEqb k m). f_equal.
    apply RemoveFacts.mapDelete_absent.
    now apply (MapFacts.mapGet_None idEqb RemoveFacts.idEqb_eq).
  - assert (Ej : idEqb j k = false).
    { destruct (idEqb j k) eqn:E'; [|reflexivity].
      apply RemoveFacts.idEqb_eq in E'. subst.
      rewrite (proj2 (RemoveFacts.idEqb_eq k k) eq_refl) in E. discriminate. }
    rewrite Ej. simpl. now rewrite IH.
Qed.

Lemma filter_NoDup_keys {V : Type} (f : (Z * nat) * V -> bool)
    (m : list ((Z * nat) * V)) :
  List.NoDup (map fst m) -> List.NoDup (map fst (List.filter f m)).
Proof.
  induction m as [|kv m IH]; simpl; intros Hnd; [constructor|].
  inversion Hnd as [|? ? Hk Hrest]; subst.
  destruct (f kv); simpl; [|now apply IH].
  constructor; [|now apply IH].
  intros Hin. apply Hk. apply in_map_iff in Hin as (kv' & Hfst & Hin).
  apply filter_In in Hin as [Hin _]. apply in_map_iff. now exists kv'.
Qed.

Lemma filter_Forall {A : Type} (P : A -> Prop) (f : A -> bool) (l : list A) :
  Forall P l -> Forall P (List.filter f l).
Proof.
  induction 1 as [|x l Hx Hl IH]; simpl; [constructor|].
  destruct (f x); [now constructor|exact IH].
Qed.

Lemma ordered_finishDrawing (M : JS.MathImpl) (now : Z) (r : float) (st : State) :
  Session.ordered st -> Session.ordered (fst (finishDrawing M now r st)).
Proof.
  intros (Horder & Hnd & Hid & Hcount). unfold finishDrawing.
  destruct (startPoint st) as [center|]; [|now repeat split].
  destruct (isDrawing st && tempCircle st); [|now repeat split].
  cbn [fst]. unfold Session.ordered.
  cbn [cancelDrawing rings ringCreationOrder ringCounter buildRing id].
  assert (Hfresh : ~ In (now, ringCounter st) (map fst (rings st))).
  { intros Hin. apply in_map_iff in Hin as ([k v] & Hk & Hin). simpl in Hk. subst k.
    pose proof (proj1 (List.Forall_forall _ _) Hcount _ Hin) as Hlt.
    simpl in Hlt. lia. }
  rewrite (mapSet_fresh _ _ _ Hfresh), map_app, Horder. cbn [map fst].
  split; [reflexivity|]. split; [|split].
  - apply NoDup_app_remove_l with (l := []). simpl.
    apply (Permutation_NoDup (l := (now, ringCounter st) :: map fst (rings st))).
    + apply Permutation_cons_append.
    + now constructor.
  - apply Forall_app. split; [exact Hid|]. constructor; [reflexivity|constructor].
  - apply Forall_app. split.
    + revert Hcount. apply List.Forall_impl. intros kv H. lia.
    + constructor; [simpl; lia|constructor].
Qed.

Lemma ordered_removeRing (ringId : Z * nat) (st : State) :
  Session.ordered st -> Session.ordered (removeRing ringId st).
Proof.
  intros (Horder & Hnd & Hid & Hcount). unfold removeRing.
  destruct (JS.mapGet idEqb ringId (rings st)); [|now repeat split].
  unfold Session.ordered. cbn [rings ringCreationOrder ringCounter].
  split; [now rewrite Horder, mapDelete_keys|]. split; [|split].
  - now apply filter_NoDup_keys.
  - now apply filter_Forall.
  - now apply filter_Forall.
Qed.

End SessionFacts.

(** X27.  In a session that starts without saved rings, whatever rings are
    drawn, removed and cleared, the creation order lists the ids of the ring
    Map in the order of the Map, no id is listed twice, and every ring is
    stored under its own id. *)
Theorem creation_order_follows_the_ring_map (st : RingVisualizer.State) :
  Session.reachable st ->
  RingVisualizer.ringCreationOrder st = map fst (RingVisualizer.rings st) /\
  List.NoDup (RingVisualizer.ringCreationOrder st) /\
  Forall (fun kv => RingVisualizer.id (snd kv) = fst kv) (RingVisualizer.rings st) /\
  (forall ringId,
     In ringId (RingVisualizer.ringCreationOrder st) <->
     JS.mapGet RingVisualizer.idEqb ringId (RingVisualizer.rings st) <> None).
Proof.
  intros Hreach.
  assert (H : Session.ordered st).
  { induction Hreach as [markers|markers st _ IH|p st _ IH|st _ IH|M now r st _ IH
                         |ringId st _ IH|st _ IH].
    - repeat split; constructor.
    - exact IH.
    - unfold RingVisualizer.startDrawing.
      destruct (RingVisualizer.drawingLock st || RingVisualizer.isDrawing st);
        exact IH.
    - exact IH.
    - now apply SessionFacts.ordered_finishDrawing.
    - now apply SessionFacts.ordered_removeRing.
    - repeat split; constructor. }
  destruct H as (Horder & Hnd & Hid & _).
  split; [exact Horder|]. split; [now rewrite Horder|]. split; [exact Hid|].
  intros ringId. rewrite Horder.
  rewrite (MapFacts.mapGet_None RingVisualizer.idEqb RemoveFacts.idEqb_eq).
  split; [tauto|]. intros H.
  destruct (in_dec (fun a b : Z * nat =>
                      match Z.eq_dec (fst a) (fst b), Nat.eq_dec (snd a) (snd b) with
                      | left Ha, left Hb =>
                          left (eq_trans (surjective_pairing a)
                                  (eq_trans (f_equal2 pair Ha Hb)
                                     (eq_sym (surjective_pairing b))))
                      | right Hn, _ => right (fun Heq => Hn (f_equal fst Heq))
                      | _, right Hn => right (fun Heq => Hn (f_equal snd Heq))
                      end)
             ringId (map fst (RingVisualizer.rings st))) as [Hin|Hout];
    [exact Hin|contradiction].
Qed.

Lemma creation_order_follows_the_ring_map_witness :
  let st :=
    fst (RingVisualizer.finishDrawing Examples.smallAngle 1700000000000 8000
           (RingVisualizer.startDrawing Examples.origin
              (Session.initial Examples.threeOnMap))) in
  RingVisualizer.ringCreationOrder st = [(1700000000000%Z, 0%nat)] /\
  RingVisualizer.ringCreationOrder st = map fst (RingVisualizer.rings st).
Proof.
  intros st. split; [reflexivity|].
  apply (creation_order_follows_the_ring_map st).
  apply Session.reachable_finishDrawing, Session.reachable_startDrawing,
    Session.reachable_initial.
Defined.

(* ------------------------------------------------------------------------- *)
(** ** The number of requests                                                 *)
(* ------------------------------------------------------------------------- *)

Module QuotaFacts.

Import ACSAPIService.

Lemma within_refl (st : State) : Quota.within 0 st st.
Proof. exists []. rewrite app_nil_r. simpl. repeat split; lia. Qed.

Lemma within_trans (n m : nat) (st1 st2 st3 : State) :
  Quota.within n st1 st2 -> Quota.within m st2 st3 -> Quota.within (n + m) st1 st3.
Proof.
  intros (s1 & H1 & L1 & C1) (s2 & H2 & L2 & C2). exists (s1 ++ s2).
  rewrite H2, H1, <- app_assoc, length_app. repeat split; lia.
Qed.

Lemma within_weaken (n m : nat) (st st' : State) :
  (n <= m)%nat -> Quota.within n st st' -> Quota.within m st st'.
Proof. intros Hnm (s & H & L & C). exists s. repeat split; [assumption|lia|assumption]. Qed.

Lemma fallback_within (E : Env) (retriesLeft : nat) (zipCodes : list string) :
  forall st,
    Quota.within (S retriesLeft) st (fst (fetchWithCorsFallback E retriesLeft zipCodes st)).
Proof.
  induction retriesLeft as [|r IH]; intros st; cbn [fetchWithCorsFallback];
    destruct (http E _ _ zipCodes).
  1, 2, 3: exists [(currentProxyIndex st, zipCodes)]; cbn; repeat split; lia.
  match goal with |- context [fetchWithCorsFallback E r zipCodes ?s] =>
    specialize (IH s); set (st2 := s) in * end.
  apply (within_trans 1 (S r) st st2); [|exact IH].
  exists [(currentProxyIndex st, zipCodes)]. subst st2. cbn. repeat split; lia.
Qed.

Lemma small_batch_within (fuel : nat) (E : Env) (now : Z) (batch : list string)
    (st st' : State) (outcome : Outcome (gmap string Payload)) :
  (length batch <= 5)%nat ->
  fetchBatchFromAPI_fuel fuel E now batch st = Some (st', outcome) ->
  Quota.within 3 st st'.
Proof.
  intros Hlen. destruct fuel as [|fuel]; [discriminate|].
  destruct batch as [|z rest].
  { intros [= <- <-]. apply (within_weaken 0); [lia|apply within_refl]. }
  rewrite FetchFacts.fetchBatchFromAPI_fuel_eq by discriminate.
  replace (5 <? length (z :: rest))%nat with false by (symmetry; apply Nat.ltb_ge; lia).
  pose proof (fallback_within E (proxyCount - 1) (z :: rest) st) as Hw.
  destruct (fetchWithCorsFallback E (proxyCount - 1) (z :: rest) st)
    as [st1 [body| |]]; cbn [fst snd] in *; cbv zeta.
  - destruct (parseResponse E now body (z :: rest)); now intros [= <- <-].
  - now intros [= <- <-].
  - now intros [= <- <-].
Qed.

Lemma eachSmallBatch_within
    (call : list string -> State -> option (State * Outcome (gmap string Payload)))
    (smallerBatches : list (list string)) :
  (forall small st st' outcome,
     In small smallerBatches -> call small st = Some (st', outcome) ->
     Quota.within 3 st st') ->
  forall st results st' outcome,
    eachSmallBatch call smallerBatches st results = Some (st', outcome) ->
    Quota.within (3 * length smallerBatches) st st'.
Proof.
  induction smallerBatches as [|small rest IH]; intros Hcall st results st' outcome.
  - simpl. intros [= <- <-]. apply within_refl.
  - cbn [eachSmallBatch].
    destruct (call small st) as [[st1 [smallResult| |]]|] eqn:Ecall; try discriminate.
    + intros Hrun.
      apply (within_weaken (3 + 3 * length rest)); [simpl; lia|].
      apply (within_trans 3 _ st st1);
        [apply (Hcall small st st1 _ (or_introl eq_refl) Ecall)|].
      apply (IH (fun s a b c Hin => Hcall s a b c (or_intror Hin)) _ _ _ _ Hrun).
    + intros Hrun.
      apply (within_weaken (3 + 3 * length rest)); [simpl; lia|].
      apply (within_trans 3 _ st st1);
        [apply (Hcall small st st1 _ (or_introl eq_refl) Ecall)|].
      apply (IH (fun s a b c Hin => Hcall s a b c (or_intror Hin)) _ _ _ _ Hrun).
    + intros [= <- <-].
      apply (within_weaken 3); [simpl; lia|].
      apply (Hcall small st st1 _ (or_introl eq_refl) Ecall).
Qed.

Lemma batch_within (E : Env) (now : Z) (batch : list string) (st st' : State)
    (outcome : Outcome (gmap string Payload)) :
  fetchBatchFromAPI E now batch st = Some (st', outcome) ->
  Quota.within (3 + 3 * length (chunkArray batch 5)) st st'.
Proof.
  unfold fetchBatchFromAPI.
  destruct batch as [|z rest].
  { intros [= <- <-]. apply (within_weaken 0); [lia|apply within_refl]. }
  set (batch := z :: rest).
  rewrite FetchFacts.fetchBatchFromAPI_fuel_eq by discriminate.
  pose proof (fallback_within E (proxyCount - 1) batch st) as Hw.
  destruct (fetchWithCorsFallback E (proxyCount - 1) batch st) as [st1 fetched].
  cbn [fst snd] in *. cbv zeta.
  assert (Hcaught :
    (if (5 <? length batch)%nat
     then eachSmallBatch (fetchBatchFromAPI_fuel (length batch) E now)
            (chunkArray batch 5) st1 ∅
     else Some (st1, Rejected)) = Some (st', outcome) ->
    Quota.within (3 + 3 * length (chunkArray batch 5)) st st').
  { destruct (5 <? length batch)%nat.
    - intros Hrun. apply (within_trans 3 _ st st1); [exact Hw|].
      refine (eachSmallBatch_within _ _ _ _ _ _ _ Hrun).
      intros small s s' o Hin Hcall.
      apply (small_batch_within (length batch) E now small s s' o); [|exact Hcall].
      pose proof (ChunkFacts.chunkArray_sizes 5 batch ltac:(lia)) as Hsizes.
      apply (proj1 (List.Forall_forall _ _) Hsizes) in Hin. lia.
    - intros [= <- <-]. apply (within_weaken 3); [lia|exact Hw]. }
  destruct fetched as [body| |]; [|exact Hcaught|].
  - destruct (parseResponse E now body batch); [|exact Hcaught].
    intros [= <- <-]. apply (within_weaken 3); [lia|exact Hw].
  - intros [= <- <-]. apply (within_weaken 3); [lia|exact Hw].
Qed.

(** The chunks of an array, counted. *)
Lemma chunkArray_count {A : Type} (array : list A) (size : nat) :
  (0 < size)%nat ->
  length (chunkArray array size)
  = (length array / size + (if (length array mod size =? 0)%nat then 0 else 1))%nat.
Proof.
  intros Hs. rewrite <- (length_map (@length A)).
  unfold chunkArray. rewrite ChunkFacts.chunkFrom_lengths.
  rewrite (ClientFacts.sizesFrom_shape size Hs _ _ (Nat.le_refl _)).
  rewrite length_app, repeat_length.
  now destruct (length array mod size =? 0)%nat.
Qed.

Lemma eachBatch_within (E : Env) (now : Z) (batches : list (list string)) :
  Forall (fun batch => (length batch <= batchSize)%nat) batches ->
  forall st results st' outcome,
    eachBatch E now batches st results = Some (st', outcome) ->
    Quota.within (21 * length batches) st st'.
Proof.
  induction 1 as [|batch rest Hbatch Hrest IH]; intros st results st' outcome.
  - simpl. intros [= <- <-]. apply within_refl.
  - cbn [eachBatch].
    destruct (fetchBatchFromAPI E now batch st) as [[st1 o]|] eqn:Ecall;
      [|discriminate].
    assert (H21 : Quota.within 21 st st1).
    { apply (within_weaken (3 + 3 * length (chunkArray batch 5)));
        [|exact (batch_within E now batch st st1 o Ecall)].
      rewrite (chunkArray_count batch 5) by lia.
      unfold batchSize in Hbatch.
      assert (length batch / 5 <= 6)%nat by (apply Nat.Div0.div_le_upper_bound; lia).
      destruct (length batch mod 5 =? 0)%nat eqn:Em; [lia|].
      assert (length batch / 5 <> 6)%nat; [|lia].
      intros H6. apply Nat.eqb_neq in Em.
      pose proof (Nat.div_mod_eq (length batch) 5). lia. }
    destruct o as [batchData| |].
    + intros Hrun. apply (within_weaken (21 + 21 * length rest)); [simpl; lia|].
      apply (within_trans 21 _ st (cacheAll now batchData st1)).
      * destruct H21 as (sent & Hreq & Hlen & Hcalls).
        destruct (BatchFacts.cacheAll_frame now batchData st1) as (Hr & Hs & _).
        exists sent. rewrite Hr, Hs. repeat split; assumption.
      * exact (IH _ _ _ _ Hrun).
    + intros Hrun. apply (within_weaken (21 + 21 * length rest)); [simpl; lia|].
      apply (within_trans 21 _ st st1); [exact H21|exact (IH _ _ _ _ Hrun)].
    + intros [= <- <-]. apply (within_weaken 21); [simpl; lia|exact H21].
Qed.

End QuotaFacts.

(** X28.  The number of requests is bounded: [fetchBatchFromAPI] sends at
    most 3 requests for a batch and 3 for each of its sub-batches of 5, and
    [fetchMissingData] at most 21 for each batch of 30 ZIP codes, that is at
    most [21 * ceil (n / 30)] for [n] ZIP codes, whatever the network does.
    Every request sent is counted in [stats.apiCalls], and nothing else
    is. *)
Theorem requests_are_bounded (E : ACSAPIService.Env) (now : Z)
    (zipCodes : list string) (st : ACSAPIService.State) :
  (forall st' outcome,
     ACSAPIService.fetchBatchFromAPI E now zipCodes st = Some (st', outcome) ->
     exists sent,
       ACSAPIService.requests st' = ACSAPIService.requests st ++ sent /\
       (length sent <= 3 + 3 * length (ACSAPIService.chunkArray zipCodes 5))%nat /\
       ACSAPIService.apiCalls (ACSAPIService.stats st')
       = (ACSAPIService.apiCalls (ACSAPIService.stats st) + length sent)%nat) /\
  exists st' found sent,
    ACSAPIService.fetchMissingData E now zipCodes st
    = Some (st', ACSAPIService.Fulfilled found) /\
    ACSAPIService.requests st' = ACSAPIService.requests st ++ sent /\
    (length sent
     <= 21 * (length zipCodes / 30
              + (if (length zipCodes mod 30 =? 0)%nat then 0 else 1)))%nat /\
    ACSAPIService.apiCalls (ACSAPIService.stats st')
    = (ACSAPIService.apiCalls (ACSAPIService.stats st) + length sent)%nat.
Proof.
  split.
  - intros st' outcome Hrun. exact (QuotaFacts.batch_within E now _ _ _ _ Hrun).
  - unfold ACSAPIService.fetchMissingData.
    destruct (length zipCodes =? 0)%nat eqn:E0.
    + exists st, ∅, []. rewrite app_nil_r. simpl. repeat split; lia.
    + pose proof (ChunkFacts.chunkArray_sizes ACSAPIService.batchSize zipCodes
                    ltac:(unfold ACSAPIService.batchSize; lia)) as Hsizes.
      assert (Hle : Forall (fun batch => (length batch <= ACSAPIService.batchSize)%nat)
                      (ACSAPIService.chunkArray zipCodes ACSAPIService.batchSize))
        by (revert Hsizes; apply List.Forall_impl; intros b Hb; lia).
      destruct (BatchFacts.eachBatch_settles E now _ Hle st ∅)
        as (st' & found & Hrun & _).
      destruct (QuotaFacts.eachBatch_within E now _ Hle _ _ _ _ Hrun)
        as (sent & Hreq & Hlen & Hcalls).
      exists st', found, sent. split; [exact Hrun|]. split; [exact Hreq|].
      split; [|exact Hcalls].
      rewrite (QuotaFacts.chunkArray_count zipCodes ACSAPIService.batchSize) in Hlen
        by (unfold ACSAPIService.batchSize; lia).
      exact Hlen.
Qed.

(** 35 ZIP codes against the API that fails every request for more than 5
    ZIP codes: 12 requests are sent, within the bound of 42. *)
Example thirty_five_zip_codes_within_the_bound :
  option_map (fun result => length (ACSAPIService.requests (fst result)))
    (ACSAPIService.fetchMissingData Upstream.flaky 0 (Upstream.zips 35)
       Service.withStore)
  = Some 12%nat.
Proof. vm_compute. reflexivity. Qed.
